(* ===== verification/_CoqProject ===== *)
-Q . S2P
Prelude.v
CLib.v
GLib.v
SockAddr.v
NetworkAddress.v
ServerUri.v
ServerTable.v
ServerJson.v
ServerParse.v
ConfigData.v
ConfigFile.v
ConfigDocument.v
World.v
UnboundSelect.v
FsmContext.v
UnboundConf.v
UnboundControl.v
ResolvConf.v
Service.v
Fsm.v
DbusServer.v
Daemon.v
Liveness.v
Client.v
EndToEnd.v
Options.v
Config.v
Logging.v
CliConfig.v
Main.v
