(* ===== verification/Prelude.v ===== *)
(** * Verification of dnsconfd

    dnsconfd is a daemon that configures a local caching resolver (Unbound).  A
    client (NetworkManager or [dnsconfd update]) hands it name servers over
    D-Bus; the daemon writes Unbound's configuration, asks a systemd unit to
    start it, points resolv.conf at it and keeps the forward zones of the running
    cache equal to the servers in use.  This library models the C sources under
    src/src and proves what each part promises to the others.

    ** Parts, and how they call each other

    - Prelude.v: machine integers, notations, hint databases, shared lemmas.
    - CLib.v, GLib.v: the functions of the C library and of GLib the program
      uses ([strtol], [strchr], [strsep], [printf] of numbers; [g_list_sort] as a
      class with its laws and insertion sort as an instance, iteration over a
      hash table in an order the environment chooses).
    - SockAddr.v (ip_utilities.c): addresses, over the class [Inet] of
      [inet_pton]/[inet_ntop] with the laws [InetLaws] and a reference instance.
    - NetworkAddress.v (types/network_address.c): CIDR text and reverse zones.
    - ServerUri.v, ServerTable.v, ServerJson.v, ServerParse.v (types/server_uri.c):
      the record of a server, the order of servers, the table from domains to
      servers, the JSON parser and printer, and the parser of URIs over the class
      [UriParser] (liburiparser) with its laws and a reference instance.
    - ConfigData.v (dnsconfd_config.h): the configuration and the exit codes.
    - ConfigFile.v, ConfigDocument.v (configuration_parsing/config_file.c): the
      parser of YAML events and the included files, over the class [ConfigFiles]
      (what libyaml, [stat] and [glob] answer); what documents mean.
    - World.v: files, the trace of visible actions and the environment that
      decides which system calls fail; the monad of the effectful code, its
      weakest-precondition rules and tactics.
    - UnboundSelect.v, UnboundConf.v, UnboundControl.v
      (dns_managers/unbound_manager.c): the servers in use and the CA bundle, the
      text of unbound.conf, and the commands that update the running cache.  What
      a command does to the forwards and the insecure domains of Unbound is the
      class [Resolver] with its laws and a reference instance.
    - ResolvConf.v (unbound_manager.c, fsm.c): writing and restoring resolv.conf.
    - Service.v (service_management.c): the control and status files.
    - FsmContext.v, Fsm.v (fsm/fsm.c): the context, the actions, the transitions
      and the loop of the state machine.
    - DbusServer.v, Daemon.v (dbus_server.c): the parser of updates, the handlers
      of the bus and of SIGTERM, and the life of the daemon as a sequence of
      events in any order ([daemon_reaches]).
    - Liveness.v: what the daemon achieves when no call fails and the service of
      the cache reports itself ready.
    - Client.v (update_command.c, cli_update.c): the update command, from its
      arguments to the serial it waits for; EndToEnd.v: the command and the daemon
      together.
    - Options.v, Config.v (configuration_parsing/*.c): the parsers of the options,
      over the class [Argp]; environment, merge and defaults.
    - Logging.v (log_utilities.c), CliConfig.v (cli_commands/cli_config.c): the
      sinks of a message; the config command on a file system with links.
    - Main.v (main.c, cli_status.c, cli_reload.c, cli_common.c): the commands, the
      run of the daemon until its loop ends ([dbus_server_run]) and [main].

    A definition has the name of the C function it translates.  A function that
    mutates a structure returns the new one; a loop of a function is a Fixpoint
    next to it.  An effectful function is in the monad [M]: it takes an
    environment and a world and gives a result and a world, or [None] - a fault:
    a null pointer dereferenced, an uninitialised buffer read.  That a handler of
    the daemon never faults is therefore a theorem, not a convention.  The client
    has no monad; where its behaviour is undefined a function gives [None], or
    [MainCrashes] in the end.

    ** What is shown

    - Daemon: in every context it can reach, every event is handled to its end,
      and the record a running daemon keeps of what it gave the cache is the
      servers in use, and it announces the serial requested last
      ([daemon_invariant], [daemon_progress]) - the record, not the cache: after
      two reloads they can differ ([stale_forwards]); an update is refused whole or
      handed over whole ([update_call_correct], [parse_server_spec]);
      [dnsconfd status] prints the context ([status_printed]).
      When the system cooperates the daemon comes up, and comes up again after an
      update, unless the CA that is written and the CA that is compared differ -
      then it restarts the cache for ever ([start_liveness], [update_liveness]).
    - State machine: a transition ends within six iterations, in a state that the
      graph [life_next] allows ([state_transition_sound]); stopping restores
      resolv.conf ([stop_restores]); serials ([serial_after]).
    - Unbound manager: unbound.conf has the specified text
      ([write_configuration_correct]); the commands of an update bring the forwards
      of the cache from the old table to the new one and change its insecure
      domains as told ([update_refines], [update_idempotent]); the selection of
      servers and of the CA bundle.
    - resolv.conf: contents and round trip ([write_resolv_conf_correct],
      [resolv_conf_restored]).  Service: the handshake over the two files.
    - Program: whatever it is started with, [main] ends with a documented status
      or starts the daemon on a configuration the daemon's theorems assume, or its
      behaviour is undefined, exactly in the three cases of [main_sound]
      ([configuration_sound]); each option has the value of the first source that
      sets it ([configuration_precedence]).
    - Configuration files: reading them ends without a fault
      ([config_file_sound]), documents are read as what they mean
      ([config_document]), included files are read generation by generation
      ([includes_in_order]), at most 1000 of them ([include_cycle_refused]).
    - Client: the servers of the command line reach the daemon
      ([uris_reach_daemon]), what the user is told ([cli_update_exit],
      [update_session_correct]: a signal that comes while the command waits is
      undefined behaviour, which its handler computes to [None]), the config
      command ([config_install_correct], [config_command_frame]).
    - Data: URIs ([uri_roundtrip], [uri_init_outcome]), order and table of
      servers, overflow of priorities, reverse zones and their buffer, round trip
      of the JSON of a server.

    The loop of a transition has fuel 6 ([transition_fuel]); [rank] bounds the
    iterations left by 6 in every state, so the fuel is never used up
    ([wp_transition_loop]).  Priorities and ports are [Z] with their ranges in
    [server_wf]; the wrap-around of the serial is written out, and what an [int]
    subtraction that overflows gives, which C leaves undefined, is the parameter
    [IntOverflow] of every theorem that depends on it: some value, the program
    goes on.  The loops over YAML events have the number of events as fuel, and
    the loop over the files the limit of the code, 1000; links are followed 40
    times.

    ** What is not modelled

    Failure of [malloc] (the program gives up or stops in most places), freeing,
    the messages that are logged (Logging.v has where they go), the registration
    on the bus, and the code of GLib, argp, jansson, libyaml, liburiparser,
    libidn2 and the C library beyond the interfaces above.  The main loop is the
    inductive relation [daemon_reaches]; the environment may change files between
    any two events.

    ** Plan

    Still to come: the life of the daemon with several clients that update and
    reload it in turn, and which of them are told that they succeeded. *)

From Stdlib Require Export Ascii.
From stdpp Require Export base tactics list strings gmap numbers sorting pretty.

(** ** Scope, notations and hint databases *)

Declare Scope dnsconfd_scope.
Delimit Scope dnsconfd_scope with dnsconfd.
Open Scope dnsconfd_scope.

(** [a ==s b] is [strcmp(a, b) == 0]. *)
Notation "a ==s b" := (bool_decide ((a : string) = (b : string)))
  (at level 70, no associativity) : dnsconfd_scope.

Create HintDb dnsconfd discriminated.
Create Rewrite HintDb strings.
#[export] Hint Constants Opaque : dnsconfd.
#[export] Hint Variables Opaque : dnsconfd.

(** ** Machine integers of the C program (LP64) *)

Definition INT_MIN : Z := -2147483648.
Definition INT_MAX : Z := 2147483647.
Definition LONG_MIN : Z := -9223372036854775808.
Definition LONG_MAX : Z := 9223372036854775807.
Definition UINT_MOD : Z := 4294967296.

(** The value of a 32-bit two's complement [int] holding [z] modulo 2^32. *)
Definition int_wrap (z : Z) : Z := (z - INT_MIN) `mod` UINT_MOD + INT_MIN.

(** The value of an [unsigned int] holding [z] modulo 2^32. *)
Definition uint_wrap (z : Z) : Z := z `mod` UINT_MOD.

Definition in_int (z : Z) : Prop := (INT_MIN ≤ z ≤ INT_MAX)%Z.

(** Bytes and arrays of bytes. *)
Definition byte_ok (b : Z) : Prop := (0 ≤ b < 256)%Z.
Definition bytes_ok (n : nat) (bs : list Z) : Prop := length bs = n ∧ Forall byte_ok bs.

(** ** Results of functions that can fail or run into undefined behaviour *)

(** [Ok a]: status 0 with [a]; [Fail]: status -1; [Fault]: the C code
    dereferences a null pointer or writes out of bounds. *)
Inductive result (A : Type) : Type :=
| Ok (a : A)
| Fail
| Fault.
Arguments Ok {A} a.
Arguments Fail {A}.
Arguments Fault {A}.

#[export] Instance result_ret : MRet result := λ A, Ok.
#[export] Instance result_bind : MBind result := λ A B f r,
  match r with Ok a => f a | Fail => Fail | Fault => Fault end.

Definition result_of_option {A} (o : option A) : result A :=
  match o with Some a => Ok a | None => Fail end.

(** ** Tactics *)

(** Decide every [bool_decide] and [decide] of the goal. *)
Ltac decide_all :=
  repeat first [ case_bool_decide | case_decide ]; simplify_eq/=.

(** Split on the discriminees of the matches of hypothesis [H], dropping the
    impossible branches. *)
Ltac inv_matches H :=
  repeat (let H0 := fresh in
          match type of H with
          | context [match ?x with _ => _ end] =>
              destruct x eqn:H0; simplify_eq/=
          end).

(** Compare the keys that are literals. *)
Ltac eval_keys :=
  repeat match goal with
    | |- context [bool_decide (@eq string ?a ?b)] =>
        let v := eval vm_compute in (bool_decide (a = b)) in
        match v with
        | true => change (bool_decide (a = b)) with true
        | false => change (bool_decide (a = b)) with false
        end
    end.

(** ** Shared lemmas: integers *)

Lemma int_wrap_in_int z : in_int (int_wrap z).
Proof.
  unfold in_int, int_wrap, INT_MIN, INT_MAX, UINT_MOD.
  pose proof (Z.mod_pos_bound (z - -2147483648) 4294967296 ltac:(lia)). lia.
Qed.

Lemma int_wrap_id z : in_int z → int_wrap z = z.
Proof.
  unfold in_int, int_wrap, INT_MIN, INT_MAX, UINT_MOD. intros.
  rewrite Z.mod_small; lia.
Qed.

(** ** Shared lemmas: strings *)

Lemma string_app_nil_l s : "" +:+ s = s.
Proof. done. Qed.

Lemma string_app_cons c s1 s2 : String c s1 +:+ s2 = String c (s1 +:+ s2).
Proof. done. Qed.

Lemma string_app_nil_r s : s +:+ "" = s.
Proof. induction s as [|c s IH]; [done|]. by rewrite string_app_cons, IH. Qed.

Lemma string_app_assoc s1 s2 s3 : s1 +:+ (s2 +:+ s3) = (s1 +:+ s2) +:+ s3.
Proof. induction s1 as [|c s1 IH]; [done|]. by rewrite !string_app_cons, IH. Qed.

Lemma string_length_app s1 s2 :
  String.length (s1 +:+ s2) = String.length s1 + String.length s2.
Proof. induction s1 as [|c s1 IH]; [done|]. rewrite string_app_cons. simpl. by rewrite IH. Qed.

(** The characters of a string. *)
Fixpoint chars (s : string) : list ascii :=
  match s with EmptyString => [] | String c s' => c :: chars s' end.

Lemma chars_app s1 s2 : chars (s1 +:+ s2) = chars s1 ++ chars s2.
Proof. induction s1 as [|c s1 IH]; [done|]. rewrite string_app_cons. simpl. by rewrite IH. Qed.

Lemma chars_length s : length (chars s) = String.length s.
Proof. induction s; simpl; congruence. Qed.

#[export] Instance chars_inj : Inj (=) (=) chars.
Proof.
  intros s1. induction s1 as [|c s1 IH]; intros [|c' s2]; simpl; intros; simplify_eq; auto.
  f_equal. auto.
Qed.

#[export] Hint Rewrite string_app_nil_l string_app_cons string_app_nil_r
  string_length_app chars_app : strings.

(** ** Shared lemmas: bytes *)

(** A decidable property of bytes is checked by evaluating it on all of them. *)
Lemma byte_forall (P : Z → Prop) `{∀ b, Decision (P b)} :
  bool_decide (Forall P (seqZ 0 256)) = true → ∀ b, byte_ok b → P b.
Proof.
  intros HP b [? ?]. apply bool_decide_eq_true in HP. rewrite Forall_forall in HP.
  apply HP. apply elem_of_seqZ. lia.
Qed.

Lemma bytes_ok_cons n b bs : bytes_ok (S n) (b :: bs) ↔ byte_ok b ∧ bytes_ok n bs.
Proof. unfold bytes_ok. simpl. rewrite Forall_cons. naive_solver. Qed.

Lemma bytes_ok_replicate n : bytes_ok n (replicate n 0%Z).
Proof. split; [by rewrite length_replicate|]. by apply Forall_replicate. Qed.
#[export] Hint Resolve bytes_ok_replicate : dnsconfd.

(** Decide a property of all bytes by evaluation. *)
Ltac by_bytes :=
  match goal with
  | |- ∀ b, byte_ok b → @?P b => apply (byte_forall P); by vm_compute
  end.

(** The same for characters. *)
Lemma ascii_forall (P : ascii → Prop) `{∀ c, Decision (P c)} :
  bool_decide (Forall P (ascii_of_nat <$> seq 0 256)) = true → ∀ c, P c.
Proof.
  intros HP c. apply bool_decide_eq_true in HP. rewrite Forall_forall in HP. apply HP.
  apply list_elem_of_fmap. exists (nat_of_ascii c). split; [by rewrite ascii_nat_embedding|].
  apply elem_of_seq. pose proof (nat_ascii_bounded c). lia.
Qed.

(** Decide a property of all characters by evaluation. *)
Ltac by_chars :=
  match goal with
  | |- ∀ c, @?P c => apply (ascii_forall P); by vm_compute
  end.

Lemma elem_of_list_two {A} (x a b : A) : x ∈ [b; a] ↔ x = a ∨ x = b.
Proof. rewrite !elem_of_cons, elem_of_nil. tauto. Qed.

Lemma filter_none {A} (P : A → Prop) `{∀ x, Decision (P x)} l :
  (∀ x, x ∈ l → ¬ P x) → filter P l = [].
Proof.
  induction l as [|x l IH]; intros Hl; [done|].
  rewrite filter_cons, decide_False by (apply Hl; set_solver).
  apply IH. intros y Hy. apply Hl. set_solver.
Qed.

Lemma list_bind_nil {A B} (f : A → list B) l : (∀ x, x ∈ l → f x = []) → l ≫= f = [].
Proof.
  induction l as [|x l IH]; intros Hl; [done|]. simpl. rewrite Hl by set_solver.
  apply IH. intros y Hy. apply Hl. set_solver.
Qed.
