(* ===== verification/CLib.v ===== *)
(** * The C standard library functions the program uses on strings

    [strtol], [strcasecmp], [strchr], [strsep], the [%d] and [%x] conversions
    of [printf].  A C string is a [string] with no NUL character. *)

From S2P Require Import Prelude.

(** ** Definitions *)

Definition digit_value (c : ascii) : option Z :=
  let n := Z.of_N (N_of_ascii c) in
  if (48 <=? n)%Z && (n <=? 57)%Z then Some (n - 48)%Z else None.

Fixpoint skip_space (s : string) : string :=
  match s with
  | String c s' => if Ascii.is_space c then skip_space s' else s
  | EmptyString => EmptyString
  end.

(** Read decimal digits: the value accumulated, and the rest of the string. *)
Fixpoint strtol_digits (acc : Z) (s : string) : Z * string :=
  match s with
  | String c s' =>
      match digit_value c with
      | Some d => strtol_digits (acc * 10 + d)%Z s'
      | None => (acc, s)
      end
  | EmptyString => (acc, s)
  end.

Definition clamp_long (z : Z) : Z := Z.max LONG_MIN (Z.min LONG_MAX z).

(** [strtol(s, &end, 10)]: the value, saturated to [long], and what [end]
    points to; with no digits the value is 0 and [end] is [s]. *)
Definition strtol (s : string) : Z * string :=
  let '(neg, s2) :=
    match skip_space s with
    | String c r =>
        if decide (c = "-"%char) then (true, r)
        else if decide (c = "+"%char) then (false, r)
        else (false, String c r)
    | EmptyString => (false, EmptyString)
    end in
  match s2 with
  | String c _ =>
      match digit_value c with
      | Some _ =>
          let '(v, rest) := strtol_digits 0 s2 in
          (clamp_long (if neg : bool then - v else v)%Z, rest)
      | None => (0%Z, s)
      end
  | EmptyString => (0%Z, s)
  end.

(** [printf("%d", z)]. *)
Definition fmt_d (z : Z) : string := pretty z.

(** [printf("%x", z)] for a nibble. *)
Definition hex_digit (z : Z) : ascii :=
  ascii_of_N (Z.to_N (if z <? 10 then z + 48 else z + 87)%Z).
Definition fmt_x (z : Z) : string := String (hex_digit z) "".

Definition tolower (c : ascii) : ascii :=
  let n := N_of_ascii c in
  if ((65 <=? n) && (n <=? 90))%N then ascii_of_N (n + 32) else c.

Fixpoint string_lower (s : string) : string :=
  match s with
  | EmptyString => EmptyString
  | String c s' => String (tolower c) (string_lower s')
  end.

(** [strcasecmp(a, b) == 0]. *)
Definition strcasecmp_eq (a b : string) : bool := string_lower a ==s string_lower b.

(** [strchr(s, c)]: what precedes the first [c] and what follows it. *)
Fixpoint strchr (c : ascii) (s : string) : option (string * string) :=
  match s with
  | EmptyString => None
  | String c' s' =>
      if decide (c' = c) then Some (EmptyString, s')
      else '(b, a) ← strchr c s'; Some (String c' b, a)
  end.

(** The successive tokens [strsep(&s, c)] returns for a one-character delimiter. *)
Fixpoint strsep (c : ascii) (s : string) : list string :=
  match s with
  | EmptyString => [EmptyString]
  | String c' s' =>
      if decide (c' = c) then EmptyString :: strsep c s'
      else match strsep c s' with
           | [] => [String c' EmptyString]
           | t :: ts => String c' t :: ts
           end
  end.

(** The string whose tokens, separated by [sep], are [ts]. *)
Fixpoint string_join (sep : string) (ts : list string) : string :=
  match ts with
  | [] => ""
  | [t] => t
  | t :: ts' => t +:+ sep +:+ string_join sep ts'
  end.

(** [strstr(s, t) != NULL]. *)
Fixpoint strstr (s t : string) : bool :=
  String.prefix t s ||
  match s with EmptyString => false | String _ s' => strstr s' t end.

(** ** Properties *)

Lemma strtol_range s : (LONG_MIN ≤ (strtol s).1 ≤ LONG_MAX)%Z.
Proof.
  assert (∀ z, LONG_MIN ≤ clamp_long z ≤ LONG_MAX)%Z
    by (unfold clamp_long, LONG_MIN, LONG_MAX; lia).
  assert (LONG_MIN ≤ 0 ≤ LONG_MAX)%Z by (unfold LONG_MIN, LONG_MAX; lia).
  unfold strtol. repeat case_match; subst; simpl; auto.
Qed.

Lemma digit_value_pretty n : (n < 10)%N → digit_value (pretty_N_char n) = Some (Z.of_N n).
Proof.
  intros. assert (n = 0 ∨ n = 1 ∨ n = 2 ∨ n = 3 ∨ n = 4 ∨ n = 5 ∨ n = 6 ∨ n = 7
    ∨ n = 8 ∨ n = 9)%N by lia. naive_solver.
Qed.

Lemma strtol_digits_go x s :
  strtol_digits 0 (pretty_N_go x s) = strtol_digits (Z.of_N x) s.
Proof.
  revert s. induction (N.lt_wf_0 x) as [x _ IH]; intros s.
  assert (x = 0 ∨ 0 < x)%N as [->|?] by lia; [by rewrite pretty_N_go_0|].
  rewrite pretty_N_go_step, IH by (done || by apply N.div_lt).
  simpl. rewrite digit_value_pretty by (by apply N.mod_lt).
  f_equal. rewrite (N.div_mod x 10) at 3 by done. lia.
Qed.

Lemma pretty_N_go_head x s :
  (0 < x)%N → ∃ c s', pretty_N_go x s = String c s' ∧ is_Some (digit_value c).
Proof.
  revert s. induction (N.lt_wf_0 x) as [x _ IH]; intros s Hx.
  rewrite pretty_N_go_step by done.
  destruct (decide (0 < x `div` 10)%N) as [Hd|Hd].
  - apply IH; [by apply N.div_lt|done].
  - assert ((x `div` 10)%N = 0%N) as -> by (by apply N.le_0_r, N.nlt_ge). rewrite pretty_N_go_0.
    eexists _, _. split; [done|]. rewrite digit_value_pretty; [eauto|by apply N.mod_lt].
Qed.

Lemma digit_value_not_sign c :
  is_Some (digit_value c) → c ≠ "-"%char ∧ c ≠ "+"%char ∧ Ascii.is_space c = false.
Proof.
  intros [d H]. repeat split; [by intros ->..|].
  destruct c as [[] [] [] [] [] [] [] []]; try done; by vm_compute in H.
Qed.

Lemma digit_value_nonneg c d : digit_value c = Some d → (0 ≤ d ≤ 9)%Z.
Proof. unfold digit_value. intros. case_match eqn:E; simplify_eq. lia. Qed.

Lemma pretty_N_go_app x s : pretty_N_go x s = pretty_N_go x "" +:+ s.
Proof.
  revert s. induction (N.lt_wf_0 x) as [x _ IH]; intros s.
  assert (x = 0 ∨ 0 < x)%N as [->|?] by lia; [by rewrite !pretty_N_go_0|].
  assert (x `div` 10 < x)%N as Hlt by (by apply N.div_lt).
  rewrite (pretty_N_go_step x s), (pretty_N_go_step x "") by done.
  rewrite (IH _ Hlt (String _ s)), (IH _ Hlt (String _ "")). by rewrite <-string_app_assoc.
Qed.

(** Reading back what [%d] printed; [%d] of a number leaves no rest. *)
Lemma strtol_fmt_d_app (z : Z) (r : string) :
  (LONG_MIN ≤ z ≤ LONG_MAX)%Z →
  match r with String c _ => digit_value c = None | EmptyString => True end →
  strtol (fmt_d z +:+ r) = (z, r).
Proof.
  intros Hz Hr.
  assert (Hend : ∀ v, strtol_digits v r = (v, r)) by (intros; destruct r; simpl; by rewrite ?Hr).
  assert (Hclamp : clamp_long z = z) by (unfold clamp_long; lia).
  assert (Hgo := pretty_N_go_app).
  assert (Hpos : ∀ p : positive, pretty p = pretty_N_go (Npos p) "") by done.
  unfold fmt_d, pretty, pretty_Z. destruct z as [|p|p].
  - unfold strtol. simpl. by rewrite Hend.
  - rewrite Hpos, <-Hgo. destruct (pretty_N_go_head (Npos p) r) as (c & s & E & Hc); [done|].
    assert (Hg : strtol_digits 0 (String c s) = (Z.pos p, r))
      by (rewrite <-E, strtol_digits_go; apply Hend).
    destruct (digit_value_not_sign _ Hc) as (Hm & Hp & Hs). destruct Hc as [d Hd].
    unfold strtol. rewrite E. simpl. rewrite Hs, !decide_False by done.
    rewrite !Hd, Hg. by rewrite Hclamp.
  - rewrite Hpos, <-string_app_assoc, <-Hgo.
    destruct (pretty_N_go_head (Npos p) r) as (c & s & E & [d Hd]); [done|].
    assert (Hg : strtol_digits 0 (String c s) = (Z.pos p, r))
      by (rewrite <-E, strtol_digits_go; apply Hend).
    unfold strtol. rewrite E. change ("-" +:+ String c s) with (String "-" (String c s)).
    cbn [skip_space Ascii.is_space]. rewrite decide_True, Hd, Hg by done.
    change (- Z.pos p)%Z with (Z.neg p). by rewrite Hclamp.
Qed.

Lemma strtol_fmt_d (z : Z) : (LONG_MIN ≤ z ≤ LONG_MAX)%Z → strtol (fmt_d z) = (z, "").
Proof. intros. rewrite <-(string_app_nil_r (fmt_d z)). by apply strtol_fmt_d_app. Qed.

#[export] Instance fmt_d_inj : Inj (=) (=) fmt_d.
Proof. unfold fmt_d. apply _. Qed.

(** [%d] of a byte takes at most three characters. *)
Lemma fmt_d_byte_length b : byte_ok b → 1 ≤ String.length (fmt_d b) ≤ 3.
Proof.
  intros [? ?]. assert (∀ n, n < 256 → 1 ≤ String.length (fmt_d (Z.of_nat n)) ≤ 3) as H'.
  { intros n Hn. apply (Forall_lookup_1 (λ n, 1 ≤ String.length (fmt_d (Z.of_nat n)) ≤ 3) (seq 0 256) n).
    - apply (bool_decide_unpack _). by vm_compute.
    - by rewrite lookup_seq_lt. }
  rewrite <-(Z2Nat.id b) by done. apply H'. lia.
Qed.

Lemma strchr_app c b a : c ∉ chars b → strchr c (b +:+ String c a) = Some (b, a).
Proof.
  induction b as [|c' b IH]; simpl; intros Hc.
  - by rewrite decide_True.
  - rewrite not_elem_of_cons in Hc. destruct Hc as [? ?].
    rewrite decide_False by done. by rewrite IH.
Qed.

Lemma strchr_Some c s b a :
  strchr c s = Some (b, a) → s = b +:+ String c a ∧ c ∉ chars b.
Proof.
  revert b a. induction s as [|c' s IH]; intros b a; simpl; [done|].
  case_decide as Hc; intros; simplify_eq.
  - split; [done|apply not_elem_of_nil].
  - destruct (strchr c s) as [[b' a']|]; simplify_eq/=.
    destruct (IH _ _ eq_refl) as [-> ?]. split; [done|].
    by apply not_elem_of_cons.
Qed.

Lemma strchr_None c s : strchr c s = None ↔ c ∉ chars s.
Proof.
  induction s as [|c' s IH]; simpl; [split; [intros; apply not_elem_of_nil|done]|].
  rewrite not_elem_of_cons. case_decide as Hc; [subst; naive_solver|].
  destruct (strchr c s) as [[]|]; simpl; naive_solver.
Qed.

(** Gluing the tokens of [strsep] back gives the string. *)
Lemma strsep_join c s : string_join (String c "") (strsep c s) = s.
Proof.
  induction s as [|c' s IH]; simpl; [done|].
  assert (strsep c s ≠ []) as Hne
    by (destruct s; simpl; repeat case_match; done).
  case_decide as Hc; [subst|];
    destruct (strsep c s) as [|t [|t' ts]]; try done; simpl in *; by rewrite <-IH.
Qed.

Lemma strsep_not_nil c s : strsep c s ≠ [].
Proof. destruct s; simpl; repeat case_match; done. Qed.

Lemma strsep_app_cons c t s :
  c ∉ chars t → strsep c (t +:+ String c s) = t :: strsep c s.
Proof.
  induction t as [|c' t IH]; intros Hc.
  - simpl. by rewrite decide_True.
  - simpl in *. rewrite not_elem_of_cons in Hc. destruct Hc.
    rewrite decide_False by done. by rewrite IH.
Qed.

Lemma strsep_no_sep c t : c ∉ chars t → strsep c t = [t].
Proof.
  induction t as [|c' t IH]; simpl; [done|]. rewrite not_elem_of_cons. intros [? ?].
  rewrite decide_False by done. by rewrite IH.
Qed.

(** [strsep] inverts the gluing of tokens that do not contain the separator. *)
Lemma strsep_string_join c ts :
  ts ≠ [] → Forall (λ t, c ∉ chars t) ts → strsep c (string_join (String c "") ts) = ts.
Proof.
  intros Hne. induction 1 as [|t ts Ht Hts IH]; [done|].
  destruct ts as [|t' ts]; [by apply strsep_no_sep|].
  change (strsep c (t +:+ String c (string_join (String c "") (t' :: ts))) = t :: t' :: ts).
  rewrite strsep_app_cons by done. by rewrite IH.
Qed.

Lemma fmt_d_byte_digits b :
  byte_ok b → Forall (λ c, is_Some (digit_value c)) (chars (fmt_d b)).
Proof. revert b. by_bytes. Qed.

Lemma string_join_length sep ts :
  String.length (string_join sep ts)
  = sum_list (String.length <$> ts) + pred (length ts) * String.length sep.
Proof.
  induction ts as [|t [|t' ts] IH]; [done|simpl; lia|].
  change (string_join sep (t :: t' :: ts)) with (t +:+ sep +:+ string_join sep (t' :: ts)).
  rewrite !string_length_app, IH. simpl. lia.
Qed.

Lemma string_join_chars (P : ascii → Prop) sep ts :
  Forall P (chars sep) → Forall (λ t, Forall P (chars t)) ts →
  Forall P (chars (string_join sep ts)).
Proof.
  intros Hsep. induction 1 as [|t ts Ht Hts IH]; [constructor|].
  destruct ts as [|t' ts]; [done|].
  change (string_join sep (t :: t' :: ts)) with (t +:+ sep +:+ string_join sep (t' :: ts)).
  rewrite !chars_app, !Forall_app. auto.
Qed.

(** *** The characters of a printed number *)

Lemma pretty_N_go_digits x s :
  Forall (λ c, is_Some (digit_value c)) (chars s) →
  Forall (λ c, is_Some (digit_value c)) (chars (pretty_N_go x s)).
Proof.
  revert s. induction (N.lt_wf_0 x) as [x _ IH]; intros s Hs.
  assert (x = 0 ∨ 0 < x)%N as [->|?] by lia; [by rewrite pretty_N_go_0|].
  rewrite pretty_N_go_step by done. apply IH; [by apply N.div_lt|]. constructor; [|done].
  rewrite digit_value_pretty by (by apply N.mod_lt). by eexists.
Qed.

Lemma fmt_d_digits z : (0 ≤ z)%Z → Forall (λ c, is_Some (digit_value c)) (chars (fmt_d z)).
Proof.
  intros Hz. destruct z as [|p|p]; [by repeat constructor| |lia].
  apply (pretty_N_go_digits (N.pos p)). constructor.
Qed.

Lemma fmt_d_chars z :
  Forall (λ c, is_Some (digit_value c) ∨ c = "-"%char) (chars (fmt_d z)).
Proof.
  assert (Hpos : ∀ z, (0 ≤ z)%Z → Forall (λ c, is_Some (digit_value c) ∨ c = "-"%char) (chars (fmt_d z))).
  { intros z' Hz'. eapply Forall_impl; [by apply fmt_d_digits|]. auto. }
  destruct z as [|p|p]; [apply Hpos; lia..|].
  change (fmt_d (Z.neg p)) with ("-" +:+ fmt_d (Z.pos p)). rewrite chars_app. apply Forall_app.
  split; [repeat constructor; by right|]. apply Hpos. lia.
Qed.

Lemma fmt_d_not_nil z : fmt_d z ≠ "".
Proof.
  intros Hz. pose proof (f_equal chars Hz) as Hc. destruct z as [|p|p]; try discriminate.
  change (fmt_d (Z.pos p)) with (pretty_N_go (N.pos p) "") in Hz.
  destruct (pretty_N_go_head (N.pos p) "") as (c & s' & Hg & _); [lia|]. congruence.
Qed.
