(* ===== verification/GLib.v ===== *)
(** * Interfaces to GLib

    What the program uses of GLib's containers: [g_list_sort], whose
    documentation promises a stable sort, and the iteration over a
    [GHashTable], which visits every entry once in no documented order. *)

From S2P Require Import Prelude.

(** ** Comparison functions *)

(** [cmp] is a consistent [GCompareFunc] on the elements of [l]. *)
Record consistent_on {A} (cmp : A → A → Z) (l : list A) : Prop := {
  cmp_sign x y : x ∈ l → y ∈ l → (cmp x y < 0 ↔ 0 < cmp y x)%Z;
  cmp_trans x y z : x ∈ l → y ∈ l → z ∈ l →
    (cmp x y ≤ 0 → cmp y z ≤ 0 → cmp x z ≤ 0)%Z
}.

Definition cmp_eqv {A} (cmp : A → A → Z) (x y : A) : Prop := cmp x y = 0%Z.
#[export] Instance cmp_eqv_dec {A} (cmp : A → A → Z) x y : Decision (cmp_eqv cmp x y).
Proof. unfold cmp_eqv. apply _. Defined.

Definition cmp_sorted {A} (cmp : A → A → Z) (l : list A) : Prop :=
  StronglySorted (λ x y, cmp x y ≤ 0)%Z l.

(** ** [g_list_sort] *)

Class GListSort := {
  g_list_sort {A} : list A → (A → A → Z) → list A
}.

Class GListSortLaws `{GListSort} : Prop := {
  sort_perm {A} (l : list A) cmp : g_list_sort l cmp ≡ₚ l;
  sort_sorted {A} (l : list A) cmp :
    consistent_on cmp l → cmp_sorted cmp (g_list_sort l cmp);
  sort_stable {A} (l : list A) cmp x :
    consistent_on cmp l → x ∈ l →
    filter (cmp_eqv cmp x) (g_list_sort l cmp) = filter (cmp_eqv cmp x) l
}.

(** Insertion sort: the reference the stable sorts agree with. *)
Fixpoint insert_by {A} (cmp : A → A → Z) (x : A) (l : list A) : list A :=
  match l with
  | [] => [x]
  | y :: l' => if (cmp x y <=? 0)%Z then x :: y :: l' else y :: insert_by cmp x l'
  end.

Definition insertion_sort {A} (l : list A) (cmp : A → A → Z) : list A :=
  foldr (insert_by cmp) [] l.

#[export] Instance reference_sort : GListSort := {| g_list_sort := @insertion_sort |}.

(** ** Hash table iteration *)

(** The order in which an iteration meets the entries of a table. *)
Record hash_order (V : Type) := HashOrder {
  hash_entries :> gmap string V → list (string * V);
  hash_entries_perm (m : gmap string V) : hash_entries m ≡ₚ map_to_list m
}.
Arguments HashOrder {V}.
Arguments hash_entries {V}.
Arguments hash_entries_perm {V}.

Definition reference_order {V} : hash_order V := HashOrder map_to_list (λ m, reflexivity _).

(** ** Consistent comparisons *)

Section Consistent.
Context {A : Type} (cmp : A → A → Z).

Lemma consistent_refl l x : consistent_on cmp l → x ∈ l → cmp x x = 0%Z.
Proof. intros [Hs _] Hx. specialize (Hs x x Hx Hx). lia. Qed.

Lemma consistent_total l x y :
  consistent_on cmp l → x ∈ l → y ∈ l → (cmp x y ≤ 0 ∨ cmp y x ≤ 0)%Z.
Proof. intros [Hs _] Hx Hy. specialize (Hs y x Hy Hx). lia. Qed.

Lemma consistent_eqv_sym l x y :
  consistent_on cmp l → x ∈ l → y ∈ l → cmp x y = 0%Z → cmp y x = 0%Z.
Proof.
  intros [Hs _] Hx Hy ?. pose proof (Hs x y Hx Hy). pose proof (Hs y x Hy Hx). lia.
Qed.

Lemma consistent_sub l k : (∀ x, x ∈ k → x ∈ l) → consistent_on cmp l → consistent_on cmp k.
Proof. intros Hk [Hs Ht]. split; eauto. Qed.

Lemma insert_by_perm x l : insert_by cmp x l ≡ₚ x :: l.
Proof.
  induction l as [|y l IH]; simpl; [done|]. case_match; [done|].
  rewrite IH. constructor.
Qed.

Lemma insertion_sort_perm l : insertion_sort l cmp ≡ₚ l.
Proof.
  induction l as [|x l IH]; [done|]. unfold insertion_sort in *. simpl.
  by rewrite insert_by_perm, IH.
Qed.

Lemma insert_by_sorted x l :
  consistent_on cmp (x :: l) → cmp_sorted cmp l → cmp_sorted cmp (insert_by cmp x l).
Proof.
  intros Hc Hl. induction Hl as [|y l Hl IH HF]; simpl; [repeat constructor|].
  destruct (Z.leb_spec (cmp x y) 0).
  - constructor; [by constructor|]. constructor; [done|].
    rewrite Forall_forall in HF |- *. intros z Hz.
    eapply (cmp_trans _ _ Hc x y z); auto; set_solver.
  - constructor.
    + apply IH. eapply consistent_sub; [|exact Hc]. set_solver.
    + rewrite insert_by_perm. constructor; [|done].
      pose proof (consistent_total _ x y Hc). destruct H0; [set_solver..|lia|done].
Qed.

Lemma insertion_sort_sorted l : consistent_on cmp l → cmp_sorted cmp (insertion_sort l cmp).
Proof.
  induction l as [|x l IH]; intros Hc; [constructor|]. unfold insertion_sort in *. simpl.
  apply insert_by_sorted.
  - eapply consistent_sub; [|exact Hc]. intros z.
    change (foldr (insert_by cmp) [] l) with (insertion_sort l cmp).
    rewrite !elem_of_cons, insertion_sort_perm. done.
  - apply IH. eapply consistent_sub; [|exact Hc]. set_solver.
Qed.

Lemma insert_by_filter x y l :
  consistent_on cmp (x :: y :: l) →
  filter (cmp_eqv cmp y) (insert_by cmp x l) = filter (cmp_eqv cmp y) (x :: l).
Proof.
  intros Hc. induction l as [|z l IH]; [done|]. cbn [insert_by].
  destruct (Z.leb_spec (cmp x z) 0); [done|].
  rewrite filter_cons, IH; [|eapply consistent_sub; [|exact Hc]; set_solver].
  rewrite !filter_cons. repeat case_decide; try done. exfalso. unfold cmp_eqv in *.
  assert (cmp x y = 0%Z) as Hxy by (eapply consistent_eqv_sym; [exact Hc|set_solver..|done]).
  assert (cmp x z ≤ 0)%Z; [|lia].
  eapply (cmp_trans _ _ Hc x y z); [set_solver..|lia|lia].
Qed.

Lemma insertion_sort_filter y l :
  consistent_on cmp (y :: l) →
  filter (cmp_eqv cmp y) (insertion_sort l cmp) = filter (cmp_eqv cmp y) l.
Proof.
  induction l as [|x l IH]; intros Hc; [done|]. unfold insertion_sort in *. cbn [foldr].
  rewrite insert_by_filter, !filter_cons, IH; [done|..].
  - eapply consistent_sub; [|exact Hc]. set_solver.
  - eapply consistent_sub; [|exact Hc]. intros z.
    change (foldr (insert_by cmp) [] l) with (insertion_sort l cmp).
    rewrite !elem_of_cons, insertion_sort_perm. tauto.
Qed.

(** A sorted list is determined by its classes of equivalent elements. *)
Lemma sorted_classes_unique l k :
  consistent_on cmp (l ++ k) → cmp_sorted cmp l → cmp_sorted cmp k → l ≡ₚ k →
  (∀ x, x ∈ l → filter (cmp_eqv cmp x) l = filter (cmp_eqv cmp x) k) → l = k.
Proof.
  intros Hc Hl. revert k Hc. induction Hl as [|x l Hl IH HFl]; intros k Hc Hk Hp Hf.
  - by apply Permutation_nil_l in Hp.
  - destruct k as [|y k]; [by apply Permutation_nil_r in Hp|].
    inversion Hk as [|? ? Hk' HFk]; subst.
    assert (x = y) as <-.
    { assert (Hx : x ∈ y :: k) by (rewrite <-Hp; set_solver).
      assert (Hy : y ∈ x :: l) by (rewrite Hp; set_solver).
      assert (cmp x y ≤ 0)%Z.
      { apply elem_of_cons in Hy as [->|Hy]; [|rewrite Forall_forall in HFl; auto].
        rewrite (consistent_refl _ x Hc); [lia|set_solver]. }
      assert (cmp y x ≤ 0)%Z.
      { apply elem_of_cons in Hx as [->|Hx]; [|rewrite Forall_forall in HFk; auto].
        rewrite (consistent_refl _ y Hc); [lia|set_solver]. }
      specialize (Hf x ltac:(set_solver)). rewrite !filter_cons, !decide_True in Hf.
      - by simplify_eq.
      - unfold cmp_eqv. pose proof (cmp_sign _ _ Hc x y ltac:(set_solver) ltac:(set_solver)). lia.
      - unfold cmp_eqv. apply (consistent_refl _ x Hc). set_solver. }
    f_equal. apply IH; [|done|by apply Permutation_cons_inv in Hp|].
    + eapply consistent_sub; [|exact Hc]. set_solver.
    + intros z Hz. specialize (Hf z ltac:(set_solver)). rewrite !filter_cons in Hf.
      case_decide; by simplify_eq.
Qed.
End Consistent.

#[export] Instance reference_sort_laws : GListSortLaws.
Proof.
  split; intros; simpl.
  - apply insertion_sort_perm.
  - by apply insertion_sort_sorted.
  - apply insertion_sort_filter. eapply consistent_sub; [|done]. set_solver.
Qed.

(** Whatever the implementation, sorting with a consistent comparison gives
    the result of insertion sort. *)
Lemma g_list_sort_insertion `{GListSortLaws} {A} (cmp : A → A → Z) l :
  consistent_on cmp l → g_list_sort l cmp = insertion_sort l cmp.
Proof.
  intros Hc. apply (sorted_classes_unique cmp).
  - eapply consistent_sub; [|exact Hc]. intros x.
    rewrite elem_of_app, sort_perm, insertion_sort_perm. tauto.
  - by apply sort_sorted.
  - by apply insertion_sort_sorted.
  - by rewrite sort_perm, insertion_sort_perm.
  - intros x Hx. rewrite sort_perm in Hx. rewrite sort_stable by done.
    symmetry. apply insertion_sort_filter. eapply consistent_sub; [|exact Hc]. set_solver.
Qed.

(** ** Iteration *)

Lemma hash_entries_elem {V} (o : hash_order V) (m : gmap string V) k v :
  (k, v) ∈ o m ↔ m !! k = Some v.
Proof. by rewrite (hash_entries_perm o m), elem_of_map_to_list. Qed.

Lemma hash_entries_NoDup {V} (o : hash_order V) (m : gmap string V) : NoDup (o m).*1.
Proof. rewrite (hash_entries_perm o m). apply NoDup_fst_map_to_list. Qed.

Lemma hash_entries_list_to_map {V} (o : hash_order V) (m : gmap string V) :
  list_to_map (o m) = m.
Proof.
  transitivity (list_to_map (map_to_list m) : gmap string V); [|apply list_to_map_to_list].
  apply list_to_map_proper.
  - apply hash_entries_NoDup.
  - apply hash_entries_perm.
Qed.
#[export] Hint Resolve hash_entries_NoDup : dnsconfd.
