(* ===== verification/SockAddr.v ===== *)
(** * Socket addresses: src/src/ip_utilities.c

    [sockaddr_storage] with the fields the program uses, the conversions to
    and from text, the default port and the comparison of addresses.  The C
    library's [inet_pton] and [inet_ntop] are the interface [Inet]; what the
    program relies on is [InetLaws], discharged by [reference_inet]. *)

From S2P Require Import Prelude CLib.

(** ** Definitions *)

(** The values of [ss_family] the program ever stores. *)
Inductive sa_family := AF_UNSPEC | AF_INET | AF_INET6.
#[export] Instance sa_family_eq_dec : EqDecision sa_family.
Proof. solve_decision. Defined.

(** [struct sockaddr_storage], seen as [sockaddr_in] and [sockaddr_in6]: the
    two share the family and the port (both at offset 2), and [sin_addr]
    (bytes 4 to 7) does not overlap [sin6_addr] (bytes 8 to 23).  The port is
    kept in host order: every access goes through [htons] or [ntohs]. *)
Record sockaddr_storage := SockAddr {
  ss_family : sa_family;
  sin_port : Z;
  sin_addr : list Z;
  sin6_addr : list Z
}.
#[export] Instance sockaddr_storage_eq_dec : EqDecision sockaddr_storage.
Proof. solve_decision. Defined.

(** All bytes zero, as [calloc], [memset] and [= {0}] leave it. *)
Definition sockaddr_zero : sockaddr_storage :=
  SockAddr AF_UNSPEC 0 (replicate 4 0%Z) (replicate 16 0%Z).

Definition set_port (port : Z) (a : sockaddr_storage) : sockaddr_storage :=
  SockAddr (ss_family a) port (sin_addr a) (sin6_addr a).

(** [inet_pton(3)] and [inet_ntop(3)] for the two families. *)
Class Inet := {
  inet_pton4 : string → option (list Z);
  inet_pton6 : string → option (list Z);
  inet_ntop4 : list Z → string;
  inet_ntop6 : list Z → string
}.

Definition INET_ADDRSTRLEN : nat := 16.
Definition INET6_ADDRSTRLEN : nat := 46.

Definition dotted_char (c : ascii) : Prop := is_Some (digit_value c) ∨ c = "."%char.
Definition hex_value (c : ascii) : option Z :=
  match digit_value c with
  | Some d => Some d
  | None => let n := Z.of_N (N_of_ascii (tolower c)) in
            if (97 <=? n)%Z && (n <=? 102)%Z then Some (n - 87)%Z else None
  end.
Definition colon_char (c : ascii) : Prop :=
  is_Some (hex_value c) ∨ c = ":"%char ∨ c = "."%char.

(** The documented behaviour the program relies on. *)
Class InetLaws `{Inet} : Prop := {
  pton4_bytes s bs : inet_pton4 s = Some bs → bytes_ok 4 bs;
  pton6_bytes s bs : inet_pton6 s = Some bs → bytes_ok 16 bs;
  pton4_ntop4 bs : bytes_ok 4 bs → inet_pton4 (inet_ntop4 bs) = Some bs;
  pton6_ntop6 bs : bytes_ok 16 bs → inet_pton6 (inet_ntop6 bs) = Some bs;
  pton4_ntop6 bs : bytes_ok 16 bs → inet_pton4 (inet_ntop6 bs) = None;
  ntop4_chars bs : bytes_ok 4 bs → Forall dotted_char (chars (inet_ntop4 bs));
  ntop6_chars bs : bytes_ok 16 bs → Forall colon_char (chars (inet_ntop6 bs));
  ntop4_length bs : bytes_ok 4 bs → String.length (inet_ntop4 bs) < INET_ADDRSTRLEN;
  ntop6_length bs : bytes_ok 16 bs → String.length (inet_ntop6 bs) < INET6_ADDRSTRLEN
}.

Section IpUtilities.
Context `{Inet}.

(** [None] is the status -1; the address is then left as it was. *)
Definition parse_ip_str (str : string) (a : sockaddr_storage) : option sockaddr_storage :=
  match inet_pton4 str with
  | Some bs => Some (SockAddr AF_INET (sin_port a) bs (sin6_addr a))
  | None =>
      match inet_pton6 str with
      | Some bs => Some (SockAddr AF_INET6 (sin_port a) (sin_addr a) bs)
      | None => None
      end
  end.

(** [None] is the status -1; the buffer is then left as it was. *)
Definition ip_to_str (a : sockaddr_storage) : option string :=
  match ss_family a with
  | AF_INET => Some (inet_ntop4 (sin_addr a))
  | AF_INET6 => Some (inet_ntop6 (sin6_addr a))
  | AF_UNSPEC => None
  end.
End IpUtilities.

Definition set_default_port (a : sockaddr_storage) (port : Z) : sockaddr_storage :=
  match ss_family a with
  | AF_INET | AF_INET6 => if (sin_port a =? 0)%Z then set_port port a else a
  | AF_UNSPEC => a
  end.

Definition are_ips_equal (a b : sockaddr_storage) : bool :=
  if negb (bool_decide (ss_family a = ss_family b)) then false
  else match ss_family a with
       | AF_INET => bool_decide (sin_addr a = sin_addr b)
       | AF_INET6 => bool_decide (sin6_addr a = sin6_addr b)
       | AF_UNSPEC => false
       end.

(** The path [is_wireless] asks [stat] about; whether it is a directory is up
    to the system. *)
Definition wireless_path (ifname : string) : string :=
  "/sys/class/net/" +:+ ifname +:+ "/wireless".

(** Well-formed addresses: a family is set, the port fits 16 bits and the
    arrays have their sizes. *)
Record sockaddr_wf (a : sockaddr_storage) : Prop := {
  wf_family : ss_family a ≠ AF_UNSPEC;
  wf_port : (0 ≤ sin_port a < 65536)%Z;
  wf_sin : bytes_ok 4 (sin_addr a);
  wf_sin6 : bytes_ok 16 (sin6_addr a)
}.

(** The same without a family: what zeroed memory satisfies. *)
Record sockaddr_typed (a : sockaddr_storage) : Prop := {
  ty_port : (0 ≤ sin_port a < 65536)%Z;
  ty_sin : bytes_ok 4 (sin_addr a);
  ty_sin6 : bytes_ok 16 (sin6_addr a)
}.

(** ** Reference implementation of the interface

    Dotted quads as in [inet_pton(3)]; IPv6 addresses in their full form, eight
    groups of four digits. *)

Definition octet_of_string (t : string) : option Z :=
  let v := (strtol t).1 in
  if bool_decide (fmt_d v = t) && (0 <=? v)%Z && (v <=? 255)%Z then Some v else None.

Definition ref_pton4 (s : string) : option (list Z) :=
  let ts := strsep "." s in
  if decide (length ts = 4) then mapM octet_of_string ts else None.

Definition ref_ntop4 (bs : list Z) : string := string_join "." (fmt_d <$> bs).

Definition byte_hex (b : Z) : string :=
  String (hex_digit (b / 16)) (String (hex_digit (b mod 16)) "").

Fixpoint ref_groups (bs : list Z) : list string :=
  match bs with
  | a :: b :: bs' => (byte_hex a +:+ byte_hex b) :: ref_groups bs'
  | _ => []
  end.

Definition ref_ntop6 (bs : list Z) : string := string_join ":" (ref_groups bs).

Definition group_of_string (t : string) : option (list Z) :=
  match t with
  | String a (String b (String c (String d EmptyString))) =>
      a ← hex_value a; b ← hex_value b; c ← hex_value c; d ← hex_value d;
      Some [(16 * a + b)%Z; (16 * c + d)%Z]
  | _ => None
  end.

Definition ref_pton6 (s : string) : option (list Z) :=
  let ts := strsep ":" s in
  if decide (length ts = 8) then mjoin <$> mapM group_of_string ts else None.

#[export] Instance reference_inet : Inet := {|
  inet_pton4 := ref_pton4;
  inet_pton6 := ref_pton6;
  inet_ntop4 := ref_ntop4;
  inet_ntop6 := ref_ntop6
|}.

(** ** The reference implementation satisfies the laws *)

Lemma octet_of_string_fmt b : byte_ok b → octet_of_string (fmt_d b) = Some b.
Proof. revert b. by_bytes. Qed.

Lemma octet_of_string_byte t b : octet_of_string t = Some b → byte_ok b.
Proof. unfold octet_of_string, byte_ok. intros. case_match eqn:E; simplify_eq. lia. Qed.

Lemma fmt_d_byte_not_in b c : byte_ok b → digit_value c = None → c ∉ chars (fmt_d b).
Proof.
  intros Hb Hc Hin. pose proof (fmt_d_byte_digits b Hb) as HF. rewrite Forall_forall in HF.
  destruct (HF c Hin). congruence.
Qed.

Lemma mapM_bytes {A} (f : A → option Z) ts bs n :
  (∀ t b, f t = Some b → byte_ok b) → mapM f ts = Some bs → length ts = n → bytes_ok n bs.
Proof.
  intros Hf HM%mapM_Some <-. split; [by apply Forall2_length in HM|].
  induction HM; constructor; eauto.
Qed.

Lemma mapM_fmap_Some {A B} (f : A → option B) (g : B → A) l :
  Forall (λ x, f (g x) = Some x) l → mapM f (g <$> l) = Some l.
Proof. intros HF. apply mapM_Some. induction HF; constructor; auto. Qed.

Lemma ref_pton4_ntop4 bs : bytes_ok 4 bs → ref_pton4 (ref_ntop4 bs) = Some bs.
Proof.
  intros [Hl HF]. unfold ref_pton4, ref_ntop4.
  rewrite strsep_string_join.
  - rewrite decide_True by (by rewrite length_fmap).
    apply mapM_fmap_Some. by eapply Forall_impl; [done|apply octet_of_string_fmt].
  - by destruct bs.
  - apply Forall_fmap. eapply Forall_impl; [done|]. intros. by apply fmt_d_byte_not_in.
Qed.

Lemma hex_value_hex_digit b :
  byte_ok b →
  hex_value (hex_digit (b / 16)) = Some (b / 16)%Z
  ∧ hex_value (hex_digit (b mod 16)) = Some (b mod 16)%Z.
Proof. revert b. by_bytes. Qed.

Lemma hex_value_nibble c v : hex_value c = Some v → (0 ≤ v < 16)%Z.
Proof.
  unfold hex_value. destruct (digit_value c) eqn:E; intros; simplify_eq.
  - apply digit_value_nonneg in E. lia.
  - case_match eqn:E'; simplify_eq. lia.
Qed.

Lemma group_of_string_bytes t bs : group_of_string t = Some bs → bytes_ok 2 bs.
Proof.
  unfold group_of_string. intros.
  destruct t as [|a [|b [|c [|d [|]]]]]; simplify_eq/=.
  destruct (hex_value a) eqn:Ea, (hex_value b) eqn:Eb, (hex_value c) eqn:Ec,
    (hex_value d) eqn:Ed; simplify_eq/=.
  apply hex_value_nibble in Ea, Eb, Ec, Ed.
  split; [done|]. repeat constructor; unfold byte_ok; lia.
Qed.

Lemma group_of_string_hex a b :
  byte_ok a → byte_ok b → group_of_string (byte_hex a +:+ byte_hex b) = Some [a; b].
Proof.
  intros Ha Hb. unfold byte_hex. rewrite !string_app_cons, string_app_nil_l. simpl.
  destruct (hex_value_hex_digit a Ha) as [-> ->], (hex_value_hex_digit b Hb) as [-> ->].
  simpl. by rewrite <-!Z.div_mod by done.
Qed.

Lemma byte_hex_chars a : byte_ok a → Forall (λ c, is_Some (hex_value c)) (chars (byte_hex a)).
Proof.
  intros Ha. destruct (hex_value_hex_digit a Ha).
  repeat constructor; eauto.
Qed.

Lemma ref_groups_spec n bs :
  bytes_ok (n * 2) bs →
  length (ref_groups bs) = n
  ∧ Forall (λ t, String.length t = 4 ∧ Forall (λ c, is_Some (hex_value c)) (chars t)) (ref_groups bs)
  ∧ mjoin <$> mapM group_of_string (ref_groups bs) = Some bs.
Proof.
  revert bs. induction n as [|n IH]; intros bs Hbs.
  - destruct Hbs as [?%length_zero_iff_nil _]. by subst.
  - destruct bs as [|a [|b bs]]; [by destruct Hbs..|].
    simpl in Hbs. rewrite !bytes_ok_cons in Hbs. destruct Hbs as (Ha & Hb & Hbs).
    destruct (IH bs Hbs) as (Hl & HF & HM).
    cbn [ref_groups length mapM]. split; [by rewrite Hl|]. split.
    + constructor; [split; [done|]|done].
      rewrite chars_app, Forall_app. auto using byte_hex_chars.
    + rewrite group_of_string_hex by done. simpl.
      destruct (mapM group_of_string (ref_groups bs)); simplify_eq/=. done.
Qed.

Lemma not_elem_of_hex c cs :
  Forall (λ c, is_Some (hex_value c)) cs → hex_value c = None → c ∉ cs.
Proof.
  intros HF Hc Hin. rewrite Forall_forall in HF. destruct (HF c Hin). congruence.
Qed.

Lemma ref_pton6_ntop6 bs : bytes_ok 16 bs → ref_pton6 (ref_ntop6 bs) = Some bs.
Proof.
  intros Hbs. destruct (ref_groups_spec 8 bs Hbs) as (Hl & HF & HM).
  unfold ref_pton6, ref_ntop6. rewrite strsep_string_join.
  - by rewrite decide_True.
  - by destruct (ref_groups bs).
  - eapply Forall_impl; [done|]. intros t [_ Ht]. by eapply not_elem_of_hex.
Qed.

Lemma ref_pton6_bytes s bs : ref_pton6 s = Some bs → bytes_ok 16 bs.
Proof.
  unfold ref_pton6. case_decide as Hl; [|done].
  destruct (mapM _ _) as [gs|] eqn:HM; simpl; intros; simplify_eq.
  apply mapM_Some in HM. rewrite (Forall2_length _ _ _ HM) in Hl.
  assert (Forall (bytes_ok 2) gs) as HF
    by (clear Hl; induction HM; constructor; eauto using group_of_string_bytes).
  clear HM. revert Hl HF. change 16 with (8 * 2). generalize 8. induction gs as [|g gs IH]; intros n.
  - simpl. intros <- _. done.
  - destruct n as [|n]; [done|]. intros [= Hl] [[Hg1 Hg2] Hgs]%Forall_cons.
    destruct (IH n Hl Hgs) as [H1 H2]. split; simpl.
    + rewrite length_app. simpl in *. lia.
    + by apply Forall_app.
Qed.

Lemma ref_pton4_ntop6 bs : bytes_ok 16 bs → ref_pton4 (ref_ntop6 bs) = None.
Proof.
  intros Hbs. destruct (ref_groups_spec 8 bs Hbs) as (Hl & HF & HM).
  unfold ref_pton4, ref_ntop6. rewrite strsep_no_sep; [done|].
  intros Hin. cut (Forall (λ c, c ≠ "."%char) (chars (string_join ":" (ref_groups bs)))).
  { rewrite Forall_forall. intros HF'. by apply (HF' "."%char). }
  apply string_join_chars; [by repeat constructor|].
  eapply Forall_impl; [done|]. intros t [_ Ht]. eapply Forall_impl; [done|].
  by intros c [v Hv] ->.
Qed.

Lemma ref_ntop4_length bs :
  bytes_ok 4 bs → String.length (ref_ntop4 bs) < INET_ADDRSTRLEN.
Proof.
  intros Hbs. unfold ref_ntop4. rewrite string_join_length, length_fmap.
  destruct bs as [|a [|b [|c [|d [|]]]]]; try by destruct Hbs.
  rewrite !bytes_ok_cons in Hbs. destruct Hbs as (Ha & Hb & Hc & Hd & _).
  apply fmt_d_byte_length in Ha, Hb, Hc, Hd. unfold INET_ADDRSTRLEN. simpl. lia.
Qed.

Lemma ref_ntop6_length bs :
  bytes_ok 16 bs → String.length (ref_ntop6 bs) < INET6_ADDRSTRLEN.
Proof.
  intros Hbs. destruct (ref_groups_spec 8 bs Hbs) as (Hl & HF & _).
  unfold ref_ntop6. rewrite string_join_length, Hl.
  assert (sum_list (String.length <$> ref_groups bs) = 4 * length (ref_groups bs)) as ->.
  { clear Hl Hbs. induction HF as [|t ts [Ht _] _ IH]; [done|].
    rewrite fmap_cons. cbn [sum_list sum_list_with foldr length]. rewrite Ht. simpl in *. lia. }
  rewrite Hl. unfold INET6_ADDRSTRLEN. simpl. lia.
Qed.

#[export] Instance reference_inet_laws : InetLaws.
Proof.
  split.
  - simpl. unfold ref_pton4. intros s bs. case_decide; [|done]. intros.
    eapply mapM_bytes; eauto using octet_of_string_byte.
  - apply ref_pton6_bytes.
  - apply ref_pton4_ntop4.
  - apply ref_pton6_ntop6.
  - apply ref_pton4_ntop6.
  - intros bs [_ HF]. apply string_join_chars; [apply Forall_singleton; by right|].
    apply Forall_fmap. eapply Forall_impl; [done|]. intros b Hb.
    eapply Forall_impl; [by apply fmt_d_byte_digits|]. by left.
  - intros bs Hbs. apply string_join_chars; [apply Forall_singleton; by right; left|].
    destruct (ref_groups_spec 8 bs Hbs) as (_ & HF & _).
    eapply Forall_impl; [done|]. intros t [_ Ht]. eapply Forall_impl; [done|]. by left.
  - apply ref_ntop4_length.
  - apply ref_ntop6_length.
Qed.

(** ** Properties of the address utilities *)

Section AddressProperties.
Context `{InetLaws}.

(** Parsing produces a well-formed address and keeps the port. *)
Lemma parse_ip_str_wf s a a' :
  sockaddr_typed a → parse_ip_str s a = Some a' →
  sockaddr_wf a' ∧ sin_port a' = sin_port a.
Proof.
  intros [??] Hp. unfold parse_ip_str in Hp.
  destruct (inet_pton4 s) eqn:E4; [|destruct (inet_pton6 s) eqn:E6]; simplify_eq;
    split; try done; split; simpl; eauto using pton4_bytes, pton6_bytes.
Qed.

Lemma ip_to_str_Some a : sockaddr_wf a → is_Some (ip_to_str a).
Proof. intros [? _ _ _]. unfold ip_to_str. destruct (ss_family a); eauto; done. Qed.

(** The text fits the buffers of [INET6_ADDRSTRLEN] characters. *)
Lemma ip_to_str_length a s :
  sockaddr_wf a → ip_to_str a = Some s → String.length s < INET6_ADDRSTRLEN.
Proof.
  intros [_ _ ? ?] Hs. unfold ip_to_str in Hs. destruct (ss_family a); simplify_eq.
  - transitivity INET_ADDRSTRLEN; [by apply ntop4_length|].
    unfold INET_ADDRSTRLEN, INET6_ADDRSTRLEN. lia.
  - by apply ntop6_length.
Qed.

(** The text holds digits, letters [a] to [f], dots and colons only. *)
Lemma ip_to_str_chars a s :
  sockaddr_wf a → ip_to_str a = Some s → Forall colon_char (chars s).
Proof.
  intros [_ _ ? ?] Hs. unfold ip_to_str in Hs. destruct (ss_family a); simplify_eq.
  - eapply Forall_impl; [by apply ntop4_chars|]. intros c [[v Hv]| ->]; [left|right; by right].
    unfold hex_value. rewrite Hv. eauto.
  - by apply ntop6_chars.
Qed.

(** Reading back the text of an address gives the same family and address. *)
Lemma parse_ip_to_str a b s :
  sockaddr_wf a → ip_to_str a = Some s →
  ∃ c, parse_ip_str s b = Some c ∧ ss_family c = ss_family a ∧ sin_port c = sin_port b ∧
    match ss_family a with
    | AF_INET6 => sin6_addr c = sin6_addr a ∧ sin_addr c = sin_addr b
    | _ => sin_addr c = sin_addr a ∧ sin6_addr c = sin6_addr b
    end.
Proof.
  intros [? _ ? ?] Hs. unfold ip_to_str, parse_ip_str in *.
  destruct (ss_family a) eqn:Ef; simplify_eq.
  - rewrite pton4_ntop4 by done. by eexists.
  - rewrite pton4_ntop6, pton6_ntop6 by done. by eexists.
Qed.
End AddressProperties.

Lemma sockaddr_zero_typed : sockaddr_typed sockaddr_zero.
Proof. split; [simpl; lia|apply bytes_ok_replicate..]. Qed.
#[export] Hint Resolve sockaddr_zero_typed : dnsconfd.

Lemma sockaddr_wf_typed a : sockaddr_wf a → sockaddr_typed a.
Proof. by intros []. Qed.
#[export] Hint Resolve sockaddr_wf_typed : dnsconfd.

Lemma set_default_port_wf a p :
  sockaddr_wf a → (0 ≤ p < 65536)%Z → sockaddr_wf (set_default_port a p).
Proof.
  intros [? ? ? ?] ?. unfold set_default_port.
  destruct (ss_family a) eqn:E; try done; case_match; split; simpl; rewrite ?E; done.
Qed.

(** A well-formed address ends with a port: its own, or the default one. *)
Lemma set_default_port_spec a p :
  sockaddr_wf a →
  set_default_port a p = set_port (if (sin_port a =? 0)%Z then p else sin_port a) a.
Proof.
  intros [? ? ? ?]. unfold set_default_port. destruct a as [f q s4 s6]; simpl in *.
  destruct f; try done; by destruct (q =? 0)%Z.
Qed.

Lemma are_ips_equal_spec a b :
  are_ips_equal a b = true ↔
  ss_family a = ss_family b ∧
  match ss_family a with
  | AF_INET => sin_addr a = sin_addr b
  | AF_INET6 => sin6_addr a = sin6_addr b
  | AF_UNSPEC => False
  end.
Proof.
  unfold are_ips_equal. case_bool_decide as Hf; simpl; [|naive_solver].
  destruct (ss_family a); rewrite ?bool_decide_eq_true; naive_solver.
Qed.

Lemma are_ips_equal_refl a : ss_family a ≠ AF_UNSPEC → are_ips_equal a a = true.
Proof. rewrite are_ips_equal_spec. by destruct (ss_family a). Qed.

Lemma are_ips_equal_sym a b : are_ips_equal a b = are_ips_equal b a.
Proof.
  apply eq_true_iff_eq. rewrite !are_ips_equal_spec.
  destruct (ss_family a), (ss_family b); naive_solver.
Qed.

Lemma are_ips_equal_trans a b c :
  are_ips_equal a b = true → are_ips_equal b c = true → are_ips_equal a c = true.
Proof.
  rewrite !are_ips_equal_spec.
  destruct (ss_family a), (ss_family b), (ss_family c); naive_solver congruence.
Qed.

(** The comparison ignores ports. *)
Lemma are_ips_equal_set_port p a b : are_ips_equal (set_port p a) b = are_ips_equal a b.
Proof. done. Qed.
