(* ===== verification/NetworkAddress.v ===== *)
(** * Networks: src/src/types/network_address.c

    CIDR networks, their parser and the reverse-lookup zone they stand for. *)

From S2P Require Import Prelude CLib SockAddr.

(** ** Definitions *)

Record network_address := NetworkAddress {
  na_address : sockaddr_storage;
  na_prefix : Z
}.
#[export] Instance network_address_eq_dec : EqDecision network_address.
Proof. solve_decision. Defined.

Section Parse.
Context `{Inet}.

(** [addr] is the memory the caller provides; [None] is the status -1. *)
Definition network_address_t_from_string (address_string : string)
    (addr : sockaddr_storage) : option network_address :=
  match strchr "/" address_string with
  | None => None
  | Some (ip_part, after) =>
      if INET6_ADDRSTRLEN <=? String.length ip_part then None
      else
        let '(raw_prefix, endptr) := strtol after in
        if negb (endptr ==s "") || (raw_prefix <? 0)%Z || (128 <? raw_prefix)%Z then None
        else
          match parse_ip_str ip_part addr with
          | Some a =>
              if bool_decide (ss_family a = AF_INET) && (32 <? raw_prefix)%Z then None
              else Some (NetworkAddress a raw_prefix)
          | None => None
          end
  end.

(** [snprintf(buf, size, "%s/%d", ip_str, net->prefix)] after [ip_to_str]. *)
Definition network_address_to_string (net : network_address) : option string :=
  ip ← ip_to_str (na_address net); Some (ip +:+ "/" +:+ fmt_d (na_prefix net)).
End Parse.

(** The loop [for (i = n - 1; i >= 0; i--) strcat(result, piece(i))]. *)
Fixpoint strcat_down (piece : nat → string) (n : nat) : string :=
  match n with
  | O => ""
  | S i => piece i +:+ strcat_down piece i
  end.

Definition reverse_dns_ipv4 (s4 : list Z) (prefix : Z) : string :=
  let nibbles := Z.to_nat (prefix / 8) in
  let nibbles := if 4 <? nibbles then 4 else nibbles in
  strcat_down (λ i, fmt_d (nth i s4 0%Z) +:+ ".") nibbles +:+ "in-addr.arpa".

(** The [i]-th nibble of an array of bytes, the most significant first. *)
Definition nibble (bytes : list Z) (i : nat) : Z :=
  let b := nth (i / 2) bytes 0%Z in
  if i mod 2 =? 0 then Z.land (Z.shiftr b 4) 15 else Z.land b 15.

Definition reverse_dns_ipv6 (s6 : list Z) (prefix : Z) : string :=
  let nibbles := Z.to_nat (prefix / 4) in
  let nibbles := if 32 <? nibbles then 32 else nibbles in
  strcat_down (λ i, fmt_x (nibble s6 i) +:+ ".") nibbles +:+ "ip6.arpa".

(** [None] is the status -1. *)
Definition network_address_t_to_reverse_dns (addr : network_address) : option string :=
  match ss_family (na_address addr) with
  | AF_INET => Some (reverse_dns_ipv4 (sin_addr (na_address addr)) (na_prefix addr))
  | AF_INET6 => Some (reverse_dns_ipv6 (sin6_addr (na_address addr)) (na_prefix addr))
  | AF_UNSPEC => None
  end.

(** A network as the parser delivers it. *)
Record network_wf (n : network_address) : Prop := {
  nw_address : sockaddr_wf (na_address n);
  nw_prefix : (0 ≤ na_prefix n ≤ 128)%Z;
  nw_prefix4 : ss_family (na_address n) = AF_INET → (na_prefix n ≤ 32)%Z
}.

(** The zone a network stands for: its family and the labels of the zone, from
    the least significant one. *)
Definition zone_labels (n : network_address) : list Z :=
  match ss_family (na_address n) with
  | AF_INET6 => nibble (sin6_addr (na_address n)) <$> seq 0 (Z.to_nat (na_prefix n / 4) `min` 32)
  | _ => (λ i, nth i (sin_addr (na_address n)) 0%Z) <$> seq 0 (Z.to_nat (na_prefix n / 8) `min` 4)
  end.

(** The value of a number written in base [2 ^ w], the first digit highest. *)
Definition digits_value (w : Z) (ds : list Z) : Z :=
  foldl (λ acc d, acc * 2 ^ w + d)%Z 0%Z ds.

(** [x] (an array of bytes) belongs to the network [base] (another one) of
    [prefix] bits: the two agree on their first [prefix] bits. *)
Definition in_network (base : list Z) (prefix : Z) (x : list Z) : Prop :=
  let bits := (8 * Z.of_nat (length base))%Z in
  Z.shiftr (digits_value 8 x) (bits - prefix) = Z.shiftr (digits_value 8 base) (bits - prefix).

(** ** Parsing *)

Section ParseProperties.
Context `{InetLaws}.

Lemma network_address_t_from_string_wf s addr n :
  sockaddr_typed addr → network_address_t_from_string s addr = Some n →
  network_wf n ∧ sin_port (na_address n) = sin_port addr.
Proof.
  unfold network_address_t_from_string. intros Hty Hn.
  destruct (strchr "/" s) as [[ip after]|]; [|done].
  case_match; [done|]. destruct (strtol after) as [raw e].
  case_match eqn:Hg; [done|].
  destruct (parse_ip_str ip addr) as [a|] eqn:Ha; [|done].
  apply parse_ip_str_wf in Ha as [Ha Hp]; [|done].
  case_match eqn:H4; simplify_eq/=. split; [|done].
  apply orb_false_iff in Hg as [[_ ?]%orb_false_iff ?].
  split; simpl; [done|lia|]. intros Hf.
  rewrite bool_decide_eq_true_2 in H4 by done. simpl in H4. lia.
Qed.

Lemma network_texts_Some nets :
  Forall network_wf nets → is_Some (mapM network_address_to_string nets).
Proof.
  intros Hn. apply mapM_is_Some. eapply Forall_impl; [exact Hn|]. intros n [Ha _ _].
  destruct (ip_to_str_Some _ Ha) as [s Hs]. unfold compose, network_address_to_string.
  rewrite Hs. by eexists.
Qed.

(** The text the program prints for a network is read back as that network. *)
Lemma network_address_roundtrip n addr s :
  network_wf n → network_address_to_string n = Some s →
  ∃ n', network_address_t_from_string s addr = Some n' ∧ na_prefix n' = na_prefix n ∧
    are_ips_equal (na_address n') (na_address n) = true.
Proof.
  intros [Ha Hp Hp4] Hs. unfold network_address_to_string in Hs.
  destruct (ip_to_str (na_address n)) as [ip|] eqn:Hip; simplify_eq/=.
  destruct (parse_ip_to_str _ addr _ Ha Hip) as (c & Hc & Hf & _ & Hbytes).
  pose proof (ip_to_str_length _ _ Ha Hip). pose proof (ip_to_str_chars _ _ Ha Hip) as Hch.
  unfold network_address_t_from_string.
  change (ip +:+ "/" +:+ fmt_d (na_prefix n)) with (ip +:+ String "/" (fmt_d (na_prefix n))).
  rewrite strchr_app.
  - rewrite (proj2 (Nat.leb_gt _ _)) by done.
    rewrite strtol_fmt_d by (unfold LONG_MIN, LONG_MAX; lia).
    rewrite (proj2 (Z.ltb_ge _ _)), (proj2 (Z.ltb_ge 128 _)), Hc by lia. simpl.
    rewrite Hf. case_bool_decide as H4; simpl.
    + rewrite (proj2 (Z.ltb_ge 32 _)) by auto. eexists. split; [done|]. split; [done|]. simpl.
      apply are_ips_equal_spec. rewrite Hf in *. rewrite H4 in *. naive_solver.
    + eexists. split; [done|]. split; [done|]. simpl.
      apply are_ips_equal_spec. rewrite Hf in *. destruct Ha.
      destruct (ss_family (na_address n)); naive_solver.
  - intros Hin. rewrite Forall_forall in Hch. destruct (Hch _ Hin) as [[v Hv]|[?|?]]; done.
Qed.
End ParseProperties.

(** ** Reverse zones *)

Lemma strcat_down_tokens lab n suffix :
  (∀ i, i < n → "."%char ∉ chars (lab i)) →
  strsep "." (strcat_down (λ i, lab i +:+ ".") n +:+ suffix)
  = reverse (lab <$> seq 0 n) ++ strsep "." suffix.
Proof.
  induction n as [|n IH]; intros Hlab; [done|].
  rewrite seq_S, fmap_app, reverse_app. simpl. rewrite <-!string_app_assoc.
  change ("." +:+ ?s) with (String "." s). rewrite strsep_app_cons by auto with lia.
  rewrite IH by auto with lia. done.
Qed.

Lemma strcat_down_length piece n k :
  (∀ i, i < n → String.length (piece i) ≤ k) →
  String.length (strcat_down piece n) ≤ n * k.
Proof.
  induction n as [|n IH]; intros Hk; simpl; [lia|].
  rewrite string_length_app. pose proof (Hk n). assert (String.length (strcat_down piece n) ≤ n * k) by auto. lia.
Qed.

Lemma strcat_down_ext p q n :
  (∀ i, i < n → p i = q i) → strcat_down p n = strcat_down q n.
Proof.
  induction n as [|n IH]; intros Hpq; simpl; [done|].
  rewrite Hpq by lia. f_equal. apply IH. auto.
Qed.

Lemma strcat_down_suffix p n m : n ≤ m → ∃ pre, strcat_down p m = pre +:+ strcat_down p n.
Proof.
  induction 1 as [|m Hle [pre IH]]; [by exists ""|].
  exists (p m +:+ pre). simpl. by rewrite IH, string_app_assoc.
Qed.

Lemma min_ltb n k : (if k <? n then k else n) = n `min` k.
Proof. destruct (Nat.ltb_spec k n); lia. Qed.

Lemma nth_byte_ok i n bs : bytes_ok n bs → byte_ok (nth i bs 0%Z).
Proof.
  intros [_ HF]. destruct (nth_in_or_default i bs 0%Z) as [Hin|Hd].
  - rewrite Forall_forall in HF. apply HF. by apply list_elem_of_In.
  - rewrite Hd. unfold byte_ok. lia.
Qed.

Lemma nibble_range bs i : (0 ≤ nibble bs i < 16)%Z.
Proof.
  unfold nibble. assert (∀ b, 0 ≤ Z.land b 15 < 16)%Z; [|case_match; auto].
  intros b. change 15%Z with (Z.ones 4). rewrite Z.land_ones by lia.
  apply Z.mod_pos_bound. lia.
Qed.

Lemma nibble_byte_ok bs i : byte_ok (nibble bs i).
Proof. pose proof (nibble_range bs i). unfold byte_ok. lia. Qed.

Lemma fmt_x_nibble_not_dot bs i : "."%char ∉ chars (fmt_x (nibble bs i)).
Proof.
  pose proof (nibble_range bs i) as Hr. revert Hr. generalize (nibble bs i). intros z Hz.
  assert (byte_ok z) as Hb by (unfold byte_ok; lia). revert z Hb Hz. by_bytes.
Qed.

(** The labels of the zone, from the leftmost one, are those of the covered
    octets or nibbles in reverse order. *)
Lemma reverse_dns_tokens n :
  network_wf n →
  ∃ zone, network_address_t_to_reverse_dns n = Some zone ∧
    strsep "." zone =
      match ss_family (na_address n) with
      | AF_INET6 => reverse (fmt_x <$> zone_labels n) ++ ["ip6"; "arpa"]
      | _ => reverse (fmt_d <$> zone_labels n) ++ ["in-addr"; "arpa"]
      end.
Proof.
  intros [[Hf _ H4 H6] Hp _]. unfold network_address_t_to_reverse_dns, zone_labels.
  destruct (ss_family (na_address n)) eqn:E; [done|eexists; split; [done|]..].
  - unfold reverse_dns_ipv4. rewrite min_ltb, strcat_down_tokens, <-list_fmap_compose; [done|].
    intros i _. apply fmt_d_byte_not_in; [by eapply nth_byte_ok|done].
  - unfold reverse_dns_ipv6. rewrite min_ltb, strcat_down_tokens, <-list_fmap_compose; [done|].
    intros i _. apply fmt_x_nibble_not_dot.
Qed.

Lemma zone_labels_bytes n :
  network_wf n → Forall byte_ok (zone_labels n).
Proof.
  intros [[Hf _ H4 H6] _ _]. unfold zone_labels.
  destruct (ss_family (na_address n)); try done;
    apply Forall_fmap, Forall_forall; intros; simpl;
    first [by apply nibble_byte_ok | by eapply nth_byte_ok].
Qed.

Lemma fmap_inj_bytes (f : Z → string) (xs ys : list Z) (P : Z → Prop) :
  (∀ x y, P x → P y → f x = f y → x = y) →
  Forall P xs → Forall P ys → f <$> xs = f <$> ys → xs = ys.
Proof.
  intros Hf Hxs. revert ys. induction Hxs as [|x xs Hx Hxs IH]; intros [|y ys] Hys; simpl;
    intros; simplify_eq; [done|]. inversion Hys; subst. f_equal; auto.
Qed.

Lemma fmt_x_inj x y : (0 ≤ x < 16)%Z → (0 ≤ y < 16)%Z → fmt_x x = fmt_x y → x = y.
Proof.
  intros Hx Hy [= Hd].
  assert (Hv : ∀ z, byte_ok z → (0 ≤ z < 16)%Z → hex_value (hex_digit z) = Some z) by by_bytes.
  apply (f_equal hex_value) in Hd.
  rewrite !Hv in Hd by (unfold byte_ok; lia). by simplify_eq.
Qed.

(** ** Members of a network *)

Lemma digits_value_app w ds es :
  digits_value w (ds ++ es)
  = foldl (λ acc d, acc * 2 ^ w + d)%Z (digits_value w ds) es.
Proof. unfold digits_value. by rewrite foldl_app. Qed.

Lemma digits_value_snoc w ds d :
  digits_value w (ds ++ [d]) = (digits_value w ds * 2 ^ w + d)%Z.
Proof. by rewrite digits_value_app. Qed.

Lemma digits_value_shiftr w ds es :
  (0 ≤ w)%Z → Forall (λ d, 0 ≤ d < 2 ^ w)%Z es →
  Z.shiftr (digits_value w (ds ++ es)) (w * Z.of_nat (length es)) = digits_value w ds.
Proof.
  intros Hw. revert ds. induction es as [|e es IH] using rev_ind; intros ds.
  - intros _. rewrite app_nil_r. simpl. by rewrite Z.mul_0_r, Z.shiftr_0_r.
  - rewrite Forall_app, Forall_singleton. intros [HF He].
    rewrite app_assoc, digits_value_snoc, length_app. simpl.
    replace (w * Z.of_nat (length es + 1))%Z with (w + w * Z.of_nat (length es))%Z by lia.
    rewrite <-Z.shiftr_shiftr by lia.
    rewrite (Z.shiftr_div_pow2 _ w) by done.
    rewrite Z.div_add_l by (apply Z.pow_nonzero; lia).
    rewrite (Z.div_small e) by done. rewrite Z.add_0_r. by apply IH.
Qed.

Lemma digits_value_inj w ds es :
  (0 ≤ w)%Z → length ds = length es →
  Forall (λ d, 0 ≤ d < 2 ^ w)%Z ds → Forall (λ d, 0 ≤ d < 2 ^ w)%Z es →
  digits_value w ds = digits_value w es → ds = es.
Proof.
  intros Hw. revert es. induction ds as [|d ds IH] using rev_ind; intros es.
  - by destruct es.
  - destruct es as [|e es _] using rev_ind; [by rewrite length_app; simpl; lia|].
    rewrite !length_app, !Forall_app, !Forall_singleton, !digits_value_snoc. simpl.
    intros Hl [Hds Hd] [Hes He] Hv.
    assert (0 < 2 ^ w)%Z by (apply Z.pow_pos_nonneg; lia).
    assert (digits_value w ds = digits_value w es) as Hv'.
    { apply (f_equal (λ x, x `div` 2 ^ w)%Z) in Hv.
      rewrite !Z.div_add_l, !Z.div_small in Hv by lia. lia. }
    assert (d = e) as -> by (rewrite Hv' in Hv; lia).
    f_equal. apply IH; auto. lia.
Qed.

(** Numbers that agree above bit [w * m - p] agree on their first [p / w] digits. *)
Lemma shiftr_take_digits w p m ds es :
  (0 < w)%Z → (0 ≤ p)%Z → length ds = m → length es = m →
  Forall (λ d, 0 ≤ d < 2 ^ w)%Z ds → Forall (λ d, 0 ≤ d < 2 ^ w)%Z es →
  (p ≤ w * Z.of_nat m)%Z →
  Z.shiftr (digits_value w ds) (w * Z.of_nat m - p)
  = Z.shiftr (digits_value w es) (w * Z.of_nat m - p) →
  take (Z.to_nat (p / w)) ds = take (Z.to_nat (p / w)) es.
Proof.
  intros Hw Hp Hds Hes Fds Fes Hpm Heq.
  pose proof (Z.div_pos p w ltac:(lia) ltac:(lia)) as Hq.
  pose proof (Z.mul_div_le p w ltac:(lia)) as Hle.
  set (k := Z.to_nat (p / w)) in *. assert (Hk : Z.of_nat k = (p / w)%Z) by lia.
  assert (k ≤ m) by nia.
  assert (Hsh : ∀ l, length l = m → Forall (λ d, 0 ≤ d < 2 ^ w)%Z l →
    digits_value w (take k l)
    = Z.shiftr (Z.shiftr (digits_value w l) (w * Z.of_nat m - p)) (p - w * Z.of_nat k)).
  { intros l Hl HF. rewrite Z.shiftr_shiftr by lia.
    rewrite <-(digits_value_shiftr w (take k l) (drop k l)) by (lia || by apply Forall_drop).
    rewrite take_drop, length_drop. f_equal. nia. }
  apply (digits_value_inj w); [lia|..].
  - rewrite !length_take. lia.
  - by apply Forall_take.
  - by apply Forall_take.
  - rewrite !Hsh by done. by rewrite Heq.
Qed.

Lemma take_nth_seq (bs : list Z) k :
  k ≤ length bs → take k bs = (λ i, nth i bs 0%Z) <$> seq 0 k.
Proof.
  intros Hk. apply list_eq. intros i. rewrite list_lookup_fmap.
  destruct (decide (i < k)).
  - rewrite lookup_take_lt, lookup_seq_lt by done. simpl.
    destruct (lookup_lt_is_Some_2 bs i) as [b Hb]; [lia|]. rewrite Hb.
    f_equal. symmetry. by apply nth_lookup_Some.
  - rewrite lookup_take_ge, lookup_seq_ge by lia. done.
Qed.

(** An array of bytes read as nibbles. *)
Lemma digits_value_nibbles bs :
  Forall byte_ok bs →
  digits_value 8 bs = digits_value 4 (nibble bs <$> seq 0 (2 * length bs)).
Proof.
  induction bs as [|b bs IH] using rev_ind; [done|].
  rewrite Forall_app, Forall_singleton. intros [HF Hb].
  rewrite length_app. cbn [length].
  replace (2 * (length bs + 1)) with (S (S (2 * length bs))) by lia.
  rewrite !seq_S, !fmap_app, !fmap_cons, !fmap_nil, !digits_value_snoc, !Nat.add_0_l.
  assert (Hlast : nth (length bs) (bs ++ [b]) 0%Z = b).
  { rewrite app_nth2 by lia. by rewrite Nat.sub_diag. }
  assert (nibble (bs ++ [b]) <$> seq 0 (2 * length bs) = nibble bs <$> seq 0 (2 * length bs)) as ->.
  { apply list_fmap_ext. intros i x [-> Hi]%lookup_seq. unfold nibble.
    rewrite app_nth1; [done|]. apply Nat.Div0.div_lt_upper_bound. lia. }
  rewrite <-IH by done. unfold nibble.
  rewrite <-(Nat.div_unique (2 * length bs) 2 (length bs) 0) by lia.
  rewrite <-(Nat.div_unique (S (2 * length bs)) 2 (length bs) 1) by lia.
  rewrite <-(Nat.mod_unique (2 * length bs) 2 (length bs) 0) by lia.
  rewrite <-(Nat.mod_unique (S (2 * length bs)) 2 (length bs) 1) by lia.
  rewrite Hlast. simpl.
  assert (Hsplit : ∀ c, byte_ok c → c = (Z.land (Z.shiftr c 4) 15 * 16 + Z.land c 15)%Z) by by_bytes.
  rewrite (Hsplit b Hb) at 1. lia.
Qed.

(** ** The main properties *)

(** The network made of one address: all the bits of its family. *)
Definition host_network (a : sockaddr_storage) : network_address :=
  NetworkAddress a (match ss_family a with AF_INET6 => 128 | _ => 32 end).

Definition address_bytes (a : sockaddr_storage) : list Z :=
  match ss_family a with AF_INET6 => sin6_addr a | _ => sin_addr a end.

Lemma reverse_dns_members_v4 base prefix x :
  bytes_ok 4 base → bytes_ok 4 x → (0 ≤ prefix ≤ 32)%Z → in_network base prefix x →
  ∃ pre, reverse_dns_ipv4 x 32 = pre +:+ reverse_dns_ipv4 base prefix.
Proof.
  intros [Hl Hb] [Hlx Hx] Hp Hin. unfold in_network in Hin. rewrite Hl in Hin.
  apply (shiftr_take_digits 8 prefix 4 x base) in Hin; [|lia..|done|done|done|done|lia].
  assert (Hk : Z.to_nat (prefix / 8) ≤ 4).
  { pose proof (Z.div_le_upper_bound prefix 8 4). lia. }
  unfold reverse_dns_ipv4. rewrite !min_ltb. change (Z.to_nat (32 / 8) `min` 4) with 4.
  rewrite Nat.min_l by done.
  destruct (strcat_down_suffix (λ i, fmt_d (nth i x 0%Z) +:+ ".") _ 4 Hk) as [pre ->].
  exists pre. rewrite <-string_app_assoc. do 2 f_equal.
  apply strcat_down_ext. intros i Hi. do 2 f_equal.
  rewrite !take_nth_seq in Hin by lia.
  apply (f_equal (lookup i)) in Hin. rewrite !list_lookup_fmap, lookup_seq_lt in Hin by done.
  by simplify_eq/=.
Qed.

Lemma reverse_dns_members_v6 base prefix x :
  bytes_ok 16 base → bytes_ok 16 x → (0 ≤ prefix ≤ 128)%Z → in_network base prefix x →
  ∃ pre, reverse_dns_ipv6 x 128 = pre +:+ reverse_dns_ipv6 base prefix.
Proof.
  intros [Hl Hb] [Hlx Hx] Hp Hin. unfold in_network in Hin.
  rewrite Hl, !digits_value_nibbles, Hl, Hlx in Hin by done.
  change (8 * Z.of_nat 16)%Z with (4 * Z.of_nat (2 * 16))%Z in Hin.
  assert (Hnib : ∀ bs, Forall (λ d, 0 ≤ d < 2 ^ 4)%Z (nibble bs <$> seq 0 (2 * 16))).
  { intros. apply Forall_fmap, Forall_forall. intros. apply nibble_range. }
  apply shiftr_take_digits in Hin;
    [|lia..|by rewrite length_fmap, length_seq|by rewrite length_fmap, length_seq|auto|auto|lia].
  assert (Hk : Z.to_nat (prefix / 4) ≤ 32).
  { pose proof (Z.div_le_upper_bound prefix 4 32). lia. }
  unfold reverse_dns_ipv6. rewrite !min_ltb. change (Z.to_nat (128 / 4) `min` 32) with 32.
  rewrite Nat.min_l by done.
  destruct (strcat_down_suffix (λ i, fmt_x (nibble x i) +:+ ".") _ 32 Hk) as [pre ->].
  exists pre. rewrite <-string_app_assoc. do 2 f_equal.
  apply strcat_down_ext. intros i Hi. do 2 f_equal.
  apply (f_equal (lookup i)) in Hin.
  rewrite !lookup_take_lt, !list_lookup_fmap, lookup_seq_lt in Hin by lia.
  by simplify_eq/=.
Qed.

(** C27: the zone written for a network covers it: whatever address agrees with
    the network on its [prefix] bits has a reverse name below that zone. *)
Theorem reverse_dns_covers_members (n : network_address) (x : sockaddr_storage) :
  network_wf n → sockaddr_wf x → ss_family x = ss_family (na_address n) →
  in_network (address_bytes (na_address n)) (na_prefix n) (address_bytes x) →
  ∃ pre zone,
    network_address_t_to_reverse_dns n = Some zone ∧
    network_address_t_to_reverse_dns (host_network x) = Some (pre +:+ zone).
Proof.
  intros [[Hf _ H4 H6] Hp Hp4] [_ _ Hx4 Hx6] Heq Hin.
  unfold network_address_t_to_reverse_dns, host_network, address_bytes in *. simpl.
  rewrite Heq in *. destruct (ss_family (na_address n)) eqn:E; [done|..].
  - destruct (reverse_dns_members_v4 _ _ _ H4 Hx4 (conj (proj1 Hp) (Hp4 eq_refl)) Hin)
      as [pre ->]. eauto.
  - destruct (reverse_dns_members_v6 _ _ _ H6 Hx6 Hp Hin) as [pre ->]. eauto.
Qed.

Definition ex_net4 : network_address :=
  NetworkAddress (SockAddr AF_INET 0 [192; 168; 20; 0]%Z (replicate 16 0%Z)) 20.
Definition ex_host4 : sockaddr_storage :=
  SockAddr AF_INET 0 [192; 168; 31; 7]%Z (replicate 16 0%Z).

Lemma sockaddr_wf_bool a :
  bool_decide (ss_family a ≠ AF_UNSPEC ∧ (0 ≤ sin_port a < 65536)%Z ∧
    length (sin_addr a) = 4 ∧ Forall (λ b, 0 ≤ b < 256)%Z (sin_addr a) ∧
    length (sin6_addr a) = 16 ∧ Forall (λ b, 0 ≤ b < 256)%Z (sin6_addr a)) = true →
  sockaddr_wf a.
Proof. rewrite bool_decide_eq_true. intros (?&?&?&?&?&?). by split; [| |split|split]. Qed.

Theorem reverse_dns_covers_members_witness :
  ∃ pre zone,
    network_address_t_to_reverse_dns ex_net4 = Some zone ∧
    network_address_t_to_reverse_dns (host_network ex_host4) = Some (pre +:+ zone).
Proof.
  apply reverse_dns_covers_members.
  - split; [by apply sockaddr_wf_bool|by split|by intros _].
  - by apply sockaddr_wf_bool.
  - reflexivity.
  - vm_compute. reflexivity.
Defined.

(** C28: the zone never overruns the 73 bytes [server_list_to_hash_table]
    reserves for it, terminator included. *)
Theorem reverse_dns_fits_buffer (n : network_address) (zone : string) :
  network_wf n → network_address_t_to_reverse_dns n = Some zone →
  String.length zone + 1 ≤ 73.
Proof.
  intros [[Hf _ H4 H6] Hp _]. unfold network_address_t_to_reverse_dns.
  destruct (ss_family (na_address n)) eqn:E; [done|..]; intros [= <-].
  - unfold reverse_dns_ipv4. rewrite min_ltb, string_length_app.
    set (k := _ `min` 4). assert (k ≤ 4) by lia.
    assert (∀ i, i < k →
      String.length (fmt_d (nth i (sin_addr (na_address n)) 0%Z) +:+ ".") ≤ 4) as Hs.
    { intros i _. rewrite string_length_app.
      pose proof (fmt_d_byte_length _ (nth_byte_ok i _ _ H4)). simpl. lia. }
    pose proof (strcat_down_length _ _ _ Hs). simpl (String.length "in-addr.arpa"). lia.
  - unfold reverse_dns_ipv6. rewrite min_ltb, string_length_app.
    set (k := _ `min` 32). assert (k ≤ 32) by lia.
    assert (∀ i, i < k →
      String.length (fmt_x (nibble (sin6_addr (na_address n)) i) +:+ ".") ≤ 2) as Hs by done.
    pose proof (strcat_down_length _ _ _ Hs). simpl (String.length "ip6.arpa"). lia.
Qed.

Definition ex_net6 : network_address :=
  NetworkAddress (SockAddr AF_INET6 0 (replicate 4 0%Z) (replicate 16 255%Z)) 128.

Theorem reverse_dns_fits_buffer_witness :
  ∃ zone, network_address_t_to_reverse_dns ex_net6 = Some zone ∧ String.length zone + 1 ≤ 73.
Proof.
  eexists. split; [reflexivity|]. apply (reverse_dns_fits_buffer ex_net6).
  - split; [by apply sockaddr_wf_bool|by split|by intros].
  - reflexivity.
Defined.

(** C29: two networks get the same zone exactly when they have the same family
    and cover the same whole octets (IPv4) or nibbles (IPv6). *)
Theorem reverse_dns_eq_iff (n m : network_address) :
  network_wf n → network_wf m →
  network_address_t_to_reverse_dns n = network_address_t_to_reverse_dns m ↔
  ss_family (na_address n) = ss_family (na_address m) ∧ zone_labels n = zone_labels m.
Proof.
  intros Hn Hm.
  destruct (reverse_dns_tokens n Hn) as (zn & Ezn & Htn).
  destruct (reverse_dns_tokens m Hm) as (zm & Ezm & Htm).
  pose proof (zone_labels_bytes n Hn) as Bn. pose proof (zone_labels_bytes m Hm) as Bm.
  destruct (Hn) as [[Hfn _ _ _] _ _], (Hm) as [[Hfm _ _ _] _ _]. split.
  - intros Heq. assert (zn = zm) as -> by congruence. rewrite Htn in Htm.
    destruct (ss_family (na_address n)) eqn:En, (ss_family (na_address m)) eqn:Em; try done.
    + split; [done|]. apply app_inv_tail, (inj reverse) in Htm.
      eapply fmap_inj_bytes; [|exact Bn|exact Bm|exact Htm]. intros ? ? _ _. apply (inj fmt_d).
    + by change ["in-addr"; "arpa"] with (["in-addr"] ++ ["arpa"]) in Htm;
        change ["ip6"; "arpa"] with (["ip6"] ++ ["arpa"]) in Htm; rewrite !app_assoc in Htm;
        apply app_inv_tail, app_inj_tail in Htm as [_ ?].
    + by change ["in-addr"; "arpa"] with (["in-addr"] ++ ["arpa"]) in Htm;
        change ["ip6"; "arpa"] with (["ip6"] ++ ["arpa"]) in Htm; rewrite !app_assoc in Htm;
        apply app_inv_tail, app_inj_tail in Htm as [_ ?].
    + split; [done|]. apply app_inv_tail, (inj reverse) in Htm.
      unfold zone_labels in *. rewrite En, Em in *.
      eapply (fmap_inj_bytes _ _ _ (λ z, 0 ≤ z < 16)%Z); [|..|exact Htm].
      * intros. by apply fmt_x_inj.
      * apply Forall_fmap, Forall_forall. intros. apply nibble_range.
      * apply Forall_fmap, Forall_forall. intros. apply nibble_range.
  - intros [Hf Hz]. rewrite Ezn, Ezm. f_equal.
    rewrite <-(strsep_join "." zn), <-(strsep_join "." zm), Htn, Htm, Hf, Hz. done.
Qed.

Definition ex_net4' : network_address :=
  NetworkAddress (SockAddr AF_INET 0 [192; 168; 77; 1]%Z (replicate 16 0%Z)) 16.

Theorem reverse_dns_eq_iff_witness :
  network_address_t_to_reverse_dns ex_net4 = network_address_t_to_reverse_dns ex_net4'.
Proof.
  apply reverse_dns_eq_iff.
  - split; [by apply sockaddr_wf_bool|by split|by intros _].
  - split; [by apply sockaddr_wf_bool|by split|by intros _].
  - split; reflexivity.
Defined.
