(* ===== verification/ServerUri.v ===== *)
(** * Servers: the data of src/src/types/server_uri.c

    The record of a DNS server, its initial value, the names of protocols, deep
    copies and the order in which servers are preferred. *)

From S2P Require Import Prelude CLib GLib SockAddr NetworkAddress.

(** ** Definitions *)

Inductive dns_protocol_t := DNS_UDP | DNS_TCP | DNS_TLS | DNS_PROTOCOLS_END.
#[export] Instance dns_protocol_t_eq_dec : EqDecision dns_protocol_t.
Proof. solve_decision. Defined.

(** The value of the enumeration constant. *)
Definition protocol_value (p : dns_protocol_t) : Z :=
  match p with DNS_UDP => 0 | DNS_TCP => 1 | DNS_TLS => 2 | DNS_PROTOCOLS_END => 3 end.

Definition IFNAMSIZ : nat := 16.

Record server_uri_t := ServerUri {
  su_address : sockaddr_storage;
  su_priority : Z;
  su_interface : string;
  su_dnssec : Z;
  su_protocol : dns_protocol_t;
  su_certification_authority : option string;
  su_name : option string;
  su_routing_domains : list string;
  su_search_domains : list string;
  su_networks : list network_address
}.
#[export] Instance server_uri_t_eq_dec : EqDecision server_uri_t.
Proof. solve_decision. Defined.

(** Tables from domains to servers. *)
Notation server_table := (gmap string (list server_uri_t)).

(** Assignments to one field. *)
Definition set_address a s := ServerUri a (su_priority s) (su_interface s) (su_dnssec s)
  (su_protocol s) (su_certification_authority s) (su_name s) (su_routing_domains s)
  (su_search_domains s) (su_networks s).
Definition set_priority p s := ServerUri (su_address s) p (su_interface s) (su_dnssec s)
  (su_protocol s) (su_certification_authority s) (su_name s) (su_routing_domains s)
  (su_search_domains s) (su_networks s).
Definition set_interface i s := ServerUri (su_address s) (su_priority s) i (su_dnssec s)
  (su_protocol s) (su_certification_authority s) (su_name s) (su_routing_domains s)
  (su_search_domains s) (su_networks s).
Definition set_dnssec d s := ServerUri (su_address s) (su_priority s) (su_interface s) d
  (su_protocol s) (su_certification_authority s) (su_name s) (su_routing_domains s)
  (su_search_domains s) (su_networks s).
Definition set_protocol p s := ServerUri (su_address s) (su_priority s) (su_interface s)
  (su_dnssec s) p (su_certification_authority s) (su_name s) (su_routing_domains s)
  (su_search_domains s) (su_networks s).
Definition set_certification_authority c s := ServerUri (su_address s) (su_priority s)
  (su_interface s) (su_dnssec s) (su_protocol s) c (su_name s) (su_routing_domains s)
  (su_search_domains s) (su_networks s).
Definition set_name n s := ServerUri (su_address s) (su_priority s) (su_interface s)
  (su_dnssec s) (su_protocol s) (su_certification_authority s) n (su_routing_domains s)
  (su_search_domains s) (su_networks s).
Definition set_routing_domains l s := ServerUri (su_address s) (su_priority s)
  (su_interface s) (su_dnssec s) (su_protocol s) (su_certification_authority s) (su_name s) l
  (su_search_domains s) (su_networks s).
Definition set_search_domains l s := ServerUri (su_address s) (su_priority s)
  (su_interface s) (su_dnssec s) (su_protocol s) (su_certification_authority s) (su_name s)
  (su_routing_domains s) l (su_networks s).
Definition set_networks l s := ServerUri (su_address s) (su_priority s) (su_interface s)
  (su_dnssec s) (su_protocol s) (su_certification_authority s) (su_name s)
  (su_routing_domains s) (su_search_domains s) l.

Definition server_uri_t_init : server_uri_t :=
  ServerUri sockaddr_zero 0 "" 1 DNS_UDP None None [] [] [].

(** Compute the members of a server that was built by assignments. *)
Ltac cbv_server :=
  cbv beta iota delta [set_address set_priority set_protocol set_interface set_dnssec
    set_certification_authority set_name set_routing_domains set_search_domains set_networks
    su_address su_priority su_protocol su_interface su_dnssec su_certification_authority
    su_name su_routing_domains su_search_domains su_networks].

(** [string] points at a token of [n] characters. *)
Definition protocol_from_nstring (string : string) (n : nat) : dns_protocol_t :=
  let memcmp6 s := String.substring 0 6 string ==s String.substring 0 6 s in
  if negb (n =? 7) then DNS_PROTOCOLS_END
  else if memcmp6 "dns+udp" then DNS_UDP
  else if memcmp6 "dns+tcp" then DNS_TCP
  else if memcmp6 "dns+tls" then DNS_TLS
  else DNS_PROTOCOLS_END.

Definition dns_protocol_t_to_string (protocol : dns_protocol_t) : string :=
  match protocol with
  | DNS_UDP => "dns+udp"
  | DNS_TCP => "dns+tcp"
  | DNS_TLS => "dns+tls"
  | DNS_PROTOCOLS_END => "unknown"
  end.

(** What a subtraction gives whose result does not fit an [int]: C leaves it
    undefined.  Machines wrap around. *)
Class IntOverflow := int_overflow : Z → Z.
#[export] Instance wrapping : IntOverflow := int_wrap.

Definition int_sub `{IntOverflow} (x y : Z) : Z :=
  if bool_decide (INT_MIN ≤ x - y ≤ INT_MAX)%Z then (x - y)%Z else int_overflow (x - y).

(** A [GCompareFunc] on pointers to servers. *)
Definition compare_servers `{IntOverflow} (server_a server_b : option server_uri_t) : Z :=
  match server_a, server_b with
  | None, None => 0
  | None, Some _ => 1
  | Some _, None => -1
  | Some a, Some b =>
      let temp := int_sub (su_priority b) (su_priority a) in
      if (temp =? 0)%Z then
        let temp := (protocol_value (su_protocol b) - protocol_value (su_protocol a))%Z in
        if negb (temp =? 0)%Z then temp else (su_dnssec b - su_dnssec a)%Z
      else temp
  end%Z.

Definition server_cmp `{IntOverflow} (a b : server_uri_t) : Z := compare_servers (Some a) (Some b).

(** A deep copy, one member after the other. *)
Definition server_uri_t_copy (src : server_uri_t) : server_uri_t :=
  let dest := ServerUri (su_address src) (su_priority src) (su_interface src)
                (su_dnssec src) (su_protocol src) None None [] [] [] in
  let dest := match su_certification_authority src with
              | Some ca => set_certification_authority (Some ca) dest | None => dest end in
  let dest := match su_name src with Some n => set_name (Some n) dest | None => dest end in
  let dest := foldl (λ d x, set_routing_domains (su_routing_domains d ++ [x]) d)
                dest (su_routing_domains src) in
  let dest := foldl (λ d x, set_search_domains (su_search_domains d ++ [x]) d)
                dest (su_search_domains src) in
  foldl (λ d x, set_networks (su_networks d ++ [x]) d) dest (su_networks src).

Definition server_uri_t_list_replace_elements_with_copies (l : list server_uri_t) :
    list server_uri_t := server_uri_t_copy <$> l.

(** The port as the unbound manager and the status read it. *)
Definition server_port (s : server_uri_t) : Z := sin_port (su_address s).

(** What every parser of the program delivers. *)
Record server_wf (s : server_uri_t) : Prop := {
  sw_address : sockaddr_wf (su_address s);
  sw_priority : in_int (su_priority s);
  sw_interface : String.length (su_interface s) < IFNAMSIZ;
  sw_dnssec : su_dnssec s = 0%Z ∨ su_dnssec s = 1%Z;
  sw_protocol : su_protocol s ≠ DNS_PROTOCOLS_END;
  sw_networks : Forall network_wf (su_networks s)
}.

(** The rank the comparison is meant to order servers by, the best one first:
    a higher priority, then a higher protocol, then DNSSEC. *)
Definition better_or_equal (a b : server_uri_t) : Prop :=
  (su_priority b < su_priority a)%Z ∨
  su_priority a = su_priority b ∧
    ((protocol_value (su_protocol b) < protocol_value (su_protocol a))%Z ∨
     su_protocol a = su_protocol b ∧ (su_dnssec b ≤ su_dnssec a)%Z).

#[export] Instance better_or_equal_dec a b : Decision (better_or_equal a b).
Proof. unfold better_or_equal. apply _. Defined.

(** Servers of the same rank. *)
Definition same_rank (a b : server_uri_t) : bool :=
  (su_priority a =? su_priority b)%Z && bool_decide (su_protocol a = su_protocol b)
  && (su_dnssec a =? su_dnssec b)%Z.

(** The differences of priorities that the comparison computes fit an [int]. *)
Definition priorities_fit (l : list server_uri_t) : Prop :=
  ∀ a b, a ∈ l → b ∈ l → in_int (su_priority a - su_priority b).

(** ** Copies *)

Lemma server_uri_t_copy_eq s : server_uri_t_copy s = s.
Proof.
  destruct s as [ad pr iface dn pt ca nm rd sd nw]. unfold server_uri_t_copy. simpl.
  assert (Hrd : ∀ l s, foldl (λ d x, set_routing_domains (su_routing_domains d ++ [x]) d) s l
    = set_routing_domains (su_routing_domains s ++ l) s).
  { induction l as [|x l IH]; intros t; simpl; [by rewrite app_nil_r; destruct t|].
    rewrite IH. simpl. by rewrite <-app_assoc. }
  assert (Hsd : ∀ l s, foldl (λ d x, set_search_domains (su_search_domains d ++ [x]) d) s l
    = set_search_domains (su_search_domains s ++ l) s).
  { induction l as [|x l IH]; intros t; simpl; [by rewrite app_nil_r; destruct t|].
    rewrite IH. simpl. by rewrite <-app_assoc. }
  assert (Hnw : ∀ l s, foldl (λ d x, set_networks (su_networks d ++ [x]) d) s l
    = set_networks (su_networks s ++ l) s).
  { induction l as [|x l IH]; intros t; simpl; [by rewrite app_nil_r; destruct t|].
    rewrite IH. simpl. by rewrite <-app_assoc. }
  rewrite Hrd, Hsd, Hnw. by destruct ca, nm.
Qed.

Lemma copies_eq l : server_uri_t_list_replace_elements_with_copies l = l.
Proof.
  unfold server_uri_t_list_replace_elements_with_copies.
  induction l as [|s l IH]; [done|]. by rewrite fmap_cons, server_uri_t_copy_eq, IH.
Qed.

(** ** Protocol names *)

Lemma protocol_roundtrip p :
  p ≠ DNS_PROTOCOLS_END →
  protocol_from_nstring (dns_protocol_t_to_string p)
    (String.length (dns_protocol_t_to_string p)) = p.
Proof. by destruct p. Qed.

(** ** The order of servers *)

Lemma protocol_value_inj p q : protocol_value p = protocol_value q ↔ p = q.
Proof. by destruct p, q. Qed.

Section Compare.
Context `{IntOverflow}.

Lemma int_sub_id x y : in_int (x - y) → int_sub x y = (x - y)%Z.
Proof. unfold int_sub, in_int. intros Hi. by rewrite bool_decide_eq_true_2. Qed.

Lemma int_sub_out x y : ¬ in_int (x - y) → int_sub x y = int_overflow (x - y).
Proof. unfold int_sub, in_int. intros Hi. by rewrite bool_decide_eq_false_2. Qed.

(** Without overflow the comparison is the intended one. *)
Lemma server_cmp_spec a b :
  in_int (su_priority b - su_priority a) →
  (server_cmp a b ≤ 0)%Z ↔ better_or_equal a b.
Proof.
  intros Hi. unfold server_cmp, compare_servers, better_or_equal.
  rewrite (int_sub_id _ _ Hi).
  pose proof (protocol_value_inj (su_protocol a) (su_protocol b)) as Hinj.
  destruct (Z.eqb_spec (su_priority b - su_priority a) 0); [|split; lia].
  destruct (Z.eqb_spec (protocol_value (su_protocol b) - protocol_value (su_protocol a)) 0) as [E|E];
    simpl; split.
  - intros. right. split; [lia|]. right. split; [apply Hinj; lia|lia].
  - intros [?|[_ [?|[_ ?]]]]; lia.
  - intros. right. split; [lia|]. left. lia.
  - intros [?|[_ [?|[Hp ?]]]]; [lia..|]. rewrite Hp in E. lia.
Qed.

Lemma server_cmp_zero a b :
  in_int (su_priority b - su_priority a) →
  server_cmp a b = 0%Z ↔ same_rank a b = true.
Proof.
  intros Hi. unfold server_cmp, compare_servers, same_rank. rewrite (int_sub_id _ _ Hi).
  pose proof (protocol_value_inj (su_protocol a) (su_protocol b)) as Hinj.
  rewrite !andb_true_iff, !Z.eqb_eq, bool_decide_eq_true, <-Hinj.
  repeat (case_match || destruct (Z.eqb_spec _ _)); simplify_eq/=; lia.
Qed.

Lemma server_cmp_consistent l : priorities_fit l → consistent_on server_cmp l.
Proof.
  intros Hf. split.
  - intros x y Hx Hy. unfold server_cmp, compare_servers.
    rewrite !int_sub_id by auto. repeat case_match; lia.
  - intros x y z Hx Hy Hz. rewrite !server_cmp_spec by auto. unfold better_or_equal.
    rewrite <-!protocol_value_inj. lia.
Qed.

End Compare.

Lemma priorities_fit_sub k l :
  (∀ x, x ∈ k → x ∈ l) → priorities_fit l → priorities_fit k.
Proof. intros Hk Hl a b ? ?. apply Hl; auto. Qed.

Lemma same_rank_spec a b :
  same_rank a b = true ↔
  su_priority a = su_priority b ∧ su_protocol a = su_protocol b ∧ su_dnssec a = su_dnssec b.
Proof.
  unfold same_rank. rewrite !andb_true_iff, !Z.eqb_eq, bool_decide_eq_true. tauto.
Qed.

(** ** Deciding well-formedness, for concrete servers *)

Definition server_wf_check (s : server_uri_t) : bool :=
  bool_decide (ss_family (su_address s) ≠ AF_UNSPEC ∧ (0 ≤ sin_port (su_address s) < 65536)%Z ∧
    length (sin_addr (su_address s)) = 4 ∧
    Forall (λ b, 0 ≤ b < 256)%Z (sin_addr (su_address s)) ∧
    length (sin6_addr (su_address s)) = 16 ∧
    Forall (λ b, 0 ≤ b < 256)%Z (sin6_addr (su_address s)))
  && bool_decide ((INT_MIN ≤ su_priority s ≤ INT_MAX)%Z)
  && (String.length (su_interface s) <? IFNAMSIZ)
  && bool_decide (su_dnssec s = 0%Z ∨ su_dnssec s = 1%Z)
  && bool_decide (su_protocol s ≠ DNS_PROTOCOLS_END)
  && bool_decide (su_networks s = []).

Lemma server_wf_check_sound s : server_wf_check s = true → server_wf s.
Proof.
  unfold server_wf_check. rewrite !andb_true_iff, !bool_decide_eq_true, Nat.ltb_lt.
  intros (((((Ha & Hp) & Hi) & Hd) & Hq) & Hn). split; try done.
  - apply sockaddr_wf_bool. by apply bool_decide_eq_true.
  - rewrite Hn. constructor.
Qed.

Lemma servers_wf_check l : forallb server_wf_check l = true → Forall server_wf l.
Proof.
  rewrite forallb_forall. intros HF. apply Forall_forall. intros s Hs.
  apply server_wf_check_sound, HF. by apply list_elem_of_In.
Qed.
