(* ===== verification/ServerTable.v ===== *)
(** * From servers to domains: [server_list_to_hash_table]

    The table that maps every routing domain, and the reverse zone of every
    network, to the servers responsible for it, the preferred ones first. *)

From S2P Require Import Prelude CLib GLib SockAddr NetworkAddress ServerUri.

(** ** Definitions *)

Definition append_server (hash_table : server_table) (domain : string)
    (server : server_uri_t) : server_table :=
  match hash_table !! domain with
  | Some ((_ :: _) as server_sublist) => <[domain := server_sublist ++ [server]]> hash_table
  | _ => <[domain := [server]]> hash_table
  end.

(** The loop over the routing domains of a server. *)
Definition append_domains (hash_table : server_table)
    (server : server_uri_t) : server_table :=
  foldl (λ t domain, append_server t domain server) hash_table (su_routing_domains server).

(** The loop over its networks; [None] when one has no reverse zone. *)
Fixpoint append_networks (hash_table : server_table)
    (server : server_uri_t) (networks : list network_address) :
    option server_table :=
  match networks with
  | [] => Some hash_table
  | network :: rest =>
      domain_buffer ← network_address_t_to_reverse_dns network;
      append_networks (append_server hash_table domain_buffer server) server rest
  end.

(** The loop over the servers. *)
Fixpoint append_servers (hash_table : server_table)
    (server_list : list server_uri_t) : option server_table :=
  match server_list with
  | [] => Some hash_table
  | server :: rest =>
      hash_table' ← append_networks (append_domains hash_table server) server (su_networks server);
      append_servers hash_table' rest
  end.

(** [None] is a null pointer. *)
Definition server_list_to_hash_table `{GListSort} `{IntOverflow} (server_list : list server_uri_t) :
    option server_table :=
  match append_servers ∅ server_list with
  | Some hash_table => Some ((λ value, g_list_sort value server_cmp) <$> hash_table)
  | None => None
  end.

(** ** Specification *)

(** The zones a server is responsible for, in the order they are inserted. *)
Definition server_zones (server : server_uri_t) : list string :=
  su_routing_domains server ++ omap network_address_t_to_reverse_dns (su_networks server).

(** The servers responsible for [domain], once per mention. *)
Definition servers_for (domain : string) (servers : list server_uri_t) : list server_uri_t :=
  s ← servers; _ ← filter (.= domain) (server_zones s); [s].

(** ** Proofs *)

Lemma append_server_lookup t d d' s :
  (∀ l, t !! d = Some l → l ≠ []) →
  append_server t d s !! d' =
    if decide (d = d') then Some (default [] (t !! d) ++ [s]) else t !! d'.
Proof.
  intros Hne. unfold append_server. destruct (t !! d) as [[|x l]|] eqn:E; simpl.
  - by destruct (Hne [] eq_refl).
  - rewrite lookup_insert. done.
  - rewrite lookup_insert. done.
Qed.

(** The tables built hold, per domain, the servers appended so far. *)
Definition table_holds (f : string → list server_uri_t) (t : server_table) :
    Prop :=
  ∀ d, t !! d = match f d with [] => None | l => Some l end.

Lemma table_holds_append f t d s :
  table_holds f t →
  table_holds (λ d', f d' ++ (if decide (d = d') then [s] else [])) (append_server t d s).
Proof.
  intros Ht d'. rewrite append_server_lookup.
  - rewrite !Ht. case_decide; subst.
    + destruct (f d') as [|x l]; done.
    + by rewrite app_nil_r.
  - intros l. rewrite Ht. destruct (f d); naive_solver.
Qed.

Lemma table_holds_ext f g t : (∀ d, f d = g d) → table_holds f t → table_holds g t.
Proof. intros He Ht d. by rewrite <-He. Qed.

Lemma table_holds_fold f t s ds :
  table_holds f t →
  table_holds (λ d, f d ++ (_ ← filter (.= d) ds; [s]))
    (foldl (λ t domain, append_server t domain s) t ds).
Proof.
  revert f t. induction ds as [|d ds IH]; intros f t Ht; simpl.
  - eapply table_holds_ext; [|exact Ht]. intros d. by rewrite app_nil_r.
  - eapply table_holds_ext; [|apply IH; by apply table_holds_append].
    intros d'. simpl. rewrite <-app_assoc. f_equal. rewrite filter_cons.
    by repeat case_decide.
Qed.

Lemma append_networks_fold t s ns :
  (∀ n, n ∈ ns → is_Some (network_address_t_to_reverse_dns n)) →
  append_networks t s ns
  = Some (foldl (λ t domain, append_server t domain s) t
            (omap network_address_t_to_reverse_dns ns)).
Proof.
  revert t. induction ns as [|n ns IH]; intros t Hn; [done|]. simpl.
  destruct (Hn n) as [zone Hz]; [set_solver|]. rewrite Hz. simpl.
  apply IH. set_solver.
Qed.

Lemma append_networks_Some t t' s ns n :
  append_networks t s ns = Some t' → n ∈ ns → is_Some (network_address_t_to_reverse_dns n).
Proof.
  revert t. induction ns as [|m ns IH]; intros t; simpl; [set_solver|].
  destruct (network_address_t_to_reverse_dns m) eqn:E; simpl; [|done].
  intros ? [->|?]%elem_of_cons; eauto.
Qed.

(** Every network of the servers has a reverse zone. *)
Definition networks_named (servers : list server_uri_t) : Prop :=
  ∀ s n, s ∈ servers → n ∈ su_networks s → is_Some (network_address_t_to_reverse_dns n).

Lemma append_servers_holds f t servers :
  networks_named servers → table_holds f t →
  ∃ t', append_servers t servers = Some t' ∧
    table_holds (λ d, f d ++ servers_for d servers) t'.
Proof.
  revert f t. induction servers as [|s servers IH]; intros f t Hn Ht; simpl.
  - eexists. split; [done|]. eapply table_holds_ext; [|exact Ht]. intros d. by rewrite app_nil_r.
  - rewrite append_networks_fold by (intros n; apply Hn; set_solver). simpl.
    unfold append_domains. rewrite <-foldl_app.
    destruct (IH (λ d, f d ++ (_ ← filter (.= d) (server_zones s); [s]))
      (foldl (λ t domain, append_server t domain s) t (server_zones s))) as (t' & Et' & Ht').
    + intros s' n ? ?. eapply Hn; [|done]. set_solver.
    + by apply table_holds_fold.
    + exists t'. split; [done|]. eapply table_holds_ext; [|exact Ht'].
      intros d. simpl. by rewrite <-app_assoc.
Qed.

Lemma append_servers_Some t t' servers :
  append_servers t servers = Some t' → networks_named servers.
Proof.
  revert t. induction servers as [|s servers IH]; intros t; simpl.
  - intros _ ? ? ?. set_solver.
  - destruct (append_networks _ _ _) eqn:E; simpl; [|done].
    intros Ht s' n [->|Hs]%elem_of_cons Hn; [by eapply append_networks_Some|by eapply IH].
Qed.

Lemma elem_of_servers_for d servers s :
  s ∈ servers_for d servers ↔ s ∈ servers ∧ d ∈ server_zones s.
Proof.
  unfold servers_for. rewrite list_elem_of_bind. split.
  - intros (s' & Hs & Hin). apply list_elem_of_bind in Hs as (d' & Hd & Hf).
    apply list_elem_of_filter in Hf as [-> ?]. apply list_elem_of_singleton in Hd as ->. done.
  - intros [Hs Hd]. exists s. split; [|done]. apply list_elem_of_bind. exists d.
    split; [by apply list_elem_of_singleton|]. by apply list_elem_of_filter.
Qed.

Section Table.
Context `{GListSortLaws} `{IntOverflow}.

Lemma sort_nil_iff (l : list server_uri_t) : g_list_sort l server_cmp = [] ↔ l = [].
Proof.
  pose proof (sort_perm l server_cmp) as Hp. split; intros E.
  - rewrite E in Hp. by apply Permutation_nil_l in Hp.
  - subst. by apply Permutation_nil_r in Hp.
Qed.

Lemma hash_table_lookup (servers : list server_uri_t)
    (t : server_table) (d : string) :
  server_list_to_hash_table servers = Some t →
  t !! d = match servers_for d servers with
           | [] => None
           | l => Some (g_list_sort l server_cmp)
           end.
Proof.
  unfold server_list_to_hash_table. intros Ht.
  destruct (append_servers ∅ servers) as [t0|] eqn:E; simplify_eq.
  pose proof (append_servers_Some _ _ _ E) as Hn.
  destruct (append_servers_holds (λ _, []) ∅ servers Hn) as (t' & Et' & Hh);
    [intros d'; by rewrite lookup_empty|].
  rewrite lookup_fmap. assert (t' = t0) as -> by congruence. rewrite Hh. simpl.
  by destruct (servers_for d servers).
Qed.

(** C23: the table maps a domain to the sorted list of the servers that mention
    it as a routing domain or through a network, and holds nothing else. *)
Theorem server_list_to_hash_table_lookup (servers : list server_uri_t)
    (t : server_table) (d : string) :
  server_list_to_hash_table servers = Some t →
  t !! d = match servers_for d servers with
           | [] => None
           | l => Some (g_list_sort l server_cmp)
           end.
Proof. apply hash_table_lookup. Qed.

(** The conversion fails exactly when some network has no address family. *)
Lemma server_list_to_hash_table_total servers :
  is_Some (server_list_to_hash_table servers) ↔ networks_named servers.
Proof.
  unfold server_list_to_hash_table. split.
  - intros [t Ht]. destruct (append_servers ∅ servers) eqn:E; simplify_eq.
    by eapply append_servers_Some.
  - intros Hn. destruct (append_servers_holds (λ _, []) ∅ servers Hn) as (t' & -> & _); [|eauto].
    intros d. by rewrite lookup_empty.
Qed.

(** No list of the table is empty. *)
Lemma hash_table_not_nil servers t d l :
  server_list_to_hash_table servers = Some t → t !! d = Some l → l ≠ [].
Proof.
  intros Ht Hd. rewrite (hash_table_lookup _ _ d Ht) in Hd.
  destruct (servers_for d servers) eqn:E; simplify_eq. by rewrite sort_nil_iff.
Qed.

Lemma hash_table_elem servers t d l s :
  server_list_to_hash_table servers = Some t → t !! d = Some l →
  s ∈ l ↔ s ∈ servers ∧ d ∈ server_zones s.
Proof.
  intros Ht Hd. rewrite (hash_table_lookup _ _ d Ht) in Hd.
  rewrite <-elem_of_servers_for.
  destruct (servers_for d servers) eqn:E; simplify_eq. by rewrite sort_perm.
Qed.
End Table.

(** Tables as the program builds them. *)
Definition table_wf (t : server_table) : Prop :=
  ∀ d l, t !! d = Some l → l ≠ [] ∧ Forall server_wf l.

Lemma servers_wf_networks_named servers : Forall server_wf servers → networks_named servers.
Proof.
  rewrite Forall_forall. intros Hwf s n Hs Hn. pose proof (sw_networks _ (Hwf s Hs)) as Hnw.
  rewrite Forall_forall in Hnw. destruct (Hnw n Hn) as [[Hfam _ _ _] _].
  unfold network_address_t_to_reverse_dns. destruct (ss_family (na_address n)); [done|eauto..].
Qed.

(** Well-formed servers always give a table, a well-formed one. *)
Lemma server_list_to_hash_table_wf `{GListSortLaws} `{IntOverflow} servers :
  Forall server_wf servers →
  ∃ t, server_list_to_hash_table servers = Some t ∧ table_wf t.
Proof.
  intros Hwf. pose proof (servers_wf_networks_named _ Hwf) as Hn.
  apply server_list_to_hash_table_total in Hn as [t Ht]. exists t. split; [done|].
  intros d l Hd. split; [by eapply hash_table_not_nil|].
  rewrite Forall_forall in Hwf |- *. intros s Hs. apply Hwf.
  by apply (hash_table_elem _ _ _ _ s Ht Hd) in Hs as [? _].
Qed.

Section Order.
Context `{GListSortLaws} `{IntOverflow}.

(** C24: while the differences of priorities fit an [int], every list of the
    table is sorted from the best to the worst server (higher priority number
    first - the document of the API says that lower numbers are preferred -, then
    protocol, then DNSSEC), servers of one rank staying in the order of the input,
    and it does not depend on the implementation of the sort. *)
Theorem hash_table_sorted (servers : list server_uri_t) (t : server_table)
    (d : string) (l : list server_uri_t) :
  priorities_fit servers → server_list_to_hash_table servers = Some t → t !! d = Some l →
  StronglySorted better_or_equal l ∧
  l = insertion_sort (servers_for d servers) server_cmp ∧
  (∀ x, x ∈ l → filter (λ y, same_rank x y) l
                = filter (λ y, same_rank x y) (servers_for d servers)).
Proof.
  intros Hfit Ht Hd.
  assert (Hfit' : priorities_fit (servers_for d servers)).
  { eapply priorities_fit_sub; [|exact Hfit]. intros x. rewrite elem_of_servers_for. tauto. }
  assert (l = g_list_sort (servers_for d servers) server_cmp) as ->.
  { rewrite (hash_table_lookup _ _ d Ht) in Hd.
    by destruct (servers_for d servers); simplify_eq. }
  pose proof (server_cmp_consistent _ Hfit') as Hc.
  assert (Hin : ∀ x, x ∈ g_list_sort (servers_for d servers) server_cmp →
    x ∈ servers_for d servers) by (intros x; by rewrite sort_perm).
  split; [|split].
  - pose proof (sort_sorted _ _ Hc) as Hs. revert Hin Hs.
    generalize (g_list_sort (servers_for d servers) server_cmp). intros k Hin Hs.
    induction Hs as [|x k Hs IH HF]; constructor; [apply IH; set_solver|].
    rewrite Forall_forall in HF |- *. intros y Hy. apply server_cmp_spec; [|by apply HF].
    apply Hfit'; apply Hin; set_solver.
  - by apply g_list_sort_insertion.
  - intros x Hx%Hin. pose proof (sort_stable _ _ x Hc Hx) as Hst.
    assert (Hext : ∀ k : list server_uri_t, (∀ y, y ∈ k → y ∈ servers_for d servers) →
      filter (λ y, same_rank x y) k = filter (cmp_eqv server_cmp x) k).
    { induction k as [|y k IH]; intros Hk; [done|].
      rewrite !filter_cons, IH by (intros; apply Hk; set_solver).
      assert (same_rank x y ↔ cmp_eqv server_cmp x y) as Heq.
      { unfold cmp_eqv. rewrite server_cmp_zero, Is_true_true; [done|].
        apply Hfit'; [apply Hk; set_solver|done]. }
      repeat case_decide; tauto. }
    rewrite !Hext; auto.
Qed.

(** Two servers that the comparison separates. *)
Lemma sort_pair x y l :
  l = [x; y] ∨ l = [y; x] → (server_cmp x y < 0)%Z → (0 < server_cmp y x)%Z →
  g_list_sort l server_cmp = [x; y].
Proof.
  intros Hl Hxy Hyx.
  assert (Hself : ∀ s, server_cmp s s = 0%Z).
  { intros s. unfold server_cmp, compare_servers. rewrite int_sub_id, !Z.sub_diag; [done|].
    unfold in_int, INT_MIN, INT_MAX. lia. }
  assert (Hc : consistent_on server_cmp l).
  { assert (Hin : ∀ z, z ∈ l → z = x ∨ z = y)
      by (intros z Hz; destruct Hl as [->| ->]; set_solver).
    split; intros z1 z2; [|intros z3]; intros; repeat match goal with
      | H : ?z ∈ l |- _ => apply Hin in H as [->| ->] end; rewrite ?Hself in *; lia. }
  rewrite g_list_sort_insertion by done. destruct Hl as [->| ->]; simpl.
  - by rewrite (proj2 (Z.leb_le _ _)) by lia.
  - by rewrite (proj2 (Z.leb_gt _ _)) by lia.
Qed.

(** C25: when the priorities of two servers of a domain are more than [INT_MAX]
    apart, their order in the table is what undefined behaviour makes it, whatever
    the order of the input: the comparison is the result of a subtraction that
    does not fit an [int].  Where it wraps around, the less preferred server comes
    first (for a difference above 2^31); where the sign is kept, the preferred
    one. *)
Theorem hash_table_priority_overflow (a b : server_uri_t) (d : string) (l : list server_uri_t)
    (t : server_table) :
  in_int (su_priority a) → in_int (su_priority b) →
  (INT_MAX < su_priority b - su_priority a)%Z →
  l = [a; b] ∨ l = [b; a] → servers_for d l = l → server_list_to_hash_table l = Some t →
  better_or_equal b a ∧ ¬ better_or_equal a b ∧
  (int_overflow (su_priority b - su_priority a) ≠ 0%Z →
    server_cmp a b = int_overflow (su_priority b - su_priority a)) ∧
  ((∀ z, int_overflow z = int_wrap z) → (INT_MAX + 1 < su_priority b - su_priority a)%Z →
    t !! d = Some [a; b]) ∧
  ((∀ z, (0 < z → 0 < int_overflow z) ∧ (z < 0 → int_overflow z < 0))%Z → t !! d = Some [b; a]).
Proof.
  intros Ha Hb Hgap Hl Hfor Ht.
  assert (Hcmp : ∀ x y, int_sub (su_priority y) (su_priority x) ≠ 0%Z →
    server_cmp x y = int_sub (su_priority y) (su_priority x)).
  { intros x y Hne. unfold server_cmp, compare_servers. by rewrite (proj2 (Z.eqb_neq _ _)). }
  assert (Hout : int_sub (su_priority b) (su_priority a)
    = int_overflow (su_priority b - su_priority a)).
  { apply int_sub_out. unfold in_int. lia. }
  assert (Hsorted : t !! d = Some (g_list_sort l server_cmp)).
  { rewrite (hash_table_lookup _ _ d Ht), Hfor. by destruct Hl as [->| ->]. }
  split; [unfold better_or_equal, INT_MAX in *; lia|].
  split; [unfold better_or_equal, INT_MAX in *; lia|].
  split; [intros Hne; rewrite Hcmp by (by rewrite Hout); done|]. rewrite Hsorted. split.
  - intros Hwrap Hgap'. f_equal.
    assert (Hout' : int_sub (su_priority a) (su_priority b)
      = int_overflow (su_priority a - su_priority b)).
    { apply int_sub_out. unfold in_int, INT_MIN, INT_MAX in *. lia. }
    assert (int_wrap (su_priority b - su_priority a) = su_priority b - su_priority a - UINT_MOD)%Z as W1.
    { unfold int_wrap, in_int, INT_MIN, INT_MAX, UINT_MOD in *.
      rewrite <-(Z.mod_unique _ _ 1 (su_priority b - su_priority a - 2147483648)); lia. }
    assert (int_wrap (su_priority a - su_priority b) = su_priority a - su_priority b + UINT_MOD)%Z as W2.
    { unfold int_wrap, in_int, INT_MIN, INT_MAX, UINT_MOD in *.
      rewrite <-(Z.mod_unique _ _ (-1) (su_priority a - su_priority b + 4294967296 + 2147483648)); lia. }
    rewrite Hwrap in Hout, Hout'. unfold in_int, INT_MIN, INT_MAX, UINT_MOD in *.
    apply sort_pair; [done|rewrite Hcmp; lia..].
  - intros Hsign. f_equal. destruct (Hsign (su_priority b - su_priority a)%Z) as [Hpos _].
    destruct (Hsign (su_priority a - su_priority b)%Z) as [_ Hneg].
    assert (int_sub (su_priority a) (su_priority b) < 0)%Z.
    { unfold int_sub. case_bool_decide; unfold INT_MAX in *; lia. }
    unfold INT_MAX in *. apply sort_pair; [tauto|rewrite Hcmp; lia..].
Qed.
End Order.

Definition ex_server (p : Z) (domain : string) : server_uri_t :=
  ServerUri (SockAddr AF_INET 53 [10; 0; 0; 1]%Z (replicate 16 0%Z)) p "" 1 DNS_UDP None None
    [domain] [] [].

Definition ex_table : server_table :=
  default ∅ (server_list_to_hash_table
    [ex_server 5 "."; ex_server 20 "."; ex_server 7 "example.com"]).

Theorem server_list_to_hash_table_lookup_witness :
  ex_table !! "." = Some [ex_server 20 "."; ex_server 5 "."].
Proof.
  rewrite (server_list_to_hash_table_lookup
    [ex_server 5 "."; ex_server 20 "."; ex_server 7 "example.com"] ex_table ".").
  - vm_compute. reflexivity.
  - vm_compute. reflexivity.
Defined.

Lemma priorities_fit_bool l :
  forallb (λ a, forallb (λ b, (INT_MIN <=? su_priority a - su_priority b)%Z
    && (su_priority a - su_priority b <=? INT_MAX)%Z) l) l = true → priorities_fit l.
Proof.
  rewrite forallb_forall. intros HF a b Ha Hb. apply list_elem_of_In in Ha, Hb.
  specialize (HF a Ha). rewrite forallb_forall in HF. specialize (HF b Hb).
  unfold in_int. lia.
Qed.

Theorem hash_table_sorted_witness :
  StronglySorted better_or_equal [ex_server 20 "."; ex_server 5 "."].
Proof.
  apply (hash_table_sorted [ex_server 5 "."; ex_server 20 "."; ex_server 7 "example.com"]
    ex_table "." [ex_server 20 "."; ex_server 5 "."]).
  - apply priorities_fit_bool. vm_compute. reflexivity.
  - vm_compute. reflexivity.
  - vm_compute. reflexivity.
Defined.

Theorem hash_table_priority_overflow_witness :
  default ∅ (server_list_to_hash_table [ex_server 10 "."; ex_server INT_MIN "."]) !! "."
  = Some [ex_server INT_MIN "."; ex_server 10 "."].
Proof.
  destruct (hash_table_priority_overflow (ex_server INT_MIN ".") (ex_server 10 ".") "."
    [ex_server 10 "."; ex_server INT_MIN "."]
    (default ∅ (server_list_to_hash_table [ex_server 10 "."; ex_server INT_MIN "."])))
    as (_ & _ & _ & Hwrap & _).
  - split; vm_compute; discriminate.
  - split; vm_compute; discriminate.
  - vm_compute. reflexivity.
  - right. reflexivity.
  - vm_compute. reflexivity.
  - vm_compute. reflexivity.
  - apply Hwrap; [intros z; reflexivity|vm_compute; reflexivity].
Defined.
