(* ===== verification/ServerJson.v ===== *)
(** * Servers as JSON: src/src/types/server_uri.c

    [server_uri_to_json], which the status prints, and the parser of the servers
    given to the update command as JSON.  Jansson's text syntax is the interface
    [Jansson]; its values are the data below. *)

From S2P Require Import Prelude CLib GLib SockAddr NetworkAddress ServerUri.

(** ** Definitions *)

(** Values of Jansson; an object keeps its members in the order of insertion. *)
Inductive json :=
| JNull
| JBool (b : bool)
| JInteger (z : Z)
| JReal
| JString (s : string)
| JArray (l : list json)
| JObject (members : list (string * json)).

(** [json_object_get] and [json_object_set_new]. *)
Fixpoint json_object_get (members : list (string * json)) (key : string) : option json :=
  match members with
  | [] => None
  | (k, v) :: rest => if k ==s key then Some v else json_object_get rest key
  end.

Fixpoint json_object_set (members : list (string * json)) (key : string) (value : json) :
    list (string * json) :=
  match members with
  | [] => [(key, value)]
  | (k, v) :: rest =>
      if k ==s key then (k, value) :: rest else (k, v) :: json_object_set rest key value
  end.

Section Json.
Context `{Inet}.

(** The uninitialised memory [malloc] returns for a network. *)
Context (junk : sockaddr_storage).

Definition parse_json_port_field (field : json) (uri : server_uri_t) : option server_uri_t :=
  match field with
  | JInteger v => if (v <? 0)%Z || (65535 <? v)%Z then None
                  else Some (set_address (set_port v (su_address uri)) uri)
  | _ => None
  end.

(** [None] as the field is a null pointer. *)
Definition parse_json_address_field (field : option json) (uri : server_uri_t) :
    option server_uri_t :=
  match field with
  | Some (JString s) => a ← parse_ip_str s (su_address uri); Some (set_address a uri)
  | _ => None
  end.

Definition parse_json_protocol_field (field : json) (uri : server_uri_t) : option server_uri_t :=
  match field with
  | JString s =>
      let p := protocol_from_nstring s (String.length s) in
      if bool_decide (p = DNS_PROTOCOLS_END) then None else Some (set_protocol p uri)
  | _ => None
  end.

Definition parse_json_priority_field (field : json) (uri : server_uri_t) : option server_uri_t :=
  match field with
  | JInteger v => if (v <? INT_MIN)%Z || (INT_MAX <? v)%Z then None else Some (set_priority v uri)
  | _ => None
  end.

Definition parse_json_interface_field (field : json) (uri : server_uri_t) : option server_uri_t :=
  match field with
  | JString s => if IFNAMSIZ <=? String.length s then None else Some (set_interface s uri)
  | _ => None
  end.

Definition parse_json_dnssec_field (field : json) (uri : server_uri_t) : option server_uri_t :=
  match field with
  | JBool b => Some (set_dnssec (if b then 1 else 0)%Z uri)
  | JInteger v => Some (set_dnssec (if negb (v =? 0)%Z then 1 else 0)%Z uri)
  | JString s => if s ==s "0" then Some (set_dnssec 0%Z uri) else Some uri
  | _ => None
  end.

Definition parse_json_ca_field (field : json) (uri : server_uri_t) : option server_uri_t :=
  match field with
  | JString s => Some (set_certification_authority (Some s) uri)
  | _ => None
  end.

Definition parse_json_name_field (field : json) (uri : server_uri_t) : option server_uri_t :=
  match field with
  | JString s => Some (set_name (Some s) uri)
  | _ => None
  end.

(** The loop of the lists of strings, appending to [acc]. *)
Fixpoint parse_json_strings (l : list json) (acc : list string) : option (list string) :=
  match l with
  | [] => Some acc
  | JString s :: rest => parse_json_strings rest (acc ++ [s])
  | _ => None
  end.

Definition parse_json_string_list (field : json) (acc : list string) : option (list string) :=
  match field with JArray l => parse_json_strings l acc | _ => None end.

Definition parse_json_domains_field (field : json) (uri : server_uri_t) : option server_uri_t :=
  l ← parse_json_string_list field (su_routing_domains uri); Some (set_routing_domains l uri).

Definition parse_json_search_domains_field (field : json) (uri : server_uri_t) :
    option server_uri_t :=
  l ← parse_json_string_list field (su_search_domains uri); Some (set_search_domains l uri).

Fixpoint parse_json_networks (l : list json) (acc : list network_address) :
    option (list network_address) :=
  match l with
  | [] => Some acc
  | JString s :: rest =>
      net ← network_address_t_from_string s junk; parse_json_networks rest (acc ++ [net])
  | _ => None
  end.

Definition parse_json_networks_field (field : json) (uri : server_uri_t) : option server_uri_t :=
  match field with
  | JArray l => nets ← parse_json_networks l (su_networks uri); Some (set_networks nets uri)
  | _ => None
  end.

Definition optional_fields : list (string * (json → server_uri_t → option server_uri_t)) :=
  [("port", parse_json_port_field);
   ("protocol", parse_json_protocol_field);
   ("priority", parse_json_priority_field);
   ("interface", parse_json_interface_field);
   ("dnssec", parse_json_dnssec_field);
   ("ca", parse_json_ca_field);
   ("name", parse_json_name_field);
   ("routing_domains", parse_json_domains_field);
   ("search_domains", parse_json_search_domains_field);
   ("networks", parse_json_networks_field)].

(** The loop over the optional fields. *)
Fixpoint parse_optional_fields (members : list (string * json))
    (fields : list (string * (json → server_uri_t → option server_uri_t)))
    (uri : server_uri_t) : option server_uri_t :=
  match fields with
  | [] => Some uri
  | (key, parser) :: rest =>
      match json_object_get members key with
      | None => parse_optional_fields members rest uri
      | Some field => uri ← parser field uri; parse_optional_fields members rest uri
      end
  end.

(** The body of the loop over the array. *)
Definition parse_json_server (value : json) : option server_uri_t :=
  match value with
  | JObject members =>
      uri ← parse_json_address_field (json_object_get members "address") server_uri_t_init;
      parse_optional_fields members optional_fields uri
  | _ => None
  end.

Fixpoint parse_json_servers (l : list json) (acc : list server_uri_t) :
    option (list server_uri_t) :=
  match l with
  | [] => Some acc
  | value :: rest => uri ← parse_json_server value; parse_json_servers rest (acc ++ [uri])
  end.

(** After [json_loads]: [None] is the label [error]; the list returned is then
    null, as it is for an empty array. *)
Definition server_list_of_json (root : option json) : option (list server_uri_t) :=
  match root with Some (JArray l) => parse_json_servers l [] | _ => None end.

Definition server_uri_t_list_from_json (json_loads : string → option json) (server_list : string) :
    list server_uri_t := default [] (server_list_of_json (json_loads server_list)).

(** The text of a network, as the status prints it. *)
Definition json_network (net : network_address) : option json :=
  s ← network_address_to_string net; Some (JString s).

(** [None]: an address has no family, and a buffer is read unwritten. *)
Definition server_uri_to_json (server : server_uri_t) : option json :=
  addr_str ← ip_to_str (su_address server);
  networks_arr ← mapM json_network (su_networks server);
  let obj := json_object_set [] "address" (JString addr_str) in
  let obj := json_object_set obj "port" (JInteger (server_port server)) in
  let obj := json_object_set obj "name"
    (match su_name server with Some n => JString n | None => JNull end) in
  let obj := json_object_set obj "routing_domains" (JArray (JString <$> su_routing_domains server)) in
  let obj := json_object_set obj "search_domains" (JArray (JString <$> su_search_domains server)) in
  let obj := json_object_set obj "interface"
    (if negb (su_interface server ==s "") then JString (su_interface server) else JNull) in
  let obj := json_object_set obj "priority" (JInteger (su_priority server)) in
  let obj := json_object_set obj "protocol" (JString (dns_protocol_t_to_string (su_protocol server))) in
  let obj := json_object_set obj "dnssec" (JBool (negb (su_dnssec server =? 0)%Z)) in
  let obj := json_object_set obj "networks" (JArray networks_arr) in
  Some (JObject obj).
End Json.

(** ** Specification *)

(** An address with the bytes the program does not look at zeroed. *)
Definition canonical_address (zero : sockaddr_storage) (a : sockaddr_storage) : sockaddr_storage :=
  match ss_family a with
  | AF_INET => SockAddr AF_INET (sin_port a) (sin_addr a) (sin6_addr zero)
  | AF_INET6 => SockAddr AF_INET6 (sin_port a) (sin_addr zero) (sin6_addr a)
  | AF_UNSPEC => a
  end.

(** A network as it is read back into the memory [junk]. *)
Definition reread_network (junk : sockaddr_storage) (n : network_address) : network_address :=
  NetworkAddress (set_port (sin_port junk) (canonical_address junk (na_address n))) (na_prefix n).

(** A server as it is read back: without its CA, which is not printed. *)
Definition reread_server (junk : sockaddr_storage) (s : server_uri_t) : server_uri_t :=
  set_networks (reread_network junk <$> su_networks s)
    (set_certification_authority None
      (set_address (canonical_address sockaddr_zero (su_address s)) s)).

(** ** Proofs *)

Section JsonProofs.
Context `{InetLaws} (junk : sockaddr_storage).

Lemma parse_json_strings_map l acc : parse_json_strings (JString <$> l) acc = Some (acc ++ l).
Proof.
  revert acc. induction l as [|x l IH]; intros acc; simpl; [by rewrite app_nil_r|].
  rewrite IH. by rewrite <-app_assoc.
Qed.

Lemma parse_json_string_list_map l acc :
  parse_json_string_list (JArray (JString <$> l)) acc = Some (acc ++ l).
Proof. apply parse_json_strings_map. Qed.

Lemma parse_ip_canonical a b s :
  sockaddr_wf a → ip_to_str a = Some s →
  parse_ip_str s b = Some (set_port (sin_port b) (canonical_address b a)).
Proof.
  intros Ha Hs. destruct (parse_ip_to_str a b s Ha Hs) as (c & -> & Hf & Hp & Hbytes). f_equal.
  destruct Ha as [Hfam _ _ _]. unfold canonical_address, set_port. destruct c as [cf cp c4 c6].
  simpl in *. subst. destruct (ss_family a) eqn:E; [done|..]; destruct Hbytes as [-> ->]; done.
Qed.

Lemma network_reread n s :
  network_wf n → network_address_to_string n = Some s →
  network_address_t_from_string s junk = Some (reread_network junk n).
Proof.
  intros [Ha Hp Hp4] Hs. unfold network_address_to_string in Hs.
  destruct (ip_to_str (na_address n)) as [ip|] eqn:Hip; simplify_eq/=.
  pose proof (ip_to_str_length _ _ Ha Hip). pose proof (ip_to_str_chars _ _ Ha Hip) as Hch.
  unfold network_address_t_from_string.
  change (ip +:+ "/" +:+ fmt_d (na_prefix n)) with (ip +:+ String "/" (fmt_d (na_prefix n))).
  rewrite strchr_app.
  2: { intros Hin. rewrite Forall_forall in Hch. destruct (Hch _ Hin) as [[v Hv]|[?|?]]; done. }
  rewrite (proj2 (Nat.leb_gt _ _)) by done.
  rewrite strtol_fmt_d by (unfold LONG_MIN, LONG_MAX; lia).
  rewrite (proj2 (Z.ltb_ge _ _)), (proj2 (Z.ltb_ge 128 _)) by lia. simpl.
  rewrite (parse_ip_canonical _ _ _ Ha Hip). unfold reread_network.
  assert (ss_family (canonical_address junk (na_address n)) = ss_family (na_address n)) as Hf.
  { unfold canonical_address. by destruct (ss_family (na_address n)) eqn:E. }
  simpl. rewrite Hf. case_bool_decide as H4; [|done]. simpl.
  by rewrite (proj2 (Z.ltb_ge 32 _)) by auto.
Qed.

Lemma parse_json_networks_reread nets js acc :
  Forall network_wf nets → mapM json_network nets = Some js →
  parse_json_networks junk js acc = Some (acc ++ (reread_network junk <$> nets)).
Proof.
  intros Hn. revert js acc. induction Hn as [|n nets Hn Hns IH]; intros js acc Hjs.
  - apply (inj Some) in Hjs as <-. cbn. by rewrite app_nil_r.
  - apply mapM_Some in Hjs. inversion Hjs as [|? j ? js' Hj Hjs']; subst. clear Hjs.
    unfold json_network in Hj. destruct (network_address_to_string n) as [s|] eqn:Es; [|done].
    simplify_eq/=. rewrite (network_reread _ _ Hn Es). simpl.
    rewrite (IH js') by (by apply mapM_Some). by rewrite <-app_assoc.
Qed.

Lemma json_networks_Some nets : Forall network_wf nets → is_Some (mapM json_network nets).
Proof.
  intros Hn. apply mapM_is_Some. eapply Forall_impl; [exact Hn|]. intros n [Ha _ _].
  destruct (ip_to_str_Some _ Ha) as [s Hs].
  unfold compose, json_network, network_address_to_string. rewrite Hs. by eexists.
Qed.

#[local] Arguments Nat.leb : simpl never.
#[local] Arguments parse_json_string_list : simpl never.
#[local] Arguments fmap : simpl never.

Lemma server_json_inverse (s : server_uri_t) :
  server_wf s →
  ∃ j, server_uri_to_json s = Some j ∧
    parse_json_server junk j
    = (if bool_decide (is_Some (su_name s) ∧ su_interface s ≠ "")
       then Some (reread_server junk s) else None).
Proof.
  intros [Ha Hp Hi Hd Hq Hn].
  remember (bool_decide (is_Some (su_name s) ∧ su_interface s ≠ "")) as ok eqn:Hok.
  unfold server_uri_to_json.
  destruct (ip_to_str_Some _ Ha) as [addr Haddr]. rewrite Haddr.
  destruct (json_networks_Some _ Hn) as [js Hjs]. rewrite Hjs. simpl.
  eexists. split; [reflexivity|]. simpl.
  rewrite (parse_ip_canonical _ _ _ Ha Haddr). simpl.
  unfold server_port. pose proof (wf_port _ Ha).
  rewrite (proj2 (Z.ltb_ge (sin_port _) _)), (proj2 (Z.ltb_ge 65535 _)) by lia. simpl.
  assert (Hproto : protocol_from_nstring (dns_protocol_t_to_string (su_protocol s))
    (String.length (dns_protocol_t_to_string (su_protocol s))) = su_protocol s)
    by (by apply protocol_roundtrip).
  rewrite Hproto, (bool_decide_eq_false_2 (su_protocol s = _)) by done. simpl.
  destruct Hp as [Hp1 Hp2].
  rewrite (proj2 (Z.ltb_ge (su_priority s) _)), (proj2 (Z.ltb_ge INT_MAX _)) by lia. simpl.
  destruct (bool_decide_reflect (su_interface s = "")) as [Hif|Hif]; simpl.
  { rewrite Hok, bool_decide_eq_false_2; [done|]. by intros [_ ?]. }
  rewrite (proj2 (Nat.leb_gt _ _)) by done. simpl.
  destruct (su_name s) as [name|] eqn:Ename; simpl.
  2: { rewrite Hok, bool_decide_eq_false_2; [done|]. by intros [[? ?] _]. }
  unfold parse_json_domains_field, parse_json_search_domains_field.
  do 2 (rewrite parse_json_string_list_map; simpl).
  rewrite (parse_json_networks_reread _ _ _ Hn Hjs). simpl.
  rewrite Hok, bool_decide_eq_true_2 by (split; [by eexists|done]). f_equal.
  unfold reread_server, canonical_address, set_port.
  destruct s as [a pr iface dn pt ca nm rd sd nw]. simpl in *. subst.
  destruct Ha as [Hfam _ _ _]. 
  destruct Hd as [->| ->]; destruct (ss_family a) eqn:E; done.
Qed.

(** C20: round trip with a gap: the JSON object the status prints for a server is
    accepted by the parser of the update command exactly when the server has
    both a name and an interface - the [null]s printed otherwise are rejected -
    and is then read back as the same server without its CA. *)
Theorem server_json_roundtrip (s : server_uri_t) :
  server_wf s →
  ∃ j, server_uri_to_json s = Some j ∧
    parse_json_server junk j
    = (if bool_decide (is_Some (su_name s) ∧ su_interface s ≠ "")
       then Some (reread_server junk s) else None).
Proof. apply server_json_inverse. Qed.
End JsonProofs.

(** *** What is read from JSON is well formed *)

Section JsonWellFormed.
Context `{InetLaws} (json_loads : string → option json) (junk : sockaddr_storage).

Lemma parse_optional_fields_wf members fields u u' :
  (∀ key parser f v v', (key, parser) ∈ fields → server_wf v → parser f v = Some v' → server_wf v') →
  server_wf u → parse_optional_fields members fields u = Some u' → server_wf u'.
Proof.
  revert u. induction fields as [|[key parser] fields IH]; intros u Hp Hu; cbn; [by intros [= <-]|].
  destruct (json_object_get members key) as [f|].
  - destruct (parser f u) as [u1|] eqn:E; [|done]. cbn. apply IH.
    + intros. eapply Hp; [|done..]. by right.
    + eapply Hp; [by left|exact Hu|exact E].
  - apply IH; [|done]. intros. eapply Hp; [|done..]. by right.
Qed.

Lemma parse_json_networks_wf l acc nets :
  sockaddr_typed junk → Forall network_wf acc →
  parse_json_networks junk l acc = Some nets → Forall network_wf nets.
Proof.
  intros Hj. revert acc. induction l as [|j l IH]; intros acc Ha; cbn; [by intros [= <-]|].
  destruct j as [| | | |s| |]; try done.
  destruct (network_address_t_from_string s junk) as [n|] eqn:E; [|done]. cbn. apply IH.
  apply network_address_t_from_string_wf in E as [? _]; [|done]. apply Forall_app. auto.
Qed.

(** Every parser of a field keeps a server well formed. *)
Lemma optional_field_wf key parser f v v' :
  sockaddr_typed junk → (key, parser) ∈ optional_fields junk → server_wf v →
  parser f v = Some v' → server_wf v'.
Proof.
  intros Hj Hin [Ha Hp Hi Hd Hq Hn] Hv. pose proof Ha as [? ? ? ?]. unfold optional_fields in Hin. set_unfold in Hin.
  destruct_or! Hin; simplify_eq; destruct f; try done; cbn -[Nat.leb] in Hv.
  all: try (by repeat case_match; simplify_eq/=; split; try done; auto).
  - case_match eqn:E; simplify_eq. apply orb_false_iff in E as [? ?].
    split; simpl; try done. split; simpl; try done. lia.
  - case_bool_decide; simplify_eq. by split.
  - case_match eqn:E; simplify_eq. apply orb_false_iff in E as [? ?].
    split; simpl; try done. unfold in_int. lia.
  - case_match eqn:E; simplify_eq. apply Nat.leb_gt in E. by split.
  - destruct (parse_json_strings _ _); simplify_eq/=. by split.
  - destruct (parse_json_strings _ _); simplify_eq/=. by split.
  - destruct (parse_json_networks _ _ _) eqn:E; simplify_eq/=. split; simpl; try done.
    by eapply parse_json_networks_wf.
Qed.

Lemma parse_json_server_wf j u :
  sockaddr_typed junk → parse_json_server junk j = Some u → server_wf u.
Proof.
  intros Hj. destruct j as [| | | | | |members]; try done. unfold parse_json_server.
  destruct (json_object_get members "address") as [[| | | |s| |]|]; try done.
  cbn [parse_json_address_field su_address server_uri_t_init].
  destruct (parse_ip_str s sockaddr_zero) as [a|] eqn:Ha; [|done]. cbn [mbind option_bind].
  apply parse_ip_str_wf in Ha as [Ha _]; [|apply sockaddr_zero_typed].
  apply parse_optional_fields_wf.
  - intros key parser f v v'. by apply optional_field_wf.
  - split; simpl; [done|done|unfold IFNAMSIZ; lia|by right|done|constructor].
Qed.

Lemma parse_json_servers_wf l acc us :
  sockaddr_typed junk → Forall server_wf acc →
  parse_json_servers junk l acc = Some us → Forall server_wf us.
Proof.
  intros Hj. revert acc. induction l as [|j l IH]; intros acc Ha; cbn; [by intros [= <-]|].
  destruct (parse_json_server junk j) as [u|] eqn:E; [|done]. cbn. apply IH.
  apply Forall_app. split; [done|]. constructor; [|done]. by eapply parse_json_server_wf.
Qed.

Lemma list_from_json_wf text :
  sockaddr_typed junk → Forall server_wf (server_uri_t_list_from_json junk json_loads text).
Proof.
  intros Hj. unfold server_uri_t_list_from_json, server_list_of_json.
  destruct (json_loads text) as [[| | | | |l|]|]; try constructor.
  destruct (parse_json_servers junk l []) eqn:E; [|constructor]. by eapply parse_json_servers_wf.
Qed.

End JsonWellFormed.

Definition ex_named : server_uri_t :=
  ServerUri (SockAddr AF_INET 853 [10; 0; 0; 1]%Z (replicate 16 0%Z)) 5 "eth0" 1 DNS_TLS None
    (Some "dns.example") ["."] [] [].

Theorem server_json_roundtrip_witness :
  ∃ j, server_uri_to_json ex_named = Some j ∧
    parse_json_server sockaddr_zero j = Some (reread_server sockaddr_zero ex_named).
Proof.
  apply (server_json_roundtrip sockaddr_zero ex_named).
  apply server_wf_check_sound. vm_compute. reflexivity.
Defined.
