(* ===== verification/ServerParse.v ===== *)
(** * Server URIs: src/src/types/server_uri.c

    [parse_query] and [server_uri_t_init_from_string], over the interface
    [UriParser] of liburiparser. *)

From S2P Require Import Prelude CLib SockAddr NetworkAddress ServerUri ServerJson.

(** ** Definitions *)

(** A range of the text that was parsed: the characters from [first] up to
    [afterLast], and those from [afterLast] to the end of the string. *)
Record text_range := Range { tr_text : string; tr_rest : string }.

Record UriUriA := Uri {
  uri_scheme : string;
  uri_hostText : string;
  uri_portText : text_range;
  uri_query : string
}.

(** [None]: not [URI_SUCCESS]. *)
Class UriParser := {
  uriParseSingleUriA : string → option UriUriA;
  uriDissectQueryMallocA : string → option (list (string * option string))
}.

Section UriParsing.
Context `{Inet} `{UriParser}.
(** The uninitialised memory [malloc] returns for a network. *)
Context (junk : sockaddr_storage).

(** One iteration of the loop over the query; a null value is an error, an
    unknown key is skipped. *)
Definition parse_query_item (key : string) (value : option string) (uri : server_uri_t) :
    option server_uri_t :=
  match value with
  | None => None
  | Some value =>
      if key ==s "priority" then
        let '(temp_long, endptr) := strtol value in
        if (temp_long <? INT_MIN)%Z || (INT_MAX <? temp_long)%Z || negb (endptr ==s "")
        then None else Some (set_priority temp_long uri)
      else if key ==s "domain" then
        Some (set_routing_domains (su_routing_domains uri ++ [value]) uri)
      else if key ==s "search" then
        Some (set_search_domains (su_search_domains uri ++ [value]) uri)
      else if key ==s "interface" then
        if IFNAMSIZ <=? String.length value then None else Some (set_interface value uri)
      else if key ==s "dnssec" then
        Some (if String.prefix "0" value then set_dnssec 0 uri else uri)
      else if key ==s "ca" then Some (set_certification_authority (Some value) uri)
      else if key ==s "name" then Some (set_name (Some value) uri)
      else if key ==s "network" then
        new_net_address ← network_address_t_from_string value junk;
        Some (set_networks (su_networks uri ++ [new_net_address]) uri)
      else Some uri
  end.

Fixpoint parse_query_items (queryList : list (string * option string)) (uri : server_uri_t) :
    option server_uri_t :=
  match queryList with
  | [] => Some uri
  | (key, value) :: next => uri ← parse_query_item key value uri; parse_query_items next uri
  end.

Definition parse_query (query : string) (uri : server_uri_t) : option server_uri_t :=
  queryList ← uriDissectQueryMallocA query; parse_query_items queryList uri.

(** The host is copied to a buffer of [INET6_ADDRSTRLEN] bytes; with exactly as
    many characters the terminator is written after its end. *)
Definition server_uri_t_init_from_string (uri_string : string) : result server_uri_t :=
  match uriParseSingleUriA uri_string with
  | None => Fail
  | Some parsed_uri =>
      let uri := server_uri_t_init in
      let temp_length := String.length (uri_scheme parsed_uri) in
      let protocol := if 0 <? temp_length
                      then protocol_from_nstring (uri_scheme parsed_uri) temp_length
                      else su_protocol uri in
      if bool_decide (protocol = DNS_PROTOCOLS_END) then Fail
      else
        let uri := set_protocol protocol uri in
        let temp_length := String.length (uri_hostText parsed_uri) in
        if INET6_ADDRSTRLEN <? temp_length then Fail
        else if temp_length =? INET6_ADDRSTRLEN then Fault
        else
          match parse_ip_str (uri_hostText parsed_uri) (su_address uri) with
          | None => Fail
          | Some a =>
              let uri := set_address a uri in
              let portText := uri_portText parsed_uri in
              let temp_long := (strtol (tr_text portText +:+ tr_rest portText)).1 in
              let has_port := 0 <? String.length (tr_text portText) in
              if has_port && ((temp_long <? 0)%Z || (65535 <? temp_long)%Z) then Fail
              else
                let uri := if has_port
                           then set_address (set_port temp_long (su_address uri)) uri else uri in
                if 0 <? String.length (uri_query parsed_uri)
                then result_of_option (parse_query (uri_query parsed_uri) uri)
                else Ok uri
          end
  end.
End UriParsing.

(** ** Specification *)

(** The values of a key, in order. *)
Definition values (key : string) (items : list (string * option string)) : list string :=
  omap (λ '(k, v), if k ==s key then v else None) items.

(** What is required of an item. *)
Definition item_ok `{Inet} (junk : sockaddr_storage) (item : string * option string) : bool :=
  match item with
  | (_, None) => false
  | (k, Some v) =>
      if k ==s "priority" then bool_decide (in_int (strtol v).1 ∧ (strtol v).2 = "")
      else if k ==s "interface" then String.length v <? IFNAMSIZ
      else if k ==s "network" then
        bool_decide (is_Some (network_address_t_from_string v junk))
      else true
  end.

(** The server a query describes: of the keys with one value the last one
    counts, lists are collected in order, any [dnssec] that starts with 0
    turns DNSSEC off. *)
Definition queried `{Inet} (junk : sockaddr_storage) (items : list (string * option string))
    (u : server_uri_t) : server_uri_t :=
  ServerUri (su_address u)
    (default (su_priority u) ((λ v, (strtol v).1) <$> last (values "priority" items)))
    (default (su_interface u) (last (values "interface" items)))
    (if existsb (String.prefix "0") (values "dnssec" items) then 0 else su_dnssec u)%Z
    (su_protocol u)
    (match last (values "ca" items) with Some v => Some v | None => su_certification_authority u end)
    (match last (values "name" items) with Some v => Some v | None => su_name u end)
    (su_routing_domains u ++ values "domain" items)
    (su_search_domains u ++ values "search" items)
    (su_networks u ++ omap (λ v, network_address_t_from_string v junk) (values "network" items)).

Section QueryProofs.
Context `{Inet} (junk : sockaddr_storage).

Lemma values_cons_eq key v items : values key ((key, Some v) :: items) = v :: values key items.
Proof. unfold values. simpl. by rewrite bool_decide_eq_true_2. Qed.

Lemma values_cons_ne key k v items : k ≠ key → values key ((k, v) :: items) = values key items.
Proof. intros Hne. unfold values. simpl. by rewrite bool_decide_eq_false_2. Qed.

Lemma last_cons_default {A B} (f : A → B) (x : A) l d :
  default d (f <$> last (x :: l)) = default (f x) (f <$> last l).
Proof. rewrite last_cons. by destruct (last l). Qed.

(** Split on the key of an item. *)
Ltac by_key k :=
  repeat match goal with
    | |- context [bool_decide (k = ?key)] => destruct (decide (k = key)) as [->|?];
        [rewrite (bool_decide_eq_true_2 (key = key)) by done
        |rewrite (bool_decide_eq_false_2 (k = key)) by done]
    end.

Lemma item_refused item u : item_ok junk item = false → parse_query_item junk item.1 item.2 u = None.
Proof.
  destruct item as [k [v|]]; [|done]. unfold item_ok, parse_query_item. cbn [fst snd].
  by_key k; try done.
  - destruct (strtol v) as [z r]. cbn. intros Hf%bool_decide_eq_false.
    destruct (Z.ltb_spec z INT_MIN); [done|]. destruct (Z.ltb_spec INT_MAX z); [done|].
    destruct (decide (r = "")) as [->|]; [|by rewrite bool_decide_eq_false_2].
    destruct Hf. by unfold in_int.
  - intros Hlt%Nat.ltb_ge. by rewrite (proj2 (Nat.leb_le _ _)).
  - intros Hn%bool_decide_eq_false. destruct (network_address_t_from_string v junk); [|done].
    destruct Hn. by eexists.
Qed.

Lemma item_taken item items u :
  item_ok junk item = true →
  ∃ u', parse_query_item junk item.1 item.2 u = Some u' ∧
        queried junk (item :: items) u = queried junk items u'.
Proof.
  destruct item as [k [v|]]; [|done]. unfold item_ok, parse_query_item. cbn [fst snd].
  unfold queried. by_key k; intros Hok.
  all: rewrite ?values_cons_eq, ?(values_cons_ne _ k) by done;
    rewrite ?(values_cons_ne _ _ (Some v)) by discriminate.
  - apply bool_decide_eq_true in Hok as [[H1 H2] He]. destruct (strtol v) as [z r] eqn:E. cbn in *.
    subst r. rewrite (proj2 (Z.ltb_ge _ _)), (proj2 (Z.ltb_ge _ _)) by done. cbn.
    eexists. split; [done|]. cbn. by rewrite last_cons_default, E.
  - apply Nat.ltb_lt in Hok. rewrite (proj2 (Nat.leb_gt _ _)) by done.
    eexists. split; [done|]. cbn. rewrite last_cons. by destruct (last (values "interface" items)).
  - apply bool_decide_eq_true in Hok as [net Hnet]. rewrite Hnet. eexists. split; [done|].
    cbn. rewrite Hnet. by rewrite <-app_assoc.
  - eexists. split; [done|]. cbn. by rewrite <-app_assoc.
  - eexists. split; [done|]. cbn. by rewrite <-app_assoc.
  - eexists. split; [done|]. cbn. destruct (String.prefix "0" v); cbn; [|done].
    by destruct (existsb _ _).
  - eexists. split; [done|]. cbn. rewrite last_cons. by destruct (last (values "ca" items)).
  - eexists. split; [done|]. cbn. rewrite last_cons. by destruct (last (values "name" items)).
  - by eexists.
Qed.

(** The query of a URI is read to the end exactly when every item has a
    value that its key accepts, and then gives the server it describes, whatever
    the order of the keys and whatever unknown keys it has. *)
Theorem parse_query_items_spec (items : list (string * option string)) (u : server_uri_t) :
  parse_query_items junk items u
  = if forallb (item_ok junk) items then Some (queried junk items u) else None.
Proof.
  revert u. induction items as [|item items IH]; intros u.
  { destruct u; unfold queried; cbn. by rewrite !app_nil_r. }
  destruct item as [k v]. cbn [parse_query_items forallb].
  destruct (item_ok junk (k, v)) eqn:Hok.
  - destruct (item_taken _ items u Hok) as (u' & Hp & ->). cbn in Hp. rewrite Hp. apply IH.
  - apply (item_refused _ u) in Hok. cbn in Hok. by rewrite Hok.
Qed.
End QueryProofs.

(** ** Proofs: the outcomes *)

Section Outcomes.
Context `{InetLaws} `{UriParser} (junk : sockaddr_storage).

Lemma parse_query_item_wf k v u u' :
  sockaddr_typed junk → server_wf u → parse_query_item junk k v u = Some u' → server_wf u'.
Proof.
  intros Hj [Ha Hp Hi Hd Hq Hn]. unfold parse_query_item. destruct v as [v|]; [|done].
  destruct (k ==s "priority").
  { destruct (strtol v) as [z r]. destruct (Z.ltb_spec z INT_MIN), (Z.ltb_spec INT_MAX z),
      (r ==s ""); intros; simplify_eq/=; by split. }
  destruct (k ==s "domain"); [intros [= <-]; by split|].
  destruct (k ==s "search"); [intros [= <-]; by split|].
  destruct (k ==s "interface").
  { destruct (Nat.leb_spec IFNAMSIZ (String.length v)); [done|]. intros [= <-]. by split. }
  destruct (k ==s "dnssec"); [intros [= <-]; destruct (String.prefix "0" v); split; simpl; auto|].
  destruct (k ==s "ca"); [intros [= <-]; by split|].
  destruct (k ==s "name"); [intros [= <-]; by split|].
  destruct (k ==s "network"); [|by intros [= <-]].
  destruct (network_address_t_from_string v junk) as [net|] eqn:E; [|done]. intros [= <-].
  apply network_address_t_from_string_wf in E as [? _]; [|done].
  split; simpl; try done. apply Forall_app. auto.
Qed.

Lemma parse_query_wf q u u' :
  sockaddr_typed junk → server_wf u → parse_query junk q u = Some u' → server_wf u'.
Proof.
  intros Hj Hu. unfold parse_query. destruct (uriDissectQueryMallocA q) as [items|]; [|done].
  cbn. revert u Hu. induction items as [|[k v] items IH]; intros u Hu; cbn; [by intros [= <-]|].
  destruct (parse_query_item junk k v u) as [u1|] eqn:E; [|done].
  intros Hr. eapply IH; [|exact Hr]. by eapply parse_query_item_wf.
Qed.

Lemma new_server_wf a p :
  sockaddr_wf a → p ≠ DNS_PROTOCOLS_END →
  server_wf (set_address a (set_protocol p server_uri_t_init)).
Proof.
  intros Ha Hp. split; simpl; [done|done|unfold IFNAMSIZ; lia|by right|done|constructor].
Qed.

(** The query, when there is one, of a new server. *)
Lemma query_outcome q u :
  sockaddr_typed junk → server_wf u →
  let r := if 0 <? String.length q then result_of_option (parse_query junk q u) else Ok u in
  (∀ u', r = Ok u' → server_wf u') ∧ r ≠ Fault.
Proof.
  intros Hj Hu. cbv zeta. destruct (0 <? String.length q); [|split; [by intros ? [= <-]|done]].
  destruct (parse_query junk q u) as [u1|] eqn:E; [|done]. split; [|done]. intros u' [= <-].
  by eapply parse_query_wf.
Qed.

Lemma init_from_string_outcome (uri_string : string) :
  sockaddr_typed junk →
  (∀ u, server_uri_t_init_from_string junk uri_string = Ok u → server_wf u) ∧
  (server_uri_t_init_from_string junk uri_string = Fault ↔
   ∃ parsed, uriParseSingleUriA uri_string = Some parsed ∧
     (uri_scheme parsed = "" ∨
      protocol_from_nstring (uri_scheme parsed) (String.length (uri_scheme parsed))
        ≠ DNS_PROTOCOLS_END) ∧
     String.length (uri_hostText parsed) = INET6_ADDRSTRLEN).
Proof.
  intros Hj. unfold server_uri_t_init_from_string.
  destruct (uriParseSingleUriA uri_string) as [p|]; [|split; [done|]; split; [done|naive_solver]].
  set (proto := if 0 <? _ then _ else _).
  assert (proto ≠ DNS_PROTOCOLS_END ↔ uri_scheme p = "" ∨
    protocol_from_nstring (uri_scheme p) (String.length (uri_scheme p)) ≠ DNS_PROTOCOLS_END) as Hpr.
  { unfold proto. destruct (uri_scheme p); simpl; [split; [by left|done]|].
    split; [by right|by intros [?|?]]. }
  case_bool_decide as Hq; [split; [done|]; split; [done|]; naive_solver|].
  destruct (Nat.ltb_spec INET6_ADDRSTRLEN (String.length (uri_hostText p))).
  { split; [done|]. split; [done|]. intros (p' & [= <-] & _ & Hl). lia. }
  destruct (Nat.eqb_spec (String.length (uri_hostText p)) INET6_ADDRSTRLEN) as [Hl|Hl].
  { split; [done|]. split; [intros _; exists p; naive_solver|done]. }
  cbn [su_address set_protocol server_uri_t_init].
  destruct (parse_ip_str (uri_hostText p) sockaddr_zero) as [a|] eqn:Ea.
  2: { split; [done|]. split; [done|]. intros (p' & [= <-] & _ & ?). done. }
  apply parse_ip_str_wf in Ea as [Ha _]; [|apply sockaddr_zero_typed].
  assert (Hend : ∀ r : result server_uri_t, (∀ u, r = Ok u → server_wf u) ∧ r ≠ Fault →
    (∀ u, r = Ok u → server_wf u) ∧ (r = Fault ↔ ∃ parsed, Some p = Some parsed ∧
      (uri_scheme parsed = "" ∨ protocol_from_nstring (uri_scheme parsed)
        (String.length (uri_scheme parsed)) ≠ DNS_PROTOCOLS_END) ∧
      String.length (uri_hostText parsed) = INET6_ADDRSTRLEN)).
  { intros r [Hok Hf]. split; [done|]. split; [done|]. by intros (p' & [= <-] & _ & ?). }
  apply Hend. set (z := (strtol _).1). destruct (0 <? String.length (tr_text (uri_portText p))); cbn.
  - destruct (Z.ltb_spec z 0), (Z.ltb_spec 65535 z); try done.
    apply query_outcome; [done|]. apply (new_server_wf (set_port z a)); [|done].
    destruct Ha. split; simpl; try done. lia.
  - apply query_outcome; [done|]. by apply new_server_wf.
Qed.
Lemma init_from_string_wf uri_string u :
  sockaddr_typed junk → server_uri_t_init_from_string junk uri_string = Ok u → server_wf u.
Proof. intros Hj. by apply init_from_string_outcome. Qed.

(** C16: whatever liburiparser makes of the text, a server that is accepted is
    well formed; and the copy of the host leaves its buffer exactly when the
    protocol is accepted and the host has as many characters as the buffer. *)
Theorem uri_init_outcome (uri_string : string) :
  sockaddr_typed junk →
  (∀ u, server_uri_t_init_from_string junk uri_string = Ok u → server_wf u) ∧
  (server_uri_t_init_from_string junk uri_string = Fault ↔
   ∃ parsed, uriParseSingleUriA uri_string = Some parsed ∧
     (uri_scheme parsed = "" ∨
      protocol_from_nstring (uri_scheme parsed) (String.length (uri_scheme parsed))
        ≠ DNS_PROTOCOLS_END) ∧
     String.length (uri_hostText parsed) = INET6_ADDRSTRLEN).
Proof. apply init_from_string_outcome. Qed.
End Outcomes.

(** ** The text of a URI

    What RFC 3986 and the manual of liburiparser promise of URIs whose host is
    an address: the parts are found, and a query of plain characters is taken
    apart at the ampersands and at the first equality sign of each item. *)

Definition ascii_between (lo hi c : ascii) : bool :=
  ((N_of_ascii lo <=? N_of_ascii c) && (N_of_ascii c <=? N_of_ascii hi))%N.

(** Letters, digits and the marks that are not special in any part. *)
Definition plain_char (c : ascii) : bool :=
  ascii_between "a" "z" c || ascii_between "A" "Z" c || ascii_between "0" "9" c
  || bool_decide (c ∈ ["-"; "."; "_"; "/"; ":"; "+"]%char).
Definition plain (s : string) : Prop := Forall (λ c, plain_char c = true ∧ c ≠ "+"%char) (chars s).
Definition scheme_text (s : string) : Prop :=
  s ≠ "" ∧ Forall (λ c, plain_char c = true ∧ c ≠ ":"%char ∧ c ≠ "/"%char ∧ c ≠ "_"%char) (chars s)
  ∧ match s with String c _ => ascii_between "a" "z" c = true | EmptyString => True end.

Definition host_text (f : sa_family) (ip : string) : string :=
  match f with AF_INET => ip | _ => "[" +:+ ip +:+ "]" end.
Definition optional_text (mark text : string) : string := if text ==s "" then "" else mark +:+ text.

Definition uri_text (scheme host port query fragment : string) : string :=
  scheme +:+ "://" +:+ host +:+ optional_text ":" port +:+ optional_text "?" query
  +:+ optional_text "#" fragment.

Definition query_text (items : list (string * string)) : string :=
  string_join "&" ((λ '(k, v), k +:+ "=" +:+ v) <$> items).

Class UriLaws `{Inet} `{UriParser} : Prop := {
  uri_parse_text scheme a ip port items fragment :
    scheme_text scheme → sockaddr_wf a → ip_to_str a = Some ip →
    Forall (λ c, is_Some (digit_value c)) (chars port) →
    Forall (λ '(k, v), plain k ∧ plain v) items → plain fragment →
    uriParseSingleUriA
      (uri_text scheme (host_text (ss_family a) ip) port (query_text items) fragment)
    = Some (Uri scheme ip
        (Range port (optional_text "?" (query_text items) +:+ optional_text "#" fragment))
        (query_text items));
  uri_dissect_text items :
    items ≠ [] → Forall (λ '(k, v), plain k ∧ k ≠ "" ∧ plain v) items →
    uriDissectQueryMallocA (query_text items) = Some ((λ '(k, v), (k, Some v)) <$> items)
}.

(** ** Reference implementation of the interface *)

(** The text before and after the first [c]. *)
Definition cut (c : ascii) (s : string) : string * string := default (s, "") (strchr c s).

(** The host and the port of an authority. *)
Definition ref_authority (authority : string) : option (string * string) :=
  match authority with
  | String "[" literal => '(host, port) ← strchr "]" literal; Some (host, (cut ":" port).2)
  | _ => Some (cut ":" authority)
  end.

Definition ref_uri_parse (s : string) : option UriUriA :=
  let '(before, fragment) := cut "#" s in
  let '(hier, query) := cut "?" before in
  '(scheme, rest) ← strchr ":" hier;
  match rest with
  | String "/" (String "/" authority) =>
      '(host, port) ← ref_authority authority;
      Some (Uri scheme host
             (Range port (optional_text "?" query +:+ optional_text "#" fragment)) query)
  | _ => None
  end.

Definition ref_uri_dissect (s : string) : option (list (string * option string)) :=
  Some ((λ item, match strchr "=" item with Some (k, v) => (k, Some v) | None => (item, None) end)
        <$> strsep "&" s).

#[export] Instance reference_uri : UriParser :=
  {| uriParseSingleUriA := ref_uri_parse; uriDissectQueryMallocA := ref_uri_dissect |}.

(** *** The laws of the reference implementation *)

Lemma cut_optional (c : ascii) b t :
  c ∉ chars b → cut c (b +:+ optional_text (String c "") t) = (b, t).
Proof.
  intros Hb. unfold cut, optional_text. case_bool_decide as Ht.
  - subst. rewrite string_app_nil_r. by rewrite (proj2 (strchr_None _ _) Hb).
  - change (String c "" +:+ t) with (String c t). by rewrite strchr_app.
Qed.

(** The characters that end a part are not plain. *)
Lemma plain_char_marks c :
  plain_char c = true → c ∉ ["#"; "?"; "&"; "="; "["; "]"]%char.
Proof. revert c. by_chars. Qed.

Lemma colon_char_marks c : colon_char c → c ∉ ["#"; "?"; "["; "]"; "/"]%char.
Proof. unfold colon_char. revert c. by_chars. Qed.

Lemma digit_char_marks c : is_Some (digit_value c) → c ∉ ["#"; "?"; "["; "]"; ":"]%char.
Proof. revert c. by_chars. Qed.

Lemma not_in_chars (P : ascii → Prop) c s : Forall P (chars s) → ¬ P c → c ∉ chars s.
Proof. rewrite Forall_forall. intros HP Hc Hin. by apply Hc, HP. Qed.

Lemma optional_chars (P : ascii → Prop) m t :
  Forall P (chars m) → Forall P (chars t) → Forall P (chars (optional_text m t)).
Proof.
  intros Hm Ht. unfold optional_text. case_bool_decide; [constructor|].
  rewrite chars_app. by apply Forall_app.
Qed.

Lemma query_text_chars (P : ascii → Prop) items :
  P "&"%char → P "="%char →
  Forall (λ '(k, v), Forall P (chars k) ∧ Forall P (chars v)) items →
  Forall P (chars (query_text items)).
Proof.
  intros Ha He Hi. apply string_join_chars; [by constructor|].
  apply Forall_fmap. eapply Forall_impl; [exact Hi|]. intros [k v] [Hk Hv]. cbn.
  rewrite !chars_app. apply Forall_app. split; [done|]. by constructor.
Qed.

Lemma plain_impl (P : ascii → Prop) s :
  (∀ c, plain_char c = true → P c) → plain s → Forall P (chars s).
Proof. intros HP Hs. eapply Forall_impl; [exact Hs|]. intros c [? _]. auto. Qed.

Lemma ref_authority_plain s : "["%char ∉ chars s → ref_authority s = Some (cut ":" s).
Proof.
  destruct s as [|c s]; [done|]. intros Hc. cbn in Hc. apply not_elem_of_cons in Hc as [Hc _].
  by destruct c as [[] [] [] [] [] [] [] []].
Qed.

Section ReferenceUri.
Context `{InetLaws}.

Lemma ref_authority_host a ip port :
  sockaddr_wf a → ip_to_str a = Some ip → Forall (λ c, is_Some (digit_value c)) (chars port) →
  ref_authority (host_text (ss_family a) ip +:+ optional_text ":" port) = Some (ip, port).
Proof.
  intros Ha Hip Hport. pose proof (ip_to_str_chars _ _ Ha Hip) as Hch.
  unfold ip_to_str in Hip. destruct (ss_family a) eqn:Hf; simplify_eq; cbn [host_text].
  - assert (Hd : Forall dotted_char (chars (inet_ntop4 (sin_addr a)))).
    { destruct Ha. by apply ntop4_chars. }
    rewrite ref_authority_plain.
    + rewrite cut_optional; [done|]. eapply not_in_chars; [exact Hd|]. by intros [[]|].
    + rewrite chars_app, elem_of_app. intros [Hin|Hin]; revert Hin.
      * eapply not_in_chars; [exact Hch|]. by intros ?%colon_char_marks; set_solver.
      * eapply not_in_chars; [apply (optional_chars (λ c, c ≠ "["%char)); [by constructor|]|by auto].
        eapply Forall_impl; [exact Hport|]. intros c ?%digit_char_marks ->. set_solver.
  - rewrite <-string_app_assoc. cbn [ref_authority String.append].
    change ("[" +:+ (inet_ntop6 (sin6_addr a) +:+ "]") +:+ optional_text ":" port)
      with (String "[" ((inet_ntop6 (sin6_addr a) +:+ "]") +:+ optional_text ":" port)).
    cbn [ref_authority]. rewrite <-string_app_assoc.
    change ("]" +:+ optional_text ":" port) with (String "]" (optional_text ":" port)).
    rewrite strchr_app.
    + cbn. rewrite <-(string_app_nil_l (optional_text ":" port)), cut_optional; [done|].
      apply not_elem_of_nil.
    + eapply not_in_chars; [exact Hch|]. intros ?%colon_char_marks. set_solver.
Qed.

(** Nothing before the query holds a mark that starts the query or the fragment. *)
Lemma hier_chars scheme a ip port :
  scheme_text scheme → sockaddr_wf a → ip_to_str a = Some ip →
  Forall (λ c, is_Some (digit_value c)) (chars port) →
  Forall (λ c, c ∉ ["#"; "?"]%char)
    (chars (scheme +:+ "://" +:+ host_text (ss_family a) ip +:+ optional_text ":" port)).
Proof.
  intros (_ & Hs & _) Ha Hip Hport. rewrite !chars_app, !Forall_app. split; [|split; [|split]].
  - eapply Forall_impl; [exact Hs|]. intros c [?%plain_char_marks _]. set_solver.
  - repeat constructor; set_solver.
  - pose proof (ip_to_str_chars _ _ Ha Hip) as Hch.
    assert (Forall (λ c, c ∉ ["#"; "?"]%char) (chars ip)).
    { eapply Forall_impl; [exact Hch|]. intros c ?%colon_char_marks. set_solver. }
    destruct (ss_family a); cbn [host_text]; [|done|]; rewrite ?chars_app, ?Forall_app;
      repeat (split || constructor || done || set_solver).
  - apply optional_chars; [repeat constructor; set_solver|].
    eapply Forall_impl; [exact Hport|]. intros c ?%digit_char_marks. set_solver.
Qed.

Lemma ref_uri_parse_text scheme a ip port query fragment :
  scheme_text scheme → sockaddr_wf a → ip_to_str a = Some ip →
  Forall (λ c, is_Some (digit_value c)) (chars port) → "#"%char ∉ chars query →
  ref_uri_parse (uri_text scheme (host_text (ss_family a) ip) port query fragment)
  = Some (Uri scheme ip (Range port (optional_text "?" query +:+ optional_text "#" fragment)) query).
Proof.
  intros Hs Ha Hip Hport Hq. pose proof (hier_chars _ _ _ _ Hs Ha Hip Hport) as Hh.
  set (hier := scheme +:+ "://" +:+ host_text (ss_family a) ip +:+ optional_text ":" port) in *.
  assert (uri_text scheme (host_text (ss_family a) ip) port query fragment
    = (hier +:+ optional_text "?" query) +:+ optional_text "#" fragment) as ->.
  { unfold uri_text, hier. by rewrite !string_app_assoc. }
  unfold ref_uri_parse. rewrite cut_optional.
  - rewrite cut_optional; [|eapply not_in_chars; [exact Hh|set_solver]].
    unfold hier.
    change ("://" +:+ host_text (ss_family a) ip +:+ optional_text ":" port)
      with (String ":" ("//" +:+ host_text (ss_family a) ip +:+ optional_text ":" port)).
    rewrite strchr_app.
    + pose proof (ref_authority_host a ip port Ha Hip Hport) as Hhost. cbn [mbind option_bind].
      change ("//" +:+ ?x) with (String "/" (String "/" x)). cbn iota.
      rewrite Hhost. done.
    + destruct Hs as (_ & Hs & _). eapply not_in_chars; [exact Hs|]. by intros (_ & Hc & _).
  - rewrite chars_app, elem_of_app. intros [Hin|Hin]; revert Hin.
    + eapply not_in_chars; [exact Hh|set_solver].
    + unfold optional_text. case_bool_decide; [apply not_elem_of_nil|]. rewrite chars_app.
      rewrite elem_of_app. intros [Hin|?]; [set_solver|done].
Qed.

#[export] Instance reference_uri_laws : UriLaws.
Proof.
  split.
  - intros scheme a ip port items fragment Hs Ha Hip Hport Hi _.
    apply ref_uri_parse_text; try done. eapply not_in_chars with (P := λ c, c ≠ "#"%char); [|by auto].
    apply query_text_chars; [done|done|]. eapply Forall_impl; [exact Hi|]. intros [k v] [Hk Hv].
    split; (eapply plain_impl; [|done]); intros c ?%plain_char_marks; set_solver.
  - intros items Hne Hi. cbn. unfold ref_uri_dissect, query_text. f_equal.
    rewrite strsep_string_join.
    + rewrite <-list_fmap_compose. apply list_fmap_ext. intros i [k v] Hkv. cbn.
      eapply Forall_lookup_1 in Hi; [|exact Hkv]. destruct Hi as (Hk & _ & _).
      change (k +:+ "=" +:+ v) with (k +:+ String "=" v). rewrite strchr_app; [done|].
      eapply not_in_chars; [eapply (plain_impl (λ c, c ≠ "="%char)); [|exact Hk]|by auto].
      intros c ?%plain_char_marks. set_solver.
    + intros Hn%fmap_nil_inv. done.
    + apply Forall_fmap. eapply Forall_impl; [exact Hi|]. intros [k v] (Hk & _ & Hv). cbn.
      eapply not_in_chars with (P := λ c, c ≠ "&"%char); [|by auto]. rewrite !chars_app, !Forall_app.
      split; [|split]; [|by constructor|];
        (eapply plain_impl; [|done]); intros c ?%plain_char_marks; set_solver.
Qed.
End ReferenceUri.

(** ** Round trip

    The URI of a server, as the manual of the update command describes it. *)

Section Printer.
Context `{Inet}.

Definition uri_fields (s : server_uri_t) (nets : list string) : list (string * list string) :=
  [("priority", [fmt_d (su_priority s)]);
   ("interface", if su_interface s ==s "" then [] else [su_interface s]);
   ("dnssec", if (su_dnssec s =? 0)%Z then ["0"] else []);
   ("ca", option_list (su_certification_authority s));
   ("name", option_list (su_name s));
   ("domain", su_routing_domains s);
   ("search", su_search_domains s);
   ("network", nets)].

Definition uri_items (s : server_uri_t) (nets : list string) : list (string * string) :=
  '(k, vs) ← uri_fields s nets; (k,.) <$> vs.

Definition port_text (a : sockaddr_storage) : string :=
  if (sin_port a =? 0)%Z then "" else fmt_d (sin_port a).

Definition uri_of_server (s : server_uri_t) : option string :=
  ip ← ip_to_str (su_address s);
  nets ← mapM network_address_to_string (su_networks s);
  Some (uri_text (dns_protocol_t_to_string (su_protocol s))
         (host_text (ss_family (su_address s)) ip) (port_text (su_address s))
         (query_text (uri_items s nets)) "").
End Printer.

(** The strings that need no escapes. *)
Record server_plain (s : server_uri_t) : Prop := {
  sp_interface : plain (su_interface s);
  sp_ca : Forall plain (option_list (su_certification_authority s));
  sp_name : Forall plain (option_list (su_name s));
  sp_routing : Forall plain (su_routing_domains s);
  sp_search : Forall plain (su_search_domains s)
}.

(** A server after a round trip: only bytes the program does not look at may
    differ. *)
Definition uri_reread (junk : sockaddr_storage) (s : server_uri_t) : server_uri_t :=
  ServerUri (canonical_address sockaddr_zero (su_address s)) (su_priority s) (su_interface s)
    (su_dnssec s) (su_protocol s) (su_certification_authority s) (su_name s)
    (su_routing_domains s) (su_search_domains s) (reread_network junk <$> su_networks s).

Section RoundTrip.
Context `{UriLaws} `{!InetLaws} (junk : sockaddr_storage).

Lemma values_app key l1 l2 : values key (l1 ++ l2) = values key l1 ++ values key l2.
Proof. unfold values. apply omap_app. Qed.

Lemma values_fields key (fields : list (string * list string)) :
  values key ((λ '(k, v), (k, Some v)) <$> ('(k, vs) ← fields; (k,.) <$> vs))
  = '(k, vs) ← fields; if k ==s key then vs else [].
Proof.
  induction fields as [|[k vs] fields IH]; [done|]. cbn [mbind list_bind].
  rewrite fmap_app, values_app. f_equal; [|exact IH]. clear IH.
  destruct (decide (k = key)) as [->|Hne].
  - rewrite bool_decide_eq_true_2 by done. induction vs as [|v vs IH]; [done|].
    cbn [fmap list_fmap]. by rewrite values_cons_eq, IH.
  - rewrite bool_decide_eq_false_2 by done. induction vs as [|v vs IH]; [done|].
    cbn [fmap list_fmap]. by rewrite values_cons_ne.
Qed.

Lemma printable_plain s : Forall (λ c, is_Some (digit_value c) ∨ c = "-"%char) (chars s) → plain s.
Proof.
  intros Hs. eapply Forall_impl; [exact Hs|]. by_chars.
Qed.

Lemma fmt_d_plain z : plain (fmt_d z).
Proof. apply printable_plain, fmt_d_chars. Qed.

Lemma colon_plain s : Forall colon_char (chars s) → plain s.
Proof.
  intros Hs. eapply Forall_impl; [exact Hs|]. unfold colon_char. by_chars.
Qed.

Lemma network_text_plain n s :
  network_wf n → network_address_to_string n = Some s → plain s.
Proof.
  intros [Ha _ _] Hs. unfold network_address_to_string in Hs.
  destruct (ip_to_str (na_address n)) as [ip|] eqn:Hip; simplify_eq/=.
  unfold plain. rewrite !chars_app, !Forall_app. split; [|split].
  - by eapply colon_plain, ip_to_str_chars.
  - by repeat constructor.
  - apply fmt_d_plain.
Qed.

(** Every item of the query is plain and is accepted. *)
Lemma uri_fields_ok s nets :
  server_wf s → server_plain s → mapM network_address_to_string (su_networks s) = Some nets →
  Forall (λ '(k, vs), (plain k ∧ k ≠ "") ∧
    Forall (λ v, plain v ∧ item_ok junk (k, Some v) = true) vs) (uri_fields s nets).
Proof.
  intros [Ha Hp Hi Hd Hq Hn] [Pi Pc Pn Pr Ps] Hnets.
  assert (Hother : ∀ k vs, bool_decide (k ∈ ["dnssec"; "ca"; "name"; "domain"; "search"]) = true →
    Forall plain vs → Forall (λ v, plain v ∧ item_ok junk (k, Some v) = true) vs).
  { intros k vs Hk%bool_decide_eq_true HF. eapply Forall_impl; [exact HF|]. intros v Hv.
    split; [done|]. set_unfold in Hk. by destruct Hk as [->|[->|[->|[->|[->|[]]]]]]. }
  assert (Hkey : ∀ k : string, bool_decide (Forall (λ c, plain_char c = true ∧ c ≠ "+"%char) (chars k)
    ∧ k ≠ "") = true → plain k ∧ k ≠ "") by (intros k Hk; by apply bool_decide_eq_true in Hk).
  unfold uri_fields.
  repeat (apply Forall_cons_2; [split; [by apply Hkey|]|]); [..|by apply Forall_nil_2];
    try (by apply Hother).
  - apply Forall_singleton. split; [apply fmt_d_plain|]. cbn. rewrite strtol_fmt_d.
    + by apply bool_decide_eq_true.
    + unfold in_int, INT_MIN, INT_MAX in Hp. unfold LONG_MIN, LONG_MAX. lia.
  - case_bool_decide; constructor; [|constructor]. split; [done|].
    change (item_ok junk _) with (String.length (su_interface s) <? IFNAMSIZ). by apply Nat.ltb_lt.
  - destruct (su_dnssec s =? 0)%Z; constructor; [|constructor]. split; [|done].
    by apply (bool_decide_unpack _).
  - apply mapM_Some in Hnets. clear Ha Hp Hi Hd Hq Pi Pc Pn Pr Ps.
    induction Hnets as [|n v ns vs Hv _ IH]; [constructor|]. inversion Hn; subst.
    constructor; [|by apply IH]. split; [by eapply network_text_plain|].
    change (item_ok junk _) with (bool_decide (is_Some (network_address_t_from_string v junk))).
    apply bool_decide_eq_true. erewrite network_reread by done. by eexists.
Qed.

Lemma networks_requeried ns vs :
  Forall network_wf ns → Forall2 (λ n v, network_address_to_string n = Some v) ns vs →
  omap (λ v, network_address_t_from_string v junk) vs = reread_network junk <$> ns.
Proof.
  intros Hn HF. induction HF as [|n v ns vs Hv _ IH]; [done|]. inversion Hn; subst. cbn.
  erewrite network_reread by done. by rewrite IH.
Qed.

(** The text after a port does not go on with a digit. *)
Definition no_digit (s : string) : Prop :=
  match s with String c _ => digit_value c = None | EmptyString => True end.

(** A URI whose parts are those of an address. *)
Lemma init_of_parts text p a ip rest q :
  uriParseSingleUriA text = Some (Uri (dns_protocol_t_to_string p) ip (Range (port_text a) rest) q) →
  p ≠ DNS_PROTOCOLS_END → sockaddr_wf a → ip_to_str a = Some ip → no_digit rest →
  let u := set_address (canonical_address sockaddr_zero a) (set_protocol p server_uri_t_init) in
  server_uri_t_init_from_string junk text
  = if 0 <? String.length q then result_of_option (parse_query junk q u) else Ok u.
Proof.
  intros Hparse Hp Ha Hip Hrest. unfold server_uri_t_init_from_string. rewrite Hparse.
  cbn [uri_scheme uri_hostText uri_portText uri_query tr_text tr_rest].
  assert (Hlen : String.length (dns_protocol_t_to_string p) = 7) by (by destruct p).
  rewrite Hlen. change (0 <? 7) with true. cbv iota.
  rewrite <-Hlen, protocol_roundtrip by done.
  rewrite bool_decide_eq_false_2 by done.
  pose proof (ip_to_str_length _ _ Ha Hip) as Hl.
  rewrite (proj2 (Nat.ltb_ge _ _)), (proj2 (Nat.eqb_neq _ _)) by lia.
  rewrite (parse_ip_canonical a sockaddr_zero ip) by done.
  change (set_port (sin_port sockaddr_zero) (canonical_address sockaddr_zero a))
    with (set_port 0 (canonical_address sockaddr_zero a)).
  assert (Hport : set_port (sin_port a) (set_port 0 (canonical_address sockaddr_zero a))
    = canonical_address sockaddr_zero a).
  { unfold canonical_address. destruct a as [[] z s4 s6]; done. }
  pose proof (wf_port _ Ha). unfold port_text. destruct (Z.eqb_spec (sin_port a) 0) as [E|E].
  - rewrite E in Hport. change (set_port 0 (set_port 0 ?x)) with (set_port 0 x) in Hport.
    change (0 <? String.length "") with false. cbn [andb]. by rewrite Hport.
  - pose proof (fmt_d_not_nil (sin_port a)) as Hne.
    destruct (fmt_d (sin_port a)) as [|c s] eqn:Ef; [done|]. cbn [String.length]. rewrite <-Ef.
    change (0 <? S (String.length s)) with true.
    rewrite strtol_fmt_d_app by (done || unfold LONG_MIN, LONG_MAX; lia). cbn [fst].
    rewrite (proj2 (Z.ltb_ge _ _)), (proj2 (Z.ltb_ge _ _)) by lia. cbn [orb andb].
    unfold set_address at 1 2 3 4. cbn. by rewrite Hport.
Qed.

Lemma fields_item_ok fields :
  Forall (λ '(k, vs), (plain k ∧ k ≠ "") ∧
    Forall (λ v, plain v ∧ item_ok junk (k, Some v) = true) vs) fields →
  let items := '(k, vs) ← fields; (k,.) <$> vs in
  Forall (λ '(k, v), plain k ∧ k ≠ "" ∧ plain v) items ∧
  forallb (item_ok junk) ((λ '(k, v), (k, Some v)) <$> items) = true.
Proof.
  induction 1 as [|[k vs] fields [[Hk Hk0] Hvs] _ [IH1 IH2]]; [done|]. cbv zeta in *.
  cbn [mbind list_bind]. split.
  - apply Forall_app. split; [|exact IH1]. apply Forall_fmap. eapply Forall_impl; [exact Hvs|].
    by intros v [? _].
  - rewrite fmap_app, forallb_app. apply andb_true_iff. split; [|exact IH2].
    rewrite <-list_fmap_compose. clear IH1 IH2. induction Hvs as [|v vs [_ Hv] _ IH]; [done|].
    cbn [fmap list_fmap forallb]. unfold compose at 1. rewrite Hv. exact IH.
Qed.

Lemma queried_uri_items s nets :
  server_wf s → mapM network_address_to_string (su_networks s) = Some nets →
  queried junk ((λ '(k, v), (k, Some v)) <$> uri_items s nets)
    (set_address (canonical_address sockaddr_zero (su_address s))
      (set_protocol (su_protocol s) server_uri_t_init)) = uri_reread junk s.
Proof.
  intros [Ha Hp Hi Hd Hq Hn] Hnets%mapM_Some.
  unfold queried, uri_items. rewrite !values_fields. unfold uri_fields, uri_reread.
  cbn [mbind list_bind]. eval_keys. cbn -[strtol fmt_d]. f_equal.
  - rewrite strtol_fmt_d; [done|]. unfold in_int, INT_MIN, INT_MAX in Hp.
    unfold LONG_MIN, LONG_MAX. lia.
  - rewrite app_nil_r. by case_bool_decide.
  - rewrite app_nil_r. by destruct Hd as [-> | ->].
  - rewrite app_nil_r. by destruct (su_certification_authority s).
  - rewrite app_nil_r. by destruct (su_name s).
  - by rewrite app_nil_r.
  - by rewrite app_nil_r.
  - rewrite app_nil_r. by apply networks_requeried.
Qed.

Lemma no_digit_optional m c t : m = String c "" → digit_value c = None → ∀ r, no_digit r →
  no_digit (optional_text m t +:+ r).
Proof. intros -> Hc r Hr. unfold optional_text. by case_bool_decide. Qed.

Lemma protocol_scheme p : p ≠ DNS_PROTOCOLS_END → scheme_text (dns_protocol_t_to_string p).
Proof.
  intros Hp. split; [by destruct p|]. split; [|by destruct p].
  destruct p; try done; by apply (bool_decide_unpack _).
Qed.

Lemma port_digits a : sockaddr_wf a → Forall (λ c, is_Some (digit_value c)) (chars (port_text a)).
Proof.
  intros [_ Hp _ _]. unfold port_text. destruct (sin_port a =? 0)%Z; [constructor|].
  apply fmt_d_digits. lia.
Qed.

Lemma query_text_length k v items : 0 < String.length (query_text ((k, v) :: items)).
Proof.
  unfold query_text. cbn [fmap list_fmap string_join].
  destruct ((λ '(k, v), k +:+ "=" +:+ v) <$> items) as [|t ts];
    rewrite !string_length_app; simpl; lia.
Qed.

Lemma uri_reparsed (s : server_uri_t) :
  server_wf s → server_plain s →
  ∃ u, uri_of_server s = Some u ∧
    server_uri_t_init_from_string junk u = Ok (uri_reread junk s).
Proof.
  intros Hwf Hplain. pose proof Hwf as [Ha Hp Hi Hd Hq Hn].
  destruct (ip_to_str_Some _ Ha) as [ip Hip].
  destruct (network_texts_Some _ Hn) as [nets Hnets].
  destruct (fields_item_ok _ (uri_fields_ok _ _ Hwf Hplain Hnets)) as [Hitems Hok].
  fold (uri_items s nets) in Hitems, Hok.
  unfold uri_of_server. rewrite Hip, Hnets. cbn [mbind option_bind]. eexists. split; [done|].
  rewrite (init_of_parts _ (su_protocol s) (su_address s) ip
    (optional_text "?" (query_text (uri_items s nets)) +:+ optional_text "#" "")
    (query_text (uri_items s nets))); try done.
  - destruct (0 <? String.length (query_text (uri_items s nets))) eqn:Hlen.
    + unfold parse_query. rewrite uri_dissect_text by done. cbn [mbind option_bind].
      by rewrite parse_query_items_spec, Hok, queried_uri_items.
    + apply Nat.ltb_ge in Hlen. unfold uri_items, uri_fields in Hlen.
      cbn [mbind list_bind fmap list_fmap app] in Hlen.
      match type of Hlen with String.length (query_text ((?k, ?v) :: ?l)) ≤ 0 =>
        pose proof (query_text_length k v l) end. lia.
  - apply uri_parse_text; [by apply protocol_scheme|done|done|by apply port_digits| |constructor].
    eapply Forall_impl; [exact Hitems|]. intros [k v]. naive_solver.
  - eapply no_digit_optional; done.
Qed.
(** C17: every well-formed server has a URI - when its strings need no escapes -
    and the URI is parsed back to the server. *)
Theorem uri_roundtrip (s : server_uri_t) :
  server_wf s → server_plain s →
  ∃ u, uri_of_server s = Some u ∧
    server_uri_t_init_from_string junk u = Ok (uri_reread junk s).
Proof. apply uri_reparsed. Qed.
End RoundTrip.

(** ** Witnesses *)

Lemma plain_check s :
  forallb (λ c, plain_char c && negb (bool_decide (c = "+"%char))) (chars s) = true → plain s.
Proof.
  intros Hs. apply Forall_forall. intros c Hc. rewrite forallb_forall in Hs.
  apply list_elem_of_In, Hs, andb_true_iff in Hc as [? Hc]. split; [done|].
  by apply negb_true_iff, bool_decide_eq_false in Hc.
Qed.

(** A host name as long as the buffer. *)
Definition ex_long_host : string := "aaaaaaaaaaaaaaaaaaaaaaaaaaaaaaaaaaaaaaaaaaaaaa".

Theorem uri_init_outcome_witness :
  server_uri_t_init_from_string sockaddr_zero ("dns+udp://" +:+ ex_long_host) = Fault.
Proof.
  apply (uri_init_outcome sockaddr_zero ("dns+udp://" +:+ ex_long_host)).
  - apply sockaddr_zero_typed.
  - eexists. split; [vm_compute; reflexivity|]. split; [right; vm_compute; discriminate|reflexivity].
Defined.

Definition ex_uri_server : server_uri_t :=
  ServerUri (SockAddr AF_INET6 9000 (replicate 4 0%Z) [32; 1; 13; 184; 0; 0; 0; 0; 0; 0; 0; 0; 0; 0; 0; 1]%Z)
    (-7) "eth0" 0 DNS_TLS (Some "/etc/pki/ca.pem") (Some "dns.example") ["example.com"; "."]
    ["corp.example"] [].

Example ex_uri_text :
  uri_of_server ex_uri_server
  = Some ("dns+tls://[2001:0db8:0000:0000:0000:0000:0000:0001]:9000?priority=-7&interface=eth0"
      +:+ "&dnssec=0&ca=/etc/pki/ca.pem&name=dns.example&domain=example.com&domain=."
      +:+ "&search=corp.example").
Proof. vm_compute. reflexivity. Qed.

Lemma ex_uri_server_plain : server_plain ex_uri_server.
Proof.
  split; simpl; repeat (apply (Forall_cons_2 plain) || apply (Forall_nil_2 plain));
    by apply plain_check.
Qed.

Theorem uri_roundtrip_witness :
  ∃ u, uri_of_server ex_uri_server = Some u ∧
    server_uri_t_init_from_string sockaddr_zero u = Ok (uri_reread sockaddr_zero ex_uri_server).
Proof.
  apply (uri_roundtrip sockaddr_zero ex_uri_server).
  - apply server_wf_check_sound. vm_compute. reflexivity.
  - apply ex_uri_server_plain.
Defined.
