(* ===== verification/ConfigData.v ===== *)
(** * Configuration data: src/src/dnsconfd_config.h

    The configuration record, the exit codes and the resolution modes that the
    other components share.  A [NULL] string is [None], a [GList] is a list. *)

From S2P Require Import Prelude SockAddr ServerUri.

(** ** Definitions *)

Inductive exit_code_t :=
| EXIT_OK | EXIT_SERVICE_FAILURE | EXIT_DBUS_FAILURE | EXIT_RESOLV_CONF_FAILURE
| EXIT_CONFIG_FAILURE | EXIT_BAD_ARGUMENTS | EXIT_LOGS | EXIT_COMMAND_FAILURE
| EXIT_UPDATE_FAILURE | EXIT_FSM_FAILURE.
#[export] Instance exit_code_t_eq_dec : EqDecision exit_code_t.
Proof. solve_decision. Defined.

(** The value of the enumeration constant. *)
Definition exit_code_value (c : exit_code_t) : Z :=
  match c with
  | EXIT_OK => 0
  | EXIT_SERVICE_FAILURE => 8
  | EXIT_DBUS_FAILURE => 9
  | EXIT_RESOLV_CONF_FAILURE => 10
  | EXIT_CONFIG_FAILURE => 11
  | EXIT_BAD_ARGUMENTS => 13
  | EXIT_LOGS => 14
  | EXIT_COMMAND_FAILURE => 15
  | EXIT_UPDATE_FAILURE => 16
  | EXIT_FSM_FAILURE => 17
  end%Z.

Inductive dnsconfd_command_t :=
| COMMAND_START | COMMAND_STATUS | COMMAND_RELOAD | COMMAND_CONFIG | COMMAND_UPDATE.
#[export] Instance dnsconfd_command_t_eq_dec : EqDecision dnsconfd_command_t.
Proof. solve_decision. Defined.

Inductive dnsconfd_mode_t := MODE_BACKUP | MODE_PREFER | MODE_EXCLUSIVE.
#[export] Instance dnsconfd_mode_t_eq_dec : EqDecision dnsconfd_mode_t.
Proof. solve_decision. Defined.

Inductive config_boolean_t :=
| CONFIG_BOOLEAN_UNSET | CONFIG_BOOLEAN_TRUE | CONFIG_BOOLEAN_FALSE.
#[export] Instance config_boolean_t_eq_dec : EqDecision config_boolean_t.
Proof. solve_decision. Defined.

Record rpz_zone_t := RpzZone {
  rz_name : option string;
  rz_master : option string;
  rz_zonefile : option string
}.
#[export] Instance rpz_zone_t_eq_dec : EqDecision rpz_zone_t.
Proof. solve_decision. Defined.

(** The options of the subcommands are kept with the command line parsers. *)
Record dnsconfd_config_t := Config {
  file_log : option string;
  resolv_conf_path : option string;
  resolver_options : option string;
  config_file : option string;
  certification_authority : option string;
  static_servers : list server_uri_t;
  rpz_zones : list rpz_zone_t;
  listen_address : sockaddr_storage;
  command : dnsconfd_command_t;
  log_level : Z;
  stderr_log : config_boolean_t;
  syslog_log : config_boolean_t;
  prioritize_wire : config_boolean_t;
  dnssec_enabled : config_boolean_t
}.

(** Assignments to one member. *)
Definition set_file_log x c := Config x (resolv_conf_path c) (resolver_options c) (config_file
  c) (certification_authority c) (static_servers c) (rpz_zones c) (listen_address c) (command c)
  (log_level c) (stderr_log c) (syslog_log c) (prioritize_wire c) (dnssec_enabled c).
Definition set_resolv_conf_path x c := Config (file_log c) x (resolver_options c) (config_file
  c) (certification_authority c) (static_servers c) (rpz_zones c) (listen_address c) (command c)
  (log_level c) (stderr_log c) (syslog_log c) (prioritize_wire c) (dnssec_enabled c).
Definition set_resolver_options x c := Config (file_log c) (resolv_conf_path c) x (config_file
  c) (certification_authority c) (static_servers c) (rpz_zones c) (listen_address c) (command c)
  (log_level c) (stderr_log c) (syslog_log c) (prioritize_wire c) (dnssec_enabled c).
Definition set_config_file x c := Config (file_log c) (resolv_conf_path c) (resolver_options c)
  x (certification_authority c) (static_servers c) (rpz_zones c) (listen_address c) (command c)
  (log_level c) (stderr_log c) (syslog_log c) (prioritize_wire c) (dnssec_enabled c).
Definition set_certification_authority_option x c := Config (file_log c) (resolv_conf_path c)
  (resolver_options c) (config_file c) x (static_servers c) (rpz_zones c) (listen_address c)
  (command c) (log_level c) (stderr_log c) (syslog_log c) (prioritize_wire c) (dnssec_enabled
  c).
Definition set_static_servers x c := Config (file_log c) (resolv_conf_path c) (resolver_options
  c) (config_file c) (certification_authority c) x (rpz_zones c) (listen_address c) (command c)
  (log_level c) (stderr_log c) (syslog_log c) (prioritize_wire c) (dnssec_enabled c).
Definition set_rpz_zones x c := Config (file_log c) (resolv_conf_path c) (resolver_options c)
  (config_file c) (certification_authority c) (static_servers c) x (listen_address c) (command
  c) (log_level c) (stderr_log c) (syslog_log c) (prioritize_wire c) (dnssec_enabled c).
Definition set_listen_address x c := Config (file_log c) (resolv_conf_path c) (resolver_options
  c) (config_file c) (certification_authority c) (static_servers c) (rpz_zones c) x (command c)
  (log_level c) (stderr_log c) (syslog_log c) (prioritize_wire c) (dnssec_enabled c).
Definition set_command x c := Config (file_log c) (resolv_conf_path c) (resolver_options c)
  (config_file c) (certification_authority c) (static_servers c) (rpz_zones c) (listen_address
  c) x (log_level c) (stderr_log c) (syslog_log c) (prioritize_wire c) (dnssec_enabled c).
Definition set_log_level x c := Config (file_log c) (resolv_conf_path c) (resolver_options c)
  (config_file c) (certification_authority c) (static_servers c) (rpz_zones c) (listen_address
  c) (command c) x (stderr_log c) (syslog_log c) (prioritize_wire c) (dnssec_enabled c).
Definition set_stderr_log x c := Config (file_log c) (resolv_conf_path c) (resolver_options c)
  (config_file c) (certification_authority c) (static_servers c) (rpz_zones c) (listen_address
  c) (command c) (log_level c) x (syslog_log c) (prioritize_wire c) (dnssec_enabled c).
Definition set_syslog_log x c := Config (file_log c) (resolv_conf_path c) (resolver_options c)
  (config_file c) (certification_authority c) (static_servers c) (rpz_zones c) (listen_address
  c) (command c) (log_level c) (stderr_log c) x (prioritize_wire c) (dnssec_enabled c).
Definition set_prioritize_wire x c := Config (file_log c) (resolv_conf_path c) (resolver_options
  c) (config_file c) (certification_authority c) (static_servers c) (rpz_zones c)
  (listen_address c) (command c) (log_level c) (stderr_log c) (syslog_log c) x (dnssec_enabled
  c).
Definition set_dnssec_enabled x c := Config (file_log c) (resolv_conf_path c) (resolver_options
  c) (config_file c) (certification_authority c) (static_servers c) (rpz_zones c)
  (listen_address c) (command c) (log_level c) (stderr_log c) (syslog_log c) (prioritize_wire c)
  x.

(** Syslog levels. *)
Definition LOG_EMERG : Z := 0.
Definition LOG_ALERT : Z := 1.
Definition LOG_CRIT : Z := 2.
Definition LOG_ERR : Z := 3.
Definition LOG_WARNING : Z := 4.
Definition LOG_NOTICE : Z := 5.
Definition LOG_INFO : Z := 6.
Definition LOG_DEBUG : Z := 7.

Definition dnsconfd_mode_t_to_string (mode : dnsconfd_mode_t) : string :=
  match mode with
  | MODE_BACKUP => "backup"
  | MODE_PREFER => "prefer"
  | MODE_EXCLUSIVE => "exclusive"
  end.

(** What the daemon relies on: the strings it reads without a check are set,
    the listen address has a family, zones have names and the servers are
    well formed. *)
Record config_wf (c : dnsconfd_config_t) : Prop := {
  cw_resolv_conf : is_Some (resolv_conf_path c);
  cw_ca : is_Some (certification_authority c);
  cw_listen : sockaddr_wf (listen_address c);
  cw_rpz : Forall (λ z, is_Some (rz_name z)) (rpz_zones c);
  cw_servers : Forall server_wf (static_servers c)
}.
