(* ===== verification/ConfigFile.v ===== *)
(** * The configuration file: src/src/configuration_parsing/config_file.c

    The parser of the events of libyaml, and the files it includes.  The events
    a file gives, [stat] and [glob] are the interface [ConfigFiles]. *)

From S2P Require Import Prelude CLib SockAddr NetworkAddress ServerUri ServerJson ConfigData.

(** ** Definitions *)

(** [parse_log_level] of log_utilities.c and [parse_boolean] of config_utils.c. *)
Definition parse_log_level (arg : string) : Z :=
  if strcasecmp_eq arg "debug" then LOG_DEBUG
  else if strcasecmp_eq arg "info" then LOG_INFO
  else if strcasecmp_eq arg "notice" then LOG_NOTICE
  else if strcasecmp_eq arg "warning" then LOG_WARNING
  else if strcasecmp_eq arg "err" || strcasecmp_eq arg "error" then LOG_ERR
  else if strcasecmp_eq arg "crit" then LOG_CRIT
  else if strcasecmp_eq arg "alert" then LOG_ALERT
  else if strcasecmp_eq arg "emerg" then LOG_EMERG
  else -1.

Definition parse_boolean (str : string) : config_boolean_t :=
  if (str ==s "yes") || (str ==s "1") then CONFIG_BOOLEAN_TRUE else CONFIG_BOOLEAN_FALSE.

(** The value of an [int8_t] holding [z] modulo 2^8. *)
Definition int8_wrap (z : Z) : Z := ((z + 128) `mod` 256 - 128)%Z.

Inductive yaml_event_t :=
| YAML_SCALAR_EVENT (value : string)
| YAML_SEQUENCE_START_EVENT
| YAML_SEQUENCE_END_EVENT
| YAML_MAPPING_START_EVENT
| YAML_MAPPING_END_EVENT
| YAML_STREAM_END_EVENT
| YAML_OTHER_EVENT.

(** A function that reads events: a value with the events left, the status -1
    with its error string - [None] when none was set -, or a loop that reads the
    empty events after the end of the stream for ever. *)
Inductive parsing (A : Type) :=
| Parsed (a : A) (rest : list yaml_event_t)
| Refused (error_string : option string)
| Faults.
Arguments Parsed {A} a rest.
Arguments Refused {A} error_string.
Arguments Faults {A}.

(** What a file is parsed into: the configuration and the files to include. *)
Notation file_state := (dnsconfd_config_t * list string)%type.

Section Parser.
Context `{Inet}.
(** The uninitialised memory [malloc] returns for a network. *)
Context (junk : sockaddr_storage).
(** What follows the last event: an error of the scanner, or nothing. *)
Context (broken : bool).

(** [yaml_parser_parse] with no event left. *)
Definition no_event {A} (error_string : option string) : parsing A :=
  if broken then Refused error_string else Faults.

Definition parse_protocol_string (str : string) : dns_protocol_t :=
  if str ==s "dns+udp" then DNS_UDP
  else if str ==s "dns+tcp" then DNS_TCP
  else if str ==s "dns+tls" then DNS_TLS
  else DNS_PROTOCOLS_END.

Definition parse_priority_str (str : string) (server : server_uri_t) : option server_uri_t :=
  let '(temp_long, end_char) := strtol str in
  if (temp_long <? INT_MIN)%Z || (INT_MAX <? temp_long)%Z || negb (end_char ==s "") then None
  else Some (set_priority temp_long server).

Definition parse_port_str (str : string) (address : sockaddr_storage) : option sockaddr_storage :=
  let '(temp_long, end_char) := strtol str in
  if (temp_long <? 0)%Z || (65535 <? temp_long)%Z || negb (end_char ==s "") then None
  else Some (set_port temp_long address).

(** [parse_domains] of this file; the caller sets the error string. *)
Fixpoint parse_domain_list (events : list yaml_event_t) (dest_list : list string) :
    parsing (list string) :=
  match events with
  | [] => no_event None
  | YAML_SCALAR_EVENT domain :: rest => parse_domain_list rest (dest_list ++ [domain])
  | YAML_SEQUENCE_END_EVENT :: rest => Parsed dest_list rest
  | _ :: rest => parse_domain_list rest dest_list
  end.

(** [parse_networks] of this file. *)
Fixpoint parse_network_list (events : list yaml_event_t) (dest_list : list network_address) :
    parsing (list network_address) :=
  match events with
  | [] => no_event None
  | YAML_SCALAR_EVENT value :: rest =>
      match network_address_t_from_string value junk with
      | Some network => parse_network_list rest (dest_list ++ [network])
      | None => Refused None
      end
  | YAML_SEQUENCE_END_EVENT :: rest => Parsed dest_list rest
  | _ :: rest => parse_network_list rest dest_list
  end.

(** [calloc] and [dnssec = 1]. *)
Definition new_static_server : server_uri_t := server_uri_t_init.

(** The scalar value of a key of a server. *)
Definition server_scalar (current_key value : string) (current_server : server_uri_t) :
    option string + server_uri_t :=
  if current_key ==s "name" then inr (set_name (Some value) current_server)
  else if current_key ==s "protocol" then
    let protocol := parse_protocol_string value in
    if bool_decide (protocol = DNS_PROTOCOLS_END) then inl None
    else inr (set_protocol protocol current_server)
  else if current_key ==s "address" then
    match parse_ip_str value (su_address current_server) with
    | Some a => inr (set_address a current_server)
    | None => inl (Some "Failed to parse address in static_servers")
    end
  else if current_key ==s "port" then
    match parse_port_str value (su_address current_server) with
    | Some a => inr (set_address a current_server)
    | None => inl (Some "Failed to parse port in static_servers")
    end
  else if current_key ==s "dnssec" then
    inr (if negb (value ==s "1") && negb (value ==s "yes")
         then set_dnssec 0 current_server else current_server)
  else if current_key ==s "priority" then
    match parse_priority_str value current_server with
    | Some s => inr s
    | None => inl (Some "Failed to parse priority in static_servers")
    end
  else inl (Some "Unrecognized field in static_servers").

(** The sequence of a key of a server. *)
Definition server_sequence (current_key : string) (events : list yaml_event_t)
    (current_server : server_uri_t) : parsing server_uri_t :=
  if current_key ==s "routing_domains" then
    match parse_domain_list events (su_routing_domains current_server) with
    | Parsed l rest => Parsed (set_routing_domains l current_server) rest
    | Refused _ => Refused (Some "Failed to parse routing_domains in static_servers")
    | Faults => Faults
    end
  else if current_key ==s "search_domains" then
    match parse_domain_list events (su_search_domains current_server) with
    | Parsed l rest => Parsed (set_search_domains l current_server) rest
    | Refused _ => Refused (Some "Failed to parse search_domains in static_servers")
    | Faults => Faults
    end
  else if current_key ==s "networks" then
    match parse_network_list events (su_networks current_server) with
    | Parsed l rest => Parsed (set_networks l current_server) rest
    | Refused _ => Refused (Some "Failed to parse networks in static_servers")
    | Faults => Faults
    end
  else Refused (Some "Unrecognized sequence in static_servers").

(** The end of the mapping of a server; the status is -1 only for an address
    that is not set. *)
Definition server_end (current_server : server_uri_t) : option string + server_uri_t :=
  if bool_decide (ss_family (su_address current_server) = AF_UNSPEC)
  then inl (Some "Server in static_servers does not have address set")
  else
    let current_server := match su_routing_domains current_server with
                          | [] => set_routing_domains ["."] current_server
                          | _ => current_server end in
    inr (set_address (set_default_port (su_address current_server)
      (if negb (bool_decide (su_protocol current_server = DNS_TLS)) then 53 else 853)%Z)
      current_server).

(** The loop of [parse_static_servers]; the fuel is the number of events. *)
Fixpoint parse_static_servers_loop (fuel : nat) (events : list yaml_event_t)
    (current_server : option server_uri_t) (current_key : option string) (expect_key : bool)
    (static_servers : list server_uri_t) : parsing (list server_uri_t) :=
  match fuel, events with
  | _, [] => no_event (Some "Failed to parse configuration YAML")
  | 0, _ => Faults
  | S fuel, event :: rest =>
      match event with
      | YAML_SEQUENCE_START_EVENT =>
          match current_server, current_key with
          | Some server, Some key =>
              match server_sequence key rest server with
              | Parsed server rest =>
                  parse_static_servers_loop fuel rest (Some server) None true static_servers
              | Refused e => Refused e
              | Faults => Faults
              end
          | _, _ => Refused (Some "Badly formatted static_servers")
          end
      | YAML_MAPPING_START_EVENT =>
          match current_server with
          | Some _ => Refused (Some "Badly formatted static_servers")
          | None => parse_static_servers_loop fuel rest (Some new_static_server) current_key
                      expect_key static_servers
          end
      | YAML_MAPPING_END_EVENT =>
          match current_server with
          | Some server =>
              match server_end server with
              | inl e => Refused e
              | inr server => parse_static_servers_loop fuel rest None current_key expect_key
                                (static_servers ++ [server])
              end
          | None => parse_static_servers_loop fuel rest None current_key expect_key static_servers
          end
      | YAML_SCALAR_EVENT value =>
          if expect_key
          then parse_static_servers_loop fuel rest current_server (Some value) false static_servers
          else
            match current_server, current_key with
            | Some server, Some key =>
                match server_scalar key value server with
                | inl e => Refused e
                | inr server =>
                    parse_static_servers_loop fuel rest (Some server) None true static_servers
                end
            | _, _ => parse_static_servers_loop fuel rest current_server None true static_servers
            end
      | YAML_SEQUENCE_END_EVENT => Parsed static_servers rest
      | _ => parse_static_servers_loop fuel rest current_server current_key expect_key static_servers
      end
  end.

Definition parse_static_servers (events : list yaml_event_t) (static_servers : list server_uri_t) :
    parsing (list server_uri_t) :=
  parse_static_servers_loop (length events) events None None true static_servers.

(** The scalar value of a key of an RPZ zone. *)
Definition zone_scalar (current_key val : string) (current_zone : rpz_zone_t) :
    option string + rpz_zone_t :=
  if current_key ==s "name" then
    inr (RpzZone (Some val) (rz_master current_zone) (rz_zonefile current_zone))
  else if current_key ==s "master" then
    inr (RpzZone (rz_name current_zone) (Some val) (rz_zonefile current_zone))
  else if current_key ==s "zonefile" then
    inr (RpzZone (rz_name current_zone) (rz_master current_zone) (Some val))
  else inl (Some "Unrecognized field in rpz").

Definition zone_end (current_zone : rpz_zone_t) : option string + rpz_zone_t :=
  match rz_name current_zone, rz_master current_zone, rz_zonefile current_zone with
  | None, _, _ => inl (Some "RPZ zone does not have name set")
  | Some _, None, None => inl (Some "RPZ zone must have master, zonefile, or both")
  | _, _, _ => inr current_zone
  end.

(** The loop of [parse_rpz_zones]. *)
Fixpoint parse_rpz_zones_loop (events : list yaml_event_t) (current_zone : option rpz_zone_t)
    (current_key : option string) (expect_key : bool) (zones : list rpz_zone_t) :
    parsing (list rpz_zone_t) :=
  match events with
  | [] => no_event (Some "Failed to parse RPZ configuration YAML")
  | event :: rest =>
      match event with
      | YAML_MAPPING_START_EVENT =>
          match current_zone with
          | Some _ => Refused (Some "Badly formatted rpz")
          | None => parse_rpz_zones_loop rest (Some (RpzZone None None None)) current_key expect_key zones
          end
      | YAML_MAPPING_END_EVENT =>
          match current_zone with
          | Some zone =>
              match zone_end zone with
              | inl e => Refused e
              | inr zone => parse_rpz_zones_loop rest None current_key expect_key (zones ++ [zone])
              end
          | None => parse_rpz_zones_loop rest None current_key expect_key zones
          end
      | YAML_SCALAR_EVENT value =>
          if expect_key : bool
          then parse_rpz_zones_loop rest current_zone (Some value) false zones
          else
            match current_zone, current_key with
            | Some zone, Some key =>
                match zone_scalar key value zone with
                | inl e => Refused e
                | inr zone => parse_rpz_zones_loop rest (Some zone) None true zones
                end
            | _, _ => parse_rpz_zones_loop rest current_zone None true zones
            end
      | YAML_SEQUENCE_END_EVENT => Parsed zones rest
      | _ => parse_rpz_zones_loop rest current_zone current_key expect_key zones
      end
  end.

Definition parse_rpz_zones (events : list yaml_event_t) (zones : list rpz_zone_t) :
    parsing (list rpz_zone_t) := parse_rpz_zones_loop events None None true zones.

Definition duplicating_options (key value : string) (config : dnsconfd_config_t) :
    option string + dnsconfd_config_t :=
  if key ==s "file_log" then inr (set_file_log (Some value) config)
  else if key ==s "resolv_conf_path" then inr (set_resolv_conf_path (Some value) config)
  else if key ==s "resolver_options" then inr (set_resolver_options (Some value) config)
  else if key ==s "certification_authority" then
    inr (set_certification_authority_option (Some value) config)
  else inl (Some "Unrecognized option present in configuration YAML").

Fixpoint parse_include_list (events : list yaml_event_t) (include_paths : list string) :
    parsing (list string) :=
  match events with
  | [] => no_event (Some "Failed to parse include list YAML")
  | YAML_SCALAR_EVENT path :: rest => parse_include_list rest (include_paths ++ [path])
  | YAML_SEQUENCE_END_EVENT :: rest => Parsed include_paths rest
  | _ :: rest => parse_include_list rest include_paths
  end.

(** The scalar value of an option.  The level is kept in an [unsigned int], so
    the test for an error never succeeds. *)
Definition option_scalar (current_key value : string) (st : file_state) :
    option string + file_state :=
  let '(config, include_paths) := st in
  if current_key ==s "log_level" then
    let temp_val := uint_wrap (parse_log_level value) in
    if (temp_val <? 0)%Z then inl (Some "Failed to parse log level in configuration")
    else inr (set_log_level (int8_wrap temp_val) config, include_paths)
  else if current_key ==s "stderr_log" then
    inr (set_stderr_log (parse_boolean value) config, include_paths)
  else if current_key ==s "syslog_log" then
    inr (set_syslog_log (parse_boolean value) config, include_paths)
  else if current_key ==s "listen_address" then
    match parse_ip_str value (listen_address config) with
    | Some a => inr (set_listen_address a config, include_paths)
    | None => inl (Some "Failed to parse listen address in configuration")
    end
  else if current_key ==s "prioritize_wire" then
    inr (set_prioritize_wire (parse_boolean value) config, include_paths)
  else if current_key ==s "dnssec_enabled" then
    inr (set_dnssec_enabled (parse_boolean value) config, include_paths)
  else if current_key ==s "include" then inr (config, include_paths ++ [value])
  else match duplicating_options current_key value config with
       | inl e => inl e
       | inr config => inr (config, include_paths)
       end.

(** The sequence of an option; [None]: the events of other options are not
    treated as those of a sequence. *)
Definition option_sequence (current_key : option string) (events : list yaml_event_t)
    (st : file_state) : option (parsing file_state) :=
  let '(config, include_paths) := st in
  match current_key with
  | None => None
  | Some key =>
      if key ==s "static_servers" then
        Some (match parse_static_servers events (static_servers config) with
              | Parsed l rest => Parsed (set_static_servers l config, include_paths) rest
              | Refused e => Refused e
              | Faults => Faults
              end)
      else if key ==s "rpz" then
        Some (match parse_rpz_zones events (rpz_zones config) with
              | Parsed l rest => Parsed (set_rpz_zones l config, include_paths) rest
              | Refused e => Refused e
              | Faults => Faults
              end)
      else if key ==s "include" then
        Some (match parse_include_list events include_paths with
              | Parsed l rest => Parsed (config, l) rest
              | Refused e => Refused e
              | Faults => Faults
              end)
      else None
  end.

(** The loop of [parse_single_config_file]; the fuel is the number of events. *)
Fixpoint parse_file_loop (fuel : nat) (events : list yaml_event_t) (current_key : option string)
    (depth : nat) (expect_key : bool) (st : file_state) : parsing file_state :=
  match fuel, events with
  | _, [] => no_event (Some "Failed parse configuration YAML")
  | 0, _ => Faults
  | S fuel, event :: rest =>
      match event with
      | YAML_MAPPING_START_EVENT =>
          if 1 <? S depth then Refused (Some "Badly formatted YAML")
          else parse_file_loop fuel rest current_key (S depth) expect_key st
      | YAML_SEQUENCE_START_EVENT =>
          match option_sequence current_key rest st with
          | None => parse_file_loop fuel rest current_key depth expect_key st
          | Some (Parsed st rest) => parse_file_loop fuel rest None depth true st
          | Some (Refused e) => Refused e
          | Some Faults => Faults
          end
      | YAML_SCALAR_EVENT value =>
          if expect_key : bool then parse_file_loop fuel rest (Some value) depth false st
          else
            match current_key with
            | None => Faults
            | Some key =>
                match option_scalar key value st with
                | inl e => Refused e
                | inr st => parse_file_loop fuel rest None depth true st
                end
            end
      | YAML_STREAM_END_EVENT => Parsed st rest
      | _ => parse_file_loop fuel rest current_key depth expect_key st
      end
  end.
End Parser.

(** ** Definitions: files and includes *)

Inductive glob_result := GlobPaths (paths : list string) | GlobNoMatch | GlobError.

Class ConfigFiles := {
  (** The events of a file and whether the scanner fails after them; [None] when
      it cannot be opened. *)
  cf_events : string → option (list yaml_event_t * bool);
  (** Whether a path is a directory; [None] when [stat] fails. *)
  cf_stat : string → option bool;
  cf_glob : string → glob_result
}.

(** The result of a file, and of all files: [inl] is the status -1. *)
Definition file_outcome (A : Type) : Type := option (option string + A).

Section Files.
Context `{Inet} `{ConfigFiles}.
Context (junk : sockaddr_storage).

(** [None] is a fault. *)
Definition parse_single_config_file (path : string) (config : dnsconfd_config_t) :
    file_outcome file_state :=
  match cf_events path with
  | None => Some (inl (Some "Failed to open configuration file"))
  | Some (events, broken) =>
      match parse_file_loop junk broken (length events) events None 0 true (config, []) with
      | Parsed st _ => Some (inr st)
      | Refused e => Some (inl e)
      | Faults => None
      end
  end.

Fixpoint ends_with_slash (s : string) : bool :=
  match s with
  | EmptyString => false
  | String c EmptyString => bool_decide (c = "/"%char)
  | String _ s' => ends_with_slash s'
  end.

Definition make_dir_glob_pattern (dir_path : string) : string :=
  dir_path +:+ (if ends_with_slash dir_path then "*.conf" else "/*.conf").

(** [strpbrk(path, "*?[") != NULL]. *)
Definition has_wildcard (path : string) : bool :=
  existsb (λ c, bool_decide (c ∈ ["*"; "?"; "["]%char)) (chars path).

Definition append_glob (ret : glob_result) (files_to_parse : list string) :
    option string + list string :=
  match ret with
  | GlobNoMatch => inr files_to_parse
  | GlobError => inl (Some "Failed to expand include path")
  | GlobPaths paths => inr (files_to_parse ++ paths)
  end.

Definition resolve_include_path (include_path : string) (files_to_parse : list string) :
    option string + list string :=
  let stat_ret := cf_stat include_path in
  if match stat_ret with Some isdir => isdir | None => false end
  then append_glob (cf_glob (make_dir_glob_pattern include_path)) files_to_parse
  else if has_wildcard include_path then append_glob (cf_glob include_path) files_to_parse
  else match stat_ret with
       | None => inr files_to_parse
       | Some _ => inr (files_to_parse ++ [include_path])
       end.

Fixpoint resolve_include_paths (include_paths files_to_parse : list string) :
    option string + list string :=
  match include_paths with
  | [] => inr files_to_parse
  | path :: rest =>
      match resolve_include_path path files_to_parse with
      | inl e => inl e
      | inr files => resolve_include_paths rest files
      end
  end.

Definition MAX_INCLUDE_FILES : nat := 1000.

(** The loop over the files; [left] is [MAX_INCLUDE_FILES - files_processed].  The
    error of a file is printed with [%s], that of an included file here and that
    of the first file by the caller: the outcome [inl None] stands for a null
    string that is printed so, which is undefined behaviour. *)
Fixpoint parse_config_files (left : nat) (files_to_parse : list string)
    (config : dnsconfd_config_t) : file_outcome dnsconfd_config_t :=
  match files_to_parse with
  | [] => Some (inr config)
  | current_file :: rest =>
      match left with
      | 0 => Some (inl (Some "Too many configuration files included, possible cycle"))
      | S left' =>
          match parse_single_config_file current_file config with
          | None => None
          | Some (inl file_error) =>
              Some (inl (if left =? MAX_INCLUDE_FILES then file_error
                         else (λ _, "Error while processing included configuration file")
                              <$> file_error))
          | Some (inr (config, include_paths)) =>
              match resolve_include_paths include_paths rest with
              | inl e => Some (inl e)
              | inr files => parse_config_files left' files config
              end
          end
      end
  end.

Definition parse_config_file (path : string) (config : dnsconfd_config_t) :
    file_outcome dnsconfd_config_t := parse_config_files MAX_INCLUDE_FILES [path] config.
End Files.

(** ** Specification *)

(** What libyaml documents of its events: sequences are closed, and nothing
    follows the end of the stream.  [d] sequences are open. *)
Fixpoint nested (d : nat) (events : list yaml_event_t) : Prop :=
  match events with
  | [] => False
  | YAML_SEQUENCE_START_EVENT :: rest => nested (S d) rest
  | YAML_SEQUENCE_END_EVENT :: rest => match d with 0 => False | S d => nested d rest end
  | YAML_STREAM_END_EVENT :: rest => d = 0 ∧ rest = []
  | _ :: rest => nested d rest
  end.

(** The events of a file: complete, or cut off by an error. *)
Definition stream_ok (events : list yaml_event_t) (broken : bool) : Prop :=
  broken = true ∨ nested 0 events.

Class ConfigFilesLaws `{ConfigFiles} : Prop := {
  cf_events_ok path events broken : cf_events path = Some (events, broken) → stream_ok events broken
}.

(** What a configuration read so far satisfies. *)
Record partial_wf (c : dnsconfd_config_t) : Prop := {
  pw_servers : Forall server_wf (static_servers c);
  pw_rpz : Forall (λ z, is_Some (rz_name z)) (rpz_zones c);
  pw_listen : listen_address c = sockaddr_zero ∨ sockaddr_wf (listen_address c);
  pw_level : (-1 ≤ log_level c ≤ LOG_DEBUG)%Z
}.

(** ** Proofs: the events *)

Section EventProofs.
Context `{InetLaws} (junk : sockaddr_storage) (broken : bool).

(** At least [d] sequences are open, unless the events end with an error. *)
Definition tail_ok (d : nat) (events : list yaml_event_t) : Prop :=
  broken = true ∨ ∃ k, d ≤ k ∧ nested k events.

Lemma tail_weaken d d' events : d ≤ d' → tail_ok d' events → tail_ok d events.
Proof. intros Hd [?|(k & ? & ?)]; [by left|]. right. exists k. split; [lia|done]. Qed.

Lemma tail_nil d : tail_ok d [] → broken = true.
Proof. by intros [?|(k & _ & [])]. Qed.

Lemma tail_seq_start d rest : tail_ok d (YAML_SEQUENCE_START_EVENT :: rest) → tail_ok (S d) rest.
Proof. intros [?|(k & ? & ?)]; [by left|]. right. exists (S k). split; [lia|done]. Qed.

Lemma tail_seq_end d rest : tail_ok (S d) (YAML_SEQUENCE_END_EVENT :: rest) → tail_ok d rest.
Proof.
  intros [?|(k & Hk & Hn)]; [by left|]. right. destruct k as [|k]; [lia|]. exists k.
  split; [lia|done].
Qed.

Lemma tail_seq_end_0 rest : tail_ok 0 (YAML_SEQUENCE_END_EVENT :: rest) → tail_ok 0 rest.
Proof. intros [?|([|k] & Hk & Hn)]; [by left|done|]. right. exists k. split; [lia|done]. Qed.

(** Any other event inside of a sequence. *)
Lemma tail_step d e rest :
  e ≠ YAML_SEQUENCE_END_EVENT → tail_ok (S d) (e :: rest) → tail_ok (S d) rest.
Proof.
  intros He [?|(k & Hk & Hn)]; [by left|]. right. destruct e; try done.
  - by exists k.
  - exists (S k). split; [lia|done].
  - by exists k.
  - by exists k.
  - destruct Hn. lia.
  - by exists k.
Qed.

(** A parser that is called inside of a sequence ends after it - at the latest -
    and gives what satisfies [Q]. *)
Definition reads {A} (Q : A → Prop) (d : nat) (events : list yaml_event_t) (r : parsing A) : Prop :=
  match r with
  | Parsed a rest => Q a ∧ tail_ok d rest ∧ length rest < length events
  | Refused _ => True
  | Faults => False
  end.

Lemma reads_cons {A} (Q : A → Prop) d e rest r : reads Q d rest r → reads Q d (e :: rest) r.
Proof. destruct r as [a rest'| |]; simpl; [|done..]. intros (? & ? & ?). split_and!; [done..|lia]. Qed.

Lemma reads_le {A} (Q : A → Prop) d events events' r :
  length events ≤ length events' → reads Q d events r → reads Q d events' r.
Proof. intros Hl. destruct r as [a rest'| |]; simpl; [|done..]. intros (? & ? & ?). split_and!; [done..|lia]. Qed.

Lemma reads_nil {A} (Q : A → Prop) d d' e : tail_ok d' [] → reads Q d [] (no_event broken e : parsing A).
Proof. intros Hb%tail_nil. unfold no_event. by rewrite Hb. Qed.

Lemma parse_domain_list_reads events dest d :
  tail_ok (S d) events → reads (λ _, True) d events (parse_domain_list broken events dest).
Proof.
  revert dest. induction events as [|e events IH]; intros dest Ht; [by eapply reads_nil|].
  destruct e; cbn [parse_domain_list];
    try (apply reads_cons, IH; by eapply tail_step; [|exact Ht]).
  apply tail_seq_end in Ht. split; [done|split; [done|simpl; lia]].
Qed.

Lemma parse_include_list_reads events paths d :
  tail_ok (S d) events → reads (λ _, True) d events (parse_include_list broken events paths).
Proof.
  revert paths. induction events as [|e events IH]; intros paths Ht; [by eapply reads_nil|].
  destruct e; cbn [parse_include_list];
    try (apply reads_cons, IH; by eapply tail_step; [|exact Ht]).
  apply tail_seq_end in Ht. split; [done|split; [done|simpl; lia]].
Qed.

Lemma parse_network_list_reads events dest d :
  sockaddr_typed junk → Forall network_wf dest → tail_ok (S d) events →
  reads (Forall network_wf) d events (parse_network_list junk broken events dest).
Proof.
  intros Hj. revert dest. induction events as [|e events IH]; intros dest Hd Ht; [by eapply reads_nil|].
  destruct e as [v| | | | | |]; cbn [parse_network_list];
    try (apply reads_cons, IH; [done|]; by eapply tail_step; [|exact Ht]).
  - destruct (network_address_t_from_string v junk) as [n|] eqn:En; [|done].
    apply network_address_t_from_string_wf in En as [? _]; [|done].
    apply reads_cons, IH; [apply Forall_app; auto|]. by eapply tail_step; [|exact Ht].
  - apply tail_seq_end in Ht. split; [done|split; [done|simpl; lia]].
Qed.

(** A server whose address may still be missing. *)
Definition server_part (s : server_uri_t) : Prop :=
  sockaddr_typed (su_address s) ∧ ∀ a, sockaddr_wf a → server_wf (set_address a s).

Lemma new_static_server_part : server_part new_static_server.
Proof.
  split; [apply sockaddr_zero_typed|]. intros a Ha.
  split; simpl; [done|done|unfold IFNAMSIZ; lia|by right|done|constructor].
Qed.

Lemma parse_priority_str_part str s s' :
  server_part s → parse_priority_str str s = Some s' → server_part s'.
Proof.
  intros [Ht Hs] Hp. unfold parse_priority_str in Hp. destruct (strtol str) as [z r].
  destruct (Z.ltb_spec z INT_MIN), (Z.ltb_spec INT_MAX z), (r ==s ""); simplify_eq/=.
  split; [done|]. intros a Ha. by destruct (Hs a Ha).
Qed.

Lemma parse_port_str_typed str a a' :
  sockaddr_typed a → parse_port_str str a = Some a' → sockaddr_typed a'.
Proof.
  intros [? ? ?] Hp. unfold parse_port_str in Hp. destruct (strtol str) as [z r].
  destruct (Z.ltb_spec z 0), (Z.ltb_spec 65535 z), (r ==s ""); simplify_eq/=.
  split; simpl; try done. lia.
Qed.

Lemma server_scalar_part key value s s' :
  server_part s → server_scalar key value s = inr s' → server_part s'.
Proof.
  intros [Ht Hs]. unfold server_scalar.
  destruct (key ==s "name"); [intros [= <-]; split; [done|]; intros a Ha; by destruct (Hs a Ha)|].
  destruct (key ==s "protocol").
  { case_bool_decide; [done|]. intros [= <-]. split; [done|]. intros a Ha.
    by destruct (Hs a Ha). }
  destruct (key ==s "address").
  { destruct (parse_ip_str value (su_address s)) as [a|] eqn:E; [|done]. intros [= <-].
    apply parse_ip_str_wf in E as [Ha _]; [|done]. split; [by apply sockaddr_wf_typed|exact Hs]. }
  destruct (key ==s "port").
  { destruct (parse_port_str value (su_address s)) as [a|] eqn:E; [|done]. intros [= <-].
    apply parse_port_str_typed in E; [|done]. by split. }
  destruct (key ==s "dnssec").
  { intros [= <-]. destruct (negb _ && negb _); [|done]. split; [done|]. intros a Ha.
    destruct (Hs a Ha). split; simpl; try done. by left. }
  destruct (key ==s "priority"); [|done].
  destruct (parse_priority_str value s) as [s1|] eqn:E; [|done]. intros [= <-].
  by eapply parse_priority_str_part.
Qed.

Lemma server_sequence_reads key events s d :
  sockaddr_typed junk → server_part s → tail_ok (S d) events →
  reads server_part d events (server_sequence junk broken key events s).
Proof.
  intros Hj [Hty Hs] Ht. unfold server_sequence. repeat case_bool_decide; try done.
  - pose proof (parse_domain_list_reads events (su_routing_domains s) d Ht) as Hr.
    destruct (parse_domain_list _ _ _); simpl in *; [|done..]. destruct Hr as (_ & ? & ?).
    split; [|done]. split; [done|]. intros x Hx. by destruct (Hs x Hx).
  - pose proof (parse_domain_list_reads events (su_search_domains s) d Ht) as Hr.
    destruct (parse_domain_list _ _ _); simpl in *; [|done..]. destruct Hr as (_ & ? & ?).
    split; [|done]. split; [done|]. intros x Hx. by destruct (Hs x Hx).
  - assert (Forall network_wf (su_networks s)) as Hn.
    { assert (sockaddr_wf (SockAddr AF_INET 0 (replicate 4 0%Z) (replicate 16 0%Z))) as Hx
        by (by apply sockaddr_wf_bool). by destruct (Hs _ Hx). }
    pose proof (parse_network_list_reads events (su_networks s) d Hj Hn Ht) as Hr.
    destruct (parse_network_list _ _ _ _); simpl in *; [|done..]. destruct Hr as (Hl & ? & ?).
    split; [|done]. split; [done|]. intros x Hx. by destruct (Hs x Hx).
Qed.

Lemma server_end_wf s s' : server_part s → server_end s = inr s' → server_wf s'.
Proof.
  intros [[? ? ?] Hs]. unfold server_end. case_bool_decide as Hf; [done|]. intros [= <-].
  set (s1 := match su_routing_domains s with [] => _ | _ => _ end).
  assert (H1 : su_address s1 = su_address s ∧ ∀ a, sockaddr_wf a → server_wf (set_address a s1)).
  { unfold s1. destruct (su_routing_domains s); (split; [done|]); intros a Ha;
      by destruct (Hs a Ha). }
  destruct H1 as [Ha H1]. apply H1. rewrite Ha. apply set_default_port_wf; [by split|].
  by destruct (negb _).
Qed.

Lemma parse_static_servers_loop_reads fuel events server key expect servers d :
  sockaddr_typed junk → (∀ s, server = Some s → server_part s) → Forall server_wf servers →
  tail_ok (S d) events → length events ≤ fuel →
  reads (Forall server_wf) d events
    (parse_static_servers_loop junk broken fuel events server key expect servers).
Proof.
  intros Hj. revert events server key expect servers.
  induction fuel as [|fuel IH]; intros [|e events] server key expect servers Hs Hl Ht Hfuel;
    try (by eapply reads_nil); [simpl in Hfuel; lia|].
  assert (Hgo : ∀ server key expect servers, (∀ s, server = Some s → server_part s) →
    Forall server_wf servers → e ≠ YAML_SEQUENCE_END_EVENT →
    reads (Forall server_wf) d (e :: events)
      (parse_static_servers_loop junk broken fuel events server key expect servers)).
  { intros. apply reads_cons, IH; try done; [by eapply tail_step|simpl in Hfuel; lia]. }
  destruct e as [value| | | | | |]; cbn [parse_static_servers_loop]; try (by apply Hgo).
  - destruct expect; [by apply Hgo|]. destruct server as [s|]; [|by apply Hgo].
    destruct key as [k|]; [|by apply Hgo].
    destruct (server_scalar k value s) as [|s'] eqn:E; [done|]. apply Hgo; try done.
    intros ? [= <-]. eapply server_scalar_part; [by apply Hs|exact E].
  - destruct server as [s|]; [|done]. destruct key as [k|]; [|done]. apply tail_seq_start in Ht.
    pose proof (server_sequence_reads k events s (S d) Hj (Hs s eq_refl) Ht) as Hr.
    destruct (server_sequence _ _ _ _ _) as [s' rest| |]; [|done..]. destruct Hr as (Hs' & Ht' & Hlen).
    eapply (reads_le _ _ rest); [simpl; lia|]. apply IH; try done; [|simpl in Hfuel; lia].
    by intros ? [= <-].
  - apply tail_seq_end in Ht. split; [done|split; [done|simpl; lia]].
  - destruct server as [s|]; [done|]. apply Hgo; try done. intros ? [= <-].
    apply new_static_server_part.
  - destruct server as [s|]; [|by apply Hgo]. destruct (server_end s) as [|s'] eqn:E; [done|].
    apply Hgo; try done. apply Forall_app. split; [done|]. constructor; [|done].
    eapply server_end_wf; [by apply Hs|exact E].
Qed.

Lemma parse_rpz_zones_loop_reads events zone key expect zones d :
  Forall (λ z, is_Some (rz_name z)) zones → tail_ok (S d) events →
  reads (Forall (λ z, is_Some (rz_name z))) d events
    (parse_rpz_zones_loop broken events zone key expect zones).
Proof.
  revert zone key expect zones.
  induction events as [|e events IH]; intros zone key expect zones Hz Ht; [by eapply reads_nil|].
  assert (Hgo : ∀ zone key expect zones, Forall (λ z, is_Some (rz_name z)) zones →
    e ≠ YAML_SEQUENCE_END_EVENT → reads (Forall (λ z, is_Some (rz_name z))) d (e :: events)
      (parse_rpz_zones_loop broken events zone key expect zones)).
  { intros. apply reads_cons, IH; [done|by eapply tail_step]. }
  destruct e as [value| | | | | |]; cbn [parse_rpz_zones_loop]; try (by apply Hgo).
  - destruct expect; [by apply Hgo|]. destruct zone as [z|]; [|by apply Hgo].
    destruct key as [k|]; [|by apply Hgo]. destruct (zone_scalar k value z); [done|by apply Hgo].
  - apply tail_seq_end in Ht. split; [done|split; [done|simpl; lia]].
  - destruct zone; [done|by apply Hgo].
  - destruct zone as [z|]; [|by apply Hgo]. destruct (zone_end z) as [|z'] eqn:E; [done|].
    apply Hgo; [|done]. apply Forall_app. split; [done|]. constructor; [|done].
    unfold zone_end in E. destruct z as [[n|] m f]; [|done]. simpl in E.
    by destruct m, f; simplify_eq; eexists.
Qed.
End EventProofs.

(** ** Proofs: a file *)

Section FileProofs.
Context `{InetLaws} (junk : sockaddr_storage) (broken : bool).

Lemma parse_log_level_range v : (-1 ≤ parse_log_level v ≤ LOG_DEBUG)%Z.
Proof. unfold parse_log_level. repeat case_match; by vm_compute. Qed.

(** The level a file gives: an invalid one is taken as not set. *)
Lemma file_level v : int8_wrap (uint_wrap (parse_log_level v)) = parse_log_level v.
Proof.
  pose proof (parse_log_level_range v) as [? ?].
  assert (Hl : ∀ z, z ∈ [-1; 0; 1; 2; 3; 4; 5; 6; 7]%Z → int8_wrap (uint_wrap z) = z).
  { intros z Hz. repeat (apply elem_of_cons in Hz as [->|Hz]; [reflexivity|]). by apply not_elem_of_nil in Hz. }
  apply Hl. unfold LOG_DEBUG in *. rewrite !elem_of_cons. lia.
Qed.

Lemma duplicating_options_wf key value c c' :
  partial_wf c → duplicating_options key value c = inr c' → partial_wf c'.
Proof.
  intros [? ? ? ?]. unfold duplicating_options. intros Hd.
  repeat case_bool_decide; simplify_eq; by split.
Qed.

Lemma option_scalar_wf key value c inc st :
  partial_wf c → option_scalar key value (c, inc) = inr st → partial_wf st.1.
Proof.
  intros Hc. pose proof Hc as [Hs Hz Ha Hl]. unfold option_scalar. cbv zeta.
  destruct (key ==s "log_level").
  { rewrite file_level. destruct (_ <? 0)%Z; [done|]. intros [= <-]. split; simpl; try done.
    apply parse_log_level_range. }
  destruct (key ==s "stderr_log"); [intros [= <-]; by split|].
  destruct (key ==s "syslog_log"); [intros [= <-]; by split|].
  destruct (key ==s "listen_address").
  { destruct (parse_ip_str value (listen_address c)) as [a|] eqn:E; [|done]. intros [= <-].
    apply parse_ip_str_wf in E as [Hw _]; [by split; simpl; auto|].
    destruct Ha as [->|?]; [apply sockaddr_zero_typed|by apply sockaddr_wf_typed]. }
  destruct (key ==s "prioritize_wire"); [intros [= <-]; by split|].
  destruct (key ==s "dnssec_enabled"); [intros [= <-]; by split|].
  destruct (key ==s "include"); [by intros [= <-]|].
  destruct (duplicating_options key value c) eqn:E; [done|]. intros [= <-].
  by eapply duplicating_options_wf.
Qed.

Lemma option_sequence_reads key events c inc r :
  sockaddr_typed junk → partial_wf c → tail_ok broken 1 events →
  option_sequence junk broken key events (c, inc) = Some r →
  reads broken (λ st, partial_wf st.1) 0 events r.
Proof.
  intros Hj [Hs Hz Hla Hl] Ht. unfold option_sequence. destruct key as [key|]; [|done].
  destruct (key ==s "static_servers").
  { intros [= <-]. unfold parse_static_servers.
    pose proof (parse_static_servers_loop_reads junk broken (length events) events None None true
      (static_servers c) 0 Hj ltac:(done) Hs Ht (le_n _)) as Hr.
    destruct (parse_static_servers_loop _ _ _ _ _ _ _ _); simpl in *; [|done..].
    destruct Hr as (? & ? & ?). by split. }
  destruct (key ==s "rpz").
  { intros [= <-]. unfold parse_rpz_zones.
    pose proof (parse_rpz_zones_loop_reads broken events None None true (rpz_zones c) 0 Hz Ht) as Hr.
    destruct (parse_rpz_zones_loop _ _ _ _ _ _); simpl in *; [|done..].
    destruct Hr as (? & ? & ?). by split. }
  destruct (key ==s "include"); [|done]. intros [= <-].
  pose proof (parse_include_list_reads broken events inc 0 Ht) as Hr.
  destruct (parse_include_list _ _ _); simpl in *; [|done..]. by destruct Hr as (_ & ? & ?).
Qed.

Lemma parse_file_loop_reads fuel events key depth expect st :
  sockaddr_typed junk → partial_wf st.1 → (expect = false → is_Some key) →
  tail_ok broken 0 events → length events ≤ fuel →
  match parse_file_loop junk broken fuel events key depth expect st with
  | Parsed st' _ => partial_wf st'.1
  | Refused _ => True
  | Faults => False
  end.
Proof.
  intros Hj. revert events key depth expect st.
  induction fuel as [|fuel IH]; intros [|e events] key depth expect st Hc Hk Ht Hfuel;
    try (simpl; unfold no_event; by rewrite (tail_nil _ _ Ht)); [simpl in Hfuel; lia|].
  simpl in Hfuel. assert (Hlen : length events ≤ fuel) by lia.
  assert (Hother : e ≠ YAML_SEQUENCE_START_EVENT → e ≠ YAML_SEQUENCE_END_EVENT →
    e ≠ YAML_STREAM_END_EVENT → tail_ok broken 0 events).
  { intros ? ? ?. destruct Ht as [?|(k & ? & Hn)]; [by left|]. right. exists k. by destruct e. }
  destruct e as [value| | | | | |]; cbn [parse_file_loop].
  - destruct expect; [by apply IH; auto|]. destruct key as [k|]; [|by destruct (Hk eq_refl)].
    destruct st as [c inc]. destruct (option_scalar k value (c, inc)) as [|st] eqn:E; [done|].
    apply IH; auto; [|done]. by eapply option_scalar_wf.
  - destruct st as [c inc]. apply tail_seq_start in Ht.
    destruct (option_sequence junk broken key events (c, inc)) as [r|] eqn:E.
    + eapply option_sequence_reads in E; [|done..]. destruct r as [st' rest| |]; [|done..].
      destruct E as (Hst' & Ht' & Hl). apply IH; try done. simpl in *. lia.
    + apply IH; auto. by eapply tail_weaken; [|exact Ht]; lia.
  - apply IH; auto. by apply tail_seq_end_0.
  - destruct (1 <? S depth); [done|]. apply IH; auto.
  - apply IH; auto.
  - done.
  - apply IH; auto.
Qed.
End FileProofs.

Section FilesProofs.
Context `{InetLaws} `{ConfigFilesLaws} (junk : sockaddr_storage).

Lemma parse_single_config_file_wf path c :
  sockaddr_typed junk → partial_wf c →
  ∃ r, parse_single_config_file junk path c = Some r ∧
       match r with inr st => partial_wf st.1 | inl _ => True end.
Proof.
  intros Hj Hc. unfold parse_single_config_file.
  destruct (cf_events path) as [[events broken]|] eqn:E; [|by eexists].
  apply cf_events_ok in E. assert (Ht : tail_ok broken 0 events).
  { destruct E as [?|Hn]; [by left|]. right. by exists 0. }
  pose proof (parse_file_loop_reads junk broken (length events) events None 0 true (c, []) Hj Hc
    ltac:(done) Ht (le_n _)) as Hr.
  destruct (parse_file_loop _ _ _ _ _ _ _ _); [by eexists..|done].
Qed.

Lemma parse_config_files_wf left files c :
  sockaddr_typed junk → partial_wf c →
  ∃ r, parse_config_files junk left files c = Some r ∧
       match r with inr c' => partial_wf c' | inl _ => True end.
Proof.
  intros Hj. revert files c. induction left as [|left IH]; intros [|f files] c Hc;
    try (by eexists). cbn [parse_config_files].
  destruct (parse_single_config_file_wf f c Hj Hc) as (r & -> & Hr).
  destruct r as [e|[c' inc]]; [by eexists|]. simpl in Hr.
  destruct (resolve_include_paths inc files); [by eexists|]. by apply IH.
Qed.
End FilesProofs.
