(* ===== verification/ConfigDocument.v ===== *)
(** * What a configuration file means

    The documents of configuration files as events, and what the parser of
    ConfigFile makes of them; the files they include; the theorems about
    src/src/configuration_parsing/config_file.c. *)

From S2P Require Import Prelude CLib SockAddr NetworkAddress ServerUri ServerJson ConfigData.
From S2P Require Import ConfigFile.

(** ** Specification: a document and what it means

    The events of a document that is a mapping of options, with the servers and
    the zones written as lists of mappings. *)

Section Documents.
Context `{Inet}.

Definition scalar_events (k v : string) : list yaml_event_t :=
  [YAML_SCALAR_EVENT k; YAML_SCALAR_EVENT v].

Definition list_events (k : string) (vs : list string) : list yaml_event_t :=
  YAML_SCALAR_EVENT k :: YAML_SEQUENCE_START_EVENT :: (YAML_SCALAR_EVENT <$> vs)
  ++ [YAML_SEQUENCE_END_EVENT].

(** The mapping of a server, as the manual describes it. *)
Definition server_events (s : server_uri_t) (ip : string) (nets : list string) :
    list yaml_event_t :=
  YAML_MAPPING_START_EVENT ::
  scalar_events "address" ip
  ++ scalar_events "port" (fmt_d (server_port s))
  ++ scalar_events "priority" (fmt_d (su_priority s))
  ++ scalar_events "protocol" (dns_protocol_t_to_string (su_protocol s))
  ++ scalar_events "dnssec" (if (su_dnssec s =? 0)%Z then "no" else "yes")
  ++ (match su_name s with Some n => scalar_events "name" n | None => [] end)
  ++ list_events "routing_domains" (su_routing_domains s)
  ++ list_events "search_domains" (su_search_domains s)
  ++ list_events "networks" nets
  ++ [YAML_MAPPING_END_EVENT].

(** [None] when an address has no text. *)
Definition events_of_server (s : server_uri_t) : option (list yaml_event_t) :=
  ip ← ip_to_str (su_address s);
  nets ← mapM network_address_to_string (su_networks s);
  Some (server_events s ip nets).

Inductive document_entry :=
| EntryScalar (k v : string)
| EntryServers (servers : list server_uri_t)
| EntryIncludes (paths : list string).

Definition events_of_entry (entry : document_entry) : option (list yaml_event_t) :=
  match entry with
  | EntryScalar k v => Some (scalar_events k v)
  | EntryServers servers =>
      evs ← mapM events_of_server servers;
      Some (YAML_SCALAR_EVENT "static_servers" :: YAML_SEQUENCE_START_EVENT :: concat evs
            ++ [YAML_SEQUENCE_END_EVENT])
  | EntryIncludes paths => Some (list_events "include" paths)
  end.

Definition events_of_document (entries : list document_entry) : option (list yaml_event_t) :=
  evs ← mapM events_of_entry entries;
  Some (YAML_OTHER_EVENT :: YAML_OTHER_EVENT :: YAML_MAPPING_START_EVENT :: concat evs
        ++ [YAML_MAPPING_END_EVENT; YAML_OTHER_EVENT; YAML_STREAM_END_EVENT]).
End Documents.

(** The server a file gives: without interface and CA, which it cannot set, with
    a domain and a port. *)
Definition file_server (junk : sockaddr_storage) (s : server_uri_t) : server_uri_t :=
  let default_port := match su_protocol s with DNS_TLS => 853 | _ => 53 end%Z in
  ServerUri
    (set_port (if (server_port s =? 0)%Z then default_port else server_port s)
      (canonical_address sockaddr_zero (su_address s)))
    (su_priority s) "" (su_dnssec s) (su_protocol s) None (su_name s)
    (match su_routing_domains s with [] => ["."] | l => l end) (su_search_domains s)
    (reread_network junk <$> su_networks s).

(** What the options mean, one after the other: the first error counts. *)
Fixpoint document_meaning `{Inet} (junk : sockaddr_storage) (entries : list document_entry)
    (st : file_state) : option string + file_state :=
  match entries with
  | [] => inr st
  | EntryScalar k v :: rest =>
      match option_scalar k v st with
      | inl e => inl e
      | inr st => document_meaning junk rest st
      end
  | EntryServers servers :: rest =>
      document_meaning junk rest
        (set_static_servers (static_servers st.1 ++ (file_server junk <$> servers)) st.1, st.2)
  | EntryIncludes paths :: rest => document_meaning junk rest (st.1, st.2 ++ paths)
  end.

Section DocumentProofs.
Context `{InetLaws} (junk : sockaddr_storage) (broken : bool).

(** The loop over the servers, whatever fuel beyond the number of events. *)
Definition reads_servers (events : list yaml_event_t) (server : option server_uri_t)
    (servers : list server_uri_t) (r : parsing (list server_uri_t)) : Prop :=
  ∀ fuel, length events ≤ fuel →
    parse_static_servers_loop junk broken fuel events server None true servers = r.

Lemma reads_scalar k v s s' rest servers r :
  server_scalar k v s = inr s' → reads_servers rest (Some s') servers r →
  reads_servers (scalar_events k v ++ rest) (Some s) servers r.
Proof.
  intros Hs Hr fuel Hl. simpl in Hl. do 2 (destruct fuel as [|fuel]; [lia|]).
  cbn [app scalar_events parse_static_servers_loop]. rewrite Hs. apply Hr. lia.
Qed.

Lemma reads_list k vs s s' rest servers r :
  server_sequence junk broken k ((YAML_SCALAR_EVENT <$> vs) ++ YAML_SEQUENCE_END_EVENT :: rest) s
    = Parsed s' rest →
  reads_servers rest (Some s') servers r →
  reads_servers (list_events k vs ++ rest) (Some s) servers r.
Proof.
  intros Hs Hr fuel Hl. unfold list_events in *. cbn [app] in *. rewrite <-app_assoc in *.
  cbn [app] in *. simpl in Hl. rewrite length_app in Hl. simpl in Hl.
  do 2 (destruct fuel as [|fuel]; [lia|]).
  cbn [parse_static_servers_loop]. rewrite Hs. apply Hr. lia.
Qed.

Lemma parse_domain_list_scalars vs dest rest :
  parse_domain_list broken ((YAML_SCALAR_EVENT <$> vs) ++ YAML_SEQUENCE_END_EVENT :: rest) dest
  = Parsed (dest ++ vs) rest.
Proof.
  revert dest. induction vs as [|v vs IH]; intros dest; cbn; [by rewrite app_nil_r|].
  by rewrite IH, <-app_assoc.
Qed.

Lemma parse_include_list_scalars vs dest rest :
  parse_include_list broken ((YAML_SCALAR_EVENT <$> vs) ++ YAML_SEQUENCE_END_EVENT :: rest) dest
  = Parsed (dest ++ vs) rest.
Proof.
  revert dest. induction vs as [|v vs IH]; intros dest; cbn; [by rewrite app_nil_r|].
  by rewrite IH, <-app_assoc.
Qed.

Lemma parse_network_list_texts ns vs dest rest :
  Forall network_wf ns → Forall2 (λ n v, network_address_to_string n = Some v) ns vs →
  parse_network_list junk broken ((YAML_SCALAR_EVENT <$> vs) ++ YAML_SEQUENCE_END_EVENT :: rest) dest
  = Parsed (dest ++ (reread_network junk <$> ns)) rest.
Proof.
  intros Hn HF. revert dest Hn.
  induction HF as [|n v ns vs Hv _ IH]; intros dest Hn; cbn; [by rewrite app_nil_r|].
  inversion Hn; subst. erewrite network_reread by done. by rewrite IH, <-app_assoc.
Qed.

Lemma reads_start rest servers r :
  reads_servers rest (Some new_static_server) servers r →
  reads_servers (YAML_MAPPING_START_EVENT :: rest) None servers r.
Proof.
  intros Hr fuel Hl. simpl in Hl. destruct fuel as [|fuel]; [lia|]. apply Hr. lia.
Qed.

Lemma reads_end s s' rest servers r :
  server_end s = inr s' → reads_servers rest None (servers ++ [s']) r →
  reads_servers (YAML_MAPPING_END_EVENT :: rest) (Some s) servers r.
Proof.
  intros Hs Hr fuel Hl. simpl in Hl. destruct fuel as [|fuel]; [lia|].
  cbn [parse_static_servers_loop]. rewrite Hs. apply Hr. lia.
Qed.

(** The scalar fields, each on any server. *)
Lemma scalar_address a ip u :
  sockaddr_wf a → ip_to_str a = Some ip → su_address u = sockaddr_zero →
  server_scalar "address" ip u = inr (set_address (set_port 0 (canonical_address sockaddr_zero a)) u).
Proof.
  intros Ha Hip Hu. unfold server_scalar. eval_keys. cbv iota. rewrite Hu.
  by rewrite (parse_ip_canonical a sockaddr_zero ip).
Qed.

Lemma scalar_port p u :
  (0 ≤ p < 65536)%Z → server_scalar "port" (fmt_d p) u = inr (set_address (set_port p (su_address u)) u).
Proof.
  intros Hp. unfold server_scalar. eval_keys. cbv iota. unfold parse_port_str.
  rewrite strtol_fmt_d by (unfold LONG_MIN, LONG_MAX; lia).
  by rewrite (proj2 (Z.ltb_ge _ _)), (proj2 (Z.ltb_ge _ _)) by lia.
Qed.

Lemma scalar_priority p u :
  in_int p → server_scalar "priority" (fmt_d p) u = inr (set_priority p u).
Proof.
  intros [H1 H2]. unfold server_scalar. eval_keys. cbv iota. unfold parse_priority_str.
  rewrite strtol_fmt_d by (unfold LONG_MIN, LONG_MAX, INT_MIN, INT_MAX in *; lia).
  by rewrite (proj2 (Z.ltb_ge _ _)), (proj2 (Z.ltb_ge _ _)) by lia.
Qed.

Lemma scalar_protocol p u :
  p ≠ DNS_PROTOCOLS_END →
  server_scalar "protocol" (dns_protocol_t_to_string p) u = inr (set_protocol p u).
Proof. by destruct p. Qed.

Lemma scalar_dnssec d u :
  d = 0%Z ∨ d = 1%Z → su_dnssec u = 1%Z →
  server_scalar "dnssec" (if (d =? 0)%Z then "no" else "yes") u = inr (set_dnssec d u).
Proof. destruct u. intros [-> | ->] Hu; simpl in Hu; by subst. Qed.

Lemma server_read s ip nets rest servers r :
  server_wf s → ip_to_str (su_address s) = Some ip →
  mapM network_address_to_string (su_networks s) = Some nets →
  reads_servers rest None (servers ++ [file_server junk s]) r →
  reads_servers (server_events s ip nets ++ rest) None servers r.
Proof.
  intros [Ha Hp Hi Hd Hq Hn] Hip Hnets%mapM_Some Hr. unfold server_events. cbn [app].
  rewrite <-!app_assoc. apply reads_start.
  eapply reads_scalar; [by apply (scalar_address (su_address s))|].
  eapply reads_scalar; [apply scalar_port; unfold server_port; destruct Ha; lia|].
  eapply reads_scalar; [by apply scalar_priority|].
  eapply reads_scalar; [by apply scalar_protocol|].
  eapply reads_scalar; [by apply scalar_dnssec|].
  assert (Hname : ∀ u rest, su_name u = None →
    reads_servers rest (Some (set_name (su_name s) u)) servers r →
    reads_servers ((match su_name s with Some n => scalar_events "name" n | None => [] end) ++ rest)
      (Some u) servers r).
  { intros u rest' Hu Hr'. destruct (su_name s) as [n|]; [by eapply reads_scalar|].
    destruct u; simpl in Hu; by subst. }
  apply Hname; [done|].
  eapply reads_list; [unfold server_sequence; eval_keys; cbv iota; by rewrite parse_domain_list_scalars|].
  eapply reads_list; [unfold server_sequence; eval_keys; cbv iota; by rewrite parse_domain_list_scalars|].
  eapply reads_list; [unfold server_sequence; eval_keys; cbv iota;
    by rewrite (parse_network_list_texts (su_networks s))|].
  eapply reads_end; [|exact Hr]. clear -Ha. destruct Ha as [Hf _ _ _], s as [[f p s4 s6] pr i d [] ca n [|rd rds] sd ns].
  all: destruct f; try done.
  all: unfold server_end, file_server, server_port, canonical_address, set_default_port; simpl.
  all: by destruct (p =? 0)%Z eqn:E; rewrite ?E.
Qed.

Lemma servers_read servers evs rest acc :
  Forall server_wf servers → mapM events_of_server servers = Some evs →
  reads_servers (concat evs ++ YAML_SEQUENCE_END_EVENT :: rest) None acc
    (Parsed (acc ++ (file_server junk <$> servers)) rest).
Proof.
  intros Hwf Hm%mapM_Some. revert acc. induction Hm as [|s ev servers evs Hev _ IH]; intros acc.
  - intros fuel Hl. simpl in Hl. destruct fuel as [|fuel]; [lia|]. cbn. by rewrite app_nil_r.
  - inversion Hwf; subst. unfold events_of_server in Hev.
    destruct (ip_to_str (su_address s)) as [ip|] eqn:Hip; [|done]. cbn in Hev.
    destruct (mapM network_address_to_string (su_networks s)) as [nets|] eqn:Hn; [|done].
    apply (inj Some) in Hev as <-. cbn [concat]. rewrite <-app_assoc.
    apply server_read; [done..|].
    replace (acc ++ (file_server junk <$> s :: servers))
      with ((acc ++ [file_server junk s]) ++ (file_server junk <$> servers)) by (by rewrite <-app_assoc).
    by apply IH.
Qed.

(** The loop over the options of the mapping. *)
Definition reads_options (events : list yaml_event_t) (st : file_state) (r : parsing file_state) :
    Prop :=
  ∀ fuel, length events ≤ fuel → parse_file_loop junk broken fuel events None 1 true st = r.

Lemma reads_option_sequence k events rest st st' r :
  option_sequence junk broken (Some k) (events ++ rest) st = Some (Parsed st' rest) →
  reads_options rest st' r →
  reads_options (YAML_SCALAR_EVENT k :: YAML_SEQUENCE_START_EVENT :: events ++ rest) st r.
Proof.
  intros Hs Hr fuel Hl. simpl in Hl. rewrite length_app in Hl.
  do 2 (destruct fuel as [|fuel]; [lia|]). cbn [parse_file_loop]. rewrite Hs. apply Hr. lia.
Qed.

Lemma reads_option_scalar k v rest st r :
  match option_scalar k v st with
  | inl e => r = Refused e
  | inr st' => reads_options rest st' r
  end → reads_options (scalar_events k v ++ rest) st r.
Proof.
  intros Hr fuel Hl. simpl in Hl. do 2 (destruct fuel as [|fuel]; [lia|]).
  cbn [app scalar_events parse_file_loop].
  destruct (option_scalar k v st) as [e|st']; [by subst|]. apply Hr. lia.
Qed.

Definition entry_wf (entry : document_entry) : Prop :=
  match entry with EntryServers servers => Forall server_wf servers | _ => True end.

Definition outcome_of (rest : list yaml_event_t) (r : option string + file_state) :
    parsing file_state :=
  match r with inl e => Refused e | inr st => Parsed st rest end.

Lemma entries_read entries evs st :
  Forall entry_wf entries → mapM events_of_entry entries = Some evs →
  reads_options (concat evs ++ [YAML_MAPPING_END_EVENT; YAML_OTHER_EVENT; YAML_STREAM_END_EVENT]) st
    (outcome_of [] (document_meaning junk entries st)).
Proof.
  intros Hwf Hm%mapM_Some. revert st. induction Hm as [|e ev entries evs Hev _ IH]; intros st.
  - intros fuel Hl. simpl in Hl. by do 3 (destruct fuel as [|fuel]; [lia|]).
  - inversion Hwf; subst. cbn [concat]. rewrite <-app_assoc. destruct st as [c inc].
    destruct e as [k v|servers|paths]; simpl in Hev.
    + apply (inj Some) in Hev as <-. apply reads_option_scalar. cbn [document_meaning].
      by destruct (option_scalar k v (c, inc)); [|apply IH].
    + destruct (mapM events_of_server servers) as [sevs|] eqn:Hs; [|done]. simpl in Hev.
      apply (inj Some) in Hev as <-. cbn [app]. eapply reads_option_sequence; [|by apply IH].
      cbn [option_sequence]. eval_keys. cbv iota. unfold parse_static_servers. rewrite <-app_assoc.
      cbn [app]. by erewrite (servers_read servers sevs) by done.
    + apply (inj Some) in Hev as <-. unfold list_events. cbn [app].
      eapply reads_option_sequence; [|by apply IH]. cbn [option_sequence]. eval_keys. cbv iota.
      rewrite <-app_assoc. cbn [app]. by rewrite parse_include_list_scalars.
Qed.

Lemma document_read entries events st :
  Forall entry_wf entries → events_of_document entries = Some events →
  parse_file_loop junk broken (length events) events None 0 true st
  = outcome_of [] (document_meaning junk entries st).
Proof.
  intros Hwf. unfold events_of_document.
  destruct (mapM events_of_entry entries) as [evs|] eqn:E; [|done]. intros [= <-].
  cbn [length parse_file_loop]. simpl. by eapply entries_read.
Qed.
End DocumentProofs.

(** ** Specification: the files that are read

    A file names paths; a path stands for the files it expands to.  The files are
    read generation by generation: first the configuration file, then the files it
    includes, in the order they are named, then those these include, and so on. *)

Section Includes.
Context `{Inet} `{ConfigFiles} (junk : sockaddr_storage).
(** What a file sets, and the paths it names. *)
Context (sets : string → dnsconfd_config_t → dnsconfd_config_t) (names : string → list string).

(** The files a path stands for: those of a directory, those that match a
    pattern, the file itself, or nothing; [None] when [glob] fails. *)
Definition expansion (path : string) : option (list string) :=
  let matching pattern :=
    match cf_glob pattern with
    | GlobPaths paths => Some paths | GlobNoMatch => Some [] | GlobError => None
    end in
  match cf_stat path, has_wildcard path with
  | Some true, _ => matching (make_dir_glob_pattern path)
  | _, true => matching path
  | Some false, false => Some [path]
  | None, false => Some []
  end.

Definition includes (f : string) : list string := names f ≫= λ path, default [] (expansion path).

Fixpoint generation (files : list string) (n : nat) : list string :=
  match n with 0 => files | S n => generation files n ≫= includes end.

(** The files of the first [d] generations, in the order they are read. *)
Definition reading_order (path : string) (d : nat) : list string :=
  concat (generation [path] <$> seq 0 d).

(** Reading the file succeeds whatever was read before. *)
Definition readable (f : string) : Prop :=
  ∀ c, parse_single_config_file junk f c = Some (inr (sets f c, names f)).

(** And so does expanding what it names. *)
Definition good_file (f : string) : Prop :=
  readable f ∧ Forall (λ path, is_Some (expansion path)) (names f).

(** The configuration after [files]: each overrides the earlier ones. *)
Definition settings (files : list string) (c : dnsconfd_config_t) : dnsconfd_config_t :=
  foldl (λ c f, sets f c) c files.

(** ** Proofs: includes *)

Definition glob_failed : option string := Some "Failed to expand include path".
Definition too_many_files : option string :=
  Some "Too many configuration files included, possible cycle".

Lemma resolve_include_path_expansion path files :
  resolve_include_path path files
  = match expansion path with Some l => inr (files ++ l) | None => inl glob_failed end.
Proof.
  unfold resolve_include_path, expansion.
  destruct (cf_stat path) as [[]|], (has_wildcard path); cbn; unfold append_glob;
    repeat case_match; simplify_eq; by rewrite ?app_nil_r.
Qed.

Lemma resolve_include_paths_expansion paths files :
  resolve_include_paths paths files
  = match mapM expansion paths with Some ls => inr (files ++ concat ls) | None => inl glob_failed end.
Proof.
  revert files. induction paths as [|p paths IH]; intros files; [cbn; by rewrite app_nil_r|].
  cbn [resolve_include_paths mapM]. rewrite resolve_include_path_expansion.
  destruct (expansion p) as [l|]; [|done]. rewrite IH. cbn [mbind option_bind].
  destruct (mapM expansion paths) as [ls|]; [|done]. cbn. by rewrite app_assoc.
Qed.

(** What is included is put behind the files that are left. *)
Lemma resolve_good f files :
  good_file f → resolve_include_paths (names f) files = inr (files ++ includes f).
Proof.
  intros [_ Hn]. rewrite resolve_include_paths_expansion. unfold includes.
  apply mapM_is_Some in Hn as [ls Hls]. rewrite Hls. do 2 f_equal.
  apply mapM_Some in Hls. induction Hls as [|p l ps ls Hp _ IH]; [done|].
  cbn. by rewrite Hp, IH.
Qed.

Lemma read_files q acc left c :
  Forall good_file q → length q ≤ left →
  parse_config_files junk left (q ++ acc) c
  = parse_config_files junk (left - length q) (acc ++ (q ≫= includes)) (settings q c).
Proof.
  intros Hq. revert acc left c. induction Hq as [|f q Hf Hq IH]; intros acc left c Hl.
  { cbn. by rewrite app_nil_r, Nat.sub_0_r. }
  cbn [length] in Hl. destruct left as [|left]; [lia|]. cbn [app parse_config_files].
  rewrite (proj1 Hf c), (resolve_good f) by done. rewrite <-app_assoc, IH by lia.
  cbn. by rewrite <-app_assoc.
Qed.

Lemma reading_order_S path d :
  reading_order path (S d) = reading_order path d ++ generation [path] d.
Proof.
  unfold reading_order. rewrite seq_S, fmap_app, concat_app. cbn. by rewrite app_nil_r.
Qed.

Lemma read_generations path d left c :
  Forall good_file (reading_order path d) → length (reading_order path d) ≤ left →
  parse_config_files junk left [path] c
  = parse_config_files junk (left - length (reading_order path d)) (generation [path] d)
      (settings (reading_order path d) c).
Proof.
  induction d as [|d IH]; intros Hg Hl; [by rewrite Nat.sub_0_r|].
  rewrite reading_order_S in *. apply Forall_app in Hg as [Hg1 Hg2]. rewrite length_app in *.
  rewrite IH by (done || lia). rewrite <-(app_nil_r (generation [path] d)) at 1.
  rewrite read_files by (done || lia). cbn [app generation]. unfold settings. rewrite foldl_app.
  f_equal. lia.
Qed.

(** A place in the order is a place in a generation. *)
Lemma reading_order_place path d before f after :
  reading_order path d = before ++ f :: after →
  ∃ n q q', before = reading_order path n ++ q ∧ generation [path] n = q ++ f :: q'.
Proof.
  revert after. induction d as [|d IH]; intros after He; [by destruct before|].
  rewrite reading_order_S in He. apply app_eq_inv in He as [(k & E1 & E2)|(k & E1 & E2)].
  - destruct k as [|x k]; cbn in E2.
    + exists d, [], after. rewrite app_nil_r in *. by split.
    + simplify_eq. by apply (IH k).
  - by exists d, k, after.
Qed.

(** Up to any place of the order, the files are read in the order. *)
Lemma read_up_to path d before f after left c :
  reading_order path d = before ++ f :: after → Forall good_file before → length before ≤ left →
  ∃ more, parse_config_files junk left [path] c
    = parse_config_files junk (left - length before) (f :: more) (settings before c).
Proof.
  intros He Hb Hl. destruct (reading_order_place _ _ _ _ _ He) as (n & q & q' & -> & Hg).
  apply Forall_app in Hb as [Hb1 Hb2]. rewrite length_app in *.
  rewrite (read_generations path n) by (done || lia). rewrite Hg, read_files by (done || lia).
  eexists. unfold settings. rewrite foldl_app. cbn [app]. f_equal. lia.
Qed.

Lemma read_too_many path d c :
  Forall good_file (reading_order path d) → MAX_INCLUDE_FILES < length (reading_order path d) →
  parse_config_file junk path c = Some (inl too_many_files).
Proof.
  intros Hg Hl. unfold parse_config_file. generalize dependent MAX_INCLUDE_FILES. intros limit Hl.
  rewrite <-(take_drop limit (reading_order path d)) in Hg.
  apply Forall_app in Hg as [Hg _].
  destruct (drop limit (reading_order path d)) as [|f after] eqn:E.
  { apply (f_equal length) in E. rewrite length_drop in E. simpl in E. lia. }
  destruct (read_up_to path d (take limit (reading_order path d)) f after limit c)
    as [more ->]; [by rewrite <-E, take_drop|done|rewrite length_take; lia|].
  rewrite length_take, Nat.min_l, Nat.sub_diag by lia. done.
Qed.

Lemma read_all path d c :
  Forall good_file (reading_order path d) → generation [path] d = [] →
  length (reading_order path d) ≤ MAX_INCLUDE_FILES →
  parse_config_file junk path c = Some (inr (settings (reading_order path d) c)).
Proof.
  intros Hg Hn Hl. unfold parse_config_file. rewrite (read_generations path d) by done.
  rewrite Hn. by destruct (MAX_INCLUDE_FILES - _).
Qed.

(** Generations that do not end are long. *)
Lemma generation_nil files n m : generation files n = [] → n ≤ m → generation files m = [].
Proof. intros Hn. induction 1 as [|m _ IH]; [done|]. cbn. by rewrite IH. Qed.

Lemma reading_order_length path d : generation [path] d ≠ [] → d < length (reading_order path (S d)).
Proof.
  induction d as [|d IH]; intros Hd; [cbn; lia|]. rewrite reading_order_S, length_app.
  assert (generation [path] d ≠ []) as Hd' by (intros E; apply Hd; by rewrite (generation_nil _ d) by (done || lia)).
  specialize (IH Hd'). destruct (generation [path] (S d)); [done|]. cbn [length]. lia.
Qed.

Lemma generation_add files n m : generation files (n + m) = generation (generation files n) m.
Proof.
  induction m as [|m IH]; [by rewrite Nat.add_0_r|]. rewrite Nat.add_succ_r. cbn. by rewrite IH.
Qed.

Lemma generation_in f files n : f ∈ files → ∀ g, g ∈ generation [f] n → g ∈ generation files n.
Proof.
  intros Hf. induction n as [|n IH]; intros g; cbn; [by intros ->%list_elem_of_singleton|].
  rewrite !list_elem_of_bind. intros (h & ? & ?). eauto.
Qed.

(** A file that includes itself, through whatever files, is in generations as
    late as one likes. *)
Lemma cycle_generation files f i k :
  f ∈ generation files i → 0 < k → f ∈ generation [f] k → ∀ n, generation files n ≠ [].
Proof.
  intros Hi Hk Hc n Hn.
  assert (∀ j, f ∈ generation files (i + j * k)) as Hj.
  { induction j as [|j IH]; [by rewrite Nat.add_0_r|].
    replace (i + S j * k) with (i + j * k + k) by lia. rewrite generation_add.
    by eapply generation_in. }
  specialize (Hj n). rewrite (generation_nil _ n) in Hj; [by apply not_elem_of_nil in Hj|done|nia].
Qed.
End Includes.

Lemma document_file `{InetLaws} `{ConfigFiles} junk path entries events broken c :
  Forall entry_wf entries → events_of_document entries = Some events →
  cf_events path = Some (events, broken) →
  parse_single_config_file junk path c = Some (document_meaning junk entries (c, [])).
Proof.
  intros Hwf He Hp. unfold parse_single_config_file. rewrite Hp.
  erewrite document_read by done. by destruct (document_meaning junk entries (c, [])).
Qed.

Lemma option_scalar_level `{Inet} v c inc :
  option_scalar "log_level" v (c, inc) = inr (set_log_level (parse_log_level v) c, inc).
Proof.
  unfold option_scalar. eval_keys. cbv iota zeta. rewrite file_level.
  by rewrite (proj2 (Z.ltb_ge _ _)) by (unfold uint_wrap; by apply Z.mod_pos_bound).
Qed.

(** ** Example files *)

Definition example_file_server : server_uri_t :=
  set_protocol DNS_TLS (set_name (Some "dns.example")
    (set_routing_domains ["example.com"]
      (set_address (SockAddr AF_INET 853 [10; 0; 0; 1]%Z (repeat 0%Z 16)) server_uri_t_init))).

Definition example_document : list document_entry :=
  [EntryScalar "log_level" "debug"; EntryServers [example_file_server];
   EntryScalar "listen_address" "127.0.0.2"; EntryIncludes ["/etc/a.conf"; "/etc/b.conf"]].

(** [/etc/main.conf] is the document above; [/etc/cycle.conf] includes itself
    through [/etc/loop.conf], after a file that includes nothing. *)
#[export] Instance example_files : ConfigFiles := {|
  cf_events path :=
    let doc := if path ==s "/etc/main.conf" then Some example_document
               else if path ==s "/etc/cycle.conf" then Some [EntryIncludes ["/etc/a.conf"; "/etc/loop.conf"]]
               else if path ==s "/etc/loop.conf" then Some [EntryIncludes ["/etc/cycle.conf"]]
               else if path ==s "/etc/a.conf" then Some [EntryScalar "stderr_log" "no"]
               else if path ==s "/etc/b.conf" then Some [EntryScalar "stderr_log" "yes"]
               else None in
    entries ← doc; events ← events_of_document entries; Some (events, false);
  cf_stat path := if path ==s "/etc" then Some true else Some false;
  cf_glob _ := GlobNoMatch
|}.

#[export] Instance example_files_laws : ConfigFilesLaws.
Proof.
  split. intros path events broken. simpl.
  repeat (case_match; [intros E; vm_compute in E; injection E as <- <-; right; vm_compute; by split|]).
  done.
Qed.

Definition example_partial : dnsconfd_config_t :=
  Config None None None None None [] [] sockaddr_zero COMMAND_START (-1)
    CONFIG_BOOLEAN_UNSET CONFIG_BOOLEAN_UNSET CONFIG_BOOLEAN_UNSET CONFIG_BOOLEAN_UNSET.

(** ** Theorems *)

(** C37: a configuration file with the events of a document - options, lists of
    servers, lists of files to include - is read as what the document means: the
    options set in turn, each server appended with the fields it was written
    with, a domain and a port filled in, the included paths collected; the first
    option that is refused is the error. *)
Theorem config_document `{InetLaws} `{ConfigFiles} (junk : sockaddr_storage) (path : string)
    (entries : list document_entry) (events : list yaml_event_t) (broken : bool)
    (c : dnsconfd_config_t) :
  Forall entry_wf entries → events_of_document entries = Some events →
  cf_events path = Some (events, broken) →
  parse_single_config_file junk path c = Some (document_meaning junk entries (c, [])).
Proof. apply document_file. Qed.

Theorem config_document_witness :
  parse_single_config_file sockaddr_zero "/etc/main.conf" example_partial
  = Some (inr (set_listen_address (SockAddr AF_INET 0 [127; 0; 0; 2]%Z (repeat 0%Z 16))
      (set_static_servers [file_server sockaddr_zero example_file_server]
        (set_log_level LOG_DEBUG example_partial)), ["/etc/a.conf"; "/etc/b.conf"])).
Proof.
  rewrite (config_document sockaddr_zero "/etc/main.conf" example_document
    (default [] (events_of_document example_document)) false example_partial);
    [by vm_compute| |by vm_compute|by vm_compute].
  repeat constructor; vm_compute; done.
Defined.

(** C36: whatever the configuration file and the files it includes hold, reading
    them returns - no pointer is followed that was not set (an error whose string
    is null, which is only printed, is an outcome: [inl None]), no loop runs for
    ever -, and a configuration it returns is well formed as far as it is set:
    the servers have addresses, ports, priorities and protocols in range, the
    RPZ zones have names, and the log level is a level or unset. *)
Theorem config_file_sound `{InetLaws} `{ConfigFilesLaws} (junk : sockaddr_storage)
    (path : string) (c : dnsconfd_config_t) :
  sockaddr_typed junk → partial_wf c →
  ∃ r, parse_config_file junk path c = Some r ∧
       match r with inr c' => partial_wf c' | inl _ => True end.
Proof. apply parse_config_files_wf. Qed.

Theorem config_file_sound_witness :
  ∃ r, parse_config_file sockaddr_zero "/etc/main.conf" example_partial = Some r ∧
       match r with inr c' => partial_wf c' | inl _ => True end.
Proof.
  apply (config_file_sound sockaddr_zero "/etc/main.conf" example_partial).
  - apply sockaddr_zero_typed.
  - split; simpl; [constructor..|by left|vm_compute; done].
Defined.


Definition cycle_names (f : string) : list string :=
  if f ==s "/etc/cycle.conf" then ["/etc/a.conf"; "/etc/loop.conf"]
  else if f ==s "/etc/loop.conf" then ["/etc/cycle.conf"] else [].

Definition cycle_sets (f : string) (c : dnsconfd_config_t) : dnsconfd_config_t :=
  if f ==s "/etc/a.conf" then set_stderr_log CONFIG_BOOLEAN_FALSE c else c.

Definition cycle_files : list string := ["/etc/cycle.conf"; "/etc/loop.conf"; "/etc/a.conf"].

Lemma cycle_good f :
  f ∈ cycle_files → good_file sockaddr_zero cycle_sets cycle_names f ∧
  Forall (.∈ cycle_files) (includes cycle_names f).
Proof.
  intros Hf. repeat (apply elem_of_cons in Hf as [->|Hf]; [split; [split|]|]);
    try (by apply not_elem_of_nil in Hf).
  all: try (intros c; by destruct c).
  all: repeat constructor; eexists; reflexivity.
Qed.


(** C39: the files are read generation by generation, those of a generation in the
    order they are named, each into the configuration the earlier ones left: a
    file overrides those read before it, so the including file is overridden by
    what it includes.  The first file that is refused, or that names a path that
    cannot be expanded, is the error. *)
Theorem includes_in_order `{Inet} `{ConfigFiles} (junk : sockaddr_storage)
    (sets : string → dnsconfd_config_t → dnsconfd_config_t) (names : string → list string)
    (path : string) (c : dnsconfd_config_t) (d : nat) (before : list string) :
  Forall (good_file junk sets names) before → length before ≤ 1000 →
  (reading_order names path d = before → generation names [path] d = [] →
    parse_config_file junk path c = Some (inr (settings sets before c))) ∧
  ∀ f after, reading_order names path d = before ++ f :: after → length before < 1000 →
    (∀ e, parse_single_config_file junk f (settings sets before c) = Some (inl e) →
      parse_config_file junk path c
      = Some (inl (match before with
                   | [] => e
                   | _ => (λ _, "Error while processing included configuration file") <$> e
                   end))) ∧
    (readable junk sets names f → ¬ Forall (λ p, is_Some (expansion p)) (names f) →
      parse_config_file junk path c = Some (inl (Some "Failed to expand include path"))).
Proof.
  intros Hb Hl. split.
  - intros Ho Hd. subst before. by apply read_all.
  - intros f after Ho Hlt. unfold parse_config_file.
    assert (Hm : MAX_INCLUDE_FILES = 1000) by done.
    destruct (read_up_to junk sets names path d before f after MAX_INCLUDE_FILES c)
      as [more ->]; [done|done|lia|].
    destruct (MAX_INCLUDE_FILES - length before) as [|left] eqn:El; [lia|].
    cbn [parse_config_files]. split.
    + intros e ->. rewrite <-El. destruct before as [|g before]; [done|].
      by rewrite (proj2 (Nat.eqb_neq _ _)) by (cbn [length] in *; lia).
    + intros -> Hn. rewrite resolve_include_paths_expansion.
      destruct (mapM expansion (names f)) eqn:E; [|done].
      destruct Hn. apply mapM_is_Some. by eexists.
Qed.

Definition main_names (f : string) : list string :=
  if f ==s "/etc/main.conf" then ["/etc/a.conf"; "/etc/b.conf"] else [].

Definition main_sets (f : string) (c : dnsconfd_config_t) : dnsconfd_config_t :=
  if f ==s "/etc/main.conf" then
    set_listen_address (default sockaddr_zero (parse_ip_str "127.0.0.2" (listen_address c)))
      (set_static_servers (static_servers c ++ [file_server sockaddr_zero example_file_server])
        (set_log_level LOG_DEBUG c))
  else if f ==s "/etc/a.conf" then set_stderr_log CONFIG_BOOLEAN_FALSE c
  else set_stderr_log CONFIG_BOOLEAN_TRUE c.

Lemma main_good :
  Forall (good_file sockaddr_zero main_sets main_names)
    ["/etc/main.conf"; "/etc/a.conf"; "/etc/b.conf"].
Proof.
  repeat apply Forall_cons_2; [..|apply Forall_nil_2].
  all: split; [intros c; by destruct c|].
  all: cbn; repeat apply Forall_cons_2; [..|apply Forall_nil_2]; eexists; reflexivity.
Qed.

Theorem includes_in_order_witness :
  parse_config_file sockaddr_zero "/etc/main.conf" example_partial
  = Some (inr (set_stderr_log CONFIG_BOOLEAN_TRUE
      (set_listen_address (SockAddr AF_INET 0 [127; 0; 0; 2]%Z (repeat 0%Z 16))
        (set_static_servers [file_server sockaddr_zero example_file_server]
          (set_log_level LOG_DEBUG example_partial))))).
Proof.
  destruct (includes_in_order sockaddr_zero main_sets main_names "/etc/main.conf"
    example_partial 2 ["/etc/main.conf"; "/etc/a.conf"; "/etc/b.conf"]) as [Hread _].
  - apply main_good.
  - cbn. lia.
  - rewrite Hread by (vm_compute; reflexivity). vm_compute. reflexivity.
Defined.

(** An included file that cannot be read is the error. *)
Definition example_files_without_b : ConfigFiles := {|
  cf_events path := if path ==s "/etc/b.conf" then None else cf_events path;
  cf_stat := cf_stat;
  cf_glob := cf_glob
|}.

Example ex_include_refused :
  parse_config_file (H0 := example_files_without_b) sockaddr_zero "/etc/main.conf" example_partial
  = Some (inl (Some "Error while processing included configuration file")).
Proof. vm_compute. reflexivity. Qed.
