(* ===== verification/World.v ===== *)
(** * The world outside the program, and the monad of effects

    A call to the system is a step of a clock; the environment decides, per
    step, whether a fallible call succeeds, what a spawned program returns and
    in which order a hash table is visited.  The world keeps the files, the
    error flag of the open stream and the trace of the other visible actions.
    An effectful function returns [None] when the C code would dereference a
    null pointer or read a buffer that was not written. *)

From S2P Require Import Prelude GLib ServerUri.

(** ** Definitions *)

(** What [g_spawn_sync] reports: an error, or how the child ended. *)
Inductive spawn_result := SpawnFailed | SpawnExited (code : Z) | SpawnSignaled (signal : Z).

(** The visible actions besides the files. *)
Inductive action :=
| ASpawn (argv : list string)
| ANotify (state : string)
| ASerialSignal (serial : Z)
| AQuit.

Record env := Env {
  env_ok : nat → bool;
  env_spawn : nat → list string → spawn_result;
  env_access : nat → string → bool;
  env_isdir : nat → string → bool;
  env_garbage : nat → string;
  env_order : nat → hash_order (list server_uri_t)
}.

Record world := World {
  w_clock : nat;
  w_files : gmap string string;
  w_ferror : bool;
  w_trace : list action
}.

Definition M (A : Type) : Type := env → world → option (A * world).
#[export] Instance M_ret : MRet M := λ A a e w, Some (a, w).
#[export] Instance M_bind : MBind M := λ A B f m e w,
  match m e w with Some (a, w') => f a e w' | None => None end.

(** The fault: nothing after it is defined. *)
Definition fault {A} : M A := λ e w, None.

(** Dereference a pointer that may be null. *)
Definition deref {A} (o : option A) : M A :=
  match o with Some a => mret a | None => fault end.

(** Ask the environment, advancing the clock. *)
Definition ask {A} (f : env → nat → A) : M A := λ e w,
  Some (f e (w_clock w), World (S (w_clock w)) (w_files w) (w_ferror w) (w_trace w)).

Definition emit (a : action) : M () := λ e w,
  Some ((), World (w_clock w) (w_files w) (w_ferror w) (w_trace w ++ [a])).

Definition set_file (path contents : string) : M () := λ e w,
  Some ((), World (w_clock w) (<[path := contents]> (w_files w)) (w_ferror w) (w_trace w)).

Definition set_ferror (b : bool) : M () := λ e w,
  Some ((), World (w_clock w) (w_files w) b (w_trace w)).

Definition get_file (path : string) : M (option string) := λ e w,
  Some (w_files w !! path, w).

(** [fopen(path, "w")]: truncates the file; the stream is known by its path.
    The program has at most one stream open at a time. *)
Definition fopen_w (path : string) : M bool :=
  ok ← ask env_ok;
  if ok : bool then set_file path "";; set_ferror false;; mret true else mret false.

(** [fprintf(stream, ...) >= 0]: a failure sets the error flag and leaves the
    contents unspecified. *)
Definition fprintf (path text : string) : M bool :=
  ok ← ask env_ok;
  if ok : bool then
    c ← get_file path; set_file path (default "" c +:+ text);; mret true
  else
    g ← ask env_garbage; set_file path g;; set_ferror true;; mret false.

Definition ferror : M bool := λ e w, Some (w_ferror w, w).

(** [fclose(stream) == 0]: a failure to flush leaves the contents unspecified. *)
Definition fclose (path : string) : M bool :=
  ok ← ask env_ok;
  if ok : bool then mret true
  else g ← ask env_garbage; set_file path g;; mret false.

(** [g_file_get_contents]: [None] when it fails. *)
Definition g_file_get_contents (path : string) : M (option string) :=
  ok ← ask env_ok;
  if ok : bool then get_file path else mret None.

(** [g_spawn_sync] with [argv]. *)
Definition g_spawn_sync (argv : list string) : M spawn_result :=
  emit (ASpawn argv);; r ← ask (λ e n, env_spawn e n argv); mret r.

(** [access(path, R_OK) == 0]. *)
Definition access (path : string) : M bool := ask (λ e n, env_access e n path).

(** The entries of a table in the order an iteration visits them. *)
Definition iterate (t : server_table) : M (list (string * list server_uri_t)) :=
  ask (λ e n, env_order e n t).

(** ** Reasoning: weakest preconditions *)

(** [m] does not fault from [w] and its outcome satisfies [Q]. *)
Definition wp {A} (m : M A) (e : env) (w : world) (Q : A → world → Prop) : Prop :=
  match m e w with Some (a, w') => Q a w' | None => False end.

(** No call to the system fails. *)
Definition reliable (e : env) : Prop := ∀ n, env_ok e n = true.

(** What a piece of code that writes [text] to the open stream [path] does:
    either the stream ends up with its error flag set, or the text is
    appended; the other files and the trace stay. *)
Record writes (e : env) (path : string) (text : string) (w w' : world) : Prop := {
  writes_files : ∀ p, p ≠ path → w_files w' !! p = w_files w !! p;
  writes_trace : w_trace w' = w_trace w;
  writes_sticky : w_ferror w = true → w_ferror w' = true;
  writes_reliable : reliable e → w_ferror w' = w_ferror w;
  writes_text : w_ferror w' = false →
    w_files w' !! path = Some (default "" (w_files w !! path) +:+ text)
}.

(** What the operations of the managers return: 0, or an error with the
    [error_string] they set. *)
Inductive status := Success | Failure (error_string : option string).

(** Nothing but the clock changes. *)
Record only_clock (w w' : world) : Prop := {
  oc_files : w_files w' = w_files w;
  oc_ferror : w_ferror w' = w_ferror w;
  oc_trace : w_trace w' = w_trace w
}.

Section Rules.
Context (e : env).
Implicit Types w : world.

Lemma wp_ret {A} (a : A) w (Q : A → world → Prop) : Q a w → wp (mret a) e w Q.
Proof. done. Qed.

Lemma wp_bind {A B} (f : A → M B) (m : M A) w (Q : B → world → Prop) :
  wp m e w (λ a w', wp (f a) e w' Q) → wp (m ≫= f) e w Q.
Proof.
  unfold wp, mbind, M_bind. destruct (m e w) as [[a w']|]; [|done].
  by destruct (f a e w') as [[]|].
Qed.

Lemma wp_mono {A} (m : M A) w (P Q : A → world → Prop) :
  wp m e w P → (∀ a w', P a w' → Q a w') → wp m e w Q.
Proof. unfold wp. destruct (m e w) as [[a w']|]; auto. Qed.

(** Run [m] first, knowing what it does. *)
Lemma wp_seq {A B} (f : A → M B) (m : M A) w (P : A → world → Prop) (Q : B → world → Prop) :
  wp m e w P → (∀ a w', P a w' → wp (f a) e w' Q) → wp (m ≫= f) e w Q.
Proof. intros Hm Hf. apply wp_bind. by eapply wp_mono. Qed.

Lemma wp_run {A} (m : M A) w a w' Q : m e w = Some (a, w') → wp m e w Q → Q a w'.
Proof. unfold wp. by intros ->. Qed.

Lemma wp_exists {A} (m : M A) w Q : wp m e w Q → ∃ a w', m e w = Some (a, w') ∧ Q a w'.
Proof. unfold wp. destruct (m e w) as [[a w']|]; [eauto|done]. Qed.

(** Two facts about one run. *)
Lemma wp_and {A} (m : M A) w (P Q : A → world → Prop) :
  wp m e w P → wp m e w Q → wp m e w (λ a w', P a w' ∧ Q a w').
Proof. unfold wp. by destruct (m e w) as [[a w']|]. Qed.

(** What holds of the outcome, if there is one. *)
Definition wlp {A} (m : M A) w (Q : A → world → Prop) : Prop :=
  ∀ a w', m e w = Some (a, w') → Q a w'.

Lemma wlp_any {A} (m : M A) w (Q : A → world → Prop) : (∀ a w', Q a w') → wlp m w Q.
Proof. by intros HQ a w' _. Qed.

Lemma wlp_ret {A} (a : A) w (Q : A → world → Prop) : Q a w → wlp (mret a) w Q.
Proof. by intros HQ a' w' [= <- <-]. Qed.

Lemma wlp_bind {A B} (f : A → M B) (m : M A) w (Q : B → world → Prop) :
  wlp m w (λ a w', wlp (f a) w' Q) → wlp (m ≫= f) w Q.
Proof.
  unfold wlp, mbind, M_bind. intros Hm b w'. destruct (m e w) as [[a w1]|]; [|done].
  intros Hf. by eapply (Hm a w1).
Qed.

(** Run [m] first, knowing nothing of it. *)
Lemma wlp_skip {A B} (f : A → M B) (m : M A) w (Q : B → world → Prop) :
  (∀ a w', wlp (f a) w' Q) → wlp (m ≫= f) w Q.
Proof. intros Hf. apply wlp_bind, wlp_any, Hf. Qed.

Lemma wlp_seq {A B} (f : A → M B) (m : M A) w (P : A → Prop) (Q : B → world → Prop) :
  wlp m w (λ a _, P a) → (∀ a w', P a → wlp (f a) w' Q) → wlp (m ≫= f) w Q.
Proof. intros Hm Hf. apply wlp_bind. intros a w' Hr. apply Hf. by eapply Hm. Qed.

Lemma wlp_wp {A} (m : M A) w (Q : A → world → Prop) : wp m e w Q → wlp m w Q.
Proof. intros HQ a w' Hr. unfold wp in HQ. by rewrite Hr in HQ. Qed.

Lemma wlp_deref {A} (o : option A) w (Q : A → world → Prop) :
  (∀ a, o = Some a → Q a w) → wlp (deref o) w Q.
Proof. destruct o as [a|]; intros HQ; [by apply wlp_ret, HQ|by intros ? ?]. Qed.

Lemma wp_wlp {A} (m : M A) w (P Q : A → world → Prop) :
  wp m e w P → wlp m w Q → wp m e w (λ a w', P a w' ∧ Q a w').
Proof.
  unfold wp, wlp. destruct (m e w) as [[a w']|]; [|done]. intros HP HQ. split; [done|by apply HQ].
Qed.

Lemma wp_deref {A} (o : option A) w (Q : A → world → Prop) :
  (∃ a, o = Some a ∧ Q a w) → wp (deref o) e w Q.
Proof. by intros (a & -> & ?). Qed.

Lemma wp_ask {A} (f : env → nat → A) w :
  wp (ask f) e w (λ a w', a = f e (w_clock w) ∧ only_clock w w' ∧ w_clock w' = S (w_clock w)).
Proof. done. Qed.

Lemma only_clock_refl w : only_clock w w.
Proof. done. Qed.

Lemma only_clock_trans w1 w2 w3 : only_clock w1 w2 → only_clock w2 w3 → only_clock w1 w3.
Proof. intros [] []. split; congruence. Qed.

Lemma writes_nil p w : p ∈ dom (w_files w) → writes e p "" w w.
Proof.
  intros [c Hc]%elem_of_dom. split; try done. intros _. rewrite Hc. simpl.
  by rewrite string_app_nil_r.
Qed.

Lemma writes_app p t1 t2 w1 w2 w3 :
  writes e p t1 w1 w2 → writes e p t2 w2 w3 → writes e p (t1 +:+ t2) w1 w3.
Proof.
  intros [F1 T1 S1 R1 W1] [F2 T2 S2 R2 W2]. split.
  - intros q ?. by rewrite F2, F1.
  - congruence.
  - auto.
  - intros ?. by rewrite R2, R1.
  - intros He. rewrite (W2 He). destruct (w_ferror w2) eqn:E2; [by rewrite S2 in He|].
    rewrite (W1 eq_refl). simpl. by rewrite string_app_assoc.
Qed.

(** Once the flag is set, the text does not matter. *)
Lemma writes_error p t t' w w' : w_ferror w' = true → writes e p t w w' → writes e p t' w w'.
Proof. intros He [F T S R W]. split; auto. congruence. Qed.

Lemma writes_only_clock p t w1 w2 w3 : only_clock w1 w2 → writes e p t w2 w3 → writes e p t w1 w3.
Proof.
  intros [F T S] [F' T' S' R' W']. split.
  - intros q ?. by rewrite F', F.
  - congruence.
  - intros ?. apply S'. congruence.
  - intros ?. rewrite R' by done. done.
  - intros ?. rewrite W' by done. by rewrite F.
Qed.

Lemma writes_clock_after p t w1 w2 w3 :
  writes e p t w1 w2 → only_clock w2 w3 → writes e p t w1 w3.
Proof.
  intros [F' T' S' R' W'] [F T S]. split.
  - intros q ?. by rewrite F, F'.
  - congruence.
  - intros ?. rewrite T. auto.
  - intros ?. rewrite T. auto.
  - intros ?. rewrite F. apply W'. congruence.
Qed.

(** A failed [fprintf] leaves the flag set. *)
Lemma wp_fprintf p t w :
  wp (fprintf p t) e w (λ ok w', writes e p t w w' ∧ w_ferror w' = w_ferror w || negb ok).
Proof.
  unfold fprintf, wp, mbind, M_bind, ask, get_file. simpl.
  destruct (env_ok e (w_clock w)) eqn:E; simpl; rewrite ?orb_false_r, ?orb_true_r;
    (split; [split|]); simpl; try done.
  - intros q ?. by rewrite lookup_insert_ne.
  - intros _. by rewrite lookup_insert_eq.
  - intros q ?. by rewrite lookup_insert_ne.
  - intros He. by rewrite He in E.
Qed.

Lemma writes_eq p t t' w w' : t = t' → writes e p t w w' → writes e p t' w w'.
Proof. by intros ->. Qed.

(** One [fprintf] more on a stream that got the text [T] since [w0]. *)
Lemma wp_fprintf_then {A} (k : bool → M A) p t T w0 w (Q : A → world → Prop) :
  writes e p T w0 w →
  (∀ ok w', writes e p (T +:+ t) w0 w' → (ok = false → w_ferror w' = true) → wp (k ok) e w' Q) →
  wp (fprintf p t ≫= k) e w Q.
Proof.
  intros HT Hk. eapply wp_seq; [apply wp_fprintf|]. simpl. intros ok w' [Ht He].
  apply Hk; [by eapply writes_app|]. intros ->. by rewrite orb_true_r in He.
Qed.

Lemma wp_fprintf_last p t T w0 w (Q : bool → world → Prop) :
  writes e p T w0 w →
  (∀ ok w', writes e p (T +:+ t) w0 w' → (ok = false → w_ferror w' = true) → Q ok w') →
  wp (fprintf p t) e w Q.
Proof.
  intros HT Hk. eapply wp_mono; [apply wp_fprintf|]. simpl. intros ok w' [Ht He].
  apply Hk; [by eapply writes_app|]. intros ->. by rewrite orb_true_r in He.
Qed.

Lemma wp_skip {A B} (k : A → M B) a w Q : wp (k a) e w Q → wp (mret a ≫= k) e w Q.
Proof. intros Hk. apply wp_bind. by apply wp_ret. Qed.

Lemma wp_assoc {A B C} (m : M A) (f : A → M B) (k : B → M C) w Q :
  wp (m ≫= (λ a, f a ≫= k)) e w Q → wp ((m ≫= f) ≫= k) e w Q.
Proof.
  unfold wp, mbind, M_bind. destruct (m e w) as [[a w']|]; [|done].
  by destruct (f a e w') as [[]|].
Qed.

Lemma wp_ferror w : wp ferror e w (λ b w', b = w_ferror w ∧ w' = w).
Proof. done. Qed.

(** The stream is open and empty, or the file was not touched. *)
Lemma wp_fopen_w p w :
  wp (fopen_w p) e w (λ ok w',
    (∀ q, q ≠ p → w_files w' !! q = w_files w !! q) ∧ w_trace w' = w_trace w ∧
    (reliable e → ok = true) ∧
    if ok : bool then w_files w' !! p = Some "" ∧ w_ferror w' = false
    else w_files w' = w_files w).
Proof.
  unfold fopen_w, wp, mbind, M_bind, ask. simpl.
  destruct (env_ok e (w_clock w)) eqn:E; simpl.
  - repeat split; try done; intros; by rewrite ?lookup_insert_eq, ?lookup_insert_ne.
  - repeat split; try done. intros He. by rewrite He in E.
Qed.

Lemma wp_fclose p w :
  wp (fclose p) e w (λ ok w',
    (∀ q, q ≠ p → w_files w' !! q = w_files w !! q) ∧ w_trace w' = w_trace w ∧
    (reliable e → ok = true) ∧ (ok = true → w_files w' = w_files w)).
Proof.
  unfold fclose, wp, mbind, M_bind, ask. simpl.
  destruct (env_ok e (w_clock w)) eqn:E; simpl; [done|].
  repeat split; try done; intros; [by rewrite lookup_insert_ne|].
  match goal with H : reliable e |- _ => by rewrite H in E end.
Qed.

Lemma wp_g_file_get_contents p w :
  wp (g_file_get_contents p) e w (λ c w',
    only_clock w w' ∧ (c = None ∨ c = w_files w !! p) ∧ (reliable e → c = w_files w !! p)).
Proof.
  unfold g_file_get_contents, wp, mbind, M_bind, ask. simpl.
  destruct (env_ok e (w_clock w)) eqn:E; simpl; [split; [done|auto]|].
  split; [done|]. split; [by left|]. intros He. by rewrite He in E.
Qed.

Lemma wp_g_spawn_sync argv w :
  wp (g_spawn_sync argv) e w (λ r w',
    r = env_spawn e (w_clock w) argv ∧ w_files w' = w_files w ∧
    w_trace w' = w_trace w ++ [ASpawn argv]).
Proof. done. Qed.

Lemma wp_access p w :
  wp (access p) e w (λ b w', b = env_access e (w_clock w) p ∧ only_clock w w').
Proof. done. Qed.

Lemma wp_iterate t w :
  wp (iterate t) e w (λ l w', l ≡ₚ map_to_list t ∧ only_clock w w').
Proof. split; [|done]. apply hash_entries_perm. Qed.

Lemma wlp_iterate t w : wlp (iterate t) w (λ l _, l = env_order e (w_clock w) t).
Proof. by intros l w' [= <- _]. Qed.

Lemma wp_set_file p c w :
  wp (set_file p c) e w (λ _ w', w_files w' !! p = Some c ∧
    (∀ q, q ≠ p → w_files w' !! q = w_files w !! q) ∧ w_trace w' = w_trace w).
Proof.
  unfold wp. simpl. split; [by rewrite lookup_insert_eq|]. split; [|done].
  intros q ?. by rewrite lookup_insert_ne.
Qed.

Lemma wp_emit a w :
  wp (emit a) e w (λ _ w', w_files w' = w_files w ∧ w_trace w' = w_trace w ++ [a]).
Proof. done. Qed.
End Rules.

#[global] Opaque fopen_w fprintf ferror fclose g_file_get_contents g_spawn_sync access iterate emit.
#[global] Opaque wp.

(** Equality of texts up to the grouping of their parts. *)
Ltac text_eq := rewrite ?string_app_assoc, ?string_app_nil_r; reflexivity.

(** Step over an [fprintf], extending the hypothesis [H] on what was written. *)
Ltac wp_write H :=
  first
    [ eapply wp_fprintf_then; [exact H|]
    | apply wp_assoc; eapply wp_fprintf_then; [exact H|] ];
  clear H; let ok := fresh "ok" in let w := fresh "w" in let Hok := fresh "Hok" in
  intros ok w H Hok; cbv beta.

(** Run the first operation of a sequence with the specification [H]. *)
Ltac wp_first H := eapply wp_seq; [apply H|simpl].

#[export] Hint Resolve only_clock_refl only_clock_trans : dnsconfd.
