(* ===== verification/UnboundSelect.v ===== *)
(** * Selection of servers and of the certification authority

    [get_used_servers] and [get_effective_ca] of
    src/src/dns_managers/unbound_manager.c: which of the servers of a domain are
    handed to the cache, and which CA bundle verifies the encrypted ones. *)

From S2P Require Import Prelude CLib GLib SockAddr NetworkAddress ServerUri ConfigData World.

(** ** Definitions *)

Definition mode_value (m : dnsconfd_mode_t) : Z :=
  match m with MODE_BACKUP => 0 | MODE_PREFER => 1 | MODE_EXCLUSIVE => 2 end.

(** The servers bound to an interface that the mode bars from [domain]. *)
Definition interface_skipped (mode : dnsconfd_mode_t) (domain : string)
    (cur_server : server_uri_t) : bool :=
  negb (su_interface cur_server ==s "")
  && ((mode_value MODE_BACKUP <? mode_value mode)%Z && (domain ==s ".")
      || bool_decide (mode = MODE_EXCLUSIVE)).

(** The loop: [break] at the first server of a lower rank. *)
Fixpoint get_used_servers_loop (max_priority : Z) (max_protocol : dns_protocol_t) (dnssec : Z)
    (mode : dnsconfd_mode_t) (domain : string) (used_servers servers : list server_uri_t) :
    list server_uri_t :=
  match servers with
  | [] => used_servers
  | cur_server :: next =>
      if (su_priority cur_server <? max_priority)%Z
         || (protocol_value (su_protocol cur_server) <? protocol_value max_protocol)%Z
         || negb (su_dnssec cur_server =? dnssec)%Z
      then used_servers
      else if interface_skipped mode domain cur_server
      then get_used_servers_loop max_priority max_protocol dnssec mode domain used_servers next
      else get_used_servers_loop max_priority max_protocol dnssec mode domain
             (cur_server :: used_servers) next
  end.

(** The list must not be empty: its first node is dereferenced. *)
Definition get_used_servers (servers : list server_uri_t) (mode : dnsconfd_mode_t)
    (domain : string) : option (list server_uri_t) :=
  match servers with
  | [] => None
  | cur_server :: _ =>
      Some (get_used_servers_loop (su_priority cur_server) (su_protocol cur_server)
              (su_dnssec cur_server) mode domain [] servers)
  end.

(** The inner loop; the accumulator is [effective_ca] with [highest_prio],
    which is only set together with it. *)
Definition effective_ca_step (mode : dnsconfd_mode_t) (key : string)
    (acc : option (string * Z)) (cur_server : server_uri_t) : option (string * Z) :=
  match su_certification_authority cur_server with
  | None => acc
  | Some ca =>
      if interface_skipped mode key cur_server then acc
      else if (match acc with
               | None => true
               | Some (_, highest_prio) => (su_priority cur_server <? highest_prio)%Z
               end) && bool_decide (su_protocol cur_server = DNS_TLS)
      then Some (ca, su_priority cur_server)
      else acc
  end.

Definition effective_ca_from_uris (entries : list (string * list server_uri_t))
    (mode : dnsconfd_mode_t) : option string :=
  fst <$> foldl (λ acc '(key, value), foldl (effective_ca_step mode key) acc value) None entries.

(** The [strsep] loop: the first accessible path. *)
Fixpoint first_accessible (paths : list string) : M (option string) :=
  match paths with
  | [] => mret None
  | effective_ca :: rest =>
      ok ← access effective_ca;
      if ok : bool then mret (Some effective_ca) else first_accessible rest
  end.

Definition effective_ca_from_config (config : dnsconfd_config_t) : M (option string) :=
  duplicated_ca ← deref (certification_authority config);
  first_accessible (strsep " " duplicated_ca).

Definition get_effective_ca (domain_to_servers : option server_table)
    (mode : dnsconfd_mode_t) (config : dnsconfd_config_t) : M (option string) :=
  effective_ca ←
    match domain_to_servers with
    | Some t => entries ← iterate t; mret (effective_ca_from_uris entries mode)
    | None => mret None
    end;
  match effective_ca with
  | None => effective_ca_from_config config
  | Some ca => mret (Some ca)
  end.

(** ** Specification *)

(** The servers of [l] the cache is to use for [domain]: those of the rank of
    the first one that the mode does not bar. *)
Definition used_spec (mode : dnsconfd_mode_t) (domain : string) (l : list server_uri_t) :
    list server_uri_t :=
  match l with
  | [] => []
  | s :: _ => filter (λ x, same_rank s x = true ∧ interface_skipped mode domain x = false) l
  end.

(** The servers whose CA may be used. *)
Definition ca_candidate (mode : dnsconfd_mode_t) (domain : string) (s : server_uri_t)
    (ca : string) : Prop :=
  su_certification_authority s = Some ca ∧ su_protocol s = DNS_TLS
  ∧ interface_skipped mode domain s = false.

(** ** Proofs: used servers *)

Lemma get_used_servers_Some l mode domain :
  l ≠ [] → is_Some (get_used_servers l mode domain).
Proof. destruct l; [done|]. eauto. Qed.

Lemma get_used_servers_loop_elem p q d mode domain used l x :
  x ∈ get_used_servers_loop p q d mode domain used l →
  x ∈ used ∨ x ∈ l ∧ interface_skipped mode domain x = false.
Proof.
  revert used. induction l as [|s l IH]; intros used; simpl; [auto|].
  case_match; [auto|]. destruct (interface_skipped mode domain s) eqn:E.
  - intros [?|[? ?]]%IH; [auto|]. right. split; [set_solver|done].
  - intros [Hx|[? ?]]%IH; [|right; split; [set_solver|done]].
    apply elem_of_cons in Hx as [->|?]; [right; split; [set_solver|done]|auto].
Qed.

(** Only servers of the list are used, and none the mode bars. *)
Lemma get_used_servers_elem l mode domain used x :
  get_used_servers l mode domain = Some used → x ∈ used →
  x ∈ l ∧ interface_skipped mode domain x = false.
Proof.
  destruct l as [|s l]; [done|]. unfold get_used_servers. intros Hu Hx. apply (inj Some) in Hu. subst used.
  apply get_used_servers_loop_elem in Hx as [Hx|?]; [|done].
  by apply not_elem_of_nil in Hx.
Qed.

(** A server of a rank not better than [s] is of the rank of [s] or stops the loop. *)
Lemma rank_break s x :
  better_or_equal s x →
  (su_priority x <? su_priority s)%Z
  || (protocol_value (su_protocol x) <? protocol_value (su_protocol s))%Z
  || negb (su_dnssec x =? su_dnssec s)%Z = negb (same_rank s x).
Proof.
  unfold better_or_equal, same_rank. intros Hb.
  rewrite <-protocol_value_inj in Hb.
  case_bool_decide as Hp; rewrite <-protocol_value_inj in Hp;
    destruct (Z.ltb_spec (su_priority x) (su_priority s)),
      (Z.ltb_spec (protocol_value (su_protocol x)) (protocol_value (su_protocol s))),
      (Z.eqb_spec (su_dnssec x) (su_dnssec s)), (Z.eqb_spec (su_priority s) (su_priority x)),
      (Z.eqb_spec (su_dnssec s) (su_dnssec x)); simpl; lia.
Qed.

Lemma better_or_equal_trans a b c :
  better_or_equal a b → better_or_equal b c → better_or_equal a c.
Proof.
  unfold better_or_equal. intros Hab Hbc. rewrite <-!protocol_value_inj in *. lia.
Qed.

Lemma worse_not_same_rank s x y :
  better_or_equal s x → same_rank s x = false → better_or_equal x y → same_rank s y = false.
Proof.
  intros Hx Hr Hy. apply not_true_iff_false. rewrite same_rank_spec. intros (Hp & Hq & Hd).
  apply not_true_iff_false in Hr. apply Hr. apply same_rank_spec.
  unfold better_or_equal in *. rewrite <-!protocol_value_inj in *. lia.
Qed.

Lemma get_used_servers_loop_sorted s mode domain used l :
  StronglySorted better_or_equal l → Forall (better_or_equal s) l →
  get_used_servers_loop (su_priority s) (su_protocol s) (su_dnssec s) mode domain used l
  = rev (filter (λ x, same_rank s x = true ∧ interface_skipped mode domain x = false) l) ++ used.
Proof.
  intros Hl. revert used. induction Hl as [|x l Hl IH HF]; intros used Hs; [done|].
  inversion Hs as [|? ? Hx Hs']; subst. simpl. rewrite rank_break by done.
  rewrite filter_cons. destruct (same_rank s x) eqn:E; cbn [negb].
  - destruct (interface_skipped mode domain x) eqn:E'.
    + rewrite decide_False by (by intros [_ ?]). by apply IH.
    + rewrite decide_True by done. rewrite IH by done. simpl. by rewrite <-app_assoc.
  - rewrite decide_False by (by intros [? _]).
    rewrite filter_none; [done|]. intros y Hy [Hr _]. rewrite Forall_forall in HF.
    by rewrite (worse_not_same_rank s x y) in Hr by auto.
Qed.

(** C21: for a sorted list of servers the loop hands over exactly the servers
    of the rank of the first one that the mode does not bar from the domain,
    in reverse order; [break] loses none of them. *)
Theorem get_used_servers_sorted (l : list server_uri_t) (mode : dnsconfd_mode_t) (domain : string) :
  l ≠ [] → StronglySorted better_or_equal l →
  get_used_servers l mode domain = Some (rev (used_spec mode domain l)).
Proof.
  destruct l as [|s l]; [done|]. intros _ Hs. cbn [get_used_servers used_spec].
  rewrite get_used_servers_loop_sorted; [by rewrite app_nil_r|done|].
  inversion Hs as [|? ? ? HF]; subst. constructor; [|done].
  right. split; [done|]. right. split; [done|lia].
Qed.

(** ** Proofs: the effective CA *)

(** The invariant of the loops: the accumulator is a candidate among the
    servers seen, and none of them has a lower priority number. *)
Definition ca_acc (mode : dnsconfd_mode_t) (seen : list (string * server_uri_t))
    (acc : option (string * Z)) : Prop :=
  match acc with
  | None => ∀ d s ca, (d, s) ∈ seen → ¬ ca_candidate mode d s ca
  | Some (ca, p) =>
      (∃ d s, (d, s) ∈ seen ∧ ca_candidate mode d s ca ∧ su_priority s = p) ∧
      ∀ d s ca', (d, s) ∈ seen → ca_candidate mode d s ca' → (p ≤ su_priority s)%Z
  end.

Lemma effective_ca_step_acc mode key seen acc s :
  ca_acc mode seen acc → ca_acc mode (seen ++ [(key, s)]) (effective_ca_step mode key acc s).
Proof.
  intros Hacc. unfold effective_ca_step.
  destruct (su_certification_authority s) as [ca|] eqn:Eca.
  2: { destruct acc as [[ca p]|]; simpl in *.
    - destruct Hacc as [(d & s' & ? & ? & ?) Hmin]. split; [exists d, s'; set_solver|].
      intros d' s'' ca' [?|[= -> ->]%list_elem_of_singleton]%elem_of_app [? ?]; [|congruence].
      eapply Hmin; [done|]. by split.
    - intros d s' ca [?|[= -> ->]%list_elem_of_singleton]%elem_of_app Hc; [by eapply Hacc|].
      destruct Hc. congruence. }
  destruct (interface_skipped mode key s) eqn:Esk.
  { destruct acc as [[ca' p]|]; simpl in *.
    - destruct Hacc as [(d & s' & ? & ? & ?) Hmin]. split; [exists d, s'; set_solver|].
      intros d' s'' ca'' [?|[= -> ->]%list_elem_of_singleton]%elem_of_app (? & ? & ?); [|congruence].
      eapply Hmin; [done|]. by split.
    - intros d s' ca' [?|[= -> ->]%list_elem_of_singleton]%elem_of_app Hc; [by eapply Hacc|].
      destruct Hc as (_ & _ & ?). congruence. }
  case_bool_decide as Htls; rewrite ?andb_true_r, ?andb_false_r.
  - destruct acc as [[ca' p]|]; simpl in *.
    + destruct Hacc as [(d & s' & Hin & Hc & Hp) Hmin]. destruct (Z.ltb_spec (su_priority s) p).
      * split; [exists key, s; split; [set_solver|by repeat split]|].
        intros d' s'' ca'' [Hin'|[= -> ->]%list_elem_of_singleton]%elem_of_app Hc'; [|lia].
        specialize (Hmin _ _ _ Hin' Hc'). lia.
      * split; [exists d, s'; split; [set_solver|done]|].
        intros d' s'' ca'' [Hin'|[= -> ->]%list_elem_of_singleton]%elem_of_app Hc'; [eauto|lia].
    + split; [exists key, s; split; [set_solver|by repeat split]|].
      intros d' s'' ca'' [Hin'|[= -> ->]%list_elem_of_singleton]%elem_of_app Hc'; [|lia].
      by destruct (Hacc _ _ _ Hin' Hc').
  - destruct acc as [[ca' p]|]; simpl in *.
    + destruct Hacc as [(d & s' & Hin & Hc & Hp) Hmin].
      split; [exists d, s'; split; [set_solver|done]|].
      intros d' s'' ca'' [Hin'|[= -> ->]%list_elem_of_singleton]%elem_of_app Hc'; [eauto|].
      by destruct Hc' as (_ & ? & _).
    + intros d' s'' ca'' [Hin'|[= -> ->]%list_elem_of_singleton]%elem_of_app Hc'; [by eapply Hacc|].
      by destruct Hc' as (_ & ? & _).
Qed.

(** The servers in the order of the loops, with their domains. *)
Definition all_entries (entries : list (string * list server_uri_t)) :
    list (string * server_uri_t) :=
  '(key, value) ← entries; s ← value; [(key, s)].

Lemma effective_ca_fold mode entries :
  ca_acc mode (all_entries entries)
    (foldl (λ acc '(key, value), foldl (effective_ca_step mode key) acc value) None entries).
Proof.
  assert (Hin : ∀ key value seen acc, ca_acc mode seen acc →
    ca_acc mode (seen ++ (s ← value; [(key, s)])) (foldl (effective_ca_step mode key) acc value)).
  { intros key value. induction value as [|s value IH]; intros seen acc Ha; simpl.
    - by rewrite app_nil_r.
    - rewrite cons_middle, app_assoc. apply IH. by apply effective_ca_step_acc. }
  assert (Hout : ∀ entries seen acc, ca_acc mode seen acc →
    ca_acc mode (seen ++ all_entries entries)
      (foldl (λ acc '(key, value), foldl (effective_ca_step mode key) acc value) acc entries)).
  { clear entries. induction entries as [|[key value] entries IH]; intros seen acc Ha; simpl.
    - by rewrite app_nil_r.
    - unfold all_entries. simpl. rewrite app_assoc. apply IH. by apply Hin. }
  apply (Hout entries []). simpl. intros ? ? ? Hn. by apply not_elem_of_nil in Hn.
Qed.

Lemma elem_of_all_entries entries d s :
  (d, s) ∈ all_entries entries ↔ ∃ l, (d, l) ∈ entries ∧ s ∈ l.
Proof.
  unfold all_entries. rewrite list_elem_of_bind. split.
  - intros ([key value] & Hs & Hin). apply list_elem_of_bind in Hs as (s' & Hs & Hin').
    apply list_elem_of_singleton in Hs as [= -> ->]. eauto.
  - intros (l & Hl & Hs). exists (d, l). split; [|done]. apply list_elem_of_bind.
    exists s. split; [by apply list_elem_of_singleton|done].
Qed.

Lemma effective_ca_outcome (t : server_table) (mode : dnsconfd_mode_t)
    (entries : list (string * list server_uri_t)) :
  entries ≡ₚ map_to_list t →
  match effective_ca_from_uris entries mode with
  | None => ∀ d l s ca, t !! d = Some l → s ∈ l → ¬ ca_candidate mode d s ca
  | Some ca =>
      ∃ d l s, t !! d = Some l ∧ s ∈ l ∧ ca_candidate mode d s ca ∧
        ∀ d' l' s' ca', t !! d' = Some l' → s' ∈ l' → ca_candidate mode d' s' ca' →
          (su_priority s ≤ su_priority s')%Z
  end.
Proof.
  intros Hp. assert (Hin : ∀ d s, (d, s) ∈ all_entries entries ↔ ∃ l, t !! d = Some l ∧ s ∈ l).
  { intros d s. rewrite elem_of_all_entries. setoid_rewrite Hp.
    by setoid_rewrite elem_of_map_to_list. }
  pose proof (effective_ca_fold mode entries) as Hf. unfold effective_ca_from_uris.
  destruct (foldl _ None entries) as [[ca p]|]; simpl in *.
  - destruct Hf as [(d & s & Hds & Hc & Hpr) Hmin]. apply Hin in Hds as (l & Hl & Hs).
    exists d, l, s. repeat split; try apply Hc; try done.
    intros d' l' s' ca' Hl' Hs' Hc'. rewrite Hpr. eapply Hmin; [|exact Hc'].
    apply Hin. eauto.
  - intros d l s ca Hl Hs. apply Hf. apply Hin. eauto.
Qed.

(** C22: in whatever order the table is visited, a CA is found exactly when some
    TLS server that the mode does not bar carries one, and it is the CA of such
    a server with the numerically lowest priority - the least preferred one in
    the order the servers are sorted by. *)
Theorem effective_ca_from_uris_spec (t : server_table) (mode : dnsconfd_mode_t)
    (entries : list (string * list server_uri_t)) :
  entries ≡ₚ map_to_list t →
  match effective_ca_from_uris entries mode with
  | None => ∀ d l s ca, t !! d = Some l → s ∈ l → ¬ ca_candidate mode d s ca
  | Some ca =>
      ∃ d l s, t !! d = Some l ∧ s ∈ l ∧ ca_candidate mode d s ca ∧
        ∀ d' l' s' ca', t !! d' = Some l' → s' ∈ l' → ca_candidate mode d' s' ca' →
          (su_priority s ≤ su_priority s')%Z
  end.
Proof. apply effective_ca_outcome. Qed.

(** The CA bundles of the configuration, and whether one of them can be read. *)
Definition config_cas (cfg : dnsconfd_config_t) : list string :=
  strsep " " (default "" (certification_authority cfg)).

Definition ca_available (e : env) (cfg : dnsconfd_config_t) : Prop :=
  ∃ p, p ∈ config_cas cfg ∧ ∀ n, env_access e n p = true.

(** The CA that may be chosen: that of the candidate with the lowest priority
    number, or without candidates a bundle of the configuration. *)
Definition ca_chosen (t : option server_table) (mode : dnsconfd_mode_t)
    (cfg : dnsconfd_config_t) (ca : string) : Prop :=
  (∃ tab entries, t = Some tab ∧ entries ≡ₚ map_to_list tab
    ∧ effective_ca_from_uris entries mode = Some ca)
  ∨ ((∀ tab d l s ca', t = Some tab → tab !! d = Some l → s ∈ l → ¬ ca_candidate mode d s ca')
     ∧ ca ∈ config_cas cfg).

Section Effects.
Context (e : env).

Lemma wp_first_accessible paths w :
  wp (first_accessible paths) e w (λ ca w',
    only_clock w w' ∧ (∀ p, ca = Some p → p ∈ paths) ∧
    ((∃ p, p ∈ paths ∧ ∀ n, env_access e n p = true) → is_Some ca)).
Proof.
  revert w. induction paths as [|p paths IH]; intros w.
  - apply wp_ret. split; [done|]. split; [done|]. intros (p & Hp & _).
    by apply not_elem_of_nil in Hp.
  - simpl. wp_first wp_access. intros b w1 [Hb Hw1]. destruct b.
    + apply wp_ret. split; [done|]. split; [|eauto]. intros ? [= ->]. set_solver.
    + eapply wp_mono; [apply IH|]. simpl. intros ca w2 (Hw2 & Hp & Hsome).
      split; [eauto with dnsconfd|]. split.
      * intros q Hq. apply elem_of_cons. auto.
      * intros (q & [->|Hq]%elem_of_cons & Hacc); [by rewrite Hacc in Hb|eauto].
Qed.

(** The environment alone is asked: nothing is written. *)
Lemma wp_get_effective_ca t mode cfg w :
  is_Some (certification_authority cfg) →
  wp (get_effective_ca t mode cfg) e w (λ ca w',
    only_clock w w' ∧ (∀ p, ca = Some p → ca_chosen t mode cfg p)
    ∧ (ca_available e cfg → is_Some ca)).
Proof.
  intros [cas Hcas]. unfold get_effective_ca.
  apply (wp_seq _ _ _ _ (λ r w', only_clock w w' ∧
    match r with
    | Some ca => ca_chosen t mode cfg ca
    | None => ∀ tab d l s ca', t = Some tab → tab !! d = Some l → s ∈ l →
                ¬ ca_candidate mode d s ca'
    end)).
  - destruct t as [t|]; [|by apply wp_ret].
    wp_first wp_iterate. intros l w1 [Hl Hw1]. apply wp_ret. split; [done|].
    pose proof (effective_ca_outcome t mode l Hl) as Hs.
    destruct (effective_ca_from_uris l mode) eqn:E; [left; eauto|].
    intros ? d l' s ca' [= <-]. apply Hs.
  - intros [ca|] w1 [Hw1 Hr].
    + apply wp_ret. split; [done|]. split; [|eauto]. by intros ? [= ->].
    + unfold effective_ca_from_config. apply wp_bind, wp_deref. exists cas. split; [done|].
      eapply wp_mono; [apply wp_first_accessible|]. unfold ca_available, config_cas.
      simpl. intros ca w2 (Hw2 & Hin & Hsome). rewrite Hcas.
      split; [eauto with dnsconfd|]. split; [|done]. intros p Hp. right. split; [done|].
      unfold config_cas. rewrite Hcas. by apply Hin.
Qed.
End Effects.

(** ** Witnesses *)

Definition ex_uri (p : Z) (iface : string) (ca : option string) : server_uri_t :=
  ServerUri (SockAddr AF_INET 853 [10; 0; 0; 1]%Z (replicate 16 0%Z)) p iface 1 DNS_TLS ca None
    ["."] [] [].

Theorem get_used_servers_sorted_witness :
  get_used_servers [ex_uri 5 "" None; ex_uri 5 "eth0" None; ex_uri 1 "" None] MODE_PREFER "."
  = Some [ex_uri 5 "" None].
Proof.
  rewrite (get_used_servers_sorted
    [ex_uri 5 "" None; ex_uri 5 "eth0" None; ex_uri 1 "" None] MODE_PREFER ".").
  - vm_compute. reflexivity.
  - discriminate.
  - apply (bool_decide_unpack _). vm_compute. exact I.
Defined.

Theorem effective_ca_from_uris_spec_witness :
  ∃ d l s, ({["." := [ex_uri 5 "" (Some "a.pem"); ex_uri 1 "" (Some "b.pem")]]} : server_table) !! d
    = Some l ∧ s ∈ l ∧ ca_candidate MODE_BACKUP d s "b.pem".
Proof.
  destruct (effective_ca_from_uris_spec
    {["." := [ex_uri 5 "" (Some "a.pem"); ex_uri 1 "" (Some "b.pem")]]} MODE_BACKUP
    [(".", [ex_uri 5 "" (Some "a.pem"); ex_uri 1 "" (Some "b.pem")])])
    as (d & l & s & Hl & Hs & Hc & _).
  - by rewrite map_to_list_singleton.
  - exists d, l, s. split; [exact Hl|]. split; [exact Hs|exact Hc].
Defined.
