(* ===== verification/FsmContext.v ===== *)
(** * The state of the daemon: src/src/fsm/fsm.h

    The states and events of the state machine, and [fsm_context_t], which the
    managers of the cache and of its service read and update. *)

From S2P Require Import Prelude GLib SockAddr NetworkAddress ServerUri ServerTable.
From S2P Require Import ConfigData World UnboundSelect.

(** ** Definitions *)

Inductive fsm_state_t :=
| FSM_STARTING | FSM_CONFIGURING_DNS_MANAGER | FSM_SUBMITTING_START_JOB
| FSM_WAITING_FOR_START_JOB | FSM_SETTING_RESOLV_CONF | FSM_UPDATING_DNS_MANAGER
| FSM_RUNNING | FSM_REVERTING_RESOLV_CONF | FSM_SUBMITTING_STOP_JOB
| FSM_WAITING_STOP_JOB | FSM_STOPPING.
#[export] Instance fsm_state_t_eq_dec : EqDecision fsm_state_t.
Proof. solve_decision. Defined.

Inductive fsm_event_t :=
| EVENT_NONE | EVENT_UPDATE | EVENT_KICKOFF | EVENT_SUCCESS | EVENT_FAILURE | EVENT_RELOAD
| EVENT_JOB_SUCCESS | EVENT_JOB_FAILURE | EVENT_STOP.
#[export] Instance fsm_event_t_eq_dec : EqDecision fsm_event_t.
Proof. solve_decision. Defined.

(** [ServiceManagementContext]: the callback is the same in every call, so
    what is kept of it is whether the file monitor is set.  A monitor stays
    connected when the pointer to it is overwritten: [sm_handlers] counts the
    connected ones. *)
Record ServiceManagementContext := ServiceCtx {
  sm_expected_status : option string;
  sm_monitor : bool;
  sm_handlers : nat
}.

Record fsm_context_t := FsmContext {
  current_state : fsm_state_t;
  config : dnsconfd_config_t;
  current_dynamic_servers : list server_uri_t;
  new_dynamic_servers : list server_uri_t;
  all_servers : list server_uri_t;
  current_domain_to_servers : option server_table;
  current_unbound_domain_to_servers : option server_table;
  resolv_conf_backup : option string;
  effective_ca : option string;
  exit_code : Z;
  requested_configuration_serial : Z;
  current_configuration_serial : Z;
  resolution_mode : dnsconfd_mode_t;
  service_management_ctx : ServiceManagementContext
}.

(** Assignments to one field. *)
Definition set_current_state x c := FsmContext x (config c) (current_dynamic_servers c)
  (new_dynamic_servers c) (all_servers c) (current_domain_to_servers c)
  (current_unbound_domain_to_servers c) (resolv_conf_backup c) (effective_ca c) (exit_code c)
  (requested_configuration_serial c) (current_configuration_serial c) (resolution_mode c)
  (service_management_ctx c).
Definition set_dynamic cur new c := FsmContext (current_state c) (config c) cur
  new (all_servers c) (current_domain_to_servers c)
  (current_unbound_domain_to_servers c) (resolv_conf_backup c) (effective_ca c) (exit_code c)
  (requested_configuration_serial c) (current_configuration_serial c) (resolution_mode c)
  (service_management_ctx c).
Definition set_all_servers all t c := FsmContext (current_state c) (config c)
  (current_dynamic_servers c) (new_dynamic_servers c) all t
  (current_unbound_domain_to_servers c) (resolv_conf_backup c) (effective_ca c) (exit_code c)
  (requested_configuration_serial c) (current_configuration_serial c) (resolution_mode c)
  (service_management_ctx c).
Definition set_unbound_table t c := FsmContext (current_state c) (config c)
  (current_dynamic_servers c) (new_dynamic_servers c) (all_servers c)
  (current_domain_to_servers c) t (resolv_conf_backup c) (effective_ca c) (exit_code c)
  (requested_configuration_serial c) (current_configuration_serial c) (resolution_mode c)
  (service_management_ctx c).
Definition set_backup b c := FsmContext (current_state c) (config c)
  (current_dynamic_servers c) (new_dynamic_servers c) (all_servers c)
  (current_domain_to_servers c) (current_unbound_domain_to_servers c) b (effective_ca c)
  (exit_code c) (requested_configuration_serial c) (current_configuration_serial c)
  (resolution_mode c) (service_management_ctx c).
Definition set_effective_ca ca c := FsmContext (current_state c) (config c)
  (current_dynamic_servers c) (new_dynamic_servers c) (all_servers c)
  (current_domain_to_servers c) (current_unbound_domain_to_servers c) (resolv_conf_backup c) ca
  (exit_code c) (requested_configuration_serial c) (current_configuration_serial c)
  (resolution_mode c) (service_management_ctx c).
Definition put_exit_code x c := FsmContext (current_state c) (config c)
  (current_dynamic_servers c) (new_dynamic_servers c) (all_servers c)
  (current_domain_to_servers c) (current_unbound_domain_to_servers c) (resolv_conf_backup c)
  (effective_ca c) x (requested_configuration_serial c) (current_configuration_serial c)
  (resolution_mode c) (service_management_ctx c).
Definition set_serials req cur c := FsmContext (current_state c) (config c)
  (current_dynamic_servers c) (new_dynamic_servers c) (all_servers c)
  (current_domain_to_servers c) (current_unbound_domain_to_servers c) (resolv_conf_backup c)
  (effective_ca c) (exit_code c) req cur (resolution_mode c) (service_management_ctx c).
Definition set_mode m c := FsmContext (current_state c) (config c)
  (current_dynamic_servers c) (new_dynamic_servers c) (all_servers c)
  (current_domain_to_servers c) (current_unbound_domain_to_servers c) (resolv_conf_backup c)
  (effective_ca c) (exit_code c) (requested_configuration_serial c)
  (current_configuration_serial c) m (service_management_ctx c).
Definition set_service_ctx s c := FsmContext (current_state c) (config c)
  (current_dynamic_servers c) (new_dynamic_servers c) (all_servers c)
  (current_domain_to_servers c) (current_unbound_domain_to_servers c) (resolv_conf_backup c)
  (effective_ca c) (exit_code c) (requested_configuration_serial c)
  (current_configuration_serial c) (resolution_mode c) s.

(** The context [dbus_server_run] starts from. *)
Definition initial_context (c : dnsconfd_config_t) : fsm_context_t :=
  FsmContext FSM_STARTING c [] [] [] None None None None 0 1 1 MODE_BACKUP
    (ServiceCtx None false 0).

Definition fsm_state_t_to_string (state : fsm_state_t) : string :=
  match state with
  | FSM_STARTING => "STARTING"
  | FSM_CONFIGURING_DNS_MANAGER => "CONFIGURING_DNS_MANAGER"
  | FSM_SUBMITTING_START_JOB => "SUBMITTING_START_JOB"
  | FSM_WAITING_FOR_START_JOB => "WAITING_FOR_START_JOB"
  | FSM_SETTING_RESOLV_CONF => "SETTING_RESOLV_CONF"
  | FSM_UPDATING_DNS_MANAGER => "UPDATING_DNS_MANAGER"
  | FSM_RUNNING => "RUNNING"
  | FSM_REVERTING_RESOLV_CONF => "REVERTING_RESOLV_CONF"
  | FSM_SUBMITTING_STOP_JOB => "SUBMITTING_STOP_JOB"
  | FSM_WAITING_STOP_JOB => "WAITING_STOP_JOB"
  | FSM_STOPPING => "STOPPING"
  end.

Definition fsm_event_t_to_string (event : fsm_event_t) : string :=
  match event with
  | EVENT_NONE => "NONE"
  | EVENT_UPDATE => "UPDATE"
  | EVENT_KICKOFF => "KICKOFF"
  | EVENT_SUCCESS => "SUCCESS"
  | EVENT_FAILURE => "FAILURE"
  | EVENT_RELOAD => "RELOAD"
  | EVENT_JOB_SUCCESS => "JOB_SUCCESS"
  | EVENT_JOB_FAILURE => "JOB_FAILURE"
  | EVENT_STOP => "STOP"
  end.

(** The data the daemon keeps is well formed: the configuration, every server
    and every table. *)
Record context_wf (c : fsm_context_t) : Prop := {
  xw_config : config_wf (config c);
  xw_current : Forall server_wf (current_dynamic_servers c);
  xw_new : Forall server_wf (new_dynamic_servers c);
  xw_all : Forall server_wf (all_servers c);
  xw_table : ∀ t, current_domain_to_servers c = Some t → table_wf t;
  xw_unbound : ∀ t, current_unbound_domain_to_servers c = Some t → table_wf t
}.

(** ** A sample context, for the examples of the other files *)

Definition ex_ca : string := "/etc/pki/tls.pem".

Definition ex_config : dnsconfd_config_t :=
  Config None (Some "/etc/resolv.conf") (Some "edns0 trust-ad") None (Some ex_ca) [] []
    (SockAddr AF_INET 0 [127; 0; 0; 1]%Z (replicate 16 0%Z)) COMMAND_START LOG_INFO
    CONFIG_BOOLEAN_TRUE CONFIG_BOOLEAN_FALSE CONFIG_BOOLEAN_TRUE CONFIG_BOOLEAN_FALSE.

Definition ex_dns (last : Z) (domain : string) : server_uri_t :=
  ServerUri (SockAddr AF_INET 53 [10; 0; 0; last]%Z (replicate 16 0%Z)) 0 "" 1 DNS_UDP None None
    [domain] ["corp.example"] [].

Definition ex_servers : list server_uri_t := [ex_dns 1 "."; ex_dns 2 "corp.example"].
Definition ex_servers_table : server_table :=
  default ∅ (server_list_to_hash_table ex_servers).

(** Every call succeeds. *)
Definition ex_env : env :=
  Env (λ _, true) (λ _ _, SpawnExited 0) (λ _ _, true) (λ _ _, false) (λ _, "")
    (λ _, reference_order).
Definition ex_world : world := World 0 {["/etc/resolv.conf" := "nameserver 192.0.2.1"]} false [].

(** A daemon with two servers, its cache configured but not yet updated. *)
Definition ex_context : fsm_context_t :=
  set_effective_ca (Some ex_ca)
    (set_all_servers ex_servers (Some ex_servers_table)
      (set_dynamic ex_servers [] (initial_context ex_config))).

Lemma ex_config_wf : config_wf ex_config.
Proof. split; try (by eexists); [by apply sockaddr_wf_bool|constructor..]. Qed.

Lemma ex_table_wf : table_wf ex_servers_table.
Proof.
  destruct (server_list_to_hash_table_wf ex_servers) as (t & Ht & Hwf).
  - apply servers_wf_check. by vm_compute.
  - unfold ex_servers_table. by rewrite Ht.
Qed.

Lemma ex_context_wf : context_wf ex_context.
Proof.
  split; simpl.
  - apply ex_config_wf.
  - apply servers_wf_check. by vm_compute.
  - constructor.
  - apply servers_wf_check. by vm_compute.
  - intros t [= <-]. apply ex_table_wf.
  - done.
Qed.
