(* ===== verification/UnboundConf.v ===== *)
(** * The configuration file of Unbound

    [write_configuration] of src/src/dns_managers/unbound_manager.c and the
    functions that write the sections of /run/dnsconfd/unbound.conf. *)

From S2P Require Import Prelude CLib GLib SockAddr NetworkAddress ServerUri ServerTable.
From S2P Require Import ConfigData World UnboundSelect FsmContext.

(** ** Definitions *)

(** Characters a string literal cannot hold. *)
Definition TAB : string := String "009" "".
Definition NL : string := String "010" "".
Definition QUOTE : string := String "034" "".
Definition quoted (s : string) : string := QUOTE +:+ s +:+ QUOTE.

Definition unbound_conf_path : string := "/run/dnsconfd/unbound.conf".

Section Writers.
Context `{Inet}.

(** [true] is the status 0, [false] the status -1. *)
Definition server_to_unbound_string (config_file : string) (server : server_uri_t) : M bool :=
  addr_buffer ← deref (ip_to_str (su_address server));
  fprintf config_file (TAB +:+ "forward-addr: " +:+ addr_buffer);;
  let port := server_port server in
  (if bool_decide (su_protocol server = DNS_TLS) then
     (if negb (port =? 0)%Z then fprintf config_file ("@" +:+ fmt_d port)
      else fprintf config_file "@853");;
     match su_name server with
     | Some name => fprintf config_file ("#" +:+ name)
     | None => mret true
     end
   else if negb (port =? 0)%Z then fprintf config_file ("@" +:+ fmt_d port)
   else mret true);;
  fprintf config_file NL;;
  error ← ferror;
  mret (negb error).

(** The loop over the servers of a zone: [None] is the early return, else
    the flag [tls]. *)
Fixpoint write_zone_servers (config_file : string) (tls : bool) (l : list server_uri_t) :
    M (option bool) :=
  match l with
  | [] => mret (Some tls)
  | server :: next =>
      let tls := if bool_decide (su_protocol server = DNS_TLS) then true else tls in
      ok ← server_to_unbound_string config_file server;
      if ok : bool then write_zone_servers config_file tls next else mret None
  end.

(** The loop over the table: [None] is the early return, else [root_present]. *)
Fixpoint write_zones (config_file : string) (mode : dnsconfd_mode_t) (root_present : bool)
    (entries : list (string * list server_uri_t)) : M (option bool) :=
  match entries with
  | [] => mret (Some root_present)
  | (key, value) :: rest =>
      used_servers ← deref (get_used_servers value mode key);
      match used_servers with
      | [] => write_zones config_file mode root_present rest
      | _ :: _ =>
          fprintf config_file ("forward-zone:" +:+ NL +:+ TAB +:+ "name: " +:+ quoted key +:+ NL);;
          let root_present := if negb root_present && (key ==s ".") then true else root_present in
          tls ← write_zone_servers config_file false used_servers;
          match tls with
          | None => mret None
          | Some tls =>
              fprintf config_file
                (TAB +:+ "forward-tls-upstream: " +:+ (if tls : bool then "yes" else "no") +:+ NL);;
              write_zones config_file mode root_present rest
          end
      end
  end.

Definition no_forward_zone : string :=
  "forward-zone:" +:+ NL +:+ TAB +:+ "name: " +:+ quoted "." +:+ NL +:+ TAB
  +:+ "forward-addr: " +:+ quoted "127.0.0.1" +:+ NL.

Definition generate_forward_zones (config_file : string) (domain_to_servers : server_table)
    (mode : dnsconfd_mode_t) : M bool :=
  entries ← iterate domain_to_servers;
  root_present ← write_zones config_file mode false entries;
  match root_present with
  | None => mret false
  | Some root_present =>
      (if negb root_present then fprintf config_file no_forward_zone else mret true);;
      error ← ferror;
      mret (negb error)
  end.

Fixpoint write_rpz_zones (config_file : string) (zones : list rpz_zone_t) : M () :=
  match zones with
  | [] => mret ()
  | zone :: next =>
      fprintf config_file ("rpz:" +:+ NL);;
      name ← deref (rz_name zone);
      fprintf config_file (TAB +:+ "name: " +:+ quoted name +:+ NL);;
      match rz_master zone with
      | Some master =>
          fprintf config_file (TAB +:+ "master: " +:+ master +:+ NL);;
          fprintf config_file (TAB +:+ "allow-notify: " +:+ master +:+ NL)
      | None => mret true
      end;;
      match rz_zonefile zone with
      | Some zonefile => fprintf config_file (TAB +:+ "zonefile: " +:+ quoted zonefile +:+ NL)
      | None => mret true
      end;;
      write_rpz_zones config_file next
  end.

Definition generate_rpz_zones (config_file : string) (zones : list rpz_zone_t) : M bool :=
  write_rpz_zones config_file zones;;
  error ← ferror;
  mret (negb error).

Definition generate_listen_address (config_file : string) (cfg : dnsconfd_config_t) : M status :=
  inet_buffer ← deref (ip_to_str (listen_address cfg));
  ok ← fprintf config_file (TAB +:+ "interface: " +:+ inet_buffer +:+ NL +:+ TAB
                              +:+ "do-not-query-address: 127.0.0.1/8" +:+ NL);
  if ok : bool then mret Success
  else mret (Failure (Some "Failed to write unbound interface configuration")).

Definition module_config (cfg : dnsconfd_config_t) : string :=
  "server:" +:+ NL +:+ TAB +:+ "module-config: " +:+ quoted
    (match rpz_zones cfg with
     | _ :: _ => if bool_decide (dnssec_enabled cfg = CONFIG_BOOLEAN_TRUE)
                 then "ipsecmod respip validator iterator" else "ipsecmod respip iterator"
     | [] => if bool_decide (dnssec_enabled cfg = CONFIG_BOOLEAN_TRUE)
             then "ipsecmod validator iterator" else "ipsecmod iterator"
     end) +:+ NL.

(** The label [error]: close the file and fail. *)
Definition close_and_fail (config_file : string) (ctx : fsm_context_t) (msg : string) :
    M (fsm_context_t * status) :=
  fclose config_file;; mret (ctx, Failure (Some msg)).

Definition write_configuration (ctx : fsm_context_t) : M (fsm_context_t * status) :=
  let config_file := unbound_conf_path in
  opened ← fopen_w config_file;
  if negb opened then mret (ctx, Failure (Some "Failed to open unbound config file"))
  else
    fprintf config_file (module_config (config ctx));;
    st ← generate_listen_address config_file (config ctx);
    match st with
    | Failure _ =>
        close_and_fail config_file ctx "Failed to write unbound interface configuration"
    | Success =>
        ca ← get_effective_ca (current_domain_to_servers ctx) (resolution_mode ctx) (config ctx);
        match ca with
        | None => close_and_fail config_file ctx "Failed to determine Unbound effective CA"
        | Some ca =>
            fprintf config_file (TAB +:+ "tls-cert-bundle: " +:+ ca +:+ NL);;
            let ctx := set_effective_ca (Some ca) ctx in
            zones_ok ←
              match current_domain_to_servers ctx with
              | Some t => generate_forward_zones config_file t (resolution_mode ctx)
              | None => fprintf config_file no_forward_zone;; mret true
              end;
            if negb zones_ok
            then close_and_fail config_file ctx "Failed to generate Unbound forward zones"
            else
              rpz_ok ←
                match rpz_zones (config ctx) with
                | [] => mret true
                | zones => generate_rpz_zones config_file zones
                end;
              if negb rpz_ok
              then close_and_fail config_file ctx "Failed to generate Unbound RPZ configuration"
              else
                error ← ferror;
                if error : bool
                then close_and_fail config_file ctx
                       "Error encountered while writing Unbound configuration"
                else
                  closed ← fclose config_file;
                  if closed : bool then mret (ctx, Success)
                  else mret (ctx, Failure (Some "Failed to close Unbound configuration file"))
        end
    end.

(** ** Specification: the text of the file *)

(** A server as Unbound is told about it. *)
Definition unbound_address (server : server_uri_t) (addr : string) : string :=
  let port := server_port server in
  addr +:+
  (if bool_decide (su_protocol server = DNS_TLS) then
     (if (port =? 0)%Z then "@853" else "@" +:+ fmt_d port)
     +:+ match su_name server with Some name => "#" +:+ name | None => "" end
   else if (port =? 0)%Z then "" else "@" +:+ fmt_d port).

Definition forward_addr_line (server : server_uri_t) : string :=
  TAB +:+ "forward-addr: " +:+ unbound_address server (default "" (ip_to_str (su_address server)))
  +:+ NL.

Definition concat_map {A} (f : A → string) (l : list A) : string :=
  foldr (λ a s, f a +:+ s) "" l.

Definition zone_servers (mode : dnsconfd_mode_t) (key : string) (value : list server_uri_t) :
    list server_uri_t := default [] (get_used_servers value mode key).

Definition zone_text (mode : dnsconfd_mode_t) (entry : string * list server_uri_t) : string :=
  match zone_servers mode entry.1 entry.2 with
  | [] => ""
  | used =>
      "forward-zone:" +:+ NL +:+ TAB +:+ "name: " +:+ quoted entry.1 +:+ NL
      +:+ concat_map forward_addr_line used
      +:+ TAB +:+ "forward-tls-upstream: "
      +:+ (if existsb (λ s, bool_decide (su_protocol s = DNS_TLS)) used then "yes" else "no") +:+ NL
  end.

(** Some zone of the file is the root. *)
Definition root_written (mode : dnsconfd_mode_t) (entries : list (string * list server_uri_t)) : bool :=
  existsb (λ entry, (entry.1 ==s ".") && negb (bool_decide (zone_servers mode entry.1 entry.2 = [])))
    entries.

Definition forward_zones_text (mode : dnsconfd_mode_t)
    (entries : list (string * list server_uri_t)) : string :=
  concat_map (zone_text mode) entries
  +:+ (if root_written mode entries then "" else no_forward_zone).

Definition rpz_text (zone : rpz_zone_t) : string :=
  "rpz:" +:+ NL +:+ TAB +:+ "name: " +:+ quoted (default "" (rz_name zone)) +:+ NL
  +:+ match rz_master zone with
      | Some m => TAB +:+ "master: " +:+ m +:+ NL +:+ TAB +:+ "allow-notify: " +:+ m +:+ NL
      | None => "" end
  +:+ match rz_zonefile zone with
      | Some z => TAB +:+ "zonefile: " +:+ quoted z +:+ NL
      | None => "" end.

Definition listen_text (cfg : dnsconfd_config_t) : string :=
  TAB +:+ "interface: " +:+ default "" (ip_to_str (listen_address cfg)) +:+ NL +:+ TAB
  +:+ "do-not-query-address: 127.0.0.1/8" +:+ NL.

(** The whole file; [None] as the entries is the absence of a table. *)
Definition unbound_conf_text (cfg : dnsconfd_config_t) (mode : dnsconfd_mode_t) (ca : string)
    (entries : option (list (string * list server_uri_t))) : string :=
  module_config cfg +:+ listen_text cfg +:+ TAB +:+ "tls-cert-bundle: " +:+ ca +:+ NL
  +:+ match entries with
      | Some l => forward_zones_text mode l
      | None => no_forward_zone
      end
  +:+ concat_map rpz_text (rpz_zones cfg).
End Writers.

(** ** Proofs *)

Section WriterProofs.
Context `{InetLaws} (e : env) (p : string).

Lemma ip_to_str_wf a : sockaddr_wf a → ip_to_str a = Some (default "" (ip_to_str a)).
Proof. intros Hwf. by destruct (ip_to_str_Some a Hwf) as [s ->]. Qed.

Lemma wp_server_to_unbound_string s w0 T w :
  sockaddr_wf (su_address s) → writes e p T w0 w →
  wp (server_to_unbound_string p s) e w (λ ok w',
    writes e p (T +:+ forward_addr_line s) w0 w' ∧ ok = negb (w_ferror w')).
Proof.
  intros Hs HT. unfold server_to_unbound_string, forward_addr_line, unbound_address.
  apply wp_bind, wp_deref. eexists. split; [by apply ip_to_str_wf|].
  generalize (default "" (ip_to_str (su_address s))). intros addr. wp_write HT.
  apply (wp_seq _ _ _ _ (λ _ w', writes e p (T +:+ TAB +:+ "forward-addr: "
    +:+ unbound_address s addr) w0 w')).
  - unfold unbound_address.
    destruct (bool_decide (su_protocol s = DNS_TLS)), (server_port s =? 0)%Z; cbn [negb].
    1, 2: wp_write HT; destruct (su_name s);
      [eapply wp_fprintf_last; [exact HT|]; intros ? ? HT' _|apply wp_ret; rename HT into HT'];
      (eapply writes_eq; [|exact HT']); text_eq.
    + apply wp_ret. eapply writes_eq; [|exact HT]. text_eq.
    + eapply wp_fprintf_last; [exact HT|]. intros ? ? HT' _.
      eapply writes_eq; [|exact HT']. text_eq.
  - intros _ w2 HT'. wp_write HT'. wp_first wp_ferror. intros b w4 [-> ->].
    apply wp_ret. split; [|done]. eapply writes_eq; [|exact HT']. unfold unbound_address. text_eq.
Qed.

Lemma wp_write_zone_servers l tls w0 T w :
  Forall server_wf l → writes e p T w0 w →
  wp (write_zone_servers p tls l) e w (λ r w',
    writes e p (T +:+ concat_map forward_addr_line l) w0 w' ∧
    match r with
    | None => w_ferror w' = true
    | Some tls' => tls' = tls || existsb (λ s, bool_decide (su_protocol s = DNS_TLS)) l
    end).
Proof.
  intros Hl. revert tls T w. induction Hl as [|s l Hs Hl IH]; intros tls T w HT.
  - apply wp_ret. split; [by rewrite string_app_nil_r|]. by rewrite orb_false_r.
  - simpl. eapply wp_seq; [apply wp_server_to_unbound_string; [apply Hs|exact HT]|].
    simpl. intros ok w1 [HT1 ->]. destruct (w_ferror w1) eqn:E; cbn [negb].
    + apply wp_ret. split; [|done]. by eapply writes_error.
    + eapply wp_mono; [by apply IH|]. simpl. intros r w2 [HT2 Hr].
      split; [by rewrite string_app_assoc|]. destruct r as [tls'|]; [|done].
      rewrite Hr. by destruct (bool_decide _), tls.
Qed.

(** The entries of a table: no list is empty and every server is well formed. *)
Definition entries_wf (entries : list (string * list server_uri_t)) : Prop :=
  Forall (λ entry, entry.2 ≠ [] ∧ Forall server_wf entry.2) entries.

Lemma zone_servers_spec mode key value :
  value ≠ [] → Forall server_wf value →
  get_used_servers value mode key = Some (zone_servers mode key value)
  ∧ Forall server_wf (zone_servers mode key value).
Proof.
  intros Hne Hwf. unfold zone_servers.
  destruct (get_used_servers_Some value mode key Hne) as [used Hu]. rewrite Hu. split; [done|].
  rewrite Forall_forall in Hwf |- *. intros s Hs. apply Hwf.
  by apply (get_used_servers_elem _ _ _ _ _ Hu Hs).
Qed.

Lemma wp_write_zones mode rp entries w0 T w :
  entries_wf entries → writes e p T w0 w →
  wp (write_zones p mode rp entries) e w (λ r w',
    writes e p (T +:+ concat_map (zone_text mode) entries) w0 w' ∧
    match r with
    | None => w_ferror w' = true
    | Some rp' => rp' = rp || root_written mode entries
    end).
Proof.
  intros Hwf. revert rp T w. induction Hwf as [|[key value] entries [Hne Hs] Hwf IH];
    intros rp T w HT.
  - apply wp_ret. split; [by rewrite string_app_nil_r|]. by rewrite orb_false_r.
  - cbn [write_zones]. destruct (zone_servers_spec mode key value Hne Hs) as [Hu Hus].
    apply wp_bind, wp_deref. eexists. split; [exact Hu|].
    cbn [concat_map foldr]. unfold root_written. cbn [existsb fst snd]. unfold zone_text at 1.
    cbn [fst snd]. destruct (zone_servers mode key value) as [|s used].
    + eapply wp_mono; [by apply IH|]. intros r w1 [HT1 Hr]. split; [exact HT1|].
      destruct r; [|done]. by rewrite andb_false_r.
    + wp_write HT. eapply wp_seq; [apply wp_write_zone_servers; [exact Hus|exact HT]|].
      cbv beta. intros tls w2 [HT2 Htls]. destruct tls as [tls|].
      * rewrite Htls. wp_write HT2. eapply wp_mono; [apply IH; exact HT2|].
        cbv beta. intros r w4 [HT4 Hr]. split; [eapply writes_eq; [|exact HT4]; text_eq|].
        destruct r as [rp'|]; [|done]. rewrite Hr. unfold root_written.
        by destruct rp, (key ==s ".").
      * apply wp_ret. split; [|done]. by eapply writes_error.
Qed.

Lemma entries_wf_perm entries t : table_wf t → entries ≡ₚ map_to_list t → entries_wf entries.
Proof.
  intros Ht Hp. apply Forall_forall. intros [d l] Hin. rewrite Hp, elem_of_map_to_list in Hin.
  by apply (Ht d).
Qed.

Lemma wp_generate_forward_zones t mode w0 T w :
  table_wf t → writes e p T w0 w →
  wp (generate_forward_zones p t mode) e w (λ ok w',
    ok = negb (w_ferror w') ∧
    ∃ entries, entries ≡ₚ map_to_list t ∧
      writes e p (T +:+ forward_zones_text mode entries) w0 w').
Proof.
  intros Ht HT. unfold generate_forward_zones. wp_first wp_iterate. intros entries w1 [Hp Hw1].
  pose proof (entries_wf_perm _ _ Ht Hp) as Hwf.
  assert (HT1 : writes e p T w0 w1) by (by eapply writes_clock_after).
  eapply wp_seq; [apply wp_write_zones; [exact Hwf|exact HT1]|].
  cbv beta. intros rp w2 [HT2 Hr]. destruct rp as [rp|].
  - apply (wp_seq _ _ _ _ (λ _ w', writes e p (T +:+ forward_zones_text mode entries) w0 w')).
    + unfold forward_zones_text. rewrite Hr. cbn [orb]. destruct (root_written mode entries); cbn [negb].
      * apply wp_ret. by rewrite string_app_nil_r.
      * eapply wp_fprintf_last; [exact HT2|]. intros ? ? HT3 _. eapply writes_eq; [|exact HT3].
        text_eq.
    + intros _ w3 HT3. wp_first wp_ferror. intros b w4 [-> ->]. apply wp_ret. eauto.
  - apply wp_ret. rewrite Hr. split; [done|]. exists entries. split; [done|].
    by eapply writes_error.
Qed.

Lemma wp_write_rpz_zones zones w0 T w :
  Forall (λ z, is_Some (rz_name z)) zones → writes e p T w0 w →
  wp (write_rpz_zones p zones) e w (λ _ w', writes e p (T +:+ concat_map rpz_text zones) w0 w').
Proof.
  intros Hz. revert T w. induction Hz as [|z zones [name Hn] Hz IH]; intros T w HT.
  - apply wp_ret. by rewrite string_app_nil_r.
  - simpl. wp_write HT. apply wp_bind, wp_deref. exists name. split; [done|].
    wp_write HT. unfold rpz_text. rewrite Hn. cbn [default].
    apply (wp_seq _ _ _ _ (λ _ w', writes e p (T +:+ "rpz:" +:+ NL +:+ TAB +:+ "name: "
      +:+ quoted name +:+ NL +:+ match rz_master z with
      | Some m => TAB +:+ "master: " +:+ m +:+ NL +:+ TAB +:+ "allow-notify: " +:+ m +:+ NL
      | None => "" end) w0 w')).
    { destruct (rz_master z).
      - wp_write HT. eapply wp_fprintf_last; [exact HT|]. intros ? ? HT' _.
        eapply writes_eq; [|exact HT']. text_eq.
      - apply wp_ret. eapply writes_eq; [|exact HT]. text_eq. }
    clear HT. intros _ w3 HT.
    apply (wp_seq _ _ _ _ (λ _ w', writes e p (T +:+ rpz_text z) w0 w')).
    { unfold rpz_text. rewrite Hn. destruct (rz_zonefile z).
      - eapply wp_fprintf_last; [exact HT|]. intros ? ? HT' _.
        eapply writes_eq; [|exact HT']. text_eq.
      - apply wp_ret. eapply writes_eq; [|exact HT]. text_eq. }
    clear HT. intros _ w4 HT. eapply wp_mono; [by apply IH|]. cbv beta. intros _ w5 HT'.
    eapply writes_eq; [|exact HT']. unfold rpz_text. rewrite Hn. text_eq.
Qed.

Lemma wp_generate_rpz_zones zones w0 T w :
  Forall (λ z, is_Some (rz_name z)) zones → writes e p T w0 w →
  wp (generate_rpz_zones p zones) e w (λ ok w',
    ok = negb (w_ferror w') ∧ writes e p (T +:+ concat_map rpz_text zones) w0 w').
Proof.
  intros Hz HT. unfold generate_rpz_zones. eapply wp_seq; [by apply wp_write_rpz_zones|].
  cbv beta. intros _ w1 HT1. wp_first wp_ferror. intros b w2 [-> ->]. apply wp_ret. eauto.
Qed.
End WriterProofs.

Section Configuration.
Context `{InetLaws} (e : env).

(** The file holds the configuration of the context with the CA [ca]. *)
Definition conf_written (ctx : fsm_context_t) (ca : string) (w' : world) : Prop :=
  ∃ entries,
    ca_chosen (current_domain_to_servers ctx) (resolution_mode ctx) (config ctx) ca ∧
    match current_domain_to_servers ctx, entries with
    | Some t, Some l => l ≡ₚ map_to_list t
    | None, None => True
    | _, _ => False
    end ∧
    w_files w' !! unbound_conf_path
    = Some (unbound_conf_text (config ctx) (resolution_mode ctx) ca entries).

(** What writing the configuration from [w] may do. *)
Definition conf_post (ctx : fsm_context_t) (w : world) (r : fsm_context_t * status) (w' : world) :
    Prop :=
  (∀ q, q ≠ unbound_conf_path → w_files w' !! q = w_files w !! q) ∧ w_trace w' = w_trace w ∧
  match r.2 with
  | Success => ∃ ca, r.1 = set_effective_ca (Some ca) ctx ∧ conf_written ctx ca w'
  | Failure _ =>
      (r.1 = ctx ∨ ∃ ca, r.1 = set_effective_ca (Some ca) ctx) ∧
      ¬ (reliable e ∧ ca_available e (config ctx))
  end.

(** The failures after the file was opened. *)
Lemma wp_close_and_fail ctx ctx' msg T w w0 w1 :
  (∀ q, q ≠ unbound_conf_path → w_files w0 !! q = w_files w !! q) → w_trace w0 = w_trace w →
  writes e unbound_conf_path T w0 w1 → w_ferror w0 = false →
  (ctx' = ctx ∨ ∃ ca, ctx' = set_effective_ca (Some ca) ctx) →
  (reliable e → w_ferror w1 = true ∨ ¬ ca_available e (config ctx)) →
  wp (close_and_fail unbound_conf_path ctx' msg) e w1 (conf_post ctx w).
Proof.
  intros Hf Ht HT He Hctx Hrel. unfold close_and_fail. wp_first wp_fclose.
  intros ok w2 (Hf2 & Ht2 & _). apply wp_ret. split; [|split; [|split]].
  - intros q Hq. by rewrite Hf2, (writes_files _ _ _ _ _ HT), Hf.
  - by rewrite Ht2, (writes_trace _ _ _ _ _ HT).
  - done.
  - intros [Hr Hca]. destruct (Hrel Hr) as [Herr|]; [|done].
    rewrite (writes_reliable _ _ _ _ _ HT Hr) in Herr. congruence.
Qed.

Lemma wp_write_sections ctx w w0 w1 T :
  context_wf ctx →
  (∀ q, q ≠ unbound_conf_path → w_files w0 !! q = w_files w !! q) → w_trace w0 = w_trace w →
  writes e unbound_conf_path T w0 w1 → w_ferror w0 = false →
  wp (match current_domain_to_servers ctx with
      | Some t => generate_forward_zones unbound_conf_path t (resolution_mode ctx)
      | None => fprintf unbound_conf_path no_forward_zone;; mret true
      end) e w1 (λ ok w',
    ∃ entries,
      writes e unbound_conf_path (T +:+ match entries with
        | Some l => forward_zones_text (resolution_mode ctx) l
        | None => no_forward_zone end) w0 w' ∧
      match current_domain_to_servers ctx, entries with
      | Some t, Some l => l ≡ₚ map_to_list t | None, None => True | _, _ => False
      end ∧ (ok = false → w_ferror w' = true)).
Proof.
  intros Hwf Hf Ht HT He. destruct (current_domain_to_servers ctx) as [t|] eqn:Et.
  - eapply wp_mono; [apply wp_generate_forward_zones; [by eapply xw_table|exact HT]|].
    cbv beta. intros ok w2 [-> (entries & Hp & HT2)]. exists (Some entries).
    split; [done|]. split; [done|]. by destruct (w_ferror w2).
  - wp_write HT. apply wp_ret. exists None. done.
Qed.

Lemma write_configuration_post (ctx : fsm_context_t) (w : world) :
  context_wf ctx → wp (write_configuration ctx) e w (conf_post ctx w).
Proof.
  intros Hwf. unfold write_configuration. wp_first wp_fopen_w.
  intros [] w0 (Hf0 & Ht0 & Hr0 & Hopen); cbn [negb].
  2: { apply wp_ret. split; [done|]. split; [done|]. split; [by left|].
       intros [Hr _]. by apply Hr0 in Hr. }
  destruct Hopen as [Hempty Hferr].
  assert (HT : writes e unbound_conf_path "" w0 w0).
  { apply writes_nil. apply elem_of_dom. by rewrite Hempty. }
  wp_write HT. unfold generate_listen_address. apply wp_assoc, wp_bind, wp_deref.
  eexists. split; [apply ip_to_str_wf, Hwf|]. cbv beta. apply wp_assoc. wp_write HT.
  destruct ok0; apply wp_skip.
  2: { eapply wp_close_and_fail; eauto. }
  eapply wp_seq; [apply wp_get_effective_ca, Hwf|].
  cbv beta. intros [ca|] w13 (Hw13 & Hch & Hav).
  2: { eapply wp_close_and_fail; eauto using writes_clock_after.
       intros _. right. intros Hca. by destruct (Hav Hca). }
  specialize (Hch ca eq_refl). apply (writes_clock_after _ _ _ _ _ _ HT) in Hw13.
  clear HT Hav. rename Hw13 into HT. wp_write HT.
  eapply wp_seq; [by eapply (wp_write_sections ctx)|]. clear HT.
  cbv beta. intros okz w14 (entries & HT & Hent & Hzok). destruct okz; cbn [negb].
  2: { eapply wp_close_and_fail; eauto. }
  apply (wp_seq _ _ _ _ (λ ok w', writes e unbound_conf_path
    (unbound_conf_text (config ctx) (resolution_mode ctx) ca entries) w0 w'
    ∧ (ok = false → w_ferror w' = true))).
  { cbn [config set_effective_ca]. unfold unbound_conf_text, listen_text.
    destruct (rpz_zones (config ctx)) as [|z zs] eqn:Ez.
    - apply wp_ret. split; [|done]. eapply writes_eq; [|exact HT].
      cbn [concat_map foldr]. text_eq.
    - eapply wp_mono; [apply wp_generate_rpz_zones; [rewrite <-Ez; apply Hwf|exact HT]|].
      cbv beta. intros ok' w15 [-> HT15]. split; [|by destruct (w_ferror w15)].
      eapply writes_eq; [|exact HT15]. text_eq. }
  clear HT. intros okz w15 [HT Hrok]. destruct okz; cbn [negb].
  2: { eapply wp_close_and_fail; eauto. }
  wp_first wp_ferror. intros b w16 [-> ->]. destruct (w_ferror w15) eqn:E15.
  { eapply wp_close_and_fail; eauto. }
  wp_first wp_fclose. intros closed w16 (Hf6 & Ht6 & Hr6 & Hfiles).
  assert (Hframe : (∀ q, q ≠ unbound_conf_path → w_files w16 !! q = w_files w !! q)
    ∧ w_trace w16 = w_trace w).
  { split; [intros q Hq; by rewrite Hf6, (writes_files _ _ _ _ _ HT), Hf0|].
    by rewrite Ht6, (writes_trace _ _ _ _ _ HT). }
  destruct Hframe as [Hframe1 Hframe2]. destruct closed; apply wp_ret.
  - split; [done|]. split; [done|]. exists ca. split; [done|]. exists entries.
    do 2 (split; [done|]). by rewrite Hfiles, (writes_text _ _ _ _ _ HT E15), Hempty.
  - split; [done|]. split; [done|]. split; [eauto|]. intros [Hr _]. by apply Hr6 in Hr.
Qed.

(** C9: writing the configuration never faults, touches no other file and
    nothing of the context but the effective CA; when it succeeds the file
    holds exactly the text specified for the configuration, the mode, the CA
    chosen and the table in some order of iteration, and it can only fail when
    a call to the system fails or no CA bundle can be read. *)
Theorem write_configuration_correct (ctx : fsm_context_t) (w : world) :
  context_wf ctx → wp (write_configuration ctx) e w (conf_post ctx w).
Proof. apply write_configuration_post. Qed.
End Configuration.

Theorem write_configuration_correct_witness :
  wp (write_configuration ex_context) ex_env ex_world (conf_post ex_env ex_context ex_world).
Proof. apply (write_configuration_correct ex_env ex_context ex_world). apply ex_context_wf. Defined.
