(* ===== verification/UnboundControl.v ===== *)
(** * Updating the running cache through unbound-control

    [update] of src/src/dns_managers/unbound_manager.c and what it calls: the
    table of the servers in use is computed, compared with the one Unbound was
    last given, and only the differences are sent as commands. *)

From S2P Require Import Prelude CLib GLib SockAddr NetworkAddress ServerUri ServerTable.
From S2P Require Import ConfigData World UnboundSelect FsmContext UnboundConf.

(** ** Definitions *)

(** [WIFEXITED(status) && WEXITSTATUS(status) == 0]. *)
Definition exited_zero (r : spawn_result) : bool :=
  match r with SpawnExited code => (code =? 0)%Z | _ => false end.

(** [true] is the status 0. *)
Definition execute_unbound_command (argv : list string) : M bool :=
  r ← g_spawn_sync argv;
  mret (exited_zero r).

Definition flush_argv (domain : string) : list string :=
  ["unbound-control"; "flush_zone"; domain].

Definition remove_argv (domain : string) : list string :=
  if negb (domain ==s ".") then ["unbound-control"; "forward_remove"; "+i"; domain]
  else ["unbound-control"; "forward_add"; "."; "127.0.0.1"].

Definition remove_domain (domain : string) : M bool :=
  ok ← execute_unbound_command (remove_argv domain);
  if negb ok then mret false else execute_unbound_command (flush_argv domain).

Definition forward_flags (cur_server : server_uri_t) : Z :=
  Z.lor (if (su_dnssec cur_server =? 0)%Z then 1 else 0)
        (Z.shiftl (if bool_decide (su_protocol cur_server = DNS_TLS) then 1 else 0) 1).

Definition flag_args (flags : Z) : list string :=
  if (flags =? 1)%Z then ["+i"] else if (flags =? 2)%Z then ["+t"]
  else if (flags =? 3)%Z then ["+it"] else [].

Section Control.
Context `{Inet}.

(** One server as an argument; [None] when the address has no family. *)
Definition server_argument (cur_server : server_uri_t) : option string :=
  server_arg ← ip_to_str (su_address cur_server);
  let port := server_port cur_server in
  Some (if bool_decide (su_protocol cur_server = DNS_TLS) then
          let server_arg := if negb (port =? 0)%Z then server_arg +:+ "@" +:+ fmt_d port
                            else server_arg +:+ "@853" in
          match su_name cur_server with
          | Some name => server_arg +:+ "#" +:+ name
          | None => server_arg
          end
        else if negb (port =? 0)%Z then server_arg +:+ "@" +:+ fmt_d port
        else server_arg).

(** [None]: the list is empty or an address has no family. *)
Definition get_forward_add_command (domain : string) (servers : list server_uri_t) :
    option (list string) :=
  match servers with
  | [] => None
  | cur_server :: _ =>
      args ← mapM server_argument servers;
      Some (["unbound-control"; "forward_add"] ++ flag_args (forward_flags cur_server)
            ++ domain :: args)
  end.

Definition add_domain (domain : string) (servers : list server_uri_t) : M bool :=
  argv_array ← deref (get_forward_add_command domain servers);
  ok ← execute_unbound_command argv_array;
  if negb ok then mret false else execute_unbound_command (flush_argv domain).

(** [true] is 0: the addresses are equal. *)
Definition compare_addresses (a b : sockaddr_storage) : bool :=
  if negb (bool_decide (ss_family a = ss_family b)) then false
  else match ss_family a with
       | AF_INET => bool_decide (sin_addr a = sin_addr b) && (sin_port a =? sin_port b)%Z
       | _ => (sin_port a =? sin_port b)%Z && bool_decide (sin6_addr a = sin6_addr b)
       end.

Definition opt_string_eq (a b : option string) : bool :=
  match a, b with
  | None, None => true
  | Some a, Some b => a ==s b
  | _, _ => false
  end.

(** The loop over two lists of one length; [true] is 0. *)
Fixpoint compare_servers_loop (a b : list server_uri_t) : bool :=
  match a, b with
  | server_a :: a', server_b :: b' =>
      if negb (compare_addresses (su_address server_a) (su_address server_b)) then false
      else if negb (su_priority server_a =? su_priority server_b)%Z then false
      else if negb (su_interface server_a ==s su_interface server_b) then false
      else if negb (su_dnssec server_a =? su_dnssec server_b)%Z then false
      else if negb (bool_decide (su_protocol server_a = su_protocol server_b)) then false
      else if negb (opt_string_eq (su_certification_authority server_a)
                      (su_certification_authority server_b)) then false
      else if negb (opt_string_eq (su_name server_a) (su_name server_b)) then false
      else compare_servers_loop a' b'
  | _, _ => true
  end.

Definition compare_servers (a b : list server_uri_t) : bool :=
  if negb (length a =? length b) then false else compare_servers_loop a b.

(** The first loop of [update]: the table of the servers in use. *)
Fixpoint used_table (mode : dnsconfd_mode_t) (result : server_table)
    (entries : list (string * list server_uri_t)) : option server_table :=
  match entries with
  | [] => Some result
  | (key, value) :: rest =>
      used_servers ← get_used_servers value mode key;
      match used_servers with
      | [] => used_table mode result rest
      | _ :: _ =>
          used_table mode
            (<[key := server_uri_t_list_replace_elements_with_copies used_servers]> result) rest
      end
  end.

(** The second loop: [true] when every command succeeded. *)
Fixpoint add_changed (old : option server_table) (entries : list (string * list server_uri_t)) :
    M bool :=
  match entries with
  | [] => mret true
  | (key, used_servers) :: rest =>
      let old_servers := match old with Some t => t !! key | None => None end in
      if match old_servers with
         | Some old_servers => compare_servers used_servers old_servers
         | None => false
         end
      then add_changed old rest
      else
        ok ← add_domain key used_servers;
        if negb ok then mret false else add_changed old rest
  end.

(** The third loop. *)
Fixpoint remove_missing (new : server_table) (entries : list (string * list server_uri_t)) :
    M bool :=
  match entries with
  | [] => mret true
  | (key, _) :: rest =>
      if bool_decide (is_Some (new !! key)) then remove_missing new rest
      else
        ok ← remove_domain key;
        if negb ok then mret false else remove_missing new rest
  end.

(** 0 with the new table, 1, or -1 with the error string. *)
Inductive update_result :=
| UpdateDone (result : server_table)
| UpdateReload
| UpdateError (error_string : option string).

Definition update (ctx : fsm_context_t) : M update_result :=
  domain_to_servers ← deref (current_domain_to_servers ctx);
  entries ← iterate domain_to_servers;
  new_table ← deref (used_table (resolution_mode ctx) ∅ entries);
  new_effective_ca ← get_effective_ca (Some new_table) (resolution_mode ctx) (config ctx);
  match new_effective_ca with
  | None => mret (UpdateError (Some "Failed to determine new effective CA of Unbound"))
  | Some new_effective_ca =>
      ca ← deref (effective_ca ctx);
      if negb (new_effective_ca ==s ca) then mret UpdateReload
      else
        new_entries ← iterate new_table;
        added ← add_changed (current_unbound_domain_to_servers ctx) new_entries;
        if negb added then mret (UpdateError (Some "Failed to add domain to Unbound"))
        else
          removed ←
            match current_unbound_domain_to_servers ctx with
            | Some old => old_entries ← iterate old; remove_missing new_table old_entries
            | None => mret true
            end;
          if negb removed then mret (UpdateError None) else mret (UpdateDone new_table)
  end.

(** ** Specification *)

(** The table handed to the cache. *)
Definition used_of (mode : dnsconfd_mode_t) (t : server_table) : server_table :=
  map_imap (λ key value, match zone_servers mode key value with [] => None | l => Some l end) t.

Definition table_or_empty (t : option server_table) : server_table := default ∅ t.

(** What Unbound forwards a zone to: over TLS or not, and its addresses. *)
Definition forward : Type := bool * list string.

Definition forward_addresses (l : list server_uri_t) : list string :=
  (λ s, unbound_address s (default "" (ip_to_str (su_address s)))) <$> l.

(** The first server decides for the zone. *)
Definition forward_of (l : list server_uri_t) : forward :=
  (match l with s :: _ => bool_decide (su_protocol s = DNS_TLS) | [] => false end,
   forward_addresses l).

(** The servers of the zone do no DNSSEC. *)
Definition no_dnssec (l : list server_uri_t) : bool :=
  match l with s :: _ => (su_dnssec s =? 0)%Z | [] => false end.

(** The forwards that implement a table: those of its zones, and the local
    address for the root when the table has none. *)
Definition forwards_of (t : server_table) (d : string) : option forward :=
  match t !! d with
  | Some l => Some (forward_of l)
  | None => if d ==s "." then Some (false, ["127.0.0.1"]) else None
  end.

(** The flags of the command. *)
Definition zone_flags (l : list server_uri_t) : list string :=
  flag_args (match l with s :: _ => forward_flags s | [] => 0%Z end).
End Control.

(** A zone that unbound-control does not take for an option. *)
Definition plain_zone (d : string) : Prop :=
  match d with EmptyString => False | String c _ => c ≠ "+"%char end.

(** The running cache as unbound-control(8) documents it: its forwards, its
    insecure domains, and the effect of the commands the program sends when they
    succeed.  [forward_add] makes a forward zone, over TLS with [+t], and with [+i]
    also adds an insecure domain; [forward_remove +i] removes both; without [+i]
    the insecure domains are left alone.  That [forward_add] replaces the forward
    of a zone that has one is what the program relies on for a zone that changed,
    and for the root. *)
Class Resolver := {
  resolver_state : Type;
  forwards : resolver_state → gmap string forward;
  insecure : resolver_state → gset string;
  run_command : list string → resolver_state → resolver_state
}.

Definition tls_flag (flags : list string) : bool := bool_decide (flags = ["+t"] ∨ flags = ["+it"]).
Definition insecure_flag (flags : list string) : bool :=
  bool_decide (flags = ["+i"] ∨ flags = ["+it"]).

Class ResolverLaws `{Resolver} : Prop := {
  run_forward_add flags zone addrs s :
    flags ∈ [[]; ["+i"]; ["+t"]; ["+it"]] → plain_zone zone → addrs ≠ [] →
    let s' := run_command (["unbound-control"; "forward_add"] ++ flags ++ zone :: addrs) s in
    forwards s' = <[zone := (tls_flag flags, addrs)]> (forwards s) ∧
    insecure s' = (if insecure_flag flags then {[zone]} else ∅) ∪ insecure s;
  run_forward_remove zone s :
    plain_zone zone →
    let s' := run_command ["unbound-control"; "forward_remove"; "+i"; zone] s in
    forwards s' = delete zone (forwards s) ∧ insecure s' = insecure s ∖ {[zone]};
  run_flush zone s :
    let s' := run_command ["unbound-control"; "flush_zone"; zone] s in
    forwards s' = forwards s ∧ insecure s' = insecure s
}.

(** A cache that does just what is documented. *)
Definition is_flag (a : string) : bool :=
  match a with String c _ => bool_decide (c = "+"%char) | EmptyString => false end.

Definition reference_state : Type := gmap string forward * gset string.

Definition reference_add (flags : list string) (zone : string) (addrs : list string)
    (s : reference_state) : reference_state :=
  (<[zone := (tls_flag flags, addrs)]> s.1,
   (if insecure_flag flags then {[zone]} else ∅) ∪ s.2).

Definition reference_forward_add (args : list string) (s : reference_state) : reference_state :=
  match args with
  | flag :: zone :: addrs =>
      if is_flag flag then reference_add [flag] zone addrs s
      else reference_add [] flag (zone :: addrs) s
  | _ => s
  end.

#[export] Instance reference_resolver : Resolver := {|
  resolver_state := reference_state;
  forwards := fst;
  insecure := snd;
  run_command argv s :=
    match argv with
    | "unbound-control" :: "forward_add" :: args => reference_forward_add args s
    | ["unbound-control"; "forward_remove"; "+i"; zone] => (delete zone s.1, s.2 ∖ {[zone]})
    | _ => s
    end
|}.

#[export] Instance reference_resolver_laws : ResolverLaws.
Proof.
  split; try done.
  intros flags zone addrs s Hf Hz Ha. destruct addrs as [|addr addrs]; [done|].
  assert (Hzf : is_flag zone = false).
  { destruct zone as [|c zone]; [done|]. simpl in *. by rewrite bool_decide_eq_false. }
  repeat (apply elem_of_cons in Hf as [->|Hf]; [cbn; by rewrite ?Hzf|]).
  by apply not_elem_of_nil in Hf.
Qed.

(** The effect of the commands of a trace. *)
Definition run_actions `{Resolver} (s : resolver_state) (l : list action) : resolver_state :=
  foldl (λ s a, match a with ASpawn argv => run_command argv s | _ => s end) s l.

(** The cache forwards as table [t] says. *)
Definition implements `{Resolver} `{Inet} (s : resolver_state) (t : server_table) : Prop :=
  ∀ d, forwards s !! d = forwards_of t d.

(** ** Proofs: the used table *)

Definition nonempty {A} (l : list A) : option (list A) :=
  match l with [] => None | _ => Some l end.

Lemma used_of_lookup mode t d :
  used_of mode t !! d = t !! d ≫= λ value, nonempty (zone_servers mode d value).
Proof.
  unfold used_of. rewrite map_lookup_imap. destruct (t !! d); [|done]. simpl.
  by destruct (zone_servers mode d l).
Qed.

Lemma used_table_lookup mode r entries :
  entries_wf entries → NoDup entries.*1 →
  ∃ r', used_table mode r entries = Some r' ∧
    ∀ d, r' !! d = match (list_to_map entries : server_table) !! d
                         ≫= λ value, nonempty (zone_servers mode d value) with
                   | Some u => Some u | None => r !! d end.
Proof.
  intros Hwf. revert r. induction Hwf as [|[key value] entries [Hne Hs] Hwf IH]; intros r Hnd.
  { exists r. split; [done|]. intros d. simpl. by rewrite lookup_empty. }
  simpl in Hnd. apply NoDup_cons in Hnd as [Hkey Hnd].
  destruct (zone_servers_spec mode key value Hne Hs) as [Hu _]. cbn [used_table]. rewrite Hu.
  cbn [mbind option_bind]. apply (not_elem_of_list_to_map_1 (M := gmap string)) in Hkey.
  destruct (zone_servers mode key value) as [|s used] eqn:E.
  - destruct (IH r Hnd) as (r' & Er & Hl). exists r'. split; [done|]. intros d. rewrite Hl. simpl.
    destruct (decide (d = key)) as [->|].
    + rewrite Hkey, lookup_insert_eq. simpl. by rewrite E.
    + by rewrite lookup_insert_ne.
  - destruct (IH (<[key := server_uri_t_list_replace_elements_with_copies (s :: used)]> r) Hnd)
      as (r' & Er & Hl). exists r'. split; [done|]. intros d. rewrite Hl. simpl.
    destruct (decide (d = key)) as [->|].
    + rewrite Hkey, !lookup_insert_eq. simpl. rewrite E. simpl. by rewrite <-(copies_eq (s :: used)).
    + rewrite !lookup_insert_ne by done. done.
Qed.

Lemma used_table_spec mode t entries :
  table_wf t → entries ≡ₚ map_to_list t → used_table mode ∅ entries = Some (used_of mode t).
Proof.
  intros Ht Hp.
  assert (Hnd : NoDup entries.*1) by (rewrite Hp; apply NoDup_fst_map_to_list).
  destruct (used_table_lookup mode ∅ entries (entries_wf_perm _ _ Ht Hp) Hnd) as (r & -> & Hr).
  f_equal. apply map_eq. intros d. rewrite Hr, used_of_lookup.
  assert ((list_to_map entries : server_table) = t) as ->.
  { rewrite <-(list_to_map_to_list t). by apply list_to_map_proper. }
  by destruct (t !! d ≫= _); rewrite ?lookup_empty.
Qed.

Lemma used_of_wf mode t : table_wf t → table_wf (used_of mode t).
Proof.
  intros Ht d l. rewrite used_of_lookup. destruct (t !! d) as [value|] eqn:E; [|done]. simpl.
  destruct (Ht d value E) as [Hne Hs].
  destruct (zone_servers_spec mode d value Hne Hs) as [_ Hus].
  destruct (zone_servers mode d value); [done|]. intros [= <-]. done.
Qed.

Lemma list_to_map_perm (t : server_table) entries :
  entries ≡ₚ map_to_list t → NoDup entries.*1 ∧ (list_to_map entries : server_table) = t.
Proof.
  intros Hp. assert (Hnd : NoDup entries.*1) by (rewrite Hp; apply NoDup_fst_map_to_list).
  split; [done|]. rewrite <-(list_to_map_to_list t). by apply list_to_map_proper.
Qed.

(** ** Proofs: commands *)

Section CommandProofs.
Context `{InetLaws}.

Lemma server_argument_eq s :
  server_wf s →
  server_argument s = Some (unbound_address s (default "" (ip_to_str (su_address s)))).
Proof.
  intros Hs. unfold server_argument, unbound_address. rewrite (ip_to_str_wf _ (sw_address _ Hs)).
  simpl. f_equal. generalize (default "" (ip_to_str (su_address s))). intros addr.
  destruct (bool_decide _), (server_port s =? 0)%Z, (su_name s); simpl;
    by rewrite ?string_app_assoc, ?string_app_nil_r.
Qed.

Lemma get_forward_add_command_eq d l :
  l ≠ [] → Forall server_wf l →
  get_forward_add_command d l
  = Some (["unbound-control"; "forward_add"] ++ zone_flags l ++ d :: forward_addresses l).
Proof.
  intros Hne Hl. unfold get_forward_add_command. destruct l as [|s l']; [done|].
  assert (mapM server_argument (s :: l') = Some (forward_addresses (s :: l'))) as ->; [|done].
  apply mapM_Some. unfold forward_addresses. rewrite Forall2_fmap_r.
  apply Forall_Forall2_diag. eapply Forall_impl; [exact Hl|]. intros x Hx.
  by apply server_argument_eq.
Qed.

Lemma opt_string_eq_spec a b : opt_string_eq a b = true ↔ a = b.
Proof. destruct a, b; simpl; rewrite ?bool_decide_eq_true; split; congruence. Qed.

Lemma compare_addresses_ip a b :
  compare_addresses a b = true → ip_to_str a = ip_to_str b ∧ sin_port a = sin_port b.
Proof.
  unfold compare_addresses, ip_to_str. case_bool_decide as Hf; [|done]. rewrite <-Hf. simpl.
  destruct (ss_family a); rewrite ?andb_true_iff, ?bool_decide_eq_true, ?Z.eqb_eq;
    intros [? ?]; split; congruence.
Qed.

(** Lists that compare equal are the same to Unbound. *)
Lemma compare_servers_forward a b :
  compare_servers a b = true → forward_of a = forward_of b ∧ no_dnssec a = no_dnssec b.
Proof.
  unfold compare_servers. destruct (Nat.eqb_spec (length a) (length b)) as [Hlen|]; [|done].
  cbn [negb]. revert b Hlen. induction a as [|x a IH]; intros [|y b]; intros Hlen; try done.
  simpl in Hlen. simplify_eq. cbn [compare_servers_loop].
  destruct (compare_addresses _ _) eqn:E1; [|done]. cbn [negb].
  destruct (Z.eqb_spec (su_priority x) (su_priority y)); [|done]. cbn [negb].
  case_bool_decide; [|done]. cbn [negb].
  destruct (Z.eqb_spec (su_dnssec x) (su_dnssec y)) as [Ed|]; [|done]. cbn [negb].
  case_bool_decide as Ep; [|done]. cbn [negb].
  destruct (opt_string_eq _ _) eqn:E2; [|done]. cbn [negb].
  destruct (opt_string_eq (su_name x) _) eqn:E3; [|done]. cbn [negb]. intros Hrest.
  specialize (IH b Hlen Hrest). apply compare_addresses_ip in E1 as [Eip Eport].
  apply opt_string_eq_spec in E3. destruct IH as [[= _ IH] _].
  unfold forward_of, forward_addresses, no_dnssec. rewrite Ed, Ep. split; [|done].
  f_equal. rewrite !fmap_cons. f_equal; [|done].
  unfold unbound_address, server_port. by rewrite Eip, Eport, Ep, E3.
Qed.

Lemma compare_servers_refl l : Forall server_wf l → compare_servers l l = true.
Proof.
  intros Hl. unfold compare_servers. rewrite Nat.eqb_refl. cbn [negb].
  induction Hl as [|s l Hs Hl IH]; [done|]. cbn [compare_servers_loop].
  assert (compare_addresses (su_address s) (su_address s) = true) as ->.
  { unfold compare_addresses. rewrite bool_decide_eq_true_2 by done.
    by destruct (ss_family _); cbn [negb]; rewrite Z.eqb_refl, bool_decide_eq_true_2. }
  rewrite !Z.eqb_refl, !bool_decide_eq_true_2 by done.
  assert (∀ o, opt_string_eq o o = true) as Ho by (intros o; by apply opt_string_eq_spec).
  by rewrite !Ho.
Qed.

(** The command that forwards [d] to the servers [l]. *)
Definition forward_add_argv (d : string) (l : list server_uri_t) : list string :=
  ["unbound-control"; "forward_add"] ++ zone_flags l ++ d :: forward_addresses l.

(** The commands of the second and of the third loop. *)
Definition unchanged (old : option server_table) (d : string) (l : list server_uri_t) : bool :=
  match old ≫= (.!! d) with Some l' => compare_servers l l' | None => false end.

Definition add_actions (old : option server_table) (entries : list (string * list server_uri_t)) :
    list action :=
  '(d, l) ← entries;
  if unchanged old d l then []
  else [ASpawn (forward_add_argv d l); ASpawn (flush_argv d)].

Definition remove_actions (new : server_table) (entries : list (string * list server_uri_t)) :
    list action :=
  '(d, _) ← entries;
  if bool_decide (is_Some (new !! d)) then []
  else [ASpawn (remove_argv d); ASpawn (flush_argv d)].

(** Every spawned command succeeds. *)
Definition commands_succeed (e : env) : Prop :=
  ∀ n argv, exited_zero (env_spawn e n argv) = true.

Section Wp.
Context (e : env).

(** A sequence of commands was run, all of [acts] if the result is [true]. *)
Definition ran (acts : list action) (w : world) (ok : bool) (w' : world) : Prop :=
  w_files w' = w_files w ∧
  (∃ done, w_trace w' = w_trace w ++ done ∧ (ok = true → done = acts)) ∧
  (commands_succeed e → ok = true).

Lemma ran_nil w w' : only_clock w w' → ran [] w true w'.
Proof.
  intros [F E T]. split; [done|]. split; [|done]. exists []. by rewrite app_nil_r.
Qed.

Lemma ran_app a1 a2 w1 w2 ok w3 : ran a1 w1 true w2 → ran a2 w2 ok w3 → ran (a1 ++ a2) w1 ok w3.
Proof.
  intros (F1 & (d1 & T1 & E1) & _) (F2 & (d2 & T2 & E2) & S2). split; [congruence|].
  split; [|done]. exists (d1 ++ d2). split; [by rewrite T2, T1, app_assoc|].
  intros Hok. by rewrite (E1 eq_refl), (E2 Hok).
Qed.

Lemma ran_stop a1 a2 w1 w2 : ran a1 w1 false w2 → ran (a1 ++ a2) w1 false w2.
Proof.
  intros (F1 & (d1 & T1 & _) & S1). split; [done|]. split; [by exists d1|exact S1].
Qed.

Lemma wp_execute argv w : wp (execute_unbound_command argv) e w (ran [ASpawn argv] w).
Proof.
  unfold execute_unbound_command. wp_first wp_g_spawn_sync. intros r w1 (-> & F & T).
  apply wp_ret. split; [done|]. split; [eauto|]. intros Hs. apply Hs.
Qed.

(** Two commands, the second only after the success of the first. *)
Lemma wp_execute_two argv1 argv2 w :
  wp (ok ← execute_unbound_command argv1;
      if negb ok then mret false else execute_unbound_command argv2) e w
     (ran [ASpawn argv1; ASpawn argv2] w).
Proof.
  eapply wp_seq; [apply wp_execute|]. cbv beta. intros [] w1 Hw1; cbn [negb].
  - eapply wp_mono; [apply wp_execute|]. intros ok w2 Hw2. by eapply (ran_app [ASpawn argv1]).
  - apply wp_ret. by apply (ran_stop [ASpawn argv1]).
Qed.

Lemma wp_add_changed old entries w :
  entries_wf entries → wp (add_changed old entries) e w (ran (add_actions old entries) w).
Proof.
  intros Hwf. revert w. induction Hwf as [|[d l] entries [Hne Hs] Hwf IH]; intros w.
  - apply wp_ret. by apply ran_nil.
  - cbn [add_changed]. unfold add_actions. cbn [mbind list_bind]. fold (add_actions old entries).
    assert (match match old with Some t => t !! d | None => None end with
            | Some old_servers => compare_servers l old_servers | None => false end
            = unchanged old d l) as -> by (unfold unchanged; by destruct old).
    destruct (unchanged old d l); [apply IH|].
    eapply wp_seq.
    + unfold add_domain. apply wp_bind, wp_deref. eexists.
      split; [by apply get_forward_add_command_eq|]. apply wp_execute_two.
    + cbv beta. intros [] w1 Hw1; cbn [negb].
      * eapply wp_mono; [apply IH|]. intros ok w2 Hw2. by eapply ran_app.
      * apply wp_ret. by apply ran_stop.
Qed.

Lemma wp_remove_missing new entries w :
  wp (remove_missing new entries) e w (ran (remove_actions new entries) w).
Proof.
  revert w. induction entries as [|[d l] entries IH]; intros w.
  - apply wp_ret. by apply ran_nil.
  - cbn [remove_missing]. unfold remove_actions. cbn [mbind list_bind].
    fold (remove_actions new entries). case_bool_decide; [apply IH|].
    eapply wp_seq; [apply wp_execute_two|]. cbv beta. intros [] w1 Hw1; cbn [negb].
    + eapply wp_mono; [apply IH|]. intros ok w2 Hw2. by eapply ran_app.
    + apply wp_ret. by apply ran_stop.
Qed.

(** The outcomes of [update] with the commands it ran. *)
Definition update_post (ctx : fsm_context_t) (t : server_table) (w : world) (r : update_result)
    (w' : world) : Prop :=
  let new := used_of (resolution_mode ctx) t in
  let old := current_unbound_domain_to_servers ctx in
  w_files w' = w_files w ∧
  ∃ acts, w_trace w' = w_trace w ++ acts ∧
  match r with
  | UpdateDone t' =>
      t' = new ∧
      ∃ entries old_entries, entries ≡ₚ map_to_list new ∧
        old_entries ≡ₚ map_to_list (table_or_empty old) ∧
        acts = add_actions old entries ++ remove_actions new old_entries
  | UpdateReload =>
      acts = [] ∧ ∃ ca, ca_chosen (Some new) (resolution_mode ctx) (config ctx) ca
                        ∧ effective_ca ctx ≠ Some ca
  | UpdateError _ => ¬ (commands_succeed e ∧ ca_available e (config ctx))
  end.

Lemma wp_update ctx t w :
  context_wf ctx → current_domain_to_servers ctx = Some t → is_Some (effective_ca ctx) →
  wp (update ctx) e w (update_post ctx t w).
Proof.
  intros Hwf Ht [ca Hca]. pose proof (xw_table _ Hwf _ Ht) as Htw. unfold update.
  apply wp_bind, wp_deref. exists t. split; [done|].
  wp_first wp_iterate. intros entries w1 [Hp [F1 _ T1]].
  apply wp_bind, wp_deref. eexists. split; [by apply used_table_spec|].
  eapply wp_seq; [apply wp_get_effective_ca, Hwf|].
  cbv beta. intros [new_ca|] w2 ([F2 _ T2] & Hch & Hav).
  2: { apply wp_ret. split; [congruence|]. exists []. split; [rewrite app_nil_r; congruence|].
       intros [_ Hx]. by destruct (Hav Hx). }
  apply wp_bind, wp_deref. exists ca. split; [done|].
  case_bool_decide as Heq; cbn [negb].
  2: { apply wp_ret. split; [congruence|]. exists []. split; [rewrite app_nil_r; congruence|].
       split; [done|]. exists new_ca. split; [by apply Hch|congruence]. }
  wp_first wp_iterate. intros new_entries w3 [Hp3 [F3 _ T3]].
  eapply wp_seq.
  { apply wp_add_changed. eapply entries_wf_perm; [|exact Hp3]. by apply used_of_wf. }
  cbv beta. intros [] w4 (F4 & (d4 & T4 & E4) & S4); cbn [negb].
  2: { apply wp_ret. split; [congruence|]. exists d4. split; [rewrite T4; congruence|].
       intros [Hx _]. by apply S4 in Hx. }
  apply (wp_seq _ _ _ _ (λ ok w', ∃ old_entries,
    old_entries ≡ₚ map_to_list (table_or_empty (current_unbound_domain_to_servers ctx)) ∧
    ran (remove_actions (used_of (resolution_mode ctx) t) old_entries) w4 ok w')).
  { destruct (current_unbound_domain_to_servers ctx) as [old|].
    - wp_first wp_iterate. intros old_entries w5 [Hp5 Hw5].
      eapply wp_mono; [apply wp_remove_missing|]. intros ok w6 Hw6. exists old_entries.
      split; [done|]. apply (ran_app []) with (w2 := w5); [by apply ran_nil|done].
    - apply wp_ret. exists []. split; [by change (table_or_empty None) with (∅ : server_table); rewrite map_to_list_empty|].
      by apply ran_nil. }
  intros ok w5 (old_entries & Hp5 & F5 & (d5 & T5 & E5) & S5). destruct ok; cbn [negb];
    apply wp_ret; (split; [congruence|]); exists (d4 ++ d5);
    (split; [rewrite T5, T4, app_assoc; congruence|]).
  - split; [done|]. exists new_entries, old_entries. split; [done|]. split; [done|].
    by rewrite (E4 eq_refl), (E5 eq_refl).
  - intros [Hx _]. by apply S5 in Hx.
Qed.
End Wp.
End CommandProofs.

(** ** Proofs: refinement *)

Section Refinement.
Context `{InetLaws} `{ResolverLaws}.

Definition zones_plain (t : server_table) : Prop := ∀ d, is_Some (t !! d) → plain_zone d.

Lemma run_actions_app s a b : run_actions s (a ++ b) = run_actions (run_actions s a) b.
Proof. apply foldl_app. Qed.

Lemma flag_args_cases z : flag_args z ∈ [[]; ["+i"]; ["+t"]; ["+it"]].
Proof. unfold flag_args. repeat case_match; set_solver. Qed.

(** The flags say what the first server says. *)
Lemma zone_flags_spec l :
  tls_flag (zone_flags l) = (forward_of l).1 ∧ insecure_flag (zone_flags l) = no_dnssec l.
Proof.
  unfold zone_flags, forward_of, no_dnssec. destruct l as [|x l]; [done|]. simpl. unfold forward_flags.
  destruct (su_dnssec x =? 0)%Z, (bool_decide (su_protocol x = DNS_TLS)); done.
Qed.

Lemma run_add d l s :
  plain_zone d → l ≠ [] →
  let s' := run_actions s [ASpawn (forward_add_argv d l); ASpawn (flush_argv d)] in
  forwards s' = <[d := forward_of l]> (forwards s) ∧
  insecure s' = (if no_dnssec l then {[d]} else ∅) ∪ insecure s.
Proof.
  intros Hd Hl s'. subst s'. unfold run_actions, forward_add_argv. cbn [foldl]. unfold flush_argv.
  destruct (zone_flags_spec l) as [Ht Hi].
  destruct (run_forward_add (zone_flags l) d (forward_addresses l) s) as [Ef Ei];
    [apply flag_args_cases|done|by destruct l|].
  rewrite Ht in Ef. rewrite Hi in Ei.
  split; (etrans; [apply run_flush|]); [exact Ef|exact Ei].
Qed.

Lemma run_remove d s :
  plain_zone d →
  let s' := run_actions s [ASpawn (remove_argv d); ASpawn (flush_argv d)] in
  forwards s' = (if d ==s "." then <[d := (false, ["127.0.0.1"])]> (forwards s)
                 else delete d (forwards s)) ∧
  insecure s' = (if d ==s "." then insecure s else insecure s ∖ {[d]}).
Proof.
  intros Hd s'. subst s'. unfold run_actions, remove_argv. cbn [foldl]. unfold flush_argv.
  case_bool_decide as E; cbn [negb].
  - subst d. destruct (run_forward_add [] "." ["127.0.0.1"] s) as [Ef Ei]; [set_solver|done|done|].
    split; (etrans; [apply run_flush|]); [exact Ef|]. etrans; [exact Ei|].
    apply (left_id_L ∅ (∪)).
  - destruct (run_forward_remove d s Hd) as [Ef Ei].
    split; (etrans; [apply run_flush|]); [exact Ef|exact Ei].
Qed.

Lemma run_add_forwards old entries s d :
  entries_wf entries → NoDup entries.*1 → (∀ d', d' ∈ entries.*1 → plain_zone d') →
  forwards (run_actions s (add_actions old entries)) !! d
  = match (list_to_map entries : server_table) !! d with
    | Some l => if unchanged old d l then forwards s !! d else Some (forward_of l)
    | None => forwards s !! d
    end.
Proof.
  intros Hwf. revert s. induction Hwf as [|[k l] entries [Hne _] Hwf IH]; intros s Hnd Hpl; [done|].
  simpl in Hnd. apply NoDup_cons in Hnd as [Hk Hnd].
  apply (not_elem_of_list_to_map_1 (M := gmap string)) in Hk.
  unfold add_actions. cbn [mbind list_bind]. fold (add_actions old entries).
  rewrite run_actions_app, IH by (done || (intros d' Hd'; apply Hpl; simpl; set_solver)).
  assert (Hpk : plain_zone k) by (apply Hpl; simpl; set_solver).
  destruct (run_add k l s Hpk Hne) as [Ef _]. rewrite list_to_map_cons.
  destruct (decide (d = k)) as [->|Hdk].
  - rewrite Hk, lookup_insert_eq. destruct (unchanged old k l); [done|].
    by rewrite Ef, lookup_insert_eq.
  - rewrite lookup_insert_ne by done.
    assert (forwards (run_actions s (if unchanged old k l then [] else
      [ASpawn (forward_add_argv k l); ASpawn (flush_argv k)])) !! d = forwards s !! d) as ->; [|done].
    destruct (unchanged old k l); [done|]. by rewrite Ef, lookup_insert_ne.
Qed.

Lemma run_add_insecure old entries s d :
  entries_wf entries → (∀ d', d' ∈ entries.*1 → plain_zone d') →
  d ∈ insecure (run_actions s (add_actions old entries)) ↔
  (∃ l, (d, l) ∈ entries ∧ no_dnssec l = true ∧ unchanged old d l = false) ∨ d ∈ insecure s.
Proof.
  intros Hwf. revert s. induction Hwf as [|[k l] entries [Hne _] Hwf IH]; intros s Hpl.
  { simpl. split; [tauto|]. intros [(l & Hin & _)|]; [by apply not_elem_of_nil in Hin|done]. }
  unfold add_actions. cbn [mbind list_bind]. fold (add_actions old entries).
  rewrite run_actions_app, IH by (intros d' Hd'; apply Hpl; simpl; set_solver).
  assert (Hpk : plain_zone k) by (apply Hpl; simpl; set_solver).
  destruct (run_add k l s Hpk Hne) as [_ Ei]. setoid_rewrite elem_of_cons.
  assert (Hk : d ∈ insecure (run_actions s (if unchanged old k l then [] else
      [ASpawn (forward_add_argv k l); ASpawn (flush_argv k)])) ↔
    (d = k ∧ no_dnssec l = true ∧ unchanged old k l = false) ∨ d ∈ insecure s).
  { destruct (unchanged old k l); [simpl; intuition congruence|]. rewrite Ei, elem_of_union.
    destruct (no_dnssec l); rewrite ?elem_of_singleton, ?elem_of_empty; intuition congruence. }
  rewrite Hk. naive_solver.
Qed.

Lemma run_remove_forwards (new : server_table) entries s d :
  (∀ d', d' ∈ entries.*1 → plain_zone d') →
  forwards (run_actions s (remove_actions new entries)) !! d
  = if decide (d ∈ entries.*1 ∧ new !! d = None)
    then (if d ==s "." then Some (false, ["127.0.0.1"]) else None)
    else forwards s !! d.
Proof.
  revert s. induction entries as [|[k l] entries IH]; intros s Hpl.
  - rewrite decide_False; [done|]. intros [Hin _]. by apply not_elem_of_nil in Hin.
  - unfold remove_actions. cbn [mbind list_bind]. fold (remove_actions new entries).
    rewrite run_actions_app, IH by (intros d' Hd'; apply Hpl; simpl; set_solver).
    assert (Hstep : forwards (run_actions s (if bool_decide (is_Some (new !! k)) then [] else
        [ASpawn (remove_argv k); ASpawn (flush_argv k)])) !! d
      = if decide (d = k ∧ new !! k = None)
        then (if d ==s "." then Some (false, ["127.0.0.1"]) else None) else forwards s !! d).
    { destruct (bool_decide_reflect (is_Some (new !! k))) as [Hk|Hk].
      - rewrite decide_False; [done|]. intros [_ Hn]. rewrite Hn in Hk. by destruct Hk.
      - destruct (run_remove k s) as [-> _]; [apply Hpl; simpl; set_solver|].
        apply eq_None_not_Some in Hk. destruct (decide (d = k)) as [->|Hdk].
        + rewrite decide_True by done. destruct (k ==s "."); [by rewrite lookup_insert_eq|].
          by rewrite lookup_delete_eq.
        + rewrite decide_False by tauto.
          destruct (k ==s "."); rewrite ?lookup_insert_ne, ?lookup_delete_ne by congruence; done. }
    rewrite Hstep. cbn [fmap list_fmap fst]. destruct (decide (new !! d = None)) as [Hn|Hn].
    + assert (d = k → new !! k = None) by congruence.
      destruct (decide (d ∈ entries.*1)) as [Hin|Hin], (decide (d = k)) as [Hdk|Hdk].
      all: repeat match goal with
        | |- context [decide ?P] =>
            first [rewrite (decide_True (P := P)) by (rewrite ?elem_of_cons; tauto)
                  |rewrite (decide_False (P := P)) by (rewrite ?elem_of_cons; tauto)]
        end; done.
    + rewrite !decide_False by naive_solver. done.
Qed.

Lemma run_remove_insecure (new : server_table) entries s d :
  (∀ d', d' ∈ entries.*1 → plain_zone d') →
  d ∈ insecure (run_actions s (remove_actions new entries)) ↔
  d ∈ insecure s ∧ ¬ (d ∈ entries.*1 ∧ new !! d = None ∧ d ≠ ".").
Proof.
  revert s. induction entries as [|[k l] entries IH]; intros s Hpl.
  { simpl. split; [|tauto]. intros Hs. split; [done|]. intros [Hin _]. by apply not_elem_of_nil in Hin. }
  unfold remove_actions. cbn [mbind list_bind]. fold (remove_actions new entries).
  rewrite run_actions_app, IH by (intros d' Hd'; apply Hpl; simpl; set_solver).
  destruct (run_remove k s) as [_ Ei]; [apply Hpl; simpl; set_solver|].
  assert (Hk : d ∈ insecure (run_actions s (if bool_decide (is_Some (new !! k)) then [] else
      [ASpawn (remove_argv k); ASpawn (flush_argv k)])) ↔
    d ∈ insecure s ∧ ¬ (d = k ∧ new !! d = None ∧ d ≠ ".")).
  { destruct (bool_decide_reflect (is_Some (new !! k))) as [[l' Hl']|Hn].
    - simpl. split; [|tauto]. intros Hs. split; [done|]. intros (-> & Hn & _). congruence.
    - apply eq_None_not_Some in Hn. rewrite Ei.
      case_bool_decide as E; [|rewrite elem_of_difference, elem_of_singleton].
      + split; [|tauto]. intros Hs. split; [done|]. by intros (-> & _ & []).
      + split; intros [Hs Hx]; (split; [done|]); [tauto|]. intros ->. by apply Hx. }
  rewrite Hk. simpl. rewrite elem_of_cons. tauto.
Qed.

Lemma unchanged_spec old d l :
  unchanged old d l = true → ∃ l', table_or_empty old !! d = Some l' ∧
    forward_of l' = forward_of l ∧ no_dnssec l' = no_dnssec l.
Proof.
  unfold unchanged. destruct old as [t|]; [|done]. simpl.
  destruct (t !! d) as [l'|]; [|done]. intros E. exists l'.
  by destruct (compare_servers_forward _ _ E) as [-> ->].
Qed.

(** The insecure domains of the cache after an update: a changed zone without
    DNSSEC is added, a zone that disappears is removed, except the root. *)
Definition insecure_after (old : option server_table) (new : server_table)
    (before after : gset string) : Prop :=
  ∀ d, d ∈ after ↔
    (∃ l, new !! d = Some l ∧ no_dnssec l = true ∧ unchanged old d l = false) ∨
    (d ∈ before ∧ ¬ (is_Some (table_or_empty old !! d) ∧ new !! d = None ∧ d ≠ ".")).

(** The zones whose servers do no DNSSEC are insecure domains. *)
Definition insecure_zones (t : server_table) (domains : gset string) : Prop :=
  ∀ d l, t !! d = Some l → no_dnssec l = true → d ∈ domains.

Lemma insecure_after_zones old new before after :
  insecure_after old new before after →
  insecure_zones (table_or_empty old) before → insecure_zones new after.
Proof.
  intros Ha Hb d l Hl Hn. apply Ha. destruct (unchanged old d l) eqn:Eu; [|by left; eauto].
  apply unchanged_spec in Eu as (l' & Hl' & _ & En). right. split; [apply (Hb d l'); congruence|].
  intros (_ & Hx & _). congruence.
Qed.

Lemma update_commands_effect (new : server_table) old entries old_entries s :
  entries ≡ₚ map_to_list new → old_entries ≡ₚ map_to_list (table_or_empty old) →
  table_wf new → zones_plain new → zones_plain (table_or_empty old) →
  let s' := run_actions s (add_actions old entries ++ remove_actions new old_entries) in
  (implements s (table_or_empty old) → implements s' new) ∧
  insecure_after old new (insecure s) (insecure s').
Proof.
  intros Hp Hpold Hnw Hpn Hpo s'. subst s'.
  destruct (list_to_map_perm _ _ Hp) as [Hnd Hmap].
  assert (Hin : ∀ (m : server_table) es d l, es ≡ₚ map_to_list m → (d, l) ∈ es ↔ m !! d = Some l).
  { intros m es d l Hes. by rewrite Hes, elem_of_map_to_list. }
  assert (Hkeys : ∀ (m : server_table) es d, es ≡ₚ map_to_list m → d ∈ es.*1 ↔ is_Some (m !! d)).
  { intros m es d Hes. rewrite list_elem_of_fmap. split.
    - intros ([k l] & -> & Hl). exists l. by apply (Hin _ es).
    - intros [l Hl]. exists (d, l). split; [done|]. by apply (Hin m). }
  assert (Hpe : ∀ d', d' ∈ entries.*1 → plain_zone d') by (intros d' ?; by apply Hpn, (Hkeys _ _ _ Hp)).
  assert (Hpr : ∀ d', d' ∈ old_entries.*1 → plain_zone d')
    by (intros d' ?; by apply Hpo, (Hkeys _ _ _ Hpold)).
  assert (Hew : entries_wf entries) by by eapply entries_wf_perm.
  split.
  - intros Himp d. rewrite run_actions_app, run_remove_forwards, run_add_forwards, Hmap, Himp by done.
    case_decide as Hrm.
    + destruct Hrm as [_ Hn]. unfold forwards_of. by rewrite Hn.
    + unfold forwards_of at 3. destruct (new !! d) as [l|] eqn:En.
      * destruct (unchanged old d l) eqn:Eu; [|done]. unfold forwards_of.
        by apply unchanged_spec in Eu as (l' & -> & -> & _).
      * unfold forwards_of. destruct (table_or_empty old !! d) eqn:Eo; [|done].
        destruct Hrm. split; [|done]. apply (Hkeys _ _ _ Hpold). by eexists.
  - intros d. rewrite run_actions_app, run_remove_insecure, run_add_insecure by done.
    rewrite (Hkeys _ _ _ Hpold). setoid_rewrite (Hin _ _ _ _ Hp). naive_solver.
Qed.


(** C26: an update is idempotent: when the cache was last given exactly the
    servers in use, a successful update sends no command at all - after a
    restart of the cache as well, so what the configuration file does not say
    (such as the insecure domains of servers without DNSSEC) is not sent again. *)
Theorem update_idempotent (e : env) (ctx : fsm_context_t) (t : server_table) (w : world) :
  context_wf ctx → current_domain_to_servers ctx = Some t → is_Some (effective_ca ctx) →
  current_unbound_domain_to_servers ctx = Some (used_of (resolution_mode ctx) t) →
  wp (update ctx) e w (λ r w',
    w_files w' = w_files w ∧
    match r with
    | UpdateDone t' => t' = used_of (resolution_mode ctx) t ∧ w_trace w' = w_trace w
    | UpdateReload => w_trace w' = w_trace w
    | UpdateError _ => ¬ (commands_succeed e ∧ ca_available e (config ctx))
    end).
Proof.
  intros Hwf Ht Hca Hold. eapply wp_mono; [by eapply wp_update|].
  intros r w' (Hf & acts & Etr & Hr). split; [done|].
  destruct r as [t'| |]; [|destruct Hr as [-> _]; by rewrite app_nil_r in Etr|done].
  destruct Hr as [-> (entries & old_entries & Hp & Hpold & ->)]. split; [done|].
  rewrite Hold in *. set (new := used_of (resolution_mode ctx) t) in *.
  assert (Hnw : table_wf new) by (apply used_of_wf; by eapply xw_table).
  assert (Hin : ∀ es d l, es ≡ₚ map_to_list new → (d, l) ∈ es → new !! d = Some l).
  { intros es d l Hes. by rewrite Hes, elem_of_map_to_list. }
  assert (add_actions (Some new) entries = [] ∧ remove_actions new old_entries = []) as [E1 E2].
  { split; apply list_bind_nil; intros [d l] Hdl.
    - pose proof (Hin _ _ _ Hp Hdl) as Hl. unfold unchanged. simpl. rewrite Hl.
      by rewrite compare_servers_refl by (by apply (Hnw d)).
    - pose proof (Hin _ _ _ Hpold Hdl) as Hl. by rewrite Hl. }
  rewrite E1, E2 in Etr. by rewrite app_nil_r in Etr.
Qed.
End Refinement.

(** ** Witnesses *)

Lemma zones_plain_check (t : server_table) :
  forallb (λ entry, negb (is_flag entry.1) && negb (entry.1 ==s "")) (map_to_list t) = true →
  zones_plain t.
Proof.
  rewrite forallb_forall. intros HF d [l Hl]. apply elem_of_map_to_list, list_elem_of_In, HF in Hl.
  apply andb_true_iff in Hl as [H1 H2]. simpl in *. destruct d as [|c d]; [by vm_compute in H2|].
  simpl in *. by apply negb_true_iff, bool_decide_eq_false in H1.
Qed.

(** The first update: Unbound runs with the forward of the root only. *)
Definition ex_cache : resolver_state := ({["." := (false, ["127.0.0.1"])]}, ∅).


Definition ex_updated : fsm_context_t :=
  set_unbound_table (Some (used_of MODE_BACKUP ex_servers_table)) ex_context.

Lemma ex_updated_wf : context_wf ex_updated.
Proof.
  destruct ex_context_wf as [? ? ? ? ? ?]. split; [assumption..|]. intros t Ht.
  assert (t = used_of MODE_BACKUP ex_servers_table) as -> by (by apply (inj Some) in Ht).
  apply used_of_wf, ex_table_wf.
Qed.

Theorem update_idempotent_witness :
  wp (update ex_updated) ex_env ex_world (λ r w',
    w_files w' = w_files ex_world ∧
    match r with
    | UpdateDone t' => t' = used_of MODE_BACKUP ex_servers_table ∧ w_trace w' = []
    | UpdateReload => w_trace w' = []
    | UpdateError _ => ¬ (commands_succeed ex_env ∧ ca_available ex_env ex_config)
    end).
Proof.
  apply (update_idempotent ex_env ex_updated ex_servers_table ex_world).
  - apply ex_updated_wf.
  - reflexivity.
  - eexists. reflexivity.
  - reflexivity.
Defined.
