(* ===== verification/ResolvConf.v ===== *)
(** * resolv.conf: [write_resolv_conf] of src/src/dns_managers/unbound_manager.c
    and [revert_resolv_conf] of src/src/fsm/fsm.c

    The first write saves the original contents, every write replaces the file
    by one that names the local resolver, and the revert restores the original. *)

From S2P Require Import Prelude CLib GLib SockAddr NetworkAddress ServerUri ServerTable.
From S2P Require Import ConfigData World UnboundSelect FsmContext UnboundConf.

(** ** Definitions *)

(** The innermost loop, over search domains; the state is [first_search] and
    the keys of [searches_table]. *)
Fixpoint write_searches (file : string) (first_search : bool) (searches_table : list string)
    (cur_search : list string) : M (bool * list string) :=
  match cur_search with
  | [] => mret (first_search, searches_table)
  | data :: next =>
      if bool_decide (data ∈ searches_table)
      then write_searches file first_search searches_table next
      else
        fprintf file ((if first_search then "search " else " ") +:+ data);;
        write_searches file false (searches_table ++ [data]) next
  end.

(** The loop over the used servers of a domain. *)
Fixpoint write_server_searches (file : string) (first_search : bool)
    (searches_table : list string) (used_servers : list server_uri_t) : M (bool * list string) :=
  match used_servers with
  | [] => mret (first_search, searches_table)
  | s :: next =>
      r ← write_searches file first_search searches_table (su_search_domains s);
      write_server_searches file r.1 r.2 next
  end.

(** The loop over the table. *)
Fixpoint write_table_searches (file : string) (mode : dnsconfd_mode_t) (first_search : bool)
    (searches_table : list string) (entries : list (string * list server_uri_t)) :
    M (bool * list string) :=
  match entries with
  | [] => mret (first_search, searches_table)
  | (key, value) :: rest =>
      used_servers ← deref (get_used_servers value mode key);
      r ← write_server_searches file first_search searches_table used_servers;
      write_table_searches file mode r.1 r.2 rest
  end.

Section ResolvConf.
Context `{Inet}.

(** What is written once the file is open. *)
Definition write_resolv_contents (cfg : dnsconfd_config_t) (table : option server_table)
    (mode : dnsconfd_mode_t) (file : string) : M () :=
  fprintf file ("#Generated by dnsconfd" +:+ NL);;
  domain_to_servers ← deref table;
  entries ← iterate domain_to_servers;
  r ← write_table_searches file mode true [] entries;
  (if negb r.1 then fprintf file NL else mret true);;
  match resolver_options cfg with
  | Some o => fprintf file ("options " +:+ o +:+ NL)
  | None => mret true
  end;;
  inet_buffer ← deref (ip_to_str (listen_address cfg));
  fprintf file ("nameserver " +:+ inet_buffer +:+ NL);;
  mret ().

(** The result carries the new value of [*backup]. *)
Definition write_resolv_conf (cfg : dnsconfd_config_t) (domain_to_servers : option server_table)
    (backup : option string) (mode : dnsconfd_mode_t) : M (option string * status) :=
  path ← deref (resolv_conf_path cfg);
  backup' ←
    match backup with
    | Some b => mret (Some b)
    | None => g_file_get_contents path
    end;
  match backup' with
  | None => mret (None, Failure (Some "Failed to create backup of resolv.conf"))
  | Some _ =>
      opened ← fopen_w path;
      if negb opened then mret (backup', Failure (Some "Failed to open resolv.conf"))
      else
        write_resolv_contents cfg domain_to_servers mode path;;
        error ← ferror;
        if error : bool
        then mret (backup', Failure (Some "Error encountered while writing to resolv.conf"))
        else
          closed ← fclose path;
          if closed : bool then mret (backup', Success)
          else mret (backup', Failure (Some "Error encountered while closing resolv.conf"))
  end.

(** [true] is [EVENT_SUCCESS], [false] is [EVENT_FAILURE]. *)
Definition revert_resolv_conf (ctx : fsm_context_t) : M bool :=
  path ← deref (resolv_conf_path (config ctx));
  opened ← fopen_w path;
  if negb opened then mret false
  else
    backup ← deref (resolv_conf_backup ctx);
    printed ← fprintf path backup;
    closed ← fclose path;
    mret (printed && closed).

(** ** Specification *)

(** The elements of [l] not in [seen], each once, in the order of their first
    occurrence. *)
Fixpoint new_searches (seen l : list string) : list string :=
  match l with
  | [] => []
  | d :: l' => if bool_decide (d ∈ seen) then new_searches seen l'
               else d :: new_searches (seen ++ [d]) l'
  end.

Definition table_searches (mode : dnsconfd_mode_t) (entries : list (string * list server_uri_t)) :
    list string :=
  '(key, value) ← entries; s ← zone_servers mode key value; su_search_domains s.

Definition search_text (ds : list string) : string :=
  match ds with
  | [] => ""
  | d :: ds' => "search " +:+ d +:+ concat_map (λ x, " " +:+ x) ds'
  end.

Definition resolv_conf_text (cfg : dnsconfd_config_t) (mode : dnsconfd_mode_t)
    (entries : list (string * list server_uri_t)) : string :=
  let searches := new_searches [] (table_searches mode entries) in
  "#Generated by dnsconfd" +:+ NL
  +:+ (match searches with [] => "" | _ => search_text searches +:+ NL end)
  +:+ (match resolver_options cfg with Some o => "options " +:+ o +:+ NL | None => "" end)
  +:+ "nameserver " +:+ default "" (ip_to_str (listen_address cfg)) +:+ NL.
End ResolvConf.

(** ** Proofs *)

Lemma new_searches_app seen a b :
  new_searches seen (a ++ b) = new_searches seen a ++ new_searches (seen ++ new_searches seen a) b.
Proof.
  revert seen. induction a as [|x a IH]; intros seen; simpl; [by rewrite app_nil_r|].
  case_bool_decide; [apply IH|]. simpl. rewrite IH. by rewrite <-app_assoc.
Qed.

(** Every search domain is listed exactly once. *)
Lemma new_searches_NoDup seen l : NoDup (new_searches seen l) ∧
  ∀ d, d ∈ new_searches seen l ↔ d ∈ l ∧ d ∉ seen.
Proof.
  revert seen. induction l as [|x l IH]; intros seen; simpl.
  - split; [constructor|]. set_solver.
  - case_bool_decide as Hx.
    + destruct (IH seen) as [Hn Hin]. split; [done|]. intros d. rewrite Hin. set_solver.
    + destruct (IH (seen ++ [x])) as [Hn Hin]. split.
      * constructor; [|done]. rewrite Hin. set_solver.
      * intros d. rewrite elem_of_cons, Hin. destruct (decide (d = x)); set_solver.
Qed.

Section Proofs.
Context `{InetLaws} (e : env) (p : string).

(** The texts of a list of new searches after others were written or not. *)
Definition more_searches (first_search : bool) (ds : list string) : string :=
  if first_search then search_text ds else concat_map (λ x, " " +:+ x) ds.

Definition still_first (first_search : bool) (ds : list string) : bool :=
  first_search && bool_decide (ds = []).

Lemma concat_map_app {A} (f : A → string) a b :
  concat_map f (a ++ b) = concat_map f a +:+ concat_map f b.
Proof.
  induction a as [|x a IH]; [done|]. unfold concat_map in *. simpl.
  by rewrite IH, string_app_assoc.
Qed.

Lemma more_searches_app first a b :
  more_searches first (a ++ b) = more_searches first a +:+ more_searches (still_first first a) b.
Proof.
  unfold more_searches, still_first. destruct first; [|by rewrite concat_map_app].
  destruct a as [|x a]; [done|]. cbn [app search_text andb]. rewrite concat_map_app.
  by rewrite !string_app_assoc.
Qed.

Lemma still_first_app first a b :
  still_first first (a ++ b) = still_first (still_first first a) b.
Proof. unfold still_first. destruct first, a; simpl; try done. Qed.

(** What one of the loops does, starting from [first] and [seen], with the
    search domains [ds]. *)
Definition searches_post (first : bool) (seen ds : list string) (T : string) (w0 : world)
    (r : bool * list string) (w' : world) : Prop :=
  writes e p (T +:+ more_searches first (new_searches seen ds)) w0 w' ∧
  r = (still_first first (new_searches seen ds), seen ++ new_searches seen ds).

Lemma searches_post_nil first seen T w0 w :
  writes e p T w0 w → searches_post first seen [] T w0 (first, seen) w.
Proof.
  intros HT. split; simpl.
  - eapply writes_eq; [|exact HT]. unfold more_searches. destruct first; by rewrite string_app_nil_r.
  - rewrite app_nil_r. f_equal. unfold still_first. by destruct first.
Qed.

(** Two pieces of the loops in sequence. *)
Lemma searches_post_seq (m2 : bool → list string → M (bool * list string)) (m1 : M _)
    first seen d1 d2 T w0 w :
  wp m1 e w (searches_post first seen d1 T w0) →
  (∀ f s T' w', writes e p T' w0 w' → wp (m2 f s) e w' (searches_post f s d2 T' w0)) →
  wp (r ← m1; m2 r.1 r.2) e w (searches_post first seen (d1 ++ d2) T w0).
Proof.
  intros H1 H2. eapply wp_seq; [exact H1|]. cbv beta. intros r w1 [HT ->]. simpl.
  eapply wp_mono; [by apply H2|]. intros r w2 [HT2 ->]. split.
  - eapply writes_eq; [|exact HT2]. rewrite new_searches_app, more_searches_app.
    by rewrite string_app_assoc.
  - by rewrite new_searches_app, still_first_app, app_assoc.
Qed.

Lemma wp_write_searches ds first seen T w0 w :
  writes e p T w0 w →
  wp (write_searches p first seen ds) e w (searches_post first seen ds T w0).
Proof.
  revert first seen T w. induction ds as [|d ds IH]; intros first seen T w HT.
  - apply wp_ret. by apply searches_post_nil.
  - simpl. case_bool_decide as Hd.
    + eapply wp_mono; [by apply IH|]. unfold searches_post. simpl.
      by rewrite bool_decide_eq_true_2.
    + wp_write HT. eapply wp_mono; [by apply IH|]. intros r w2 [HT2 ->].
      unfold searches_post. simpl. rewrite bool_decide_eq_false_2 by done. split.
      * eapply writes_eq; [|exact HT2]. unfold more_searches.
        destruct first; cbn [search_text concat_map foldr];
          by rewrite !string_app_assoc.
      * rewrite <-app_assoc. f_equal. unfold still_first. by rewrite andb_false_r.
Qed.

Lemma wp_write_server_searches used first seen T w0 w :
  writes e p T w0 w →
  wp (write_server_searches p first seen used) e w
    (searches_post first seen (s ← used; su_search_domains s) T w0).
Proof.
  revert first seen T w. induction used as [|s used IH]; intros first seen T w HT.
  - apply wp_ret. by apply searches_post_nil.
  - simpl. apply (searches_post_seq (λ f t, write_server_searches p f t used)).
    + by apply wp_write_searches.
    + intros. by apply IH.
Qed.

Lemma wp_write_table_searches mode entries first seen T w0 w :
  entries_wf entries → writes e p T w0 w →
  wp (write_table_searches p mode first seen entries) e w
    (searches_post first seen (table_searches mode entries) T w0).
Proof.
  intros Hwf. revert first seen T w.
  induction Hwf as [|[key value] entries [Hne Hs] Hwf IH]; intros first seen T w HT.
  - apply wp_ret. by apply searches_post_nil.
  - cbn [write_table_searches]. destruct (zone_servers_spec mode key value Hne Hs) as [Hu _].
    apply wp_bind, wp_deref. eexists. split; [exact Hu|].
    unfold table_searches. cbn [mbind list_bind]. fold (table_searches mode entries).
    apply (searches_post_seq (λ f t, write_table_searches p mode f t entries)).
    + by apply wp_write_server_searches.
    + intros. by apply IH.
Qed.

Lemma wp_write_resolv_contents cfg t mode T w0 w :
  config_wf cfg → table_wf t → writes e p T w0 w →
  wp (write_resolv_contents cfg (Some t) mode p) e w (λ _ w',
    ∃ entries, entries ≡ₚ map_to_list t ∧
      writes e p (T +:+ resolv_conf_text cfg mode entries) w0 w').
Proof.
  intros Hcfg Ht HT. unfold write_resolv_contents. wp_write HT.
  apply wp_bind, wp_deref. exists t. split; [done|].
  wp_first wp_iterate. intros entries w2 [Hp Hw2].
  apply (writes_clock_after _ _ _ _ _ _ HT) in Hw2. clear HT. rename Hw2 into HT.
  eapply wp_seq.
  { apply wp_write_table_searches; [by eapply entries_wf_perm|exact HT]. }
  clear HT. cbv beta. intros r w3 [HT ->]. cbn [fst].
  unfold resolv_conf_text. set (ds := new_searches [] (table_searches mode entries)) in *.
  apply (wp_seq _ _ _ _ (λ _ w', writes e p (T +:+ "#Generated by dnsconfd" +:+ NL
    +:+ match ds with [] => "" | _ => search_text ds +:+ NL end) w0 w')).
  { unfold still_first, more_searches in *. cbn [andb].
    destruct ds as [|d ds']; cbn [negb bool_decide].
    - rewrite bool_decide_eq_true_2 by done. apply wp_ret. eapply writes_eq; [|exact HT].
      cbn [search_text]. text_eq.
    - rewrite bool_decide_eq_false_2 by done.
      eapply wp_fprintf_last; [exact HT|]. intros ? ? HT' _. eapply writes_eq; [|exact HT'].
      text_eq. }
  clear HT. intros _ w4 HT.
  apply (wp_seq _ _ _ _ (λ _ w', writes e p (T +:+ "#Generated by dnsconfd" +:+ NL
    +:+ match ds with [] => "" | _ => search_text ds +:+ NL end
    +:+ match resolver_options cfg with Some o => "options " +:+ o +:+ NL | None => "" end) w0 w')).
  { destruct (resolver_options cfg).
    - eapply wp_fprintf_last; [exact HT|]. intros ? ? HT' _. eapply writes_eq; [|exact HT'].
      text_eq.
    - apply wp_ret. eapply writes_eq; [|exact HT]. text_eq. }
  clear HT. intros _ w5 HT. apply wp_bind, wp_deref. eexists.
  split; [apply ip_to_str_wf, Hcfg|]. wp_write HT. apply wp_ret. exists entries. split; [done|].
  eapply writes_eq; [|exact HT]. text_eq.
Qed.
End Proofs.

Section Properties.
Context `{InetLaws} (e : env).

Lemma wp_write_resolv_conf (cfg : dnsconfd_config_t) (t : server_table)
    (backup : option string) (mode : dnsconfd_mode_t) (path : string) (w : world) :
  config_wf cfg → table_wf t → resolv_conf_path cfg = Some path →
  wp (write_resolv_conf cfg (Some t) backup mode) e w (λ r w',
    (∀ q, q ≠ path → w_files w' !! q = w_files w !! q) ∧ w_trace w' = w_trace w ∧
    (∀ b, backup = Some b → r.1 = Some b) ∧
    (∀ b, backup = None → r.1 = Some b → w_files w !! path = Some b) ∧
    (r.1 = None → w_files w' = w_files w) ∧
    match r.2 with
    | Success => is_Some r.1 ∧ ∃ entries, entries ≡ₚ map_to_list t ∧
        w_files w' !! path = Some (resolv_conf_text cfg mode entries)
    | Failure _ => reliable e → backup = None ∧ w_files w !! path = None
    end).
Proof.
  intros Hcfg Ht Hpath. unfold write_resolv_conf. apply wp_bind, wp_deref. exists path.
  split; [done|].
  apply (wp_seq _ _ _ _ (λ b' w1, only_clock w w1 ∧ (∀ b, backup = Some b → b' = Some b) ∧
    (∀ b, backup = None → b' = Some b → w_files w !! path = Some b) ∧
    (b' = None → reliable e → backup = None ∧ w_files w !! path = None))).
  { destruct backup as [b|].
    - by apply wp_ret.
    - eapply wp_mono; [apply wp_g_file_get_contents|]. cbv beta. intros c w1 (Hw1 & Hc & Hrel).
      split; [done|]. split; [done|]. split.
      + intros b _ ->. by destruct Hc.
      + intros -> Hr. by rewrite Hrel. }
  intros b' w1 ([F1 _ T1] & Hb1 & Hb2 & Hb3). destruct b' as [b0|].
  2: { apply wp_ret. simpl. rewrite F1. repeat split; try done; by apply Hb3. }
  wp_first wp_fopen_w. intros [] w2 (F2 & T2 & R2 & Hopen); cbn [negb].
  2: { apply wp_ret. split; [intros q ?; by rewrite Hopen, F1|]. split; [congruence|].
       split; [done|]. split; [done|]. split; [done|]. simpl. intros Hr. by apply R2 in Hr. }
  destruct Hopen as [Hempty Hferr].
  assert (HT : writes e path "" w2 w2) by (apply writes_nil, elem_of_dom; by rewrite Hempty).
  eapply wp_seq; [by apply wp_write_resolv_contents|]. clear HT.
  cbv beta. intros _ w3 (entries & Hp & HT). wp_first wp_ferror. intros b w4 [-> ->].
  assert (Hframe : (∀ q, q ≠ path → w_files w3 !! q = w_files w !! q) ∧ w_trace w3 = w_trace w).
  { split; [intros q Hq; by rewrite (writes_files _ _ _ _ _ HT), F2, F1|].
    rewrite (writes_trace _ _ _ _ _ HT). congruence. }
  destruct Hframe as [Hfr1 Hfr2]. destruct (w_ferror w3) eqn:E3.
  { apply wp_ret. do 5 (split; [done|]). simpl. intros Hr.
    by rewrite (writes_reliable _ _ _ _ _ HT Hr), Hferr in E3. }
  wp_first wp_fclose. intros closed w4 (F4 & T4 & R4 & C4).
  assert (∀ q, q ≠ path → w_files w4 !! q = w_files w !! q) by (intros q Hq; by rewrite F4, Hfr1).
  assert (w_trace w4 = w_trace w) by congruence.
  destruct closed; apply wp_ret; do 5 (split; [done|]); simpl.
  - split; [done|]. exists entries. split; [done|].
    by rewrite C4, (writes_text _ _ _ _ _ HT E3), Hempty.
  - intros Hr. by apply R4 in Hr.
Qed.

(** C11: writing resolv.conf never faults and touches nothing but that file; the
    backup, once taken, is the contents the file had before the first write and
    is never replaced; on success the file consists of the marker, one search
    line naming every search domain of the servers in use exactly once, the
    options and the local resolver; without a failing call it succeeds. *)
Theorem write_resolv_conf_correct (cfg : dnsconfd_config_t) (t : server_table)
    (backup : option string) (mode : dnsconfd_mode_t) (path : string) (w : world) :
  config_wf cfg → table_wf t → resolv_conf_path cfg = Some path →
  wp (write_resolv_conf cfg (Some t) backup mode) e w (λ r w',
    (∀ q, q ≠ path → w_files w' !! q = w_files w !! q) ∧ w_trace w' = w_trace w ∧
    (∀ b, backup = Some b → r.1 = Some b) ∧
    (∀ b, backup = None → r.1 = Some b → w_files w !! path = Some b) ∧
    (r.1 = None → w_files w' = w_files w) ∧
    match r.2 with
    | Success => is_Some r.1 ∧ ∃ entries, entries ≡ₚ map_to_list t ∧
        w_files w' !! path = Some (resolv_conf_text cfg mode entries)
    | Failure _ => reliable e → backup = None ∧ w_files w !! path = None
    end).
Proof. intros. by apply wp_write_resolv_conf. Qed.

(** Reverting writes the backup and nothing else. *)
Lemma wp_revert_resolv_conf ctx path b w :
  resolv_conf_path (config ctx) = Some path → resolv_conf_backup ctx = Some b →
  wp (revert_resolv_conf ctx) e w (λ ok w',
    (∀ q, q ≠ path → w_files w' !! q = w_files w !! q) ∧ w_trace w' = w_trace w ∧
    (ok = true → w_files w' !! path = Some b) ∧ (reliable e → ok = true)).
Proof.
  intros Hpath Hb. unfold revert_resolv_conf. apply wp_bind, wp_deref. exists path.
  split; [done|]. wp_first wp_fopen_w. intros [] w1 (F1 & T1 & R1 & Hopen); cbn [negb].
  2: { apply wp_ret. split; [intros q ?; by rewrite F1|]. done. }
  destruct Hopen as [Hempty Hferr]. apply wp_bind, wp_deref. exists b. split; [done|].
  wp_first wp_fprintf. intros ok w2 [HT Hok]. wp_first wp_fclose.
  intros closed w3 (F3 & T3 & R3 & C3). apply wp_ret.
  split; [intros q Hq; by rewrite F3, (writes_files _ _ _ _ _ HT), F1|].
  split; [rewrite T3, (writes_trace _ _ _ _ _ HT); congruence|]. split.
  - intros [-> ->]%andb_true_iff. rewrite C3 by done.
    rewrite (writes_text _ _ _ _ _ HT), Hempty; [done|]. by rewrite Hok, Hferr.
  - intros Hr. rewrite R3, andb_true_r by done.
    rewrite (writes_reliable _ _ _ _ _ HT Hr), Hferr in Hok. by destruct ok.
Qed.

(** Round trip: whatever happened in between to the context, reverting with
    the backup that the first write took restores every file to what it was
    before that write. *)
Theorem resolv_conf_restored (cfg : dnsconfd_config_t) (t : server_table)
    (mode : dnsconfd_mode_t) (path : string) (ctx : fsm_context_t) (w : world) :
  config_wf cfg → table_wf t → resolv_conf_path cfg = Some path →
  resolv_conf_path (config ctx) = Some path →
  wp (r ← write_resolv_conf cfg (Some t) None mode;
      match r.1 with
      | Some b => revert_resolv_conf (set_backup (Some b) ctx)
      | None => mret true
      end) e w (λ ok w', ok = true → w_files w' = w_files w).
Proof.
  intros Hcfg Ht Hpath Hctx. eapply wp_seq; [by eapply wp_write_resolv_conf|].
  cbv beta. intros r w1 (F1 & _ & _ & Hb & Hnone & _). destruct (r.1) as [b|] eqn:Er.
  - eapply wp_mono; [by apply wp_revert_resolv_conf|]. intros ok w2 (F2 & _ & Hok & _) Htrue.
    apply map_eq. intros q. destruct (decide (q = path)) as [->|Hq].
    + rewrite (Hok Htrue). symmetry. by apply Hb.
    + by rewrite F2, F1.
  - apply wp_ret. auto.
Qed.
End Properties.

(** ** Witnesses *)

Theorem write_resolv_conf_correct_witness :
  wp (write_resolv_conf ex_config (Some ex_servers_table) None MODE_BACKUP) ex_env ex_world
    (λ r w', reliable ex_env → is_Some r.1 ∨ w_files ex_world !! "/etc/resolv.conf" = None).
Proof.
  eapply wp_mono.
  - apply (write_resolv_conf_correct ex_env ex_config ex_servers_table None MODE_BACKUP
      "/etc/resolv.conf" ex_world).
    + apply ex_config_wf.
    + apply ex_table_wf.
    + reflexivity.
  - intros r w' (_ & _ & _ & _ & _ & Hr) Hrel. destruct (r.2).
    + left. apply Hr.
    + right. by apply Hr.
Defined.

Theorem resolv_conf_restored_witness :
  wp (r ← write_resolv_conf ex_config (Some ex_servers_table) None MODE_BACKUP;
      match r.1 with
      | Some b => revert_resolv_conf (set_backup (Some b) ex_context)
      | None => mret true
      end) ex_env ex_world (λ ok w', ok = true → w_files w' = w_files ex_world).
Proof.
  apply (resolv_conf_restored ex_env ex_config ex_servers_table MODE_BACKUP "/etc/resolv.conf").
  - apply ex_config_wf.
  - apply ex_table_wf.
  - reflexivity.
  - reflexivity.
Defined.
