(* ===== verification/Service.v ===== *)
(** * The service of the cache: src/src/service_management.c

    Jobs are requested by writing a control file; a file monitor on the status
    file reports how they end. *)

From S2P Require Import Prelude CLib ServerUri ServerTable ConfigData World UnboundSelect FsmContext.

(** ** Definitions *)

Definition CONTROL_FILE : string := "/run/dnsconfd/unbound_control".
Definition STATUS_FILE : string := "/run/dnsconfd/unbound_status".

(** [true] is [TRUE]; the messages of the errors are only logged. *)
Definition write_to_file (filename content : string) : M bool :=
  opened ← fopen_w filename;
  if negb opened then mret false
  else
    printed ← fprintf filename content;
    if negb printed then fclose filename;; mret false
    else
      closed ← fclose filename;
      mret closed.

(** [true] is 0. *)
Definition set_service_status (ctx : ServiceManagementContext) (expected_status command : string) :
    M (ServiceManagementContext * bool) :=
  let ctx := ServiceCtx (Some expected_status) (sm_monitor ctx) (sm_handlers ctx) in
  pending ← write_to_file STATUS_FILE "pending";
  if negb pending then mret (ctx, false)
  else
    ok ← write_to_file CONTROL_FILE command;
    mret (ctx, ok).

(** [true] is 0.  A monitor set before is not disconnected. *)
Definition service_management_subscribe_job_removed (ctx : ServiceManagementContext) :
    M (ServiceManagementContext * bool) :=
  monitor ← ask env_ok;
  if negb monitor then mret (ServiceCtx (sm_expected_status ctx) false (sm_handlers ctx), false)
  else mret (ServiceCtx (sm_expected_status ctx) true (S (sm_handlers ctx)), true).

(** Only the handler of the last monitor is disconnected. *)
Definition service_management_context_destroy (ctx : ServiceManagementContext) :
    ServiceManagementContext :=
  if sm_monitor ctx then ServiceCtx (sm_expected_status ctx) false (pred (sm_handlers ctx)) else ctx.

(** [g_ascii_isspace] and [g_strstrip]. *)
Definition g_ascii_isspace (c : ascii) : bool :=
  let n := N_of_ascii c in
  bool_decide (n = 9 ∨ n = 10 ∨ n = 12 ∨ n = 13 ∨ n = 32)%N.

Fixpoint g_strchug (s : string) : string :=
  match s with
  | String c s' => if g_ascii_isspace c then g_strchug s' else s
  | EmptyString => EmptyString
  end.

Fixpoint g_strchomp (s : string) : string :=
  match s with
  | EmptyString => EmptyString
  | String c s' =>
      match g_strchomp s' with
      | EmptyString => if g_ascii_isspace c then EmptyString else String c EmptyString
      | r => String c r
      end
  end.

Definition g_strstrip (s : string) : string := g_strchomp (g_strchug s).

(** What the callback is called with for the contents of the status file. *)
Definition job_result (expected_status : option string) (content : string) : option string :=
  if match expected_status with Some x => content ==s x | None => false end then Some "done"
  else if content ==s "fail" then Some "fail"
  else if content ==s "stopped" then Some "stopped"
  else None.

Inductive monitor_event :=
| G_FILE_MONITOR_EVENT_CHANGES_DONE_HINT
| G_FILE_MONITOR_EVENT_CREATED
| G_FILE_MONITOR_EVENT_OTHER.

(** The argument of the callback, if it is called. *)
Definition on_file_changed (ctx : ServiceManagementContext) (event_type : monitor_event) :
    M (option string) :=
  match event_type with
  | G_FILE_MONITOR_EVENT_CHANGES_DONE_HINT | G_FILE_MONITOR_EVENT_CREATED =>
      content ← g_file_get_contents STATUS_FILE;
      match content with
      | Some content => mret (job_result (sm_expected_status ctx) (g_strstrip content))
      | None => mret None
      end
  | G_FILE_MONITOR_EVENT_OTHER => mret None
  end.

(** ** Proofs *)

Section Service.
Context (e : env).

(** A file written whole, or a failing call. *)
Lemma wp_write_to_file p content w :
  wp (write_to_file p content) e w (λ ok w',
    (∀ q, q ≠ p → w_files w' !! q = w_files w !! q) ∧ w_trace w' = w_trace w ∧
    (ok = true → w_files w' !! p = Some content) ∧ (reliable e → ok = true)).
Proof.
  unfold write_to_file. wp_first wp_fopen_w. intros [] w1 (F1 & T1 & R1 & Hopen); cbn [negb].
  2: { apply wp_ret. split; [done|]. split; [done|]. split; [done|]. done. }
  destruct Hopen as [Hempty Hferr]. wp_first wp_fprintf. intros [] w2 [HT Hok]; cbn [negb].
  - wp_first wp_fclose. intros closed w3 (F3 & T3 & R3 & C3). apply wp_ret.
    split; [intros q Hq; by rewrite F3, (writes_files _ _ _ _ _ HT), F1|].
    split; [rewrite T3, (writes_trace _ _ _ _ _ HT); congruence|]. split; [|done].
    intros ->. rewrite C3, (writes_text _ _ _ _ _ HT), Hempty; [done| |done].
    by rewrite Hok, Hferr.
  - wp_first wp_fclose. intros closed w3 (F3 & T3 & R3 & C3). apply wp_ret.
    split; [intros q Hq; by rewrite F3, (writes_files _ _ _ _ _ HT), F1|].
    split; [rewrite T3, (writes_trace _ _ _ _ _ HT); congruence|]. split; [done|].
    intros Hr. rewrite (writes_reliable _ _ _ _ _ HT Hr), Hferr in Hok. done.
Qed.

Lemma wp_set_service_status ctx expected command w :
  wp (set_service_status ctx expected command) e w (λ r w',
    (∀ q, q ≠ STATUS_FILE → q ≠ CONTROL_FILE → w_files w' !! q = w_files w !! q) ∧
    w_trace w' = w_trace w ∧
    r.1 = ServiceCtx (Some expected) (sm_monitor ctx) (sm_handlers ctx) ∧
    (r.2 = true → w_files w' !! STATUS_FILE = Some "pending"
                  ∧ w_files w' !! CONTROL_FILE = Some command) ∧
    (reliable e → r.2 = true)).
Proof.
  unfold set_service_status. wp_first wp_write_to_file.
  intros [] w1 (F1 & T1 & C1 & R1); cbn [negb].
  - wp_first wp_write_to_file. intros ok w2 (F2 & T2 & C2 & R2). apply wp_ret. simpl.
    split; [intros q ? ?; by rewrite F2, F1|]. split; [congruence|]. split; [done|].
    split; [|done]. intros Hok. split; [|by apply C2]. rewrite F2 by done. by apply C1.
  - apply wp_ret. simpl. split; [auto|]. split; [congruence|]. split; [done|].
    split; [done|]. done.
Qed.

Lemma wp_subscribe ctx w :
  wp (service_management_subscribe_job_removed ctx) e w (λ r w',
    only_clock w w' ∧ sm_expected_status r.1 = sm_expected_status ctx ∧
    (r.2 = true → r.1 = ServiceCtx (sm_expected_status ctx) true (S (sm_handlers ctx))) ∧
    (reliable e → r.2 = true)).
Proof.
  unfold service_management_subscribe_job_removed. wp_first wp_ask.
  intros ok w1 (-> & Hw1 & _). destruct (env_ok e (w_clock w)) eqn:E; cbn [negb]; apply wp_ret;
    simpl; (split; [done|]); (split; [done|]); split; try done.
  intros Hr. by rewrite Hr in E.
Qed.
End Service.

(** Only what the awaited status, [fail] and [stopped] say is reported. *)
Lemma job_result_Some expected content r :
  job_result expected content = Some r →
  r = "done" ∧ expected = Some content ∨ r = "fail" ∧ content = "fail"
  ∨ r = "stopped" ∧ content = "stopped".
Proof.
  unfold job_result. destruct expected as [x|]; repeat case_bool_decide; naive_solver.
Qed.

Lemma g_strstrip_word s :
  Forall (λ c, g_ascii_isspace c = false) (chars s) → g_strstrip s = s.
Proof.
  intros Hs. unfold g_strstrip.
  assert (g_strchug s = s) as ->.
  { destruct s as [|c s]; [done|]. simpl in Hs. apply Forall_cons in Hs as [Hc _]. simpl.
    by rewrite Hc. }
  induction s as [|c s IH]; [done|]. simpl in Hs. apply Forall_cons in Hs as [Hc Hs].
  simpl. rewrite IH by done. destruct s; [|done]. by rewrite Hc.
Qed.

(** C30: a request is not answered by its own traces: the status file that a
    successful request leaves behind makes the file monitor call nothing,
    whatever the event, until the service manager writes the status; when the
    status awaited is written, a change of the file is reported as [done], and
    nothing else is ever reported. *)
Theorem request_handshake (e : env) (ctx : ServiceManagementContext) (expected command : string)
    (event : monitor_event) (w : world) :
  expected ≠ "pending" → Forall (λ c, g_ascii_isspace c = false) (chars expected) →
  wp (r ← set_service_status ctx expected command;
      first ← on_file_changed r.1 event;
      set_file STATUS_FILE expected;;
      second ← on_file_changed r.1 event;
      mret (r.2, first, second)) e w (λ r _,
    (r.1.1 = true → r.1.2 = None) ∧ (r.2 = None ∨ r.2 = Some "done") ∧
    (reliable e → event ≠ G_FILE_MONITOR_EVENT_OTHER → r.2 = Some "done")).
Proof.
  intros Hne Hsp. eapply wp_seq; [apply wp_set_service_status|]. cbv beta.
  intros [ctx' ok] w1 (_ & _ & Hctx & Hok & _). simpl in Hctx, Hok. subst ctx'.
  assert (Hfc : ∀ w content, w_files w !! STATUS_FILE = Some content →
    wp (on_file_changed (ServiceCtx (Some expected) (sm_monitor ctx) (sm_handlers ctx)) event) e w
      (λ r w', r = None ∧ (reliable e → event = G_FILE_MONITOR_EVENT_OTHER)
               ∨ r = job_result (Some expected) (g_strstrip content))).
  { intros w2 content Hc. unfold on_file_changed. destruct event; [..|by apply wp_ret; left].
    all: wp_first wp_g_file_get_contents; intros c w3 (_ & Hcc & Hrel); rewrite Hc in Hcc, Hrel;
      destruct c as [c|]; apply wp_ret;
      [right; by destruct Hcc; simplify_eq
      |left; split; [done|]; intros Hr; by specialize (Hrel Hr)]. }
  apply (wp_seq _ _ _ _ (λ first _, ok = true → first = None)).
  { destruct ok.
    - destruct Hok as [Hst _]; [done|]. eapply wp_mono; [by apply Hfc|].
      intros r w2 [[-> _]| ->] _; [done|]. simpl. unfold job_result.
      change (g_strstrip "pending") with "pending".
      by rewrite bool_decide_eq_false_2 by congruence.
    - destruct (w_files w1 !! STATUS_FILE) as [c|] eqn:E.
      + eapply wp_mono; [by apply Hfc|]. done.
      + unfold on_file_changed. destruct event; [..|by apply wp_ret].
        all: eapply wp_seq; [apply wp_g_file_get_contents|]; cbv beta;
          intros [c|] w2 _; by apply wp_ret. }
  cbn [fst]. intros first w2 Hfirst.
  apply (wp_seq _ _ _ _ (λ _ w', w_files w' !! STATUS_FILE = Some expected)).
  { eapply wp_mono; [apply wp_set_file|]. cbv beta. intros _ w3 [Hf _]. exact Hf. }
  intros _ w3 Hw3. eapply wp_seq; [by apply Hfc|]. cbv beta. intros second w4 Hsec.
  apply wp_ret. simpl. split; [done|]. destruct Hsec as [[-> Hr]| ->].
  { split; [by left|]. intros Hrel Hev. by destruct Hev; apply Hr. }
  assert (job_result (Some expected) (g_strstrip expected) = Some "done") as ->; [|by auto].
  rewrite g_strstrip_word by done. unfold job_result. by rewrite bool_decide_eq_true_2.
Qed.

Theorem request_handshake_witness :
  wp (r ← set_service_status (ServiceCtx None true 1) "ready" "restart";
      first ← on_file_changed r.1 G_FILE_MONITOR_EVENT_CREATED;
      set_file STATUS_FILE "ready";;
      second ← on_file_changed r.1 G_FILE_MONITOR_EVENT_CREATED;
      mret (r.2, first, second)) ex_env ex_world (λ r _,
    (r.1.1 = true → r.1.2 = None) ∧ (r.2 = None ∨ r.2 = Some "done") ∧
    (reliable ex_env → G_FILE_MONITOR_EVENT_CREATED ≠ G_FILE_MONITOR_EVENT_OTHER →
     r.2 = Some "done")).
Proof.
  apply (request_handshake ex_env (ServiceCtx None true 1) "ready" "restart"
    G_FILE_MONITOR_EVENT_CREATED ex_world).
  - discriminate.
  - apply (bool_decide_unpack _). vm_compute. exact I.
Defined.
