(* ===== verification/Fsm.v ===== *)
(** * The state machine of the daemon: src/src/fsm/fsm.c

    The actions of the transitions, the transition function and its loop, and
    what they guarantee: no fault, termination, the graph of the states in
    which the daemon sleeps, the serials and the exit code. *)

From S2P Require Import Prelude CLib GLib SockAddr NetworkAddress ServerUri ServerTable.
From S2P Require Import ConfigData World UnboundSelect FsmContext UnboundConf UnboundControl.
From S2P Require Import ResolvConf Service.

(** ** Definitions *)

Section Actions.
Context `{Inet} `{GListSort} `{IntOverflow}.

Definition set_dynamic_servers (ctx : fsm_context_t) : fsm_context_t :=
  set_dynamic (new_dynamic_servers ctx) [] ctx.

(** [x += 1 + ((x + 1) == 0)] on an [unsigned int]. *)
Definition next_serial (x : Z) : Z :=
  uint_wrap (x + (1 + (if (uint_wrap (x + 1) =? 0)%Z then 1 else 0))).

Definition update_context (ctx : fsm_context_t) : fsm_context_t * fsm_event_t :=
  let all := static_servers (config ctx) ++ current_dynamic_servers ctx in
  let ctx := set_all_servers all (server_list_to_hash_table all) ctx in
  (set_serials (next_serial (requested_configuration_serial ctx))
     (current_configuration_serial ctx) ctx, EVENT_NONE).

(** The event the callback of the file monitor injects. *)
Definition job_event (result : string) : fsm_event_t :=
  if result ==s "stopped" then EVENT_RELOAD
  else if result ==s "done" then EVENT_JOB_SUCCESS
  else EVENT_JOB_FAILURE.

Definition fsm_starting_event_kickoff (ctx : fsm_context_t) : M (fsm_context_t * fsm_event_t) :=
  let '(ctx, _) := update_context ctx in
  sub ← service_management_subscribe_job_removed (service_management_ctx ctx);
  let ctx := set_service_ctx sub.1 ctx in
  if negb sub.2 then mret (ctx, EVENT_FAILURE)
  else
    r ← write_configuration ctx;
    match r.2 with
    | Failure _ => mret (r.1, EVENT_FAILURE)
    | Success => mret (r.1, EVENT_SUCCESS)
    end.

Definition fsm_configuring_dns_manager_event_success (ctx : fsm_context_t) :
    M (fsm_context_t * fsm_event_t) :=
  r ← set_service_status (service_management_ctx ctx) "ready" "restart";
  mret (set_service_ctx r.1 ctx, if r.2 : bool then EVENT_SUCCESS else EVENT_FAILURE).

Definition set_resolv_conf (ctx : fsm_context_t) : M (fsm_context_t * fsm_event_t) :=
  r ← write_resolv_conf (config ctx) (current_domain_to_servers ctx) (resolv_conf_backup ctx)
        (resolution_mode ctx);
  mret (set_backup r.1 ctx, match r.2 with Success => EVENT_SUCCESS | Failure _ => EVENT_FAILURE end).

Definition emit_configuration_serial_signal (ctx : fsm_context_t) : M () :=
  emit (ASerialSignal (current_configuration_serial ctx)).

Definition update_dns_manager (ctx : fsm_context_t) : M (fsm_context_t * fsm_event_t) :=
  r ← update ctx;
  match r with
  | UpdateDone new_unbound_domain_to_servers =>
      let ctx := set_unbound_table (Some new_unbound_domain_to_servers) ctx in
      let ctx := set_serials (requested_configuration_serial ctx)
                   (requested_configuration_serial ctx) ctx in
      emit (ANotify "READY=1");;
      emit_configuration_serial_signal ctx;;
      mret (ctx, EVENT_SUCCESS)
  | UpdateReload => mret (ctx, EVENT_RELOAD)
  | UpdateError _ => mret (ctx, EVENT_FAILURE)
  end.

Definition submit_stop_job (ctx : fsm_context_t) : M (fsm_context_t * fsm_event_t) :=
  r ← set_service_status (service_management_ctx ctx) "stopped" "stop";
  mret (set_service_ctx r.1 ctx, if r.2 : bool then EVENT_SUCCESS else EVENT_FAILURE).

(** [revert_resolv_conf] as an action of the machine. *)
Definition revert_action (ctx : fsm_context_t) : M (fsm_context_t * fsm_event_t) :=
  ok ← revert_resolv_conf ctx;
  mret (ctx, if ok : bool then EVENT_SUCCESS else EVENT_FAILURE).

Definition set_exit_code (code : exit_code_t) (ctx : fsm_context_t) : fsm_context_t :=
  if (exit_code ctx =? 0)%Z then put_exit_code (exit_code_value code) ctx else ctx.

(** [ctx->current_state = s; cur_event = action(ctx)]. *)
Definition enter (s : fsm_state_t) (action : fsm_context_t → M (fsm_context_t * fsm_event_t))
    (ctx : fsm_context_t) : M (option (fsm_context_t * fsm_event_t)) :=
  r ← action (set_current_state s ctx); mret (Some r).

(** [cur_event = action(ctx); ctx->current_state = s]. *)
Definition leave (s : fsm_state_t) (action : fsm_context_t → M (fsm_context_t * fsm_event_t))
    (ctx : fsm_context_t) : M (option (fsm_context_t * fsm_event_t)) :=
  r ← action ctx; mret (Some (set_current_state s r.1, r.2)).

Definition goto (s : fsm_state_t) (event : fsm_event_t) (ctx : fsm_context_t) :
    M (option (fsm_context_t * fsm_event_t)) := mret (Some (set_current_state s ctx, event)).

(** One iteration of the loop; [None] is [return -1]. *)
Definition fsm_step (ctx : fsm_context_t) (cur_event : fsm_event_t) :
    M (option (fsm_context_t * fsm_event_t)) :=
  match current_state ctx with
  | FSM_STARTING =>
      match cur_event with
      | EVENT_UPDATE => mret (Some (update_context (set_dynamic_servers ctx)))
      | EVENT_KICKOFF => leave FSM_CONFIGURING_DNS_MANAGER fsm_starting_event_kickoff ctx
      | EVENT_RELOAD => mret (Some (ctx, EVENT_NONE))
      | EVENT_STOP => goto FSM_STOPPING EVENT_STOP ctx
      | _ => mret None
      end
  | FSM_CONFIGURING_DNS_MANAGER =>
      match cur_event with
      | EVENT_SUCCESS =>
          leave FSM_SUBMITTING_START_JOB fsm_configuring_dns_manager_event_success ctx
      | EVENT_FAILURE => goto FSM_STOPPING EVENT_STOP ctx
      | _ => mret None
      end
  | FSM_SUBMITTING_START_JOB =>
      match cur_event with
      | EVENT_SUCCESS => goto FSM_WAITING_FOR_START_JOB EVENT_NONE ctx
      | EVENT_FAILURE => goto FSM_STOPPING EVENT_STOP ctx
      | _ => mret None
      end
  | FSM_WAITING_FOR_START_JOB =>
      match cur_event with
      | EVENT_JOB_SUCCESS => enter FSM_SETTING_RESOLV_CONF set_resolv_conf ctx
      | EVENT_JOB_FAILURE => goto FSM_STOPPING EVENT_STOP (set_exit_code EXIT_SERVICE_FAILURE ctx)
      | EVENT_UPDATE => mret (Some (update_context (set_dynamic_servers ctx)))
      | EVENT_RELOAD => enter FSM_CONFIGURING_DNS_MANAGER fsm_starting_event_kickoff ctx
      | EVENT_STOP => enter FSM_SUBMITTING_STOP_JOB submit_stop_job ctx
      | _ => mret None
      end
  | FSM_SETTING_RESOLV_CONF =>
      match cur_event with
      | EVENT_SUCCESS => enter FSM_UPDATING_DNS_MANAGER update_dns_manager ctx
      | EVENT_FAILURE =>
          enter FSM_SUBMITTING_STOP_JOB submit_stop_job (set_exit_code EXIT_RESOLV_CONF_FAILURE ctx)
      | _ => mret None
      end
  | FSM_UPDATING_DNS_MANAGER =>
      match cur_event with
      | EVENT_SUCCESS => goto FSM_RUNNING EVENT_NONE ctx
      | EVENT_FAILURE =>
          enter FSM_REVERTING_RESOLV_CONF revert_action (set_exit_code EXIT_UPDATE_FAILURE ctx)
      | EVENT_RELOAD =>
          emit (ANotify "RELOADING=1");;
          enter FSM_CONFIGURING_DNS_MANAGER fsm_starting_event_kickoff ctx
      | _ => mret None
      end
  | FSM_RUNNING =>
      match cur_event with
      | EVENT_UPDATE =>
          enter FSM_SETTING_RESOLV_CONF set_resolv_conf (update_context (set_dynamic_servers ctx)).1
      | EVENT_RELOAD =>
          emit (ANotify "RELOADING=1");;
          enter FSM_CONFIGURING_DNS_MANAGER fsm_starting_event_kickoff ctx
      | EVENT_STOP => enter FSM_REVERTING_RESOLV_CONF revert_action ctx
      | _ => mret None
      end
  | FSM_REVERTING_RESOLV_CONF =>
      match cur_event with
      | EVENT_FAILURE | EVENT_SUCCESS => enter FSM_SUBMITTING_STOP_JOB submit_stop_job ctx
      | _ => mret None
      end
  | FSM_SUBMITTING_STOP_JOB =>
      match cur_event with
      | EVENT_SUCCESS => goto FSM_WAITING_STOP_JOB EVENT_NONE ctx
      | EVENT_FAILURE => goto FSM_STOPPING EVENT_STOP ctx
      | _ => mret None
      end
  | FSM_WAITING_STOP_JOB =>
      match cur_event with
      | EVENT_JOB_FAILURE | EVENT_JOB_SUCCESS => goto FSM_STOPPING EVENT_STOP ctx
      | EVENT_UPDATE | EVENT_RELOAD | EVENT_STOP => mret (Some (ctx, EVENT_NONE))
      | _ => mret None
      end
  | FSM_STOPPING =>
      match cur_event with
      | EVENT_STOP => emit AQuit;; mret (Some (ctx, EVENT_NONE))
      | _ => mret None
      end
  end.

(** The [do ... while] loop: [None] when the fuel is spent, else the context
    with the value returned. *)
Fixpoint transition_loop (fuel : nat) (ctx : fsm_context_t) (cur_event : fsm_event_t) :
    M (option (fsm_context_t * Z)) :=
  match fuel with
  | 0 => mret None
  | S fuel =>
      r ← fsm_step ctx cur_event;
      match r with
      | None => mret (Some (ctx, -1)%Z)
      | Some (ctx, EVENT_NONE) => mret (Some (ctx, 0%Z))
      | Some (ctx, cur_event) => transition_loop fuel ctx cur_event
      end
  end.

(** Six iterations are enough: see [state_transition_sound]. *)
Definition transition_fuel : nat := 6.

Definition state_transition (ctx : fsm_context_t) (event : fsm_event_t) :
    M (option (fsm_context_t * Z)) := transition_loop transition_fuel ctx event.

(** The callback of the file monitor; the value returned is ignored. *)
Definition on_systemd_job_finished (result : string) (ctx : fsm_context_t) :
    M (option (fsm_context_t * Z)) := state_transition ctx (job_event result).
End Actions.

(** ** Specification *)

(** What each state relies on. *)
Definition needs_table (s : fsm_state_t) : bool :=
  match s with FSM_STARTING | FSM_STOPPING => false | _ => true end.

Definition needs_ca (s : fsm_state_t) : bool :=
  match s with
  | FSM_SUBMITTING_START_JOB | FSM_WAITING_FOR_START_JOB | FSM_SETTING_RESOLV_CONF
  | FSM_UPDATING_DNS_MANAGER | FSM_RUNNING => true
  | _ => false
  end.

Definition needs_backup (s : fsm_state_t) : bool :=
  match s with
  | FSM_UPDATING_DNS_MANAGER | FSM_RUNNING | FSM_REVERTING_RESOLV_CONF => true
  | _ => false
  end.

(** The daemon's record of what it gave the cache is the servers in use of the
    current table, and the serial announced is the one requested last.  It is the
    record: a cache restarted by a reload may hold something else
    ([stale_forwards] of Liveness.v). *)
Definition record_in_sync (ctx : fsm_context_t) : Prop :=
  current_configuration_serial ctx = requested_configuration_serial ctx ∧
  ∃ t, current_domain_to_servers ctx = Some t ∧
    current_unbound_domain_to_servers ctx = Some (used_of (resolution_mode ctx) t).

Record fsm_inv (ctx : fsm_context_t) : Prop := {
  inv_wf : context_wf ctx;
  inv_serial : (0 < requested_configuration_serial ctx < UINT_MOD)%Z;
  inv_table : needs_table (current_state ctx) = true → is_Some (current_domain_to_servers ctx);
  inv_ca : needs_ca (current_state ctx) = true → is_Some (effective_ca ctx);
  inv_backup : needs_backup (current_state ctx) = true → is_Some (resolv_conf_backup ctx)
}.

(** The invariant between two iterations, with the pending event. *)
Record pair_inv (ctx : fsm_context_t) (ev : fsm_event_t) : Prop := {
  pi_inv : fsm_inv ctx;
  pi_running : current_state ctx = FSM_RUNNING → ev = EVENT_NONE → record_in_sync ctx;
  pi_configured : current_state ctx = FSM_CONFIGURING_DNS_MANAGER → ev = EVENT_SUCCESS →
    is_Some (effective_ca ctx);
  pi_resolv : current_state ctx = FSM_SETTING_RESOLV_CONF → ev = EVENT_SUCCESS →
    is_Some (resolv_conf_backup ctx);
  pi_updated : current_state ctx = FSM_UPDATING_DNS_MANAGER → ev = EVENT_SUCCESS → record_in_sync ctx
}.

(** The iterations of the loop, as a graph. *)
Definition micro_next (s : fsm_state_t) (ev : fsm_event_t) : list (fsm_state_t * fsm_event_t) :=
  match s, ev with
  | FSM_STARTING, (EVENT_UPDATE | EVENT_RELOAD) => [(FSM_STARTING, EVENT_NONE)]
  | FSM_STARTING, EVENT_KICKOFF | FSM_WAITING_FOR_START_JOB, EVENT_RELOAD
  | FSM_RUNNING, EVENT_RELOAD | FSM_UPDATING_DNS_MANAGER, EVENT_RELOAD =>
      [(FSM_CONFIGURING_DNS_MANAGER, EVENT_SUCCESS); (FSM_CONFIGURING_DNS_MANAGER, EVENT_FAILURE)]
  | FSM_CONFIGURING_DNS_MANAGER, EVENT_SUCCESS =>
      [(FSM_SUBMITTING_START_JOB, EVENT_SUCCESS); (FSM_SUBMITTING_START_JOB, EVENT_FAILURE)]
  | FSM_SUBMITTING_START_JOB, EVENT_SUCCESS => [(FSM_WAITING_FOR_START_JOB, EVENT_NONE)]
  | FSM_STARTING, EVENT_STOP | FSM_CONFIGURING_DNS_MANAGER, EVENT_FAILURE
  | FSM_SUBMITTING_START_JOB, EVENT_FAILURE | FSM_WAITING_FOR_START_JOB, EVENT_JOB_FAILURE
  | FSM_SUBMITTING_STOP_JOB, EVENT_FAILURE
  | FSM_WAITING_STOP_JOB, (EVENT_JOB_SUCCESS | EVENT_JOB_FAILURE) => [(FSM_STOPPING, EVENT_STOP)]
  | FSM_WAITING_FOR_START_JOB, EVENT_UPDATE => [(FSM_WAITING_FOR_START_JOB, EVENT_NONE)]
  | FSM_WAITING_FOR_START_JOB, EVENT_JOB_SUCCESS | FSM_RUNNING, EVENT_UPDATE =>
      [(FSM_SETTING_RESOLV_CONF, EVENT_SUCCESS); (FSM_SETTING_RESOLV_CONF, EVENT_FAILURE)]
  | FSM_SETTING_RESOLV_CONF, EVENT_SUCCESS =>
      [(FSM_UPDATING_DNS_MANAGER, EVENT_SUCCESS); (FSM_UPDATING_DNS_MANAGER, EVENT_RELOAD);
       (FSM_UPDATING_DNS_MANAGER, EVENT_FAILURE)]
  | FSM_UPDATING_DNS_MANAGER, EVENT_SUCCESS => [(FSM_RUNNING, EVENT_NONE)]
  | FSM_UPDATING_DNS_MANAGER, EVENT_FAILURE | FSM_RUNNING, EVENT_STOP =>
      [(FSM_REVERTING_RESOLV_CONF, EVENT_SUCCESS); (FSM_REVERTING_RESOLV_CONF, EVENT_FAILURE)]
  | FSM_WAITING_FOR_START_JOB, EVENT_STOP | FSM_SETTING_RESOLV_CONF, EVENT_FAILURE
  | FSM_REVERTING_RESOLV_CONF, (EVENT_SUCCESS | EVENT_FAILURE) =>
      [(FSM_SUBMITTING_STOP_JOB, EVENT_SUCCESS); (FSM_SUBMITTING_STOP_JOB, EVENT_FAILURE)]
  | FSM_SUBMITTING_STOP_JOB, EVENT_SUCCESS => [(FSM_WAITING_STOP_JOB, EVENT_NONE)]
  | FSM_WAITING_STOP_JOB, (EVENT_UPDATE | EVENT_RELOAD | EVENT_STOP) =>
      [(FSM_WAITING_STOP_JOB, EVENT_NONE)]
  | FSM_STOPPING, EVENT_STOP => [(FSM_STOPPING, EVENT_NONE)]
  | _, _ => []
  end.

(** The states the loop can sleep in within [fuel] iterations. *)
Fixpoint sleeps_in (fuel : nat) (s : fsm_state_t) (ev : fsm_event_t) : list fsm_state_t :=
  match fuel with
  | 0 => []
  | S fuel =>
      '(s', ev') ← micro_next s ev;
      if decide (ev' = EVENT_NONE) then [s'] else sleeps_in fuel s' ev'
  end.

(** The iterations left from a state, at most. *)
Definition rank (s : fsm_state_t) : nat :=
  match s with
  | FSM_STOPPING => 1
  | FSM_SUBMITTING_START_JOB | FSM_SUBMITTING_STOP_JOB => 2
  | FSM_CONFIGURING_DNS_MANAGER | FSM_REVERTING_RESOLV_CONF => 3
  | FSM_UPDATING_DNS_MANAGER => 4
  | FSM_SETTING_RESOLV_CONF => 5
  | _ => 6
  end.

(** The states the daemon sleeps in, and its life as a graph on them: where an
    event can take it; no successor means the event is not expected. *)
Definition resting (s : fsm_state_t) : bool :=
  match s with
  | FSM_STARTING | FSM_WAITING_FOR_START_JOB | FSM_RUNNING | FSM_WAITING_STOP_JOB
  | FSM_STOPPING => true
  | _ => false
  end.

Definition life_next (s : fsm_state_t) (ev : fsm_event_t) : list fsm_state_t :=
  match s, ev with
  | FSM_STARTING, (EVENT_UPDATE | EVENT_RELOAD) => [FSM_STARTING]
  | FSM_STARTING, EVENT_KICKOFF | FSM_WAITING_FOR_START_JOB, EVENT_RELOAD
  | FSM_RUNNING, EVENT_RELOAD => [FSM_WAITING_FOR_START_JOB; FSM_STOPPING]
  | FSM_STARTING, EVENT_STOP | FSM_STOPPING, EVENT_STOP => [FSM_STOPPING]
  | FSM_WAITING_FOR_START_JOB, EVENT_UPDATE => [FSM_WAITING_FOR_START_JOB]
  | FSM_WAITING_FOR_START_JOB, EVENT_JOB_SUCCESS | FSM_RUNNING, EVENT_UPDATE =>
      [FSM_RUNNING; FSM_WAITING_FOR_START_JOB; FSM_WAITING_STOP_JOB; FSM_STOPPING]
  | FSM_WAITING_FOR_START_JOB, EVENT_JOB_FAILURE => [FSM_STOPPING]
  | FSM_WAITING_FOR_START_JOB, EVENT_STOP | FSM_RUNNING, EVENT_STOP =>
      [FSM_WAITING_STOP_JOB; FSM_STOPPING]
  | FSM_WAITING_STOP_JOB, (EVENT_UPDATE | EVENT_RELOAD | EVENT_STOP) => [FSM_WAITING_STOP_JOB]
  | FSM_WAITING_STOP_JOB, (EVENT_JOB_SUCCESS | EVENT_JOB_FAILURE) => [FSM_STOPPING]
  | _, _ => []
  end.

(** The files the daemon manages. *)
Definition managed (ctx : fsm_context_t) (q : string) : Prop :=
  q = unbound_conf_path ∨ q = STATUS_FILE ∨ q = CONTROL_FILE
  ∨ resolv_conf_path (config ctx) = Some q.

(** The dynamic servers an event makes current: those of an update. *)
Definition adopt (ctx : fsm_context_t) (ev : fsm_event_t) : fsm_context_t :=
  match ev with
  | EVENT_UPDATE =>
      match current_state ctx with
      | FSM_STARTING | FSM_WAITING_FOR_START_JOB | FSM_RUNNING => set_dynamic_servers ctx
      | _ => ctx
      end
  | _ => ctx
  end.

(** What no transition changes: the configuration, the mode, the dynamic
    servers (but for an update), a backup once taken, an exit code once set, the
    files the daemon does not manage; an exit code it sets is one of three. *)
Record evolves (ctx : fsm_context_t) (w : world) (ctx' : fsm_context_t) (w' : world) : Prop := {
  evo_config : config ctx' = config ctx;
  evo_mode : resolution_mode ctx' = resolution_mode ctx;
  evo_servers : current_dynamic_servers ctx' = current_dynamic_servers ctx;
  evo_backup b : resolv_conf_backup ctx = Some b → resolv_conf_backup ctx' = Some b;
  evo_exit : exit_code ctx ≠ 0%Z → exit_code ctx' = exit_code ctx;
  evo_exit_new : exit_code ctx' ≠ exit_code ctx →
    exit_code ctx' ∈ exit_code_value <$> [EXIT_SERVICE_FAILURE; EXIT_RESOLV_CONF_FAILURE;
                                          EXIT_UPDATE_FAILURE];
  evo_files q : ¬ managed ctx q → w_files w' !! q = w_files w !! q
}.

(** ** Proofs: the graph *)

Lemma micro_next_good s ev s' ev' :
  (s', ev') ∈ micro_next s ev →
  (ev' = EVENT_NONE ∧ resting s' = true) ∨
  (ev' ≠ EVENT_NONE ∧ rank s' < rank s ∧ micro_next s' ev' ≠ []).
Proof.
  assert (HF : Forall (λ p, (p.2 = EVENT_NONE ∧ resting p.1 = true) ∨
    (p.2 ≠ EVENT_NONE ∧ rank p.1 < rank s ∧ micro_next p.1 p.2 ≠ [])) (micro_next s ev)).
  { apply (bool_decide_unpack _). by destruct s, ev; vm_compute. }
  rewrite Forall_forall in HF. apply HF.
Qed.

Lemma sleeps_in_life s ev s' :
  resting s = true → s' ∈ sleeps_in transition_fuel s ev → s' ∈ life_next s ev.
Proof.
  intros Hs. assert (forallb (λ x, bool_decide (x ∈ life_next s ev))
    (sleeps_in transition_fuel s ev) = true) as HF.
  { destruct s; try done; destruct ev; by vm_compute. }
  intros Hin. rewrite forallb_forall in HF. apply list_elem_of_In, HF in Hin.
  by apply bool_decide_eq_true in Hin.
Qed.

Lemma life_next_nil s ev : resting s = true → life_next s ev = [] ↔ micro_next s ev = [].
Proof. destruct s; try done; intros _; destruct ev; done. Qed.

Lemma sleeps_in_resting fuel s ev s' : s' ∈ sleeps_in fuel s ev → resting s' = true.
Proof.
  revert s ev. induction fuel as [|fuel IH]; intros s ev; simpl; [by intros ?%not_elem_of_nil|].
  rewrite list_elem_of_bind. intros ([s1 ev1] & Hs' & Hin).
  case_decide as E; [|by eapply IH]. apply list_elem_of_singleton in Hs' as ->.
  apply micro_next_good in Hin as [[_ ?]|[? _]]; done.
Qed.

(** ** Proofs: serials *)

Lemma next_serial_spec x :
  (0 < x < UINT_MOD)%Z → next_serial x = (1 + x mod (UINT_MOD - 1))%Z.
Proof.
  unfold next_serial, uint_wrap, UINT_MOD. intros Hx.
  destruct (decide (x = 4294967295)%Z) as [->|Hne]; [reflexivity|].
  rewrite (Z.mod_small (x + 1)) by lia. destruct (Z.eqb_spec (x + 1) 0); [lia|].
  rewrite !Z.mod_small by lia. lia.
Qed.

Lemma next_serial_range x : (0 < x < UINT_MOD → 0 < next_serial x < UINT_MOD)%Z.
Proof.
  intros Hx. rewrite next_serial_spec by done. unfold UINT_MOD.
  pose proof (Z.mod_pos_bound x (4294967296 - 1)). lia.
Qed.

(** C40: the requested serial after [n] refreshes of the context, counted from
    the initial 1: it is never 0, changes with every refresh, and first repeats
    after 2^32 - 1 of them. *)
Theorem serial_after (n : nat) :
  Nat.iter n next_serial 1%Z = (1 + Z.of_nat n mod (UINT_MOD - 1))%Z ∧
  next_serial (Nat.iter n next_serial 1%Z) ≠ Nat.iter n next_serial 1%Z.
Proof.
  assert (Hb : ∀ z, (0 < 1 + z mod (UINT_MOD - 1) < UINT_MOD)%Z).
  { intros z. pose proof (Z.mod_pos_bound z (UINT_MOD - 1)). unfold UINT_MOD in *. lia. }
  assert (Hn : Nat.iter n next_serial 1%Z = (1 + Z.of_nat n mod (UINT_MOD - 1))%Z).
  { induction n as [|n IH]; [reflexivity|]. simpl. rewrite IH, next_serial_spec by apply Hb.
    rewrite Zplus_mod_idemp_r. do 2 f_equal. lia. }
  split; [done|]. rewrite Hn, next_serial_spec by apply Hb. rewrite Zplus_mod_idemp_r.
  pose proof (Z.mod_pos_bound (Z.of_nat n) (UINT_MOD - 1)) as Hr. specialize (Hr ltac:(done)).
  set (r := (Z.of_nat n mod (UINT_MOD - 1))%Z) in *.
  replace ((1 + Z.of_nat n) mod (UINT_MOD - 1))%Z with ((1 + r) mod (UINT_MOD - 1))%Z
    by (unfold r; by rewrite Zplus_mod_idemp_r).
  destruct (decide (r = UINT_MOD - 2)%Z) as [->|].
  - unfold UINT_MOD. done.
  - rewrite Z.mod_small; unfold UINT_MOD in *; lia.
Qed.

(** ** Proofs: the actions *)

Section ActionProofs.
Context `{InetLaws} `{GListSortLaws} `{IntOverflow} (e : env).

Definition refreshed (ctx : fsm_context_t) : fsm_context_t := (update_context ctx).1.

Lemma refreshed_wf ctx : context_wf ctx → context_wf (refreshed ctx).
Proof.
  intros [Hc Hcur Hnew Hall Ht Hu].
  split; simpl; try done; [by apply Forall_app; split; [apply Hc|]|]. intros t Et.
  destruct (server_list_to_hash_table_wf (static_servers (config ctx) ++ current_dynamic_servers ctx))
    as (t' & Et' & Hwf); [apply Forall_app; split; [apply Hc|done]|].
  rewrite Et' in Et. by simplify_eq.
Qed.

Lemma refreshed_table ctx : context_wf ctx → is_Some (current_domain_to_servers (refreshed ctx)).
Proof.
  intros [Hc Hcur Hnew Hall Ht Hu]. simpl.
  destruct (server_list_to_hash_table_wf (static_servers (config ctx) ++ current_dynamic_servers ctx))
    as (t' & Et' & _); [apply Forall_app; split; [apply Hc|done]|]. eauto.
Qed.

Lemma set_dynamic_servers_wf ctx : context_wf ctx → context_wf (set_dynamic_servers ctx).
Proof. intros [? ? ? ? ? ?]. split; simpl; try done; constructor. Qed.

Lemma set_fields_wf ctx ctx' :
  context_wf ctx → config ctx' = config ctx →
  current_dynamic_servers ctx' = current_dynamic_servers ctx →
  new_dynamic_servers ctx' = new_dynamic_servers ctx →
  all_servers ctx' = all_servers ctx →
  current_domain_to_servers ctx' = current_domain_to_servers ctx →
  current_unbound_domain_to_servers ctx' = current_unbound_domain_to_servers ctx →
  context_wf ctx'.
Proof.
  intros [? ? ? ? ? ?] E1 E2 E3 E4 E5 E6. split; by rewrite ?E1, ?E2, ?E3, ?E4, ?E5, ?E6.
Qed.

Lemma wp_kickoff ctx w :
  context_wf ctx →
  wp (fsm_starting_event_kickoff ctx) e w (λ r w',
    ∃ ca sm, r.1 = set_effective_ca ca (set_service_ctx sm (refreshed ctx)) ∧
      (∀ q, q ≠ unbound_conf_path → w_files w' !! q = w_files w !! q) ∧ w_trace w' = w_trace w ∧
      (r.2 = EVENT_SUCCESS ∧ is_Some ca ∨ r.2 = EVENT_FAILURE) ∧
      (reliable e → ca_available e (config ctx) → r.2 = EVENT_SUCCESS) ∧
      (r.2 = EVENT_SUCCESS → ∃ c, ca = Some c ∧ conf_written (refreshed ctx) c w')).
Proof.
  intros Hwf. unfold fsm_starting_event_kickoff. rewrite (surjective_pairing (update_context ctx)).
  change (update_context ctx).1 with (refreshed ctx). cbv beta iota.
  eapply wp_seq; [apply wp_subscribe|].
  cbv beta. intros [sm ok] w1 ([F1 _ T1] & _ & _ & R1). cbn [fst snd] in *.
  destruct ok; cbn [negb].
  - eapply wp_seq.
    { apply write_configuration_post. eapply set_fields_wf; [by apply refreshed_wf|..]; done. }
    cbv beta. intros [ctx' st] w2 (F2 & T2 & Hst). cbn [fst snd] in *.
    assert (∀ q, q ≠ unbound_conf_path → w_files w2 !! q = w_files w !! q)
      by (intros q Hq; by rewrite F2, F1).
    destruct st; apply wp_ret; cbn [fst snd].
    + destruct Hst as (ca & -> & Hw). exists (Some ca), sm.
      do 2 (split; [done|]). split; [congruence|]. split; [left; by eauto|]. split; [done|].
      intros _. by exists ca.
    + destruct Hst as [Hctx Hrel].
      assert (∃ ca, ctx' = set_effective_ca ca (set_service_ctx sm (refreshed ctx))) as [ca ->].
      { destruct Hctx as [->|[ca ->]]; [|by eexists]. exists (effective_ca ctx). done. }
      exists ca, sm. do 2 (split; [done|]). split; [congruence|]. split; [by right|].
      split; [|done]. intros Hr Hca. by destruct Hrel.
  - apply wp_ret. exists (effective_ca ctx), sm. cbn [fst snd]. split; [done|].
    split; [intros; congruence|]. split; [congruence|]. split; [by right|].
    split; [|done]. intros Hr. by apply R1 in Hr.
Qed.

(** A job is requested: only the service context and the two files change. *)
Definition job_post (ctx : fsm_context_t) (w : world) (expected command : string)
    (r : fsm_context_t * fsm_event_t) (w' : world) : Prop :=
  (∃ sm, r.1 = set_service_ctx sm ctx ∧ sm_expected_status sm = Some expected) ∧
  (∀ q, q ≠ STATUS_FILE → q ≠ CONTROL_FILE → w_files w' !! q = w_files w !! q) ∧
  w_trace w' = w_trace w ∧
  (r.2 = EVENT_SUCCESS ∧ w_files w' !! STATUS_FILE = Some "pending"
     ∧ w_files w' !! CONTROL_FILE = Some command ∨ r.2 = EVENT_FAILURE) ∧
  (reliable e → r.2 = EVENT_SUCCESS).

Lemma wp_job ctx w expected command :
  wp (r ← set_service_status (service_management_ctx ctx) expected command;
      mret (set_service_ctx r.1 ctx, if r.2 : bool then EVENT_SUCCESS else EVENT_FAILURE)) e w
    (job_post ctx w expected command).
Proof.
  eapply wp_seq; [apply wp_set_service_status|]. cbv beta.
  intros [sm ok] w1 (F & T & Hsm & Hok & Hrel). simpl in Hsm, Hok, Hrel. subst sm.
  apply wp_ret. split; [by eexists|]. split; [done|]. split; [done|]. simpl. destruct ok.
  - split; [left; by destruct (Hok eq_refl)|done].
  - split; [by right|]. intros Hr. by apply Hrel in Hr.
Qed.

Lemma wp_set_resolv_conf ctx t w :
  context_wf ctx → current_domain_to_servers ctx = Some t →
  wp (set_resolv_conf ctx) e w (λ r w',
    (∃ b, r.1 = set_backup b ctx ∧ (∀ b0, resolv_conf_backup ctx = Some b0 → b = Some b0) ∧
      (r.2 = EVENT_SUCCESS → is_Some b)) ∧
    (r.2 = EVENT_SUCCESS ∨ r.2 = EVENT_FAILURE) ∧
    (∀ q, resolv_conf_path (config ctx) ≠ Some q → w_files w' !! q = w_files w !! q) ∧
    w_trace w' = w_trace w).
Proof.
  intros Hwf Ht. destruct (cw_resolv_conf _ (xw_config _ Hwf)) as [path Hpath].
  unfold set_resolv_conf. rewrite Ht.
  eapply wp_seq; [apply (wp_write_resolv_conf _ _ _ _ _ path);
    [apply Hwf|by eapply xw_table|done]|].
  cbv beta. intros [b st] w1 (F & T & Hb1 & _ & _ & Hst). simpl in *. apply wp_ret. simpl.
  split; [|split; [|split]].
  - exists b. split; [done|]. split; [done|]. destruct st; [|done]. intros _. apply Hst.
  - destruct st; auto.
  - intros q Hq. apply F. congruence.
  - done.
Qed.

Lemma wp_revert_action ctx w :
  context_wf ctx → is_Some (resolv_conf_backup ctx) →
  wp (revert_action ctx) e w (λ r w',
    r.1 = ctx ∧ (r.2 = EVENT_SUCCESS ∨ r.2 = EVENT_FAILURE) ∧
    (∀ q, resolv_conf_path (config ctx) ≠ Some q → w_files w' !! q = w_files w !! q) ∧
    w_trace w' = w_trace w ∧
    (reliable e → ∀ path, resolv_conf_path (config ctx) = Some path →
      w_files w' !! path = resolv_conf_backup ctx)).
Proof.
  intros Hwf [b Hb]. destruct (cw_resolv_conf _ (xw_config _ Hwf)) as [path Hpath].
  unfold revert_action. eapply wp_seq; [by apply wp_revert_resolv_conf|].
  cbv beta. intros ok w1 (F & T & Hok & Hrel). apply wp_ret. simpl.
  split; [done|]. split; [destruct ok; auto|]. split; [intros q Hq; apply F; congruence|].
  split; [done|]. intros Hr p Hp. simplify_eq. rewrite Hb. by apply Hok, Hrel.
Qed.

Lemma wp_update_dns_manager ctx t w :
  context_wf ctx → current_domain_to_servers ctx = Some t → is_Some (effective_ca ctx) →
  wp (update_dns_manager ctx) e w (λ r w',
    w_files w' = w_files w ∧
    (r.2 = EVENT_SUCCESS ∧ record_in_sync r.1 ∧
       r.1 = set_serials (requested_configuration_serial ctx) (requested_configuration_serial ctx)
               (set_unbound_table (Some (used_of (resolution_mode ctx) t)) ctx)
     ∨ r.1 = ctx ∧ (r.2 = EVENT_RELOAD ∨ r.2 = EVENT_FAILURE))).
Proof.
  intros Hwf Ht Hca. unfold update_dns_manager. eapply wp_seq; [by eapply wp_update|].
  cbv beta. intros r w1 (F & acts & T & Hr). destruct r as [t'| |].
  - destruct Hr as [-> _]. wp_first wp_emit. intros _ w2 [F2 T2].
    unfold emit_configuration_serial_signal. wp_first wp_emit. intros _ w3 [F3 T3].
    apply wp_ret. split; [congruence|]. left. simpl. split; [done|]. split; [|done].
    split; [done|]. simpl. eauto.
  - apply wp_ret. split; [done|]. right. auto.
  - apply wp_ret. split; [done|]. right. auto.
Qed.
End ActionProofs.

(** ** Proofs: one iteration *)

Section StepProofs.
Context `{InetLaws} `{GListSortLaws} `{IntOverflow} (e : env).

Definition step_post (ctx : fsm_context_t) (ev : fsm_event_t) (w : world)
    (r : option (fsm_context_t * fsm_event_t)) (w' : world) : Prop :=
  match r with
  | None => micro_next (current_state ctx) ev = [] ∧ w' = w
  | Some (ctx', ev') =>
      (current_state ctx', ev') ∈ micro_next (current_state ctx) ev ∧ pair_inv ctx' ev'
      ∧ evolves (adopt ctx ev) w ctx' w'
  end.

Lemma evolves_refl ctx w : evolves ctx w ctx w.
Proof. by split. Qed.

Lemma evolves_trans c1 w1 c2 w2 c3 w3 :
  evolves c1 w1 c2 w2 → evolves c2 w2 c3 w3 → evolves c1 w1 c3 w3.
Proof.
  intros [C1 M1 D1 B1 E1 N1 F1] [C2 M2 D2 B2 E2 N2 F2]. split; try congruence; auto.
  - intros Hx. rewrite E2, E1; auto. by rewrite E1.
  - intros Hx. destruct (decide (exit_code c3 = exit_code c2)) as [E|E]; [rewrite E in *|]; auto.
  - intros q Hq. rewrite F2, F1; auto. unfold managed. by rewrite C1.
Qed.

(** The fields the relation looks at, and the files written. *)
Lemma evolves_intro ctx w ctx' w' :
  config ctx' = config ctx → resolution_mode ctx' = resolution_mode ctx →
  current_dynamic_servers ctx' = current_dynamic_servers ctx →
  (∀ b, resolv_conf_backup ctx = Some b → resolv_conf_backup ctx' = Some b) →
  (exit_code ctx ≠ 0%Z → exit_code ctx' = exit_code ctx) →
  (exit_code ctx' ≠ exit_code ctx →
    exit_code ctx' ∈ exit_code_value <$> [EXIT_SERVICE_FAILURE; EXIT_RESOLV_CONF_FAILURE;
                                          EXIT_UPDATE_FAILURE]) →
  (∀ q, q ≠ unbound_conf_path → q ≠ STATUS_FILE → q ≠ CONTROL_FILE →
        resolv_conf_path (config ctx) ≠ Some q → w_files w' !! q = w_files w !! q) →
  evolves ctx w ctx' w'.
Proof. intros ? ? ? ? ? ? Hf. split; try done. intros q Hq. unfold managed in Hq. apply Hf; tauto. Qed.

Lemma set_exit_code_keep code ctx : exit_code ctx ≠ 0%Z → exit_code (set_exit_code code ctx) = exit_code ctx.
Proof. intros ?. unfold set_exit_code. destruct (Z.eqb_spec (exit_code ctx) 0); done. Qed.

(** Setting the exit code changes nothing else. *)
Lemma set_exit_code_cases code ctx :
  set_exit_code code ctx = ctx ∨ exit_code ctx = 0%Z ∧
    set_exit_code code ctx = put_exit_code (exit_code_value code) ctx.
Proof. unfold set_exit_code. destruct (Z.eqb_spec (exit_code ctx) 0); auto. Qed.

Lemma fsm_inv_exit code ctx : fsm_inv ctx → fsm_inv (set_exit_code code ctx).
Proof.
  intros Hi. destruct (set_exit_code_cases code ctx) as [->|[_ ->]]; [done|].
  destruct Hi as [Hwf Hs Ht Hc Hb]. split; try done.
  by eapply set_fields_wf.
Qed.

Lemma evolves_exit code ctx w :
  code ∈ [EXIT_SERVICE_FAILURE; EXIT_RESOLV_CONF_FAILURE; EXIT_UPDATE_FAILURE] →
  evolves ctx w (set_exit_code code ctx) w.
Proof.
  intros Hc. destruct (set_exit_code_cases code ctx) as [->|[E ->]]; [apply evolves_refl|].
  apply evolves_intro; try done. intros _. change (exit_code_value code ∈ exit_code_value <$>
    [EXIT_SERVICE_FAILURE; EXIT_RESOLV_CONF_FAILURE; EXIT_UPDATE_FAILURE]).
  by apply list_elem_of_fmap_2.
Qed.

(** Moving to a state with an event, nothing else. *)
Lemma pair_inv_goto ctx s ev :
  fsm_inv ctx →
  (needs_table s = true → is_Some (current_domain_to_servers ctx)) →
  (needs_ca s = true → is_Some (effective_ca ctx)) →
  (needs_backup s = true → is_Some (resolv_conf_backup ctx)) →
  (s = FSM_RUNNING → ev = EVENT_NONE → record_in_sync ctx) →
  (s = FSM_CONFIGURING_DNS_MANAGER → ev = EVENT_SUCCESS → is_Some (effective_ca ctx)) →
  (s = FSM_SETTING_RESOLV_CONF → ev = EVENT_SUCCESS → is_Some (resolv_conf_backup ctx)) →
  (s = FSM_UPDATING_DNS_MANAGER → ev = EVENT_SUCCESS → record_in_sync ctx) →
  pair_inv (set_current_state s ctx) ev.
Proof.
  intros [Hwf Hs _ _ _] ? ? ? ? ? ? ?. split; [split|..]; try done.
  by eapply set_fields_wf.
Qed.

Lemma fsm_inv_refreshed ctx :
  fsm_inv ctx → fsm_inv (refreshed ctx).
Proof.
  intros [Hwf Hs Ht Hc Hb]. split; try done.
  - by apply refreshed_wf.
  - by apply next_serial_range.
  - intros _. by apply refreshed_table.
Qed.

Lemma set_current_state_id s ctx : current_state ctx = s → set_current_state s ctx = ctx.
Proof. intros <-. by destruct ctx. Qed.

(** The kickoff, whether the state is set before or after it. *)
Lemma step_kickoff ctx w :
  context_wf ctx → (0 < requested_configuration_serial ctx < UINT_MOD)%Z →
  wp (fsm_starting_event_kickoff ctx) e w (λ r w',
    (r.2 = EVENT_SUCCESS ∨ r.2 = EVENT_FAILURE) ∧
    pair_inv (set_current_state FSM_CONFIGURING_DNS_MANAGER r.1) r.2 ∧
    evolves ctx w (set_current_state FSM_CONFIGURING_DNS_MANAGER r.1) w' ∧
    current_state r.1 = current_state ctx).
Proof.
  intros Hwf Hs. eapply wp_mono; [by apply wp_kickoff|].
  intros [ctx' ev] w' (ca & sm & Hctx & F & T & Hev & _). cbn [fst snd] in *. subst ctx'.
  split; [tauto|]. split; [|split; [|done]].
  - split; [split|..]; try done; simpl.
    + eapply set_fields_wf; [by apply refreshed_wf|..]; done.
    + by apply next_serial_range.
    + intros _. by apply refreshed_table.
    + intros _ ->. by destruct Hev as [[_ ?]|?].
  - by apply evolves_intro; auto.
Qed.

Lemma enter_kickoff ctx w ev0 :
  fsm_inv ctx → adopt ctx ev0 = ctx →
  micro_next (current_state ctx) ev0
    = [(FSM_CONFIGURING_DNS_MANAGER, EVENT_SUCCESS); (FSM_CONFIGURING_DNS_MANAGER, EVENT_FAILURE)] →
  wp (enter FSM_CONFIGURING_DNS_MANAGER fsm_starting_event_kickoff ctx) e w (step_post ctx ev0 w).
Proof.
  intros [Hwf Hs _ _ _] Had Hn. unfold enter. eapply wp_seq.
  { apply step_kickoff; [by eapply set_fields_wf|done]. }
  cbv beta. intros [ctx' ev] w1 (Hev & Hp & Hevo & Hst). cbn [fst snd] in *.
  change (current_state ctx' = FSM_CONFIGURING_DNS_MANAGER) in Hst.
  rewrite (set_current_state_id _ _ Hst) in Hp, Hevo.
  apply wp_ret. unfold step_post. rewrite Hst, Hn, Had.
  split; [destruct Hev as [->| ->]; set_solver|]. split; [done|]. by destruct Hevo.
Qed.

Lemma leave_kickoff ctx w ev0 :
  fsm_inv ctx → adopt ctx ev0 = ctx →
  micro_next (current_state ctx) ev0
    = [(FSM_CONFIGURING_DNS_MANAGER, EVENT_SUCCESS); (FSM_CONFIGURING_DNS_MANAGER, EVENT_FAILURE)] →
  wp (leave FSM_CONFIGURING_DNS_MANAGER fsm_starting_event_kickoff ctx) e w (step_post ctx ev0 w).
Proof.
  intros [Hwf Hs _ _ _] Had Hn. unfold leave. eapply wp_seq; [by apply step_kickoff|].
  cbv beta. intros [ctx' ev] w1 (Hev & Hp & Hevo & Hst). cbn [fst snd] in *.
  apply wp_ret. unfold step_post. rewrite Hn, Had. cbn [current_state set_current_state].
  split; [destruct Hev as [->| ->]; set_solver|]. done.
Qed.

(** Requesting a job and entering the state after it. *)
Lemma enter_job ctx c0 s expected command w ev0 action :
  fsm_inv ctx → evolves (adopt c0 ev0) w ctx w →
  (∀ c, action c = (r ← set_service_status (service_management_ctx c) expected command;
     mret (set_service_ctx r.1 c, if r.2 : bool then EVENT_SUCCESS else EVENT_FAILURE))) →
  s = FSM_SUBMITTING_STOP_JOB ∨ s = FSM_SUBMITTING_START_JOB ∧ is_Some (effective_ca ctx) →
  is_Some (current_domain_to_servers ctx) →
  micro_next (current_state c0) ev0 = [(s, EVENT_SUCCESS); (s, EVENT_FAILURE)] →
  wp (enter s action ctx) e w (step_post c0 ev0 w) ∧
  wp (leave s action ctx) e w (step_post c0 ev0 w).
Proof.
  intros [Hwf Hs Ht Hc Hb] Hevo Hact Hstate Htab Hn.
  assert (Hpost : ∀ sm w' ev, (ev = EVENT_SUCCESS ∨ ev = EVENT_FAILURE) →
    (∀ q, q ≠ STATUS_FILE → q ≠ CONTROL_FILE → w_files w' !! q = w_files w !! q) →
    step_post c0 ev0 w (Some (set_service_ctx sm (set_current_state s ctx), ev)) w').
  { intros sm w' ev Hev F. unfold step_post. rewrite Hn. cbn [current_state set_service_ctx
      set_current_state]. split; [destruct Hev as [->| ->]; set_solver|]. split.
    - split; [split|..]; simpl; try done; try (destruct Hstate as [->|[-> ?]]; done).
      by eapply set_fields_wf.
    - eapply evolves_trans; [exact Hevo|]. by apply evolves_intro; auto. }
  split; [unfold enter|unfold leave]; rewrite Hact; (eapply wp_seq; [apply wp_job|]); cbv beta.
  all: intros [ctx' ev] w1 ((sm & Hctx & _) & F & _ & Hev & _); cbn [fst snd] in *; subst ctx';
    apply wp_ret; apply Hpost; tauto.
Qed.

Lemma enter_set_resolv_conf ctx w ev0 c0 :
  context_wf ctx → (0 < requested_configuration_serial ctx < UINT_MOD)%Z →
  is_Some (effective_ca ctx) → is_Some (current_domain_to_servers ctx) →
  evolves (adopt c0 ev0) w ctx w →
  micro_next (current_state c0) ev0
    = [(FSM_SETTING_RESOLV_CONF, EVENT_SUCCESS); (FSM_SETTING_RESOLV_CONF, EVENT_FAILURE)] →
  wp (enter FSM_SETTING_RESOLV_CONF set_resolv_conf ctx) e w (step_post c0 ev0 w).
Proof.
  intros Hwf Hs Hca [t Ht] Hevo Hn. unfold enter. eapply wp_seq.
  { eapply wp_set_resolv_conf; [by eapply (set_fields_wf ctx)|exact Ht]. }
  cbv beta. intros [ctx' ev] w1 ((b & Hctx & Hb & Hbs) & Hev & F & _). cbn [fst snd] in *. subst ctx'.
  apply wp_ret. unfold step_post. rewrite Hn. cbn [current_state set_backup set_current_state].
  split; [destruct Hev as [->| ->]; set_solver|]. split.
  - split; [split|..]; simpl; try done.
    by eapply set_fields_wf.
  - eapply evolves_trans; [exact Hevo|]. by apply evolves_intro; auto.
Qed.

Lemma enter_update_dns_manager ctx w ev0 :
  fsm_inv ctx → current_state ctx = FSM_SETTING_RESOLV_CONF → is_Some (resolv_conf_backup ctx) →
  ev0 = EVENT_SUCCESS →
  wp (enter FSM_UPDATING_DNS_MANAGER update_dns_manager ctx) e w (step_post ctx ev0 w).
Proof.
  intros Hi Hst Hbk ->. pose proof Hi as [Hwf Hs Ht Hc Hb]. rewrite Hst in *.
  destruct (Ht eq_refl) as [t Et]. specialize (Hc eq_refl). unfold enter. eapply wp_seq.
  { eapply wp_update_dns_manager; [by eapply (set_fields_wf ctx)|exact Et|exact Hc]. }
  cbv beta. intros [ctx' ev] w1 [F Hev]. cbn [fst snd] in *. apply wp_ret.
  unfold step_post. rewrite Hst. cbn [micro_next].
  destruct Hev as [(-> & Hsync & ->)|[-> Hev]].
  - split; [simpl; set_solver|]. split.
    + split; [split|..]; simpl; try done.
      * destruct Hwf as [W1 W2 W3 W0 W4 W5]. split; simpl; try done.
        intros t' [= <-]. apply used_of_wf. by apply W4.
    + apply evolves_intro; try done. intros. by rewrite F.
  - split; [simpl; destruct Hev as [->| ->]; set_solver|]. split.
    + apply pair_inv_goto; try done; destruct Hev as [->| ->]; done.
    + apply evolves_intro; try done. intros. by rewrite F.
Qed.

Lemma enter_revert ctx w ev0 c0 :
  fsm_inv ctx → is_Some (resolv_conf_backup ctx) → is_Some (current_domain_to_servers ctx) →
  evolves (adopt c0 ev0) w ctx w →
  micro_next (current_state c0) ev0
    = [(FSM_REVERTING_RESOLV_CONF, EVENT_SUCCESS); (FSM_REVERTING_RESOLV_CONF, EVENT_FAILURE)] →
  wp (enter FSM_REVERTING_RESOLV_CONF revert_action ctx) e w (step_post c0 ev0 w).
Proof.
  intros Hi Hbk Ht Hevo Hn. unfold enter. eapply wp_seq.
  { apply wp_revert_action; [eapply (set_fields_wf ctx); [apply Hi|..]; done|exact Hbk]. }
  cbv beta. intros [ctx' ev] w1 (Hctx & Hev & F & _). cbn [fst snd] in *. subst ctx'.
  apply wp_ret. unfold step_post. rewrite Hn. cbn [current_state set_current_state].
  split; [destruct Hev as [->| ->]; set_solver|]. split; [by apply pair_inv_goto|].
  eapply evolves_trans; [exact Hevo|]. by apply evolves_intro; auto.
Qed.

(** The notification before a kickoff. *)
Lemma emit_enter_kickoff ctx w ev0 s :
  fsm_inv ctx → adopt ctx ev0 = ctx →
  micro_next (current_state ctx) ev0
    = [(FSM_CONFIGURING_DNS_MANAGER, EVENT_SUCCESS); (FSM_CONFIGURING_DNS_MANAGER, EVENT_FAILURE)] →
  wp (emit (ANotify s);; enter FSM_CONFIGURING_DNS_MANAGER fsm_starting_event_kickoff ctx) e w
    (step_post ctx ev0 w).
Proof.
  intros Hi Had Hn. eapply wp_seq; [apply wp_emit|]. cbv beta. intros _ w1 [F _].
  eapply wp_mono; [by apply enter_kickoff|]. intros [[ctx' ev']|] w2; simpl.
  - intros (Hin & Hp & Hevo). split; [done|]. split; [done|].
    eapply evolves_trans; [|exact Hevo]. rewrite Had. apply evolves_intro; try done.
    intros. by rewrite F.
  - intros [Hnil _]. by rewrite Hn in Hnil.
Qed.

Lemma step_update ctx w ev0 :
  fsm_inv ctx → adopt ctx ev0 = set_dynamic_servers ctx → current_state ctx ≠ FSM_RUNNING → current_state ctx ≠ FSM_CONFIGURING_DNS_MANAGER →
  current_state ctx ≠ FSM_SETTING_RESOLV_CONF → current_state ctx ≠ FSM_UPDATING_DNS_MANAGER →
  micro_next (current_state ctx) ev0 = [(current_state ctx, EVENT_NONE)] →
  wp (mret (Some (update_context (set_dynamic_servers ctx)))) e w (step_post ctx ev0 w).
Proof.
  intros Hi Had ? ? ? ? Hn. apply wp_ret. rewrite (surjective_pairing (update_context _)).
  change (update_context (set_dynamic_servers ctx)).1 with (refreshed (set_dynamic_servers ctx)).
  unfold step_post. rewrite Hn, Had. split; [simpl; set_solver|].
  assert (Hi' : fsm_inv (set_dynamic_servers ctx)).
  { destruct Hi as [Hwf Hs Ht Hc Hb]. split; try done. by apply set_dynamic_servers_wf. }
  split; [|by apply evolves_intro]. split; try done. by apply fsm_inv_refreshed.
Qed.

(** A transition that only moves to another state. *)
Lemma step_goto ctx c0 s ev w ev0 :
  (s, ev) ∈ micro_next (current_state c0) ev0 → fsm_inv ctx → evolves (adopt c0 ev0) w ctx w →
  match s with
  | FSM_STOPPING => True
  | FSM_WAITING_FOR_START_JOB =>
      is_Some (effective_ca ctx) ∧ is_Some (current_domain_to_servers ctx)
  | FSM_RUNNING =>
      is_Some (effective_ca ctx) ∧ is_Some (current_domain_to_servers ctx)
      ∧ is_Some (resolv_conf_backup ctx) ∧ record_in_sync ctx
  | FSM_WAITING_STOP_JOB => is_Some (current_domain_to_servers ctx)
  | _ => False
  end →
  wp (goto s ev ctx) e w (step_post c0 ev0 w).
Proof.
  intros Hin Hi Hevo Hs. apply wp_ret. split; [done|]. split.
  - apply pair_inv_goto; [done|..]; destruct s; try done; tauto.
  - eapply evolves_trans; [exact Hevo|]. by apply evolves_intro.
Qed.

(** One iteration keeps the invariant and follows the graph, without a fault;
    [return -1] is taken exactly where the graph has no successor. *)
Lemma wp_fsm_step ctx ev w :
  pair_inv ctx ev → wp (fsm_step ctx ev) e w (step_post ctx ev w).
Proof.
  intros [Hi Hrun Hconf Hres Hupd]. pose proof Hi as [Hwf Hs Ht Hc Hb]. unfold fsm_step.
  assert (Hnone : micro_next (current_state ctx) ev = [] →
    wp (mret None) e w (step_post ctx ev w)) by (intros; by apply wp_ret).
  assert (Hstay : micro_next (current_state ctx) ev = [(current_state ctx, EVENT_NONE)] →
    current_state ctx ≠ FSM_RUNNING → adopt ctx ev = ctx → wp (mret (Some (ctx, EVENT_NONE))) e w (step_post ctx ev w)).
  { intros Hn Hne Had. apply wp_ret. unfold step_post. rewrite Hn, Had. split; [set_solver|].
    split; [|apply evolves_refl]. by split. }
  pose proof (evolves_refl ctx w) as Hevo.
  assert (Hexit : ∀ code, code ∈ [EXIT_SERVICE_FAILURE; EXIT_RESOLV_CONF_FAILURE; EXIT_UPDATE_FAILURE] →
    fsm_inv (set_exit_code code ctx) ∧ evolves ctx w (set_exit_code code ctx) w)
    by (split; [by apply fsm_inv_exit|by apply evolves_exit]).
  assert (Hkeep : ∀ code, effective_ca (set_exit_code code ctx) = effective_ca ctx ∧
    current_domain_to_servers (set_exit_code code ctx) = current_domain_to_servers ctx ∧
    resolv_conf_backup (set_exit_code code ctx) = resolv_conf_backup ctx).
  { intros code. by destruct (set_exit_code_cases code ctx) as [->|[_ ->]]. }
  destruct (current_state ctx) eqn:Est; rewrite <-Est in *.
  all: destruct ev; try (apply Hnone; by rewrite Est); try (apply Hstay; unfold adopt; by rewrite ?Est).
  all: try (apply step_update; [done|unfold adopt; by rewrite Est|rewrite Est; done..]).
  all: try (first [apply leave_kickoff|apply enter_kickoff|apply emit_enter_kickoff];
            [done|done|by rewrite Est]).
  all: rewrite Est in *.
  all: try (eapply step_goto; [rewrite Est; set_solver|done..]).
  all: try (eapply step_goto; [rewrite Est; set_solver|apply Hexit; repeat constructor|apply Hexit; repeat constructor|done]).
  all: try (eapply step_goto; [rewrite Est; set_solver|done|done|by auto]).
  all: try (eapply enter_job; [done|done|done|by auto|by auto|by rewrite Est]).
  all: try (eapply enter_job; [apply Hexit; repeat constructor|apply Hexit; repeat constructor|done|by auto|
              destruct (Hkeep EXIT_RESOLV_CONF_FAILURE) as (_ & -> & _); by auto|by rewrite Est]).
  all: try (apply enter_set_resolv_conf; [done|done|by auto|by auto|done|by rewrite Est]).
  all: try (apply enter_update_dns_manager; by auto).
  all: try (apply enter_revert; [done|by auto|by auto|done|by rewrite Est]).
  all: try (apply enter_revert; [apply Hexit; repeat constructor|destruct (Hkeep EXIT_UPDATE_FAILURE) as (_ & _ & ->);
              by auto|destruct (Hkeep EXIT_UPDATE_FAILURE) as (_ & -> & _); by auto|
              apply Hexit; repeat constructor|by rewrite Est]).
  - (* an update in [RUNNING] *)
    change (update_context (set_dynamic_servers ctx)).1 with (refreshed (set_dynamic_servers ctx)).
    apply enter_set_resolv_conf; [by apply refreshed_wf, set_dynamic_servers_wf|
      by apply next_serial_range|by auto|by apply refreshed_table, set_dynamic_servers_wf|
      unfold adopt; rewrite Est; by apply evolves_intro|by rewrite Est].
  - apply wp_bind. eapply wp_mono; [apply wp_emit|]. intros _ w1 [F _]. apply wp_ret.
    unfold step_post. rewrite Est. split; [set_solver|]. split; [by split; rewrite ?Est|].
    apply evolves_intro; try done. intros. by rewrite F.
Qed.
End StepProofs.


(** ** Proofs: the loop *)

Section LoopProofs.
Context `{InetLaws} `{GListSortLaws} `{IntOverflow} (e : env).

Lemma adopt_none ctx ev : micro_next (current_state ctx) ev = [] → adopt ctx ev = ctx.
Proof. unfold adopt. by destruct ev, (current_state ctx). Qed.

(** No action injects an update. *)
Lemma adopt_micro s ev ctx ev' : (current_state ctx, ev') ∈ micro_next s ev → adopt ctx ev' = ctx.
Proof.
  intros Hin. assert (Forall (λ p, p.2 ≠ EVENT_UPDATE) (micro_next s ev)) as HF.
  { apply (bool_decide_unpack _). by destruct s, ev; vm_compute. }
  rewrite Forall_forall in HF. specialize (HF _ Hin). by destruct ev'.
Qed.

Lemma wp_transition_loop fuel ctx ev w :
  pair_inv ctx ev → rank (current_state ctx) ≤ fuel →
  wp (transition_loop fuel ctx ev) e w (λ r w', ∃ ctx' code, r = Some (ctx', code) ∧
    evolves (adopt ctx ev) w ctx' w' ∧
    (code = (-1)%Z ∧ ctx' = ctx ∧ w' = w ∧ micro_next (current_state ctx) ev = [] ∨
     code = 0%Z ∧ fsm_inv ctx' ∧ (current_state ctx' = FSM_RUNNING → record_in_sync ctx') ∧
     current_state ctx' ∈ sleeps_in fuel (current_state ctx) ev)).
Proof.
  revert ctx ev w. induction fuel as [|fuel IH]; intros ctx ev w Hp Hrank.
  { destruct (current_state ctx); simpl in Hrank; lia. }
  cbn [transition_loop]. eapply wp_seq; [by apply wp_fsm_step|]. cbv beta.
  intros [[ctx1 ev1]|] w1; cbn [step_post].
  2: { intros [Hn ->]. apply wp_ret. exists ctx, (-1)%Z. split; [done|].
       split; [|by left]. rewrite adopt_none by done. apply evolves_refl. }
  intros (Hin & Hp1 & Hevo1). pose proof (micro_next_good _ _ _ _ Hin) as Hgood.
  assert (Hsl : ∀ s', (if decide (ev1 = EVENT_NONE) then s' = current_state ctx1
                       else s' ∈ sleeps_in fuel (current_state ctx1) ev1) →
    s' ∈ sleeps_in (S fuel) (current_state ctx) ev).
  { intros s' Hs'. cbn [sleeps_in]. apply list_elem_of_bind. exists (current_state ctx1, ev1).
    split; [|done]. case_decide; [subst; by apply list_elem_of_singleton|done]. }
  destruct (decide (ev1 = EVENT_NONE)) as [->|Hne].
  - apply wp_ret. exists ctx1, 0%Z. split; [done|]. split; [done|]. right. split; [done|].
    split; [apply Hp1|]. split; [intros Hs; by apply (pi_running _ _ Hp1)|]. by apply Hsl.
  - destruct Hgood as [[? _]|(_ & Hlt & Hnn)]; [done|].
    assert (wp (transition_loop fuel ctx1 ev1) e w1 (λ r w', ∃ ctx' code, r = Some (ctx', code) ∧
      evolves (adopt ctx ev) w ctx' w' ∧
      (code = (-1)%Z ∧ ctx' = ctx ∧ w' = w ∧ micro_next (current_state ctx) ev = [] ∨
       code = 0%Z ∧ fsm_inv ctx' ∧ (current_state ctx' = FSM_RUNNING → record_in_sync ctx') ∧
       current_state ctx' ∈ sleeps_in (S fuel) (current_state ctx) ev)))
      as Hgo; [|by destruct ev1].
    eapply wp_mono; [apply IH; [done|lia]|]. cbv beta.
    intros r w2 (ctx2 & code & -> & Hevo2 & Hres). exists ctx2, code. split; [done|].
    rewrite (adopt_micro _ _ _ _ Hin) in Hevo2. split; [by eapply evolves_trans|]. right.
    destruct Hres as [(_ & _ & _ & Hn)|(-> & Hi2 & Hr2 & Hs2)]; [done|]. split; [done|].
    do 2 (split; [done|]). by apply Hsl.
Qed.

(** The loop after an iteration. *)
Definition loop_rest (fuel : nat) (r : option (fsm_context_t * fsm_event_t)) :
    M (option (fsm_context_t * Z)) :=
  match r with
  | None => mret None
  | Some (ctx', EVENT_NONE) => mret (Some (ctx', 0%Z))
  | Some (ctx', ev') => transition_loop fuel ctx' ev'
  end.

Lemma wp_loop_first fuel ctx ev w P Q :
  wp (fsm_step ctx ev) e w P →
  (∀ c ev' w', P (Some (c, ev')) w' → wp (loop_rest fuel (Some (c, ev'))) e w' Q) →
  (∀ w', P None w' → wp (mret (Some (ctx, (-1)%Z))) e w' Q) →
  wp (transition_loop (S fuel) ctx ev) e w Q.
Proof.
  intros Hstep Hrest Hnone. cbn [transition_loop]. eapply wp_seq; [exact Hstep|].
  intros [[c ev']|] w' HP; [apply (Hrest _ _ _ HP)|apply (Hnone _ HP)].
Qed.

Lemma rank_le s : rank s ≤ transition_fuel.
Proof. unfold transition_fuel. destruct s; simpl; lia. Qed.

Lemma pair_inv_resting ctx ev :
  fsm_inv ctx → resting (current_state ctx) = true → ev ≠ EVENT_NONE → pair_inv ctx ev.
Proof. intros Hi Hr Hev. split; [done|done|..]; intros Hs; by rewrite Hs in Hr. Qed.

(** The outcome of an event in a state the daemon sleeps in. *)
Definition transition_post (ctx : fsm_context_t) (ev : fsm_event_t) (w : world)
    (r : option (fsm_context_t * Z)) (w' : world) : Prop :=
  ∃ ctx' code, r = Some (ctx', code) ∧ evolves (adopt ctx ev) w ctx' w' ∧ fsm_inv ctx' ∧
    match life_next (current_state ctx) ev with
    | [] => code = (-1)%Z ∧ ctx' = ctx ∧ w' = w
    | next => code = 0%Z ∧ current_state ctx' ∈ next
              ∧ (current_state ctx' = FSM_RUNNING → record_in_sync ctx')
    end.

Lemma wp_state_transition ctx ev w :
  fsm_inv ctx → resting (current_state ctx) = true → ev ≠ EVENT_NONE →
  wp (state_transition ctx ev) e w (transition_post ctx ev w).
Proof.
  intros Hi Hr Hev. unfold state_transition. eapply wp_mono.
  { apply wp_transition_loop; [by apply pair_inv_resting|apply rank_le]. }
  cbv beta. intros r w' (ctx' & code & -> & Hevo & Hres). exists ctx', code.
  split; [done|]. split; [done|].
  destruct Hres as [(-> & -> & -> & Hn)|(-> & Hi' & Hrun & Hin)].
  - split; [done|]. apply life_next_nil in Hn; [|done]. by rewrite Hn.
  - split; [done|]. apply sleeps_in_life in Hin; [|done].
    destruct (life_next _ _) eqn:E; [by apply not_elem_of_nil in Hin|done].
Qed.

(** C1: a transition never faults and ends within six iterations, in a state
    the life graph allows; an event that is not expected in a state returns -1
    and changes nothing, every other returns 0; the invariant is kept,
    reaching [RUNNING] means that the daemon's record of the cache is the servers
    in use and that the serial announced is the one requested last, and
    configuration, mode, a backup once taken, an exit code once set and files of
    others stay. *)
Theorem state_transition_sound (ctx : fsm_context_t) (ev : fsm_event_t) (w : world) :
  fsm_inv ctx → resting (current_state ctx) = true → ev ≠ EVENT_NONE →
  wp (state_transition ctx ev) e w (transition_post ctx ev w).
Proof. apply wp_state_transition. Qed.

(** C10: stopping a running daemon restores resolv.conf: when no call fails, the
    file holds the backup - its contents before dnsconfd wrote it -, the stop
    job is requested, and the exit code is untouched. *)
Theorem stop_restores (ctx : fsm_context_t) (path : string) (w : world) :
  fsm_inv ctx → current_state ctx = FSM_RUNNING → reliable e →
  resolv_conf_path (config ctx) = Some path → path ≠ STATUS_FILE → path ≠ CONTROL_FILE →
  wp (state_transition ctx EVENT_STOP) e w (λ r w',
    ∃ ctx', r = Some (ctx', 0%Z) ∧ current_state ctx' = FSM_WAITING_STOP_JOB ∧
      exit_code ctx' = exit_code ctx ∧
      is_Some (resolv_conf_backup ctx) ∧ w_files w' !! path = resolv_conf_backup ctx ∧
      w_files w' !! CONTROL_FILE = Some "stop").
Proof.
  intros Hi Hst Hrel Hpath Hp1 Hp2. unfold state_transition, transition_fuel.
  assert (Hbk : is_Some (resolv_conf_backup ctx)) by (apply (inv_backup _ Hi); by rewrite Hst).
  apply (wp_loop_first 5 _ _ _ (λ r w', ∃ ev, r = Some (set_current_state
      FSM_REVERTING_RESOLV_CONF ctx, ev) ∧ (ev = EVENT_SUCCESS ∨ ev = EVENT_FAILURE) ∧
    w_files w' !! path = resolv_conf_backup ctx)); [|clear Hst|by intros w' (? & ? & _)].
  { unfold fsm_step. rewrite Hst. unfold enter. eapply wp_seq.
    { apply wp_revert_action; [eapply (set_fields_wf ctx); [apply Hi|..]; done|done]. }
    cbv beta. intros [ctx1 ev1] w1 (Hctx & Hev & _ & _ & Hback). cbn [fst snd] in *. subst ctx1.
    apply wp_ret. exists ev1. split; [done|]. split; [done|]. by apply Hback. }
  intros c ev w1 (ev1 & Heq & Hev & Hback). simplify_eq.
  assert (loop_rest 5 (Some (set_current_state FSM_REVERTING_RESOLV_CONF ctx, ev1))
    = transition_loop 5 (set_current_state FSM_REVERTING_RESOLV_CONF ctx) ev1) as ->
    by (by destruct Hev as [->| ->]).
  apply (wp_loop_first 4 _ _ _ (λ r w', ∃ sm, r = Some (set_service_ctx sm
      (set_current_state FSM_SUBMITTING_STOP_JOB ctx), EVENT_SUCCESS) ∧
    w_files w' !! path = resolv_conf_backup ctx ∧ w_files w' !! CONTROL_FILE = Some "stop"));
    [| |by intros w' (? & ? & _)].
  { assert (fsm_step (set_current_state FSM_REVERTING_RESOLV_CONF ctx) ev1
      = enter FSM_SUBMITTING_STOP_JOB submit_stop_job
          (set_current_state FSM_REVERTING_RESOLV_CONF ctx)) as ->
      by (by destruct Hev as [->| ->]).
    unfold enter. eapply wp_seq; [apply wp_job|]. cbv beta.
    intros [ctx2 ev2] w2 ((sm & Hctx2 & _) & F2 & _ & Hev2 & Hr2). cbn [fst snd] in *. subst ctx2.
    specialize (Hr2 Hrel). subst ev2. apply wp_ret. exists sm. split; [done|].
    destruct Hev2 as [(_ & _ & Hctl)|]; [|done]. split; [|done]. by rewrite F2. }
  intros c ev w2 (sm & Heq & Hfile & Hctl). simplify_eq. cbn [loop_rest].
  apply (wp_loop_first 3 _ _ _ (λ r w', w' = w2 ∧ r = Some (set_current_state
    FSM_WAITING_STOP_JOB (set_service_ctx sm (set_current_state FSM_SUBMITTING_STOP_JOB ctx)),
    EVENT_NONE))); [by apply wp_ret| |by intros w' [_ ?]].
  intros c ev w3 [-> Heq]. simplify_eq. apply wp_ret. by eexists.
Qed.
End LoopProofs.

(** ** Witnesses *)

Lemma initial_inv cfg : config_wf cfg → fsm_inv (initial_context cfg).
Proof. intros Hc. split; [by split|done..]. Qed.

Theorem state_transition_sound_witness :
  wp (state_transition (initial_context ex_config) EVENT_KICKOFF) ex_env ex_world
    (transition_post (initial_context ex_config) EVENT_KICKOFF ex_world).
Proof.
  apply (state_transition_sound ex_env (initial_context ex_config) EVENT_KICKOFF ex_world).
  - apply initial_inv, ex_config_wf.
  - reflexivity.
  - discriminate.
Defined.

Definition ex_running : fsm_context_t :=
  set_current_state FSM_RUNNING (set_backup (Some "nameserver 192.0.2.1") ex_updated).

Lemma ex_running_inv : fsm_inv ex_running.
Proof.
  split; [|by split|by eexists..].
  eapply set_fields_wf; [apply ex_updated_wf|..]; reflexivity.
Qed.

Theorem stop_restores_witness :
  wp (state_transition ex_running EVENT_STOP) ex_env ex_world (λ r w',
    ∃ ctx', r = Some (ctx', 0%Z) ∧ current_state ctx' = FSM_WAITING_STOP_JOB ∧
      exit_code ctx' = 0%Z ∧ is_Some (resolv_conf_backup ex_running) ∧
      w_files w' !! "/etc/resolv.conf" = Some "nameserver 192.0.2.1" ∧
      w_files w' !! CONTROL_FILE = Some "stop").
Proof.
  apply (stop_restores ex_env ex_running "/etc/resolv.conf" ex_world).
  - apply ex_running_inv.
  - reflexivity.
  - intros n. reflexivity.
  - reflexivity.
  - discriminate.
  - discriminate.
Defined.
