(* ===== verification/DbusServer.v ===== *)
(** * The D-Bus interface: src/src/dbus_server.c

    The parser of the [Update] call, the handlers of the three methods and of
    the property, the callbacks of the bus and of SIGTERM, and the life of the
    daemon as the sequence of the events its main loop dispatches.  Values of
    GLib's [GVariant] are the data below, libidn2 is the interface [Idn]. *)

From S2P Require Import Prelude CLib GLib SockAddr NetworkAddress ServerUri ServerTable ServerJson.
From S2P Require Import ConfigData World UnboundSelect FsmContext UnboundConf UnboundControl.
From S2P Require Import ResolvConf Service Fsm.

(** ** Definitions *)

(** The values of the dictionaries of an update, by their types. *)
Inductive gvariant :=
| VString (s : string)
| VBytes (bs : list Z)
| VInt32 (z : Z)
| VBool (b : bool)
| VStrings (l : list string)
| VOther.

Inductive gvariant_type :=
| G_VARIANT_TYPE_STRING | G_VARIANT_TYPE_BYTESTRING | G_VARIANT_TYPE_INT32
| G_VARIANT_TYPE_BOOLEAN | G_VARIANT_TYPE_STRING_ARRAY.

Definition has_type (v : gvariant) (t : gvariant_type) : bool :=
  match v, t with
  | VString _, G_VARIANT_TYPE_STRING | VBytes _, G_VARIANT_TYPE_BYTESTRING
  | VInt32 _, G_VARIANT_TYPE_INT32 | VBool _, G_VARIANT_TYPE_BOOLEAN
  | VStrings _, G_VARIANT_TYPE_STRING_ARRAY => true
  | _, _ => false
  end.

Notation server_dict := (gmap string gvariant).

(** [g_variant_dict_lookup_value]: null as well when the type is another one. *)
Definition lookup_value (dict : server_dict) (key : string) (t : gvariant_type) :
    option gvariant :=
  match dict !! key with
  | Some v => if has_type v t then Some v else None
  | None => None
  end.

Inductive parse_error_code :=
| PARSE_ERROR_OOM | PARSE_ERROR_MISSING_ADDRESS | PARSE_ERROR_INVALID_ADDRESS
| PARSE_ERROR_PORT_INVALID | PARSE_ERROR_INVALID_PROTOCOL | PARSE_ERROR_INTERFACE_TOO_LONG
| PARSE_ERROR_INVALID_NET | PARSE_ERROR_INVALID_DOMAIN | PARSE_ERROR_INVALID_MODE.
#[export] Instance parse_error_code_eq_dec : EqDecision parse_error_code.
Proof. solve_decision. Defined.

Definition parse_error_string (c : parse_error_code) : string :=
  match c with
  | PARSE_ERROR_OOM => "Out of memory"
  | PARSE_ERROR_MISSING_ADDRESS => "Server does not have address set"
  | PARSE_ERROR_INVALID_ADDRESS => "Address is not a valid IP address"
  | PARSE_ERROR_PORT_INVALID => "Port is not a valid port."
  | PARSE_ERROR_INVALID_PROTOCOL => "Protocol is not supported"
  | PARSE_ERROR_INTERFACE_TOO_LONG => "Interface name can have at most 15 characters"
  | PARSE_ERROR_INVALID_NET => "Network address is invalid"
  | PARSE_ERROR_INVALID_DOMAIN => "Domain name is invalid"
  | PARSE_ERROR_INVALID_MODE => "Mode is invalid"
  end.

(** The outcome of a parser: an error or the server with the field set. *)
Inductive parsed := PErr (c : parse_error_code) | POk (s : server_uri_t).

(** [idn2_lookup_u8] with [IDN2_NFC_INPUT]: the ASCII form of a name. *)
Class Idn := { idn2_lookup_u8 : string → option string }.

(** Reference implementation: names that are ASCII already. *)
#[export] Instance ascii_idn : Idn := {| idn2_lookup_u8 s := Some s |}.

Section Parsers.
Context `{Inet} `{Idn}.
(** The uninitialised memory [malloc] returns for a network. *)
Context (junk : sockaddr_storage).

Definition parse_address (cur_server_dict : server_dict) (cur_server : server_uri_t) : parsed :=
  match lookup_value cur_server_dict "address" G_VARIANT_TYPE_STRING with
  | Some (VString cur_string) =>
      match parse_ip_str cur_string (su_address cur_server) with
      | Some a => POk (set_address a cur_server)
      | None => PErr PARSE_ERROR_INVALID_ADDRESS
      end
  | _ =>
      match lookup_value cur_server_dict "address" G_VARIANT_TYPE_BYTESTRING with
      | Some (VBytes fixed_array) =>
          if length fixed_array =? 4
          then POk (set_address (SockAddr AF_INET 0 fixed_array (replicate 16 0%Z)) cur_server)
          else if length fixed_array =? 16
          then POk (set_address (SockAddr AF_INET6 0 (replicate 4 0%Z) fixed_array) cur_server)
          else PErr PARSE_ERROR_INVALID_ADDRESS
      | _ => PErr PARSE_ERROR_MISSING_ADDRESS
      end
  end.

Definition parse_port (cur_param : gvariant) (cur_server : server_uri_t) : parsed :=
  match cur_param with
  | VInt32 raw_port =>
      if (raw_port <? 0)%Z || (65535 <? raw_port)%Z then PErr PARSE_ERROR_PORT_INVALID
      else POk (set_address (set_port raw_port (su_address cur_server)) cur_server)
  | _ => POk cur_server
  end.

Definition parse_priority (cur_param : gvariant) (cur_server : server_uri_t) : parsed :=
  match cur_param with
  | VInt32 raw_priority => POk (set_priority raw_priority cur_server)
  | _ => POk cur_server
  end.

Definition parse_protocol (cur_param : gvariant) (cur_server : server_uri_t) : parsed :=
  match cur_param with
  | VString protocol_str =>
      let protocol := protocol_from_nstring protocol_str (String.length protocol_str) in
      if bool_decide (protocol = DNS_PROTOCOLS_END) then PErr PARSE_ERROR_INVALID_PROTOCOL
      else POk (set_protocol protocol cur_server)
  | _ => POk cur_server
  end.

Definition parse_interface (cur_param : gvariant) (cur_server : server_uri_t) : parsed :=
  match cur_param with
  | VString interface_str =>
      if IFNAMSIZ <=? String.length interface_str then PErr PARSE_ERROR_INTERFACE_TOO_LONG
      else POk (set_interface interface_str cur_server)
  | _ => POk cur_server
  end.

Definition parse_dnssec (cur_param : gvariant) (cur_server : server_uri_t) : parsed :=
  match cur_param with
  | VBool dnssec_val => POk (set_dnssec (if dnssec_val then 1 else 0)%Z cur_server)
  | _ => POk cur_server
  end.

Definition parse_ca (cur_param : gvariant) (cur_server : server_uri_t) : parsed :=
  match cur_param with
  | VString ca_str => POk (set_certification_authority (Some ca_str) cur_server)
  | _ => POk cur_server
  end.

Definition parse_name (cur_param : gvariant) (cur_server : server_uri_t) : parsed :=
  match cur_param with
  | VString name_str => POk (set_name (Some name_str) cur_server)
  | _ => POk cur_server
  end.

(** One domain of [save_domains]. *)
Definition save_domain (domain_str : string) : option string :=
  if domain_str ==s "" then Some "."
  else if strstr domain_str ".." then None else idn2_lookup_u8 domain_str.

(** [None] is [PARSE_ERROR_INVALID_DOMAIN]. *)
Fixpoint save_domains (cur_param : list string) (where_ : list string) : option (list string) :=
  match cur_param with
  | [] => Some where_
  | domain_str :: rest =>
      domain_idn ← save_domain domain_str; save_domains rest (where_ ++ [domain_idn])
  end.

Definition parse_domains (cur_param : gvariant) (cur_server : server_uri_t) : parsed :=
  match cur_param with
  | VStrings l =>
      match save_domains l (su_routing_domains cur_server) with
      | Some ds => POk (set_routing_domains ds cur_server)
      | None => PErr PARSE_ERROR_INVALID_DOMAIN
      end
  | _ => POk cur_server
  end.

Definition parse_search (cur_param : gvariant) (cur_server : server_uri_t) : parsed :=
  match cur_param with
  | VStrings l =>
      match save_domains l (su_search_domains cur_server) with
      | Some ds => POk (set_search_domains ds cur_server)
      | None => PErr PARSE_ERROR_INVALID_DOMAIN
      end
  | _ => POk cur_server
  end.

Fixpoint save_networks (l : list string) (networks : list network_address) :
    option (list network_address) :=
  match l with
  | [] => Some networks
  | network_str :: rest =>
      net ← network_address_t_from_string network_str junk;
      save_networks rest (networks ++ [net])
  end.

Definition parse_networks (cur_param : gvariant) (cur_server : server_uri_t) : parsed :=
  match cur_param with
  | VStrings l =>
      match save_networks l (su_networks cur_server) with
      | Some nets => POk (set_networks nets cur_server)
      | None => PErr PARSE_ERROR_INVALID_NET
      end
  | _ => POk cur_server
  end.

Definition key_type_parser :
    list (string * gvariant_type * (gvariant → server_uri_t → parsed)) :=
  [("port", G_VARIANT_TYPE_INT32, parse_port);
   ("priority", G_VARIANT_TYPE_INT32, parse_priority);
   ("protocol", G_VARIANT_TYPE_STRING, parse_protocol);
   ("interface", G_VARIANT_TYPE_STRING, parse_interface);
   ("dnssec", G_VARIANT_TYPE_BOOLEAN, parse_dnssec);
   ("ca", G_VARIANT_TYPE_STRING, parse_ca);
   ("name", G_VARIANT_TYPE_STRING, parse_name);
   ("routing_domains", G_VARIANT_TYPE_STRING_ARRAY, parse_domains);
   ("search_domains", G_VARIANT_TYPE_STRING_ARRAY, parse_search);
   ("networks", G_VARIANT_TYPE_STRING_ARRAY, parse_networks)].

(** The loop over the table of parsers. *)
Fixpoint parse_fields (dict : server_dict)
    (fields : list (string * gvariant_type * (gvariant → server_uri_t → parsed)))
    (cur_server : server_uri_t) : parsed :=
  match fields with
  | [] => POk cur_server
  | (key, t, parser) :: rest =>
      match lookup_value dict key t with
      | None => parse_fields dict rest cur_server
      | Some cur_param =>
          match parser cur_param cur_server with
          | PErr c => PErr c
          | POk cur_server => parse_fields dict rest cur_server
          end
      end
  end.

(** The defaults after the loop: the root domain and the port. *)
Definition finish_server (cur_server : server_uri_t) : server_uri_t :=
  let cur_server := match su_routing_domains cur_server with
                    | [] => set_routing_domains ["."] cur_server
                    | _ => cur_server end in
  set_address (set_default_port (su_address cur_server)
    (if negb (bool_decide (su_protocol cur_server = DNS_TLS)) then 53 else 853)%Z) cur_server.

(** A server up to the comparison with those before it. *)
Definition parse_server (dict : server_dict) : parsed :=
  match parse_address dict server_uri_t_init with
  | PErr c => PErr c
  | POk cur_server =>
      match parse_fields dict key_type_parser cur_server with
      | PErr c => PErr c
      | POk cur_server => POk (finish_server cur_server)
      end
  end.

(** The server is already known on another interface. *)
Definition is_duplicate (parsed_servers : list server_uri_t) (cur_server : server_uri_t) : bool :=
  existsb (λ existing, are_ips_equal (su_address cur_server) (su_address existing)
                       && negb (su_interface cur_server ==s su_interface existing)) parsed_servers.

Definition is_wireless (ifname : string) : M bool :=
  ask (λ e n, env_isdir e n (wireless_path ifname)).

(** [(int)MAX((int64_t)priority - 10, INT_MIN)]. *)
Definition lower_priority (priority : Z) : Z := Z.max (priority - 10) INT_MIN.

(** The loop over the servers of the call. *)
Fixpoint parse_servers (servers_iter : list server_dict) (parsed_servers : list server_uri_t) :
    M (parse_error_code + list server_uri_t) :=
  match servers_iter with
  | [] => mret (inr parsed_servers)
  | dict :: rest =>
      match parse_server dict with
      | PErr c => mret (inl c)
      | POk cur_server =>
          if is_duplicate parsed_servers cur_server then parse_servers rest parsed_servers
          else
            wireless ← is_wireless (su_interface cur_server);
            let cur_server := if wireless : bool
                              then set_priority (lower_priority (su_priority cur_server)) cur_server
                              else cur_server in
            parse_servers rest (parsed_servers ++ [cur_server])
      end
  end.

Definition mode_of_uint32 (mode : Z) : option dnsconfd_mode_t :=
  if (mode =? 0)%Z then Some MODE_BACKUP
  else if (mode =? 1)%Z then Some MODE_PREFER
  else if (mode =? 2)%Z then Some MODE_EXCLUSIVE
  else None.
End Parsers.

Section Handlers.
Context `{Inet} `{Idn} `{GListSort} `{IntOverflow}.
Context (junk : sockaddr_storage).

(** A transition whose unexpected outcome stops the daemon at once. *)
Definition transition_or_quit (ctx : fsm_context_t) (event : fsm_event_t) : M fsm_context_t :=
  r ← state_transition ctx event;
  r ← deref r;
  if negb (r.2 =? 0)%Z then
    emit AQuit;;
    mret (put_exit_code (exit_code_value EXIT_FSM_FAILURE) r.1)
  else mret r.1.

(** The reply is the pair of type [(us)]. *)
Definition handle_update_call (servers : list server_dict) (mode : Z) (ctx : fsm_context_t) :
    M (fsm_context_t * (Z * string)) :=
  match mode_of_uint32 mode with
  | None => mret (ctx, (0%Z, parse_error_string PARSE_ERROR_INVALID_MODE))
  | Some mode =>
      r ← parse_servers junk servers [];
      match r with
      | inl parse_error => mret (ctx, (0%Z, parse_error_string parse_error))
      | inr parsed_servers =>
          let ctx := set_mode mode (set_dynamic (current_dynamic_servers ctx) parsed_servers ctx) in
          ctx ← transition_or_quit ctx EVENT_UPDATE;
          mret (ctx, (requested_configuration_serial ctx, "Update accepted"))
      end
  end.

Definition handle_reload_call (ctx : fsm_context_t) : M (fsm_context_t * string) :=
  ctx ← transition_or_quit ctx EVENT_RELOAD;
  mret (ctx, "Reload accepted").

(** [None] is a null pointer. *)
Definition handle_get_property (property_name : string) (ctx : fsm_context_t) : option Z :=
  if property_name ==s "configuration_serial" then Some (current_configuration_serial ctx)
  else None.

(** The URI of a server in the status. *)
Definition status_uri (cur_server : server_uri_t) : option string :=
  addr_str ← ip_to_str (su_address cur_server);
  let port := server_port cur_server in
  let uri_str :=
    dns_protocol_t_to_string (su_protocol cur_server) +:+ "://"
    +:+ (if bool_decide (ss_family (su_address cur_server) = AF_INET) then addr_str
         else "[" +:+ addr_str +:+ "]") in
  Some (if bool_decide (su_protocol cur_server = DNS_TLS) then
          let uri_str := if negb (port =? 853)%Z then uri_str +:+ ":" +:+ fmt_d port else uri_str in
          match su_name cur_server with
          | Some name => uri_str +:+ "#" +:+ name
          | None => uri_str
          end
        else if negb (port =? 53)%Z then uri_str +:+ ":" +:+ fmt_d port else uri_str).

Fixpoint cache_config_members (entries : list (string * list server_uri_t))
    (new_object : list (string * json)) : option (list (string * json)) :=
  match entries with
  | [] => Some new_object
  | (key, value) :: rest =>
      servers_arr ← mapM status_uri value;
      cache_config_members rest (json_object_set new_object key (JArray (JString <$> servers_arr)))
  end.

Definition construct_cache_config_status (t : option server_table) : M json :=
  match t with
  | Some t =>
      entries ← iterate t;
      members ← deref (cache_config_members entries []);
      mret (JObject members)
  | None => mret (JObject [])
  end.

Definition config_to_json (ctx : fsm_context_t) : M json :=
  cache_config ← construct_cache_config_status (current_unbound_domain_to_servers ctx);
  servers_array ← deref (mapM server_uri_to_json (all_servers ctx));
  mret (JObject [("service", JString "unbound");
                 ("mode", JString (dnsconfd_mode_t_to_string (resolution_mode ctx)));
                 ("cache_config", cache_config);
                 ("state", JString (fsm_state_t_to_string (current_state ctx)));
                 ("servers", JArray servers_array)]).

(** The value [json_dumps] prints. *)
Definition handle_status_call (ctx : fsm_context_t) : M json := config_to_json ctx.

(** The calls the introspection data admits. *)
Inductive method_call :=
| CallUpdate (servers : list server_dict) (mode : Z)
| CallStatus
| CallReload.

Inductive method_reply :=
| ReplyUpdate (serial : Z) (message : string)
| ReplyStatus (status : json)
| ReplyReload (message : string).

Definition handle_method_call (call : method_call) (ctx : fsm_context_t) :
    M (fsm_context_t * method_reply) :=
  match call with
  | CallUpdate servers mode =>
      r ← handle_update_call servers mode ctx; mret (r.1, ReplyUpdate r.2.1 r.2.2)
  | CallStatus => j ← handle_status_call ctx; mret (ctx, ReplyStatus j)
  | CallReload => r ← handle_reload_call ctx; mret (r.1, ReplyReload r.2)
  end.

Definition on_name_acquired (ctx : fsm_context_t) : M fsm_context_t :=
  transition_or_quit ctx EVENT_KICKOFF.

Definition on_name_lost (ctx : fsm_context_t) : M fsm_context_t :=
  emit AQuit;; mret (put_exit_code (exit_code_value EXIT_DBUS_FAILURE) ctx).

Definition on_sigterm (ctx : fsm_context_t) : M fsm_context_t :=
  transition_or_quit ctx EVENT_STOP.

(** The signal of a file monitor, to each handler that is still connected. *)
Definition on_status_file (event : monitor_event) (ctx : fsm_context_t) : M fsm_context_t :=
  result ← on_file_changed (service_management_ctx ctx) event;
  match result with
  | None => mret ctx
  | Some result =>
      r ← on_systemd_job_finished result ctx;
      r ← deref r;
      mret r.1
  end.

(** The events the main loop dispatches. *)
Inductive daemon_event :=
| DCall (call : method_call)
| DNameAcquired
| DNameLost
| DSigterm
| DStatusFile (event : monitor_event).

Definition dispatch (event : daemon_event) (ctx : fsm_context_t) : M fsm_context_t :=
  match event with
  | DCall call => r ← handle_method_call call ctx; mret r.1
  | DNameAcquired => on_name_acquired ctx
  | DNameLost => on_name_lost ctx
  | DSigterm => on_sigterm ctx
  | DStatusFile ev => on_status_file ev ctx
  end.

(** What D-Bus guarantees of the values by their types. *)
Definition variant_ok (v : gvariant) : Prop :=
  match v with
  | VInt32 z => in_int z
  | VBytes bs => Forall byte_ok bs
  | _ => True
  end.
Definition dict_ok (d : server_dict) : Prop := map_Forall (λ _ v, variant_ok v) d.
Definition event_ok (event : daemon_event) : Prop :=
  match event with
  | DCall (CallUpdate servers _) => Forall dict_ok servers
  | _ => True
  end.

(** The contexts of a daemon: from the initial one, by events dispatched in any
    order; between two events the environment and the files may change. *)
Inductive daemon_reaches (cfg : dnsconfd_config_t) : fsm_context_t → Prop :=
| daemon_starts : daemon_reaches cfg (initial_context cfg)
| daemon_steps ctx event e w ctx' w' :
    daemon_reaches cfg ctx → event_ok event → dispatch event ctx e w = Some (ctx', w') →
    daemon_reaches cfg ctx'.
End Handlers.

(** ** Specification of the parser

    Every field is read on its own: absent or of another type it has its
    default, else its decoder must accept it; the first field in the order of
    the table that is refused gives the error. *)

Section Reference.
Context `{Inet} `{Idn}.
Context (junk : sockaddr_storage).

(** A field of the dictionary; [None] when its decoder refuses it. *)
Definition field {A} (d : server_dict) (key : string) (t : gvariant_type)
    (decode : gvariant → option A) (dflt : A) : option A :=
  match lookup_value d key t with None => Some dflt | Some v => decode v end.

(** Continue with the value of a field, or fail with its error. *)
Definition check {A} (o : option A) (c : parse_error_code) (k : A → parsed) : parsed :=
  match o with Some a => k a | None => PErr c end.

Definition decode_port (v : gvariant) : option Z :=
  match v with VInt32 z => if (0 <=? z)%Z && (z <=? 65535)%Z then Some z else None | _ => None end.
Definition decode_priority (v : gvariant) : option Z :=
  match v with VInt32 z => Some z | _ => None end.
Definition decode_protocol (v : gvariant) : option dns_protocol_t :=
  match v with
  | VString s => match protocol_from_nstring s (String.length s) with
                 | DNS_PROTOCOLS_END => None | p => Some p end
  | _ => None
  end.
Definition decode_interface (v : gvariant) : option string :=
  match v with VString s => if String.length s <? IFNAMSIZ then Some s else None | _ => None end.
Definition decode_dnssec (v : gvariant) : option Z :=
  match v with VBool b => Some (if b then 1 else 0)%Z | _ => None end.
Definition decode_string (v : gvariant) : option (option string) :=
  match v with VString s => Some (Some s) | _ => None end.
Definition decode_domains (v : gvariant) : option (list string) :=
  match v with VStrings l => mapM save_domain l | _ => None end.
Definition decode_networks (v : gvariant) : option (list network_address) :=
  match v with VStrings l => mapM (λ s, network_address_t_from_string s junk) l | _ => None end.

(** The address: text, or 4 or 16 bytes. *)
Definition decode_address (d : server_dict) : parse_error_code + sockaddr_storage :=
  match d !! "address" with
  | Some (VString s) =>
      match parse_ip_str s sockaddr_zero with
      | Some a => inr a
      | None => inl PARSE_ERROR_INVALID_ADDRESS
      end
  | Some (VBytes bs) =>
      if length bs =? 4 then inr (SockAddr AF_INET 0 bs (replicate 16 0%Z))
      else if length bs =? 16 then inr (SockAddr AF_INET6 0 (replicate 4 0%Z) bs)
      else inl PARSE_ERROR_INVALID_ADDRESS
  | _ => inl PARSE_ERROR_MISSING_ADDRESS
  end.

Definition server_of_dict (d : server_dict) : parsed :=
  match decode_address d with
  | inl c => PErr c
  | inr a =>
      check (field d "port" G_VARIANT_TYPE_INT32 decode_port 0%Z) PARSE_ERROR_PORT_INVALID (λ port,
      check (field d "priority" G_VARIANT_TYPE_INT32 decode_priority 0%Z) PARSE_ERROR_OOM (λ priority,
      check (field d "protocol" G_VARIANT_TYPE_STRING decode_protocol DNS_UDP)
        PARSE_ERROR_INVALID_PROTOCOL (λ protocol,
      check (field d "interface" G_VARIANT_TYPE_STRING decode_interface "")
        PARSE_ERROR_INTERFACE_TOO_LONG (λ interface,
      check (field d "dnssec" G_VARIANT_TYPE_BOOLEAN decode_dnssec 1%Z) PARSE_ERROR_OOM (λ dnssec,
      check (field d "ca" G_VARIANT_TYPE_STRING decode_string None) PARSE_ERROR_OOM (λ ca,
      check (field d "name" G_VARIANT_TYPE_STRING decode_string None) PARSE_ERROR_OOM (λ name,
      check (field d "routing_domains" G_VARIANT_TYPE_STRING_ARRAY decode_domains [])
        PARSE_ERROR_INVALID_DOMAIN (λ routing,
      check (field d "search_domains" G_VARIANT_TYPE_STRING_ARRAY decode_domains [])
        PARSE_ERROR_INVALID_DOMAIN (λ search,
      check (field d "networks" G_VARIANT_TYPE_STRING_ARRAY decode_networks [])
        PARSE_ERROR_INVALID_NET (λ networks,
      let default_port := match protocol with DNS_TLS => 853 | _ => 53 end%Z in
      POk (ServerUri (set_port (if (port =? 0)%Z then default_port else port) a)
             priority interface dnssec protocol ca name
             (match routing with [] => ["."] | _ => routing end) search networks)))))))))))
  end.
End Reference.

(** ** Proofs: the parser *)

Section ParserProofs.
Context `{InetLaws} `{Idn}.
Context (junk : sockaddr_storage).

Lemma save_domains_mapM l acc : save_domains l acc = (λ ds, acc ++ ds) <$> mapM save_domain l.
Proof.
  revert acc. induction l as [|x l IH]; intros acc; simpl; [by rewrite app_nil_r|].
  destruct (save_domain x) as [d|]; [|done]. simpl. rewrite IH.
  destruct (mapM save_domain l); [|done]. simpl. by rewrite <-app_assoc.
Qed.

Lemma save_networks_mapM l acc :
  save_networks junk l acc
  = (λ ns, acc ++ ns) <$> mapM (λ s, network_address_t_from_string s junk) l.
Proof.
  revert acc. induction l as [|x l IH]; intros acc; simpl; [by rewrite app_nil_r|].
  destruct (network_address_t_from_string x junk) as [n|]; [|done]. simpl. rewrite IH.
  destruct (mapM _ l); [|done]. simpl. by rewrite <-app_assoc.
Qed.

Lemma lookup_value_type d key t v : lookup_value d key t = Some v → has_type v t = true.
Proof.
  unfold lookup_value. destruct (d !! key) as [v'|]; [|done].
  destruct (has_type v' t) eqn:E; [|done]. by intros [= <-].
Qed.

(** The rest of the loop with what follows it. *)
Definition fields_then (d : server_dict)
    (fields : list (string * gvariant_type * (gvariant → server_uri_t → parsed)))
    (s : server_uri_t) : parsed :=
  match parse_fields d fields s with PErr c => PErr c | POk s => POk (finish_server s) end.

(** One entry of the table, for a parser that sets one field. *)
Lemma fields_then_step {A} (decode : gvariant → option A)
    (setter : A → server_uri_t → server_uri_t) (dflt : A) (c : parse_error_code)
    d key t parser rest s :
  (∀ v, has_type v t = true → parser v s = check (decode v) c (λ a, POk (setter a s))) →
  setter dflt s = s →
  fields_then d ((key, t, parser) :: rest) s
  = check (field d key t decode dflt) c (λ a, fields_then d rest (setter a s)).
Proof.
  intros Hp Hd. unfold fields_then, field. cbn [parse_fields].
  destruct (lookup_value d key t) as [v|] eqn:E; [|simpl; by rewrite Hd].
  apply lookup_value_type in E. rewrite (Hp v E). by destruct (decode v).
Qed.

Lemma check_ext {A} (o : option A) c (f g : A → parsed) :
  (∀ a, o = Some a → f a = g a) → check o c f = check o c g.
Proof. destruct o; simpl; auto. Qed.

Lemma parse_address_spec d :
  parse_address d server_uri_t_init
  = match decode_address d with
    | inl c => PErr c | inr a => POk (set_address a server_uri_t_init) end.
Proof.
  unfold parse_address, decode_address, lookup_value.
  destruct (d !! "address") as [[s|bs|?|?|?|]|]; simpl; try done.
  - by destruct (parse_ip_str s sockaddr_zero).
  - by destruct (length bs =? 4), (length bs =? 16).
Qed.

Lemma decode_address_typed d a :
  decode_address d = inr a → sin_port a = 0%Z ∧ ss_family a ≠ AF_UNSPEC.
Proof.
  unfold decode_address, parse_ip_str. intros Ha.
  destruct (d !! "address") as [[s|bs|?|?|?|]|]; try done.
  - destruct (inet_pton4 s); [by simplify_eq|]. destruct (inet_pton6 s); by simplify_eq.
  - destruct (length bs =? 4); [by simplify_eq|]. destruct (length bs =? 16); by simplify_eq.
Qed.

Lemma parse_port_check v s :
  has_type v G_VARIANT_TYPE_INT32 = true →
  parse_port v s = check (decode_port v) PARSE_ERROR_PORT_INVALID
    (λ p, POk (set_address (set_port p (su_address s)) s)).
Proof.
  destruct v; try done. intros _. simpl.
  destruct (Z.ltb_spec z 0), (Z.leb_spec 0 z); try lia; [done|].
  destruct (Z.ltb_spec 65535 z), (Z.leb_spec z 65535); try lia; done.
Qed.

Lemma parse_protocol_check v s :
  has_type v G_VARIANT_TYPE_STRING = true →
  parse_protocol v s = check (decode_protocol v) PARSE_ERROR_INVALID_PROTOCOL
    (λ p, POk (set_protocol p s)).
Proof. destruct v; try done. intros _. simpl. by destruct (protocol_from_nstring _ _). Qed.

Lemma parse_interface_check v s :
  has_type v G_VARIANT_TYPE_STRING = true →
  parse_interface v s = check (decode_interface v) PARSE_ERROR_INTERFACE_TOO_LONG
    (λ i, POk (set_interface i s)).
Proof.
  destruct v; try done. intros _. unfold parse_interface, decode_interface.
  destruct (Nat.leb_spec IFNAMSIZ (String.length s0)), (Nat.ltb_spec (String.length s0) IFNAMSIZ);
    try lia; done.
Qed.

Lemma parse_domains_check v s :
  has_type v G_VARIANT_TYPE_STRING_ARRAY = true → su_routing_domains s = [] →
  parse_domains v s = check (decode_domains v) PARSE_ERROR_INVALID_DOMAIN
    (λ l, POk (set_routing_domains l s)).
Proof.
  destruct v; try done. intros _ Hs. simpl. rewrite Hs, save_domains_mapM.
  by destruct (mapM save_domain l).
Qed.

Lemma parse_search_check v s :
  has_type v G_VARIANT_TYPE_STRING_ARRAY = true → su_search_domains s = [] →
  parse_search v s = check (decode_domains v) PARSE_ERROR_INVALID_DOMAIN
    (λ l, POk (set_search_domains l s)).
Proof.
  destruct v; try done. intros _ Hs. simpl. rewrite Hs, save_domains_mapM.
  by destruct (mapM save_domain l).
Qed.

Lemma parse_networks_check v s :
  has_type v G_VARIANT_TYPE_STRING_ARRAY = true → su_networks s = [] →
  parse_networks junk v s = check (decode_networks junk v) PARSE_ERROR_INVALID_NET
    (λ l, POk (set_networks l s)).
Proof.
  destruct v; try done. intros _ Hs. simpl. rewrite Hs, save_networks_mapM.
  by destruct (mapM _ l).
Qed.

(** Step over an entry of the table; what its parser does is left. *)
Ltac field_step dec setter dflt c :=
  etransitivity; [apply (fields_then_step dec setter dflt c)|apply check_ext; intros ? _];
  [intros v Hv| |cbv_server].

Lemma parse_server_decodes (d : server_dict) : parse_server junk d = server_of_dict junk d.
Proof.
  unfold parse_server, server_of_dict. rewrite parse_address_spec.
  destruct (decode_address d) as [c|a] eqn:Ea; [done|].
  apply decode_address_typed in Ea as [Hpt Hfam].
  match goal with |- _ = ?r =>
    change (fields_then d (key_type_parser junk) (set_address a server_uri_t_init) = r) end.
  unfold key_type_parser, server_uri_t_init, set_address.
  field_step decode_port (λ p s, set_address (set_port p (su_address s)) s) 0%Z
    PARSE_ERROR_PORT_INVALID; [by apply parse_port_check|destruct a; simpl in *; by subst|].
  field_step decode_priority set_priority 0%Z PARSE_ERROR_OOM; [by destruct v|reflexivity|].
  field_step decode_protocol set_protocol DNS_UDP PARSE_ERROR_INVALID_PROTOCOL;
    [by apply parse_protocol_check|reflexivity|].
  field_step decode_interface set_interface "" PARSE_ERROR_INTERFACE_TOO_LONG;
    [by apply parse_interface_check|reflexivity|].
  field_step decode_dnssec set_dnssec 1%Z PARSE_ERROR_OOM; [by destruct v|reflexivity|].
  field_step decode_string set_certification_authority (@None string) PARSE_ERROR_OOM;
    [by destruct v|reflexivity|].
  field_step decode_string set_name (@None string) PARSE_ERROR_OOM; [by destruct v|reflexivity|].
  field_step decode_domains set_routing_domains (@nil string) PARSE_ERROR_INVALID_DOMAIN;
    [by apply parse_domains_check|reflexivity|].
  field_step decode_domains set_search_domains (@nil string) PARSE_ERROR_INVALID_DOMAIN;
    [by apply parse_search_check|reflexivity|].
  field_step (decode_networks junk) set_networks (@nil network_address) PARSE_ERROR_INVALID_NET;
    [by apply parse_networks_check|reflexivity|].
  unfold fields_then, finish_server. cbn [parse_fields su_routing_domains].
  rename a0 into port, a2 into protocol, a7 into routing.
  destruct routing, protocol, a as [[] q s4 s6]; unfold set_default_port; simpl in *; try done;
    by destruct (port =? 0)%Z.
Qed.

(** C12: the table-driven parser of the update call agrees with reading every
    field on its own: the defaults of absent and of wrongly typed fields (DNSSEC
    is on by default, where the document of the API says that it is off), the
    values accepted, the error of the first field refused, the root as the
    default domain and the default port by protocol. *)
Theorem parse_server_spec (d : server_dict) : parse_server junk d = server_of_dict junk d.
Proof. apply parse_server_decodes. Qed.
End ParserProofs.
