(* ===== verification/Daemon.v ===== *)
(** * The life of the daemon: the handlers of src/src/dbus_server.c

    What the handlers of DbusServer.v do, each on every branch, and what holds
    of every context the main loop can reach by the events it dispatches. *)

From S2P Require Import Prelude CLib GLib SockAddr NetworkAddress ServerUri ServerTable ServerJson.
From S2P Require Import ConfigData World UnboundSelect FsmContext UnboundConf UnboundControl.
From S2P Require Import ResolvConf Service Fsm DbusServer.

(** ** Specification *)

(** A server is kept unless one kept before it has the same address on another
    interface. *)
Fixpoint first_interface (kept servers : list server_uri_t) : list server_uri_t :=
  match servers with
  | [] => kept
  | s :: rest =>
      first_interface (if is_duplicate kept s then kept else kept ++ [s]) rest
  end.

(** Both servers are the same but for the priority of a wireless interface. *)
Definition lowered (e : env) (s s' : server_uri_t) : Prop :=
  (∃ n, env_isdir e n (wireless_path (su_interface s)) = false) ∧ s' = s ∨
  (∃ n, env_isdir e n (wireless_path (su_interface s)) = true) ∧
    s' = set_priority (lower_priority (su_priority s)) s.

(** The dictionaries up to the first one that is refused. *)
Section Decoded.
Context `{Inet} `{Idn}.
Context (junk : sockaddr_storage).
Fixpoint servers_of_dicts (dicts : list server_dict) : parse_error_code + list server_uri_t :=
  match dicts with
  | [] => inr []
  | d :: rest =>
      match server_of_dict junk d with
      | PErr c => inl c
      | POk s =>
          match servers_of_dicts rest with
          | inl c => inl c
          | inr l => inr (s :: l)
          end
      end
  end.
End Decoded.

(** The exit codes of the daemon. *)
Definition daemon_exits : list exit_code_t :=
  [EXIT_OK; EXIT_SERVICE_FAILURE; EXIT_DBUS_FAILURE; EXIT_RESOLV_CONF_FAILURE;
   EXIT_UPDATE_FAILURE; EXIT_FSM_FAILURE].
Definition exits_ok (ctx : fsm_context_t) : Prop :=
  exit_code ctx ∈ exit_code_value <$> daemon_exits.

(** What holds of the daemon between two events. *)
Definition daemon_inv (ctx : fsm_context_t) : Prop :=
  fsm_inv ctx ∧ resting (current_state ctx) = true ∧
  (current_state ctx = FSM_RUNNING → record_in_sync ctx) ∧ exits_ok ctx.

(** Unfold the codes and look the value up. *)
Ltac known_exit := apply (bool_decide_unpack _); vm_compute; done.

Lemma evolves_exits_ok ctx w ctx' w' : evolves ctx w ctx' w' → exits_ok ctx → exits_ok ctx'.
Proof.
  intros Hevo. pose proof (evo_exit_new _ _ _ _ Hevo) as Hnew. unfold exits_ok.
  destruct (decide (exit_code ctx' = exit_code ctx)) as [->|Hne]; [done|]. intros _.
  specialize (Hnew Hne). set_solver.
Qed.

(** ** Proofs: a server of the call *)

Section ServerProofs.
Context `{InetLaws} `{Idn}.
Context (junk : sockaddr_storage).

Lemma check_inv {A} (o : option A) c (k : A → parsed) s :
  check o c k = POk s → ∃ a, o = Some a ∧ k a = POk s.
Proof. destruct o; [by eauto|done]. Qed.

Lemma field_inv {A} d key t (decode : gvariant → option A) dflt a :
  field d key t decode dflt = Some a →
  a = dflt ∨ ∃ v, d !! key = Some v ∧ decode v = Some a.
Proof.
  unfold field, lookup_value. destruct (d !! key) as [v|]; [|intros [= ->]; by left].
  destruct (has_type v t); [|intros [= ->]; by left]. intros Hv. right. by exists v.
Qed.

Lemma decode_address_wf d a : dict_ok d → decode_address d = inr a → sockaddr_wf a.
Proof.
  intros Hd. unfold decode_address.
  destruct (d !! "address") as [[s|bs|?|?|?|]|] eqn:E; try done.
  - destruct (parse_ip_str s sockaddr_zero) as [a'|] eqn:Hp; [|done]. intros [= <-].
    apply parse_ip_str_wf in Hp as [? _]; [done|apply sockaddr_zero_typed].
  - specialize (Hd _ _ E). simpl in Hd.
    destruct (Nat.eqb_spec (length bs) 4); [|destruct (Nat.eqb_spec (length bs) 16); [|done]];
      intros [= <-]; split; simpl; try done; try apply bytes_ok_replicate.
Qed.

Lemma decode_networks_wf v l :
  sockaddr_typed junk → decode_networks junk v = Some l → Forall network_wf l.
Proof.
  intros Hj. unfold decode_networks. destruct v as [| | | |l0|]; try done.
  rewrite mapM_Some. intros HF. induction HF as [|x n l0 l1 Hx _ IH]; constructor; [|done].
  by apply network_address_t_from_string_wf in Hx as [? _].
Qed.

(** A server that is accepted is well formed, with a domain and a port. *)
Lemma server_of_dict_wf d s :
  sockaddr_typed junk → dict_ok d → server_of_dict junk d = POk s →
  server_wf s ∧ su_routing_domains s ≠ [] ∧ server_port s ≠ 0%Z.
Proof.
  intros Hj Hd. unfold server_of_dict. destruct (decode_address d) as [|a] eqn:Ha; [done|].
  apply decode_address_wf in Ha; [|done].
  intros (port & Hport & (prio & Hprio & (proto & Hproto & (ifn & Hifn & (sec & Hsec &
    (ca & _ & (name & _ & (rd & Hrd & (sd & _ & (nets & Hnets & [= <-])%check_inv)%check_inv)
    %check_inv)%check_inv)%check_inv)%check_inv)%check_inv)%check_inv)%check_inv)%check_inv.
  assert (0 ≤ port < 65536)%Z.
  { apply field_inv in Hport as [->|(v & _ & Hv)]; [done|].
    unfold decode_port in Hv. destruct v; try done. case_match eqn:E; [|done].
    apply andb_true_iff in E. simplify_eq. lia. }
  split; [split|split]; simpl.
  - destruct Ha. split; simpl; try done. destruct (port =? 0)%Z; [|done]. by destruct proto.
  - apply field_inv in Hprio as [->|(v & E & Hv)]; [done|]. specialize (Hd _ _ E).
    by destruct v; simplify_eq/=.
  - apply field_inv in Hifn as [->|(v & _ & Hv)]; [simpl; unfold IFNAMSIZ; lia|].
    unfold decode_interface in Hv. destruct v; try done. case_match eqn:E; [|done].
    apply Nat.ltb_lt in E. by simplify_eq.
  - apply field_inv in Hsec as [->|(v & _ & Hv)]; [by right|].
    destruct v as [| | |[]| |]; simplify_eq/=; auto.
  - apply field_inv in Hproto as [->|(v & _ & Hv)]; [done|].
    destruct v; try done. simpl in Hv. by destruct (protocol_from_nstring _ _); simplify_eq.
  - apply field_inv in Hnets as [->|(v & _ & Hv)]; [constructor|]. by eapply decode_networks_wf.
  - by destruct rd.
  - unfold server_port. simpl. destruct (Z.eqb_spec port 0); [|done]. by destruct proto.
Qed.
End ServerProofs.

(** ** Proofs: the servers of a call *)

Section CallProofs.
Context `{InetLaws} `{Idn} (e : env).
Context (junk : sockaddr_storage).

Lemma is_duplicate_true kept s :
  is_duplicate kept s = true ↔
  ∃ k, k ∈ kept ∧ are_ips_equal (su_address s) (su_address k) = true
       ∧ su_interface s ≠ su_interface k.
Proof.
  unfold is_duplicate. rewrite existsb_exists. setoid_rewrite <-list_elem_of_In.
  setoid_rewrite andb_true_iff. setoid_rewrite negb_true_iff.
  by setoid_rewrite bool_decide_eq_false.
Qed.

(** The comparison ignores the priorities. *)
Lemma is_duplicate_ext kept kept' s :
  Forall2 (lowered e) kept kept' → is_duplicate kept' s = is_duplicate kept s.
Proof.
  unfold is_duplicate. induction 1 as [|x y l l' Hxy _ IH]; [done|]. simpl. rewrite IH.
  by destruct Hxy as [[_ ->]|[_ ->]].
Qed.

Lemma lower_priority_spec p :
  in_int p → in_int (lower_priority p) ∧ (lower_priority p ≤ p)%Z ∧
  (INT_MIN + 10 ≤ p → lower_priority p = p - 10)%Z.
Proof. unfold in_int, lower_priority. lia. Qed.

Lemma lowered_wf s s' : lowered e s s' → server_wf s → server_wf s'.
Proof.
  intros [[_ ->]|[_ ->]] [? ? ? ? ? ?]; split; simpl; try done. by apply lower_priority_spec.
Qed.

Lemma wp_parse_servers dicts kept kept' w :
  Forall2 (lowered e) kept kept' →
  wp (parse_servers junk dicts kept') e w (λ r w', only_clock w w' ∧
    match servers_of_dicts junk dicts with
    | inl c => r = inl c
    | inr servers => ∃ l, r = inr l ∧ Forall2 (lowered e) (first_interface kept servers) l
    end).
Proof.
  revert kept kept' w. induction dicts as [|d dicts IH]; intros kept kept' w Hk; simpl.
  { apply wp_ret. split; [done|]. by exists kept'. }
  rewrite parse_server_decodes. destruct (server_of_dict junk d) as [c|s]; [by apply wp_ret|].
  rewrite (is_duplicate_ext _ _ _ Hk). destruct (is_duplicate kept s) eqn:Hdup.
  - eapply wp_mono; [by apply (IH kept)|]. cbv beta. intros r w' [Hw Hr]. split; [done|].
    destruct (servers_of_dicts junk dicts) as [|l]; [done|]. simpl. by rewrite Hdup.
  - unfold is_wireless. wp_first wp_ask. intros wl w1 (Hwl & Hw1 & _).
    assert (Hl : lowered e s (if wl then set_priority (lower_priority (su_priority s)) s else s))
      by (destruct wl; [right|left]; by eauto).
    eapply wp_mono; [apply (IH (kept ++ [s])); by apply Forall2_app; [|constructor]|].
    cbv beta. intros r w' [Hw Hr]. split; [by eapply only_clock_trans|].
    destruct (servers_of_dicts junk dicts) as [|l]; [done|]. simpl. by rewrite Hdup.
Qed.
End CallProofs.

(** ** Proofs: the handlers *)

Section HandlerProofs.
Context `{InetLaws} `{Idn} `{GListSortLaws} `{IntOverflow} (e : env).
Context (junk : sockaddr_storage).

(** The callers that quit when the event was not expected. *)
Definition quit_post (ctx : fsm_context_t) (ev : fsm_event_t) (w : world)
    (ctx' : fsm_context_t) (w' : world) : Prop :=
  match life_next (current_state ctx) ev with
  | [] => ctx' = put_exit_code (exit_code_value EXIT_FSM_FAILURE) ctx ∧
          w_files w' = w_files w ∧ w_trace w' = w_trace w ++ [AQuit]
  | next => current_state ctx' ∈ next ∧ evolves (adopt ctx ev) w ctx' w' ∧
            (current_state ctx' = FSM_RUNNING → record_in_sync ctx')
  end.

Lemma life_next_resting s ev s' : resting s = true → s' ∈ life_next s ev → resting s' = true.
Proof.
  intros Hs. assert (forallb resting (life_next s ev) = true) as HF by (by destruct s, ev).
  rewrite forallb_forall in HF. intros Hin. by apply HF, list_elem_of_In.
Qed.

Lemma fsm_inv_put_exit code ctx : fsm_inv ctx → fsm_inv (put_exit_code code ctx).
Proof. intros [Hwf ? ? ? ?]. split; try done. by eapply set_fields_wf. Qed.

(** A new mode and new dynamic servers, as an update hands them over. *)
Lemma fsm_inv_set_update m l ctx :
  fsm_inv ctx → Forall server_wf l →
  fsm_inv (set_mode m (set_dynamic (current_dynamic_servers ctx) l ctx)).
Proof. intros [[? ? ? ? ? ?] ? ? ? ?] ?. split; [by split|done..]. Qed.

Lemma wp_transition_or_quit ctx ev w :
  fsm_inv ctx → resting (current_state ctx) = true → ev ≠ EVENT_NONE →
  wp (transition_or_quit ctx ev) e w (λ ctx' w',
    fsm_inv ctx' ∧ resting (current_state ctx') = true ∧ quit_post ctx ev w ctx' w').
Proof.
  intros Hi Hr Hev. unfold transition_or_quit.
  eapply wp_seq; [by apply wp_state_transition|]. cbv beta.
  intros r w1 (ctx1 & code & -> & Hevo & Hi1 & Hcase). apply wp_skip. cbn [fst snd].
  unfold quit_post. destruct (life_next (current_state ctx) ev) as [|s0 next] eqn:El.
  - destruct Hcase as (-> & -> & ->). wp_first wp_emit. intros _ w2 [F T].
    apply wp_ret. split; [by apply fsm_inv_put_exit|]. done.
  - destruct Hcase as (-> & Hin & Hrun). apply wp_ret. rewrite <-El in Hin.
    split; [done|]. split; [by eapply life_next_resting|]. by rewrite <-El.
Qed.

(** An event that does not change what [RUNNING] announces keeps the invariant. *)
Lemma quit_post_inv ctx ev w ctx' w' :
  daemon_inv ctx → fsm_inv ctx' → resting (current_state ctx') = true →
  quit_post ctx ev w ctx' w' → daemon_inv ctx' ∧ config ctx' = config ctx.
Proof.
  intros (_ & _ & Hsync & Hex) Hi Hr Hq. unfold quit_post in Hq.
  destruct (life_next (current_state ctx) ev).
  - destruct Hq as (-> & _). split; [|done]. do 3 (split; [done|]). known_exit.
  - destruct Hq as (_ & Hevo & Hrun). split.
    { do 3 (split; [done|]). eapply evolves_exits_ok; [exact Hevo|].
      unfold adopt. by destruct ev, (current_state ctx). }
    rewrite (evo_config _ _ _ _ Hevo).
    unfold adopt. by destruct ev, (current_state ctx).
Qed.

Lemma first_interface_wf kept servers :
  Forall server_wf kept → Forall server_wf servers → Forall server_wf (first_interface kept servers).
Proof.
  intros Hk Hs. revert kept Hk. induction Hs as [|s l Hs _ IH]; intros kept Hk; [done|]. simpl.
  apply IH. destruct (is_duplicate kept s); [done|]. apply Forall_app. auto.
Qed.

Lemma servers_of_dicts_wf dicts l :
  sockaddr_typed junk → Forall dict_ok dicts → servers_of_dicts junk dicts = inr l →
  Forall server_wf l ∧ Forall (λ s, su_routing_domains s ≠ [] ∧ server_port s ≠ 0%Z) l.
Proof.
  intros Hj Hd. revert l. induction Hd as [|d dicts Hd _ IH]; intros l; simpl; [by intros [= <-]|].
  destruct (server_of_dict junk d) as [|s] eqn:Es; [done|].
  destruct (servers_of_dicts junk dicts) as [|l0] eqn:El; [done|]. intros [= <-].
  destruct (IH _ eq_refl). apply server_of_dict_wf in Es as (? & ? & ?); [|done..]. auto.
Qed.

Lemma lowered_all_wf l l' :
  Forall2 (lowered e) l l' → Forall server_wf l → Forall server_wf l'.
Proof.
  induction 1 as [|s s' l l' Hs _ IH]; intros Hl; inversion Hl; subst; constructor; auto.
  by eapply lowered_wf.
Qed.

(** No two servers kept have the same address on different interfaces. *)
Definition one_interface (l : list server_uri_t) : Prop :=
  ∀ s s', s ∈ l → s' ∈ l → are_ips_equal (su_address s) (su_address s') = true →
          su_interface s = su_interface s'.

Lemma first_interface_one kept servers :
  one_interface kept → one_interface (first_interface kept servers).
Proof.
  revert kept. induction servers as [|s l IH]; intros kept Hk; [done|]. simpl. apply IH.
  destruct (is_duplicate kept s) eqn:Hd; [done|].
  assert (Hnew : ∀ k, k ∈ kept → are_ips_equal (su_address s) (su_address k) = true →
    su_interface s = su_interface k).
  { intros k Hin Heq. destruct (decide (su_interface s = su_interface k)); [done|].
    apply not_true_iff_false in Hd. destruct Hd. apply is_duplicate_true. by exists k. }
  intros a b Ha Hb Heq.
  apply elem_of_app in Ha as [Ha|Ha%list_elem_of_singleton];
    apply elem_of_app in Hb as [Hb|Hb%list_elem_of_singleton]; subst; auto.
  symmetry. apply Hnew; [done|]. by rewrite are_ips_equal_sym.
Qed.

Lemma one_interface_lowered l l' :
  Forall2 (lowered e) l l' → one_interface l → one_interface l'.
Proof.
  intros HF Ho s s' [i Hs]%list_elem_of_lookup [j Hs']%list_elem_of_lookup.
  destruct (Forall2_lookup_r _ _ _ _ _ HF Hs) as (a & Ha & La).
  destruct (Forall2_lookup_r _ _ _ _ _ HF Hs') as (b & Hb & Lb).
  apply list_elem_of_lookup_2 in Ha, Hb. specialize (Ho a b Ha Hb).
  by destruct La as [[_ ->]|[_ ->]], Lb as [[_ ->]|[_ ->]].
Qed.

(** What an accepted update hands to the state machine. *)
Definition handed_over (m : dnsconfd_mode_t) (l : list server_uri_t) (ctx : fsm_context_t) :
    fsm_context_t := set_mode m (set_dynamic (current_dynamic_servers ctx) l ctx).

Lemma wp_handle_update_call servers mode ctx w :
  daemon_inv ctx → sockaddr_typed junk → Forall dict_ok servers →
  wp (handle_update_call junk servers mode ctx) e w (λ r w',
    match mode_of_uint32 mode, servers_of_dicts junk servers with
    | None, _ => r = (ctx, (0%Z, "Mode is invalid")) ∧ w' = w
    | Some _, inl c => r = (ctx, (0%Z, parse_error_string c)) ∧ only_clock w w'
    | Some m, inr parsed =>
        ∃ l w1, Forall2 (lowered e) (first_interface [] parsed) l ∧ only_clock w w1 ∧
          daemon_inv r.1 ∧ quit_post (handed_over m l ctx) EVENT_UPDATE w1 r.1 w' ∧
          r.2 = (requested_configuration_serial r.1, "Update accepted")
    end).
Proof.
  intros (Hi & Hr & Hsync & Hex) Hj Hd. unfold handle_update_call.
  destruct (mode_of_uint32 mode) as [m|]; [|by apply wp_ret].
  eapply wp_seq; [by apply (wp_parse_servers e junk servers [])|]. cbv beta.
  intros r w1 [Hw1 Hp]. destruct (servers_of_dicts junk servers) as [c|parsed] eqn:Ep.
  { subst r. by apply wp_ret. }
  destruct Hp as (l & -> & Hl). destruct (servers_of_dicts_wf _ _ Hj Hd Ep) as [Hwf _].
  assert (Hlwf : Forall server_wf l).
  { eapply lowered_all_wf; [exact Hl|]. by apply first_interface_wf. }
  pose proof (fsm_inv_set_update m l ctx Hi Hlwf) as Hi'.
  eapply wp_seq; [by apply wp_transition_or_quit|]. cbv beta. intros ctx' w2 (Hi2 & Hr2 & Hq).
  apply wp_ret. cbn [fst snd]. exists l, w1. do 2 (split; [done|]). split; [|done].
  split; [done|]. split; [done|]. unfold quit_post in Hq.
  destruct (life_next (current_state (handed_over m l ctx)) EVENT_UPDATE) eqn:El.
  - change (handed_over m l ctx) with (set_mode m (set_dynamic (current_dynamic_servers ctx) l ctx)) in El.
    rewrite El in Hq. destruct Hq as (-> & _). split; [|known_exit]. cbn. intros Hst. cbn in El.
    by rewrite Hst in El.
  - change (handed_over m l ctx) with (set_mode m (set_dynamic (current_dynamic_servers ctx) l ctx)) in El.
    rewrite El in Hq. destruct Hq as (_ & Hevo & Hrun). split; [exact Hrun|].
    eapply evolves_exits_ok; [exact Hevo|]. unfold adopt. cbn. by destruct (current_state ctx).
Qed.

(** C7: an update call is answered and either refused or handed to the state
    machine.  With an invalid mode or an invalid server the reply has the serial
    0 and the message of the first error, and the context is untouched.  Else
    the reply has the serial requested last, which is not 0 and which is
    announced when the daemon runs; the mode is the one asked for; in the states
    that take an update the dynamic servers are the servers of the call, well
    formed, without those whose address came earlier on another interface, and
    with the priority of wireless interfaces lowered - always: the option
    [prioritize_wire], which the manuals describe, is not consulted -; while the
    daemon stops the servers are kept, and the stopped daemon quits. *)
Theorem update_call_correct (servers : list server_dict) (mode : Z) (ctx : fsm_context_t)
    (w : world) :
  daemon_inv ctx → sockaddr_typed junk → Forall dict_ok servers →
  wp (handle_update_call junk servers mode ctx) e w (λ r w', daemon_inv r.1 ∧
    match mode_of_uint32 mode, servers_of_dicts junk servers with
    | None, _ => r = (ctx, (0%Z, "Mode is invalid"))
    | Some _, inl c => r = (ctx, (0%Z, parse_error_string c))
    | Some m, inr parsed =>
        r.2 = (requested_configuration_serial r.1, "Update accepted") ∧ r.2.1 ≠ 0%Z ∧
        (current_state r.1 = FSM_RUNNING → current_configuration_serial r.1 = r.2.1) ∧
        resolution_mode r.1 = m ∧
        match current_state ctx with
        | FSM_STARTING | FSM_WAITING_FOR_START_JOB | FSM_RUNNING =>
            Forall2 (lowered e) (first_interface [] parsed) (current_dynamic_servers r.1) ∧
            one_interface (current_dynamic_servers r.1)
        | FSM_STOPPING => exit_code r.1 = exit_code_value EXIT_FSM_FAILURE ∧ AQuit ∈ w_trace w'
        | _ => current_dynamic_servers r.1 = current_dynamic_servers ctx
        end
    end).
Proof.
  intros Hinv Hj Hd. eapply wp_mono; [by apply wp_handle_update_call|]. cbv beta.
  destruct (mode_of_uint32 mode) as [m|]; [|by intros r w' [-> _]].
  destruct (servers_of_dicts junk servers) as [c|parsed]; [by intros r w' [-> _]|].
  intros [ctx' reply] w' (l & w1 & Hl & Hw1 & Hinv' & Hq & Hreply). cbn [fst snd] in *. subst reply.
  pose proof (inv_serial _ (proj1 Hinv')) as Hser.
  assert (Hone : one_interface l).
  { eapply one_interface_lowered; [exact Hl|]. apply first_interface_one. intros ? ? []%not_elem_of_nil. }
  split; [done|]. split; [done|]. split; [simpl; lia|].
  split; [intros Hst; by destruct (proj1 (proj2 (proj2 Hinv')) Hst)|].
  destruct Hinv as (_ & Hr & _). unfold quit_post, adopt in Hq.
  change (current_state (handed_over m l ctx)) with (current_state ctx) in Hq.
  destruct (current_state ctx); try done; cbn [life_next] in Hq;
    try (destruct Hq as (_ & [_ Hm Hs _ _ _] & _); rewrite Hm; split; [done|]; by rewrite ?Hs).
  destruct Hq as (-> & _ & ->). split; [done|]. split; [done|]. set_solver.
Qed.

Lemma wp_handle_reload_call ctx w :
  daemon_inv ctx →
  wp (handle_reload_call ctx) e w (λ r w', daemon_inv r.1 ∧ config r.1 = config ctx ∧
    quit_post ctx EVENT_RELOAD w r.1 w' ∧ r.2 = "Reload accepted").
Proof.
  intros Hinv. pose proof Hinv as (Hi & Hr & _). unfold handle_reload_call.
  eapply wp_seq; [by apply wp_transition_or_quit|]. cbv beta. intros ctx' w' (Hi' & Hr' & Hq).
  apply wp_ret. cbn [fst snd]. by destruct (quit_post_inv _ _ _ _ _ Hinv Hi' Hr' Hq).
Qed.

(** *** The status *)

Lemma json_object_set_fresh ms k v : k ∉ ms.*1 → json_object_set ms k v = ms ++ [(k, v)].
Proof.
  induction ms as [|[k' v'] ms IH]; intros Hk; [done|]. cbn in *.
  apply not_elem_of_cons in Hk as [Hne Hk]. rewrite bool_decide_eq_false_2 by congruence.
  by rewrite IH.
Qed.

Lemma json_object_get_elem ms k v :
  NoDup ms.*1 → json_object_get ms k = Some v ↔ (k, v) ∈ ms.
Proof.
  induction ms as [|[k' v'] ms IH]; intros Hnd; [set_solver|]. cbn in *.
  apply NoDup_cons in Hnd as [Hk Hnd]. rewrite elem_of_cons, <-(IH Hnd).
  case_bool_decide as E; [subst|naive_solver]. split; [by intros [= ->]; left|].
  intros [[= ->]|Hg%IH]; [done| |done]. destruct Hk. by apply (list_elem_of_fmap_2 fst _ (k, v)).
Qed.

(** The member of one domain. *)
Definition status_member (entry : string * list server_uri_t) : option (string * json) :=
  uris ← mapM status_uri entry.2; Some (entry.1, JArray (JString <$> uris)).

Lemma cache_config_members_mapM entries acc :
  NoDup (acc.*1 ++ entries.*1) →
  cache_config_members entries acc = (λ ms, acc ++ ms) <$> mapM status_member entries.
Proof.
  revert acc. induction entries as [|[k l] entries IH]; intros acc Hnd.
  { simpl. by rewrite app_nil_r. }
  change (mapM status_member ((k, l) :: entries))
    with (y ← status_member (k, l); ms ← mapM status_member entries; Some (y :: ms)).
  assert (status_member (k, l)
    = (λ uris, (k, JArray (JString <$> uris))) <$> mapM status_uri l) as -> by reflexivity.
  cbn [cache_config_members]. destruct (mapM status_uri l) as [uris|]; [|done]. simpl in Hnd.
  cbn [mbind option_bind fmap option_fmap option_map].
  rewrite json_object_set_fresh by (apply NoDup_app in Hnd as (_ & Hn & _); set_solver).
  rewrite IH; [|by rewrite fmap_app, <-app_assoc].
  destruct (mapM status_member entries); [|done]. simpl. by rewrite <-app_assoc.
Qed.

Lemma status_uri_Some s : server_wf s → is_Some (status_uri s).
Proof.
  intros Hs. destruct (ip_to_str_Some _ (sw_address _ Hs)) as [ip Hip].
  unfold status_uri. rewrite Hip. by eexists.
Qed.

Lemma status_member_fst entries ms : mapM status_member entries = Some ms → ms.*1 = entries.*1.
Proof.
  rewrite mapM_Some. induction 1 as [|[k l] m entries ms Hm _ IH]; [done|]. cbn in *.
  unfold status_member in Hm. destruct (mapM status_uri _); simplify_eq/=. by rewrite IH.
Qed.

Lemma server_uri_to_json_Some s : server_wf s → is_Some (server_uri_to_json s).
Proof. intros Hs. destruct (server_json_inverse sockaddr_zero s Hs) as (j & -> & _). eauto. Qed.

(** The object of the servers the cache was given. *)
Definition cache_object (ot : option server_table) (members : list (string * json)) : Prop :=
  NoDup members.*1 ∧
  ∀ d, match ot ≫= λ t, t !! d with
       | Some l => ∃ uris, mapM status_uri l = Some uris ∧
           json_object_get members d = Some (JArray (JString <$> uris))
       | None => json_object_get members d = None
       end.

Lemma cache_object_entries t entries members :
  entries ≡ₚ map_to_list t → mapM status_member entries = Some members →
  cache_object (Some t) members.
Proof.
  intros Hperm Hm. assert (Hnd : NoDup members.*1).
  { rewrite (status_member_fst _ _ Hm), Hperm. apply NoDup_fst_map_to_list. }
  split; [done|]. intros d. cbn [mbind option_bind]. apply mapM_Some in Hm.
  destruct (t !! d) as [l|] eqn:Ed.
  - assert ((d, l) ∈ entries) as [i Hi]%list_elem_of_lookup
      by (rewrite Hperm; by apply elem_of_map_to_list).
    destruct (Forall2_lookup_l _ _ _ _ _ Hm Hi) as (m & Hmi & Hml).
    unfold status_member in Hml. cbn in Hml. destruct (mapM status_uri l) as [uris|]; [|done].
    exists uris. split; [done|]. apply json_object_get_elem; [done|].
    apply list_elem_of_lookup_2 in Hmi. by simplify_eq/=.
  - destruct (json_object_get members d) as [v|] eqn:Eg; [|done].
    apply json_object_get_elem in Eg as [i Hi]%list_elem_of_lookup; [|done].
    destruct (Forall2_lookup_r _ _ _ _ _ Hm Hi) as ([k l] & Hki & Hml).
    unfold status_member in Hml. cbn in Hml. destruct (mapM status_uri l); simplify_eq/=.
    apply list_elem_of_lookup_2 in Hki. rewrite Hperm in Hki.
    apply elem_of_map_to_list in Hki. congruence.
Qed.

Lemma wp_construct_cache_config_status ot w :
  (∀ t, ot = Some t → table_wf t) →
  wp (construct_cache_config_status ot) e w (λ j w', only_clock w w' ∧
    ∃ members, j = JObject members ∧ cache_object ot members).
Proof.
  intros Hwf. destruct ot as [t|]; simpl.
  2: { apply wp_ret. split; [done|]. exists []. split; [done|]. split; [constructor|done]. }
  specialize (Hwf t eq_refl). wp_first wp_iterate. intros entries w1 [Hperm Hw1].
  assert (is_Some (mapM status_member entries)) as [members Hm].
  { apply mapM_is_Some, Forall_forall. intros [d l] Hin. rewrite Hperm in Hin.
    apply elem_of_map_to_list in Hin. apply Hwf in Hin as [_ Hl].
    destruct (proj2 (mapM_is_Some status_uri l)) as [uris Hu].
    - eapply Forall_impl; [exact Hl|]. intros s Hs. by apply status_uri_Some.
    - unfold compose, status_member. cbn. rewrite Hu. by eexists. }
  eapply wp_bind, wp_deref. exists members. split.
  { rewrite cache_config_members_mapM, Hm; [done|]. cbn. rewrite Hperm.
    apply NoDup_fst_map_to_list. }
  apply wp_ret. split; [done|]. exists members. split; [done|]. by eapply cache_object_entries.
Qed.

Lemma status_call_wp (ctx : fsm_context_t) (w : world) :
  fsm_inv ctx →
  wp (handle_status_call ctx) e w (λ j w', only_clock w w' ∧
    ∃ members servers,
      j = JObject [("service", JString "unbound");
                   ("mode", JString (dnsconfd_mode_t_to_string (resolution_mode ctx)));
                   ("cache_config", JObject members);
                   ("state", JString (fsm_state_t_to_string (current_state ctx)));
                   ("servers", JArray servers)] ∧
      cache_object (current_unbound_domain_to_servers ctx) members ∧
      mapM server_uri_to_json (all_servers ctx) = Some servers).
Proof.
  intros [[_ _ _ Hall _ Hun] _ _ _ _]. unfold handle_status_call, config_to_json.
  eapply wp_seq; [by apply wp_construct_cache_config_status|]. cbv beta.
  intros j w1 (Hw1 & members & -> & Hobj).
  assert (is_Some (mapM server_uri_to_json (all_servers ctx))) as [servers Hs].
  { apply mapM_is_Some. eapply Forall_impl; [exact Hall|]. intros s Hs.
    by apply server_uri_to_json_Some. }
  apply wp_bind, wp_deref. exists servers. split; [done|]. apply wp_ret.
  split; [done|]. by exists members, servers.
Qed.

(** The status call does not fail, changes nothing and reports the context:
    the mode, the state, all servers in order, and for each domain the cache was
    configured with, and for no other, the URIs of its servers in order. *)
Theorem status_call_correct (ctx : fsm_context_t) (w : world) :
  fsm_inv ctx →
  wp (handle_status_call ctx) e w (λ j w', only_clock w w' ∧
    ∃ members servers,
      j = JObject [("service", JString "unbound");
                   ("mode", JString (dnsconfd_mode_t_to_string (resolution_mode ctx)));
                   ("cache_config", JObject members);
                   ("state", JString (fsm_state_t_to_string (current_state ctx)));
                   ("servers", JArray servers)] ∧
      cache_object (current_unbound_domain_to_servers ctx) members ∧
      mapM server_uri_to_json (all_servers ctx) = Some servers).
Proof. apply status_call_wp. Qed.

(** *** The life of the daemon *)

(** The event of the state machine a message of the bus or a signal stands for. *)
Definition life_event (event : daemon_event) : option fsm_event_t :=
  match event with
  | DCall (CallUpdate _ _) => Some EVENT_UPDATE
  | DCall CallReload => Some EVENT_RELOAD
  | DNameAcquired => Some EVENT_KICKOFF
  | DSigterm => Some EVENT_STOP
  | DCall CallStatus | DNameLost | DStatusFile _ => None
  end.

(** The state after an event: as before, or along the life graph. *)
Definition life_step (event : daemon_event) (s s' : fsm_state_t) : Prop :=
  s' = s ∨
  match event with
  | DStatusFile _ => s' ∈ life_next s EVENT_RELOAD ++ life_next s EVENT_JOB_SUCCESS
                           ++ life_next s EVENT_JOB_FAILURE
  | _ => ∃ ev, life_event event = Some ev ∧ s' ∈ life_next s ev
  end.

Lemma quit_post_life ctx ev w ctx' w' :
  quit_post ctx ev w ctx' w' →
  current_state ctx' = current_state ctx ∨ current_state ctx' ∈ life_next (current_state ctx) ev.
Proof.
  unfold quit_post. destruct (life_next (current_state ctx) ev); [intros (-> & _); by left|].
  intros (? & _). by right.
Qed.

Lemma wp_on_file_changed sm ev w :
  wp (on_file_changed sm ev) e w (λ _ _, True).
Proof.
  unfold on_file_changed. destruct ev; [..|by apply wp_ret];
    (wp_first wp_g_file_get_contents; intros [c|] w1 _; by apply wp_ret).
Qed.

Lemma wp_on_status_file ctx ev w :
  daemon_inv ctx →
  wp (on_status_file ev ctx) e w (λ ctx' _, daemon_inv ctx' ∧ config ctx' = config ctx ∧
    life_step (DStatusFile ev) (current_state ctx) (current_state ctx')).
Proof.
  intros Hinv. pose proof Hinv as (Hi & Hr & Hsync & Hex). unfold on_status_file.
  eapply wp_seq; [apply wp_on_file_changed|]. intros [result|] w1 _.
  2: { apply wp_ret. split; [done|]. split; [done|]. by left. }
  unfold on_systemd_job_finished. eapply wp_seq.
  { apply wp_state_transition; [done|done|]. unfold job_event. by repeat case_match. }
  cbv beta. intros r w2 (ctx' & code & -> & Hevo & Hi' & Hcase). apply wp_skip, wp_ret. cbn [fst].
  assert (adopt ctx (job_event result) = ctx) as Had by (unfold adopt, job_event; by repeat case_match).
  rewrite Had in Hevo.
  destruct (life_next (current_state ctx) (job_event result)) as [|s0 l] eqn:El.
  - destruct Hcase as (_ & -> & _). split; [done|]. split; [done|]. by left.
  - destruct Hcase as (_ & Hin & Hrun). rewrite <-El in Hin. split.
    + split; [done|]. split; [by eapply life_next_resting|]. split; [done|].
      by eapply evolves_exits_ok.
    + split; [apply Hevo|]. right. unfold job_event in Hin. repeat case_match; set_solver.
Qed.

Lemma wp_quit_handler ctx ev w (event : daemon_event) :
  daemon_inv ctx → life_event event = Some ev → ev ≠ EVENT_NONE →
  wp (transition_or_quit ctx ev) e w (λ ctx' _, daemon_inv ctx' ∧ config ctx' = config ctx ∧
    ∃ ev, life_event event = Some ev ∧
      (current_state ctx' = current_state ctx ∨ current_state ctx' ∈ life_next (current_state ctx) ev)).
Proof.
  intros Hinv Hle Hev. pose proof Hinv as (Hi & Hr & _).
  eapply wp_mono; [by apply wp_transition_or_quit|]. cbv beta. intros ctx' w' (Hi' & Hr' & Hq).
  destruct (quit_post_inv _ _ _ _ _ Hinv Hi' Hr' Hq). split; [done|]. split; [done|].
  exists ev. split; [done|]. by eapply quit_post_life.
Qed.

Lemma life_step_intro event ev s s' :
  life_event event = Some ev → s' = s ∨ s' ∈ life_next s ev → life_step event s s'.
Proof.
  intros Hle [->|Hin]; [by left|]. right. destruct event; [by exists ev..|done].
Qed.

Lemma wp_dispatch event ctx w :
  daemon_inv ctx → sockaddr_typed junk → event_ok event →
  wp (dispatch junk event ctx) e w (λ ctx' _, daemon_inv ctx' ∧ config ctx' = config ctx ∧
    life_step event (current_state ctx) (current_state ctx')).
Proof.
  intros Hinv Hj Hok. destruct event as [[servers mode| |]| | | |ev]; cbn [dispatch handle_method_call].
  - apply wp_assoc. eapply wp_seq; [by apply wp_handle_update_call|]. cbv beta.
    intros r w1 Hp. apply wp_skip, wp_ret. cbn [fst].
    destruct (mode_of_uint32 mode) as [m|];
      [destruct (servers_of_dicts junk servers) as [c|parsed]|].
    + destruct Hp as [-> _]. split; [done|]. split; [done|]. by left.
    + destruct Hp as (l & w2 & _ & _ & Hinv' & Hq & _). split; [done|]. split.
      * unfold quit_post in Hq. case_match; [by destruct Hq as (-> & _)|].
        destruct Hq as (_ & Hevo & _). rewrite (evo_config _ _ _ _ Hevo). unfold adopt.
        by destruct (current_state (handed_over m l ctx)).
      * by eapply life_step_intro, (quit_post_life (handed_over m l ctx)).
    + destruct Hp as [-> _]. split; [done|]. split; [done|]. by left.
  - apply wp_assoc. eapply wp_seq; [by apply status_call_wp, Hinv|]. intros j w1 _.
    apply wp_skip, wp_ret. split; [done|]. split; [done|]. by left.
  - apply wp_assoc. eapply wp_seq; [by apply wp_handle_reload_call|]. cbv beta.
    intros r w1 (Hinv' & Hcfg & Hq & _). apply wp_skip, wp_ret. cbn [fst].
    split; [done|]. split; [done|]. by eapply life_step_intro, quit_post_life.
  - eapply wp_mono; [by apply (wp_quit_handler _ _ _ DNameAcquired)|]. cbv beta.
    intros ctx' w' (? & ? & ev & Hle & Hs). split; [done|]. split; [done|]. by eapply life_step_intro.
  - unfold on_name_lost. wp_first wp_emit. intros _ w1 _. apply wp_ret.
    destruct Hinv as (Hi & Hr & Hsync & Hex). split; [split; [by apply fsm_inv_put_exit|]; do 2 (split; [done|]); known_exit|].
    split; [done|]. by left.
  - eapply wp_mono; [by apply (wp_quit_handler _ _ _ DSigterm)|]. cbv beta.
    intros ctx' w' (? & ? & ev & Hle & Hs). split; [done|]. split; [done|]. by eapply life_step_intro.
  - by apply wp_on_status_file.
Qed.
End HandlerProofs.

Section Life.
Context `{InetLaws} `{Idn} `{GListSortLaws} `{IntOverflow}.
Context (junk : sockaddr_storage).

Lemma initial_daemon_inv cfg : config_wf cfg → daemon_inv (initial_context cfg).
Proof. intros Hc. split; [by apply initial_inv|]. do 2 (split; [done|]). known_exit. Qed.

Lemma daemon_reaches_inv cfg ctx :
  config_wf cfg → sockaddr_typed junk → daemon_reaches junk cfg ctx →
  daemon_inv ctx ∧ config ctx = cfg.
Proof.
  intros Hc Hj. induction 1 as [|ctx event e w ctx' w' _ [Hinv Hcfg] Hok Hrun].
  { split; [by apply initial_daemon_inv|done]. }
  destruct (wp_run _ _ _ _ _ _ Hrun (wp_dispatch e junk event ctx w Hinv Hj Hok)) as (? & ? & _).
  split; [done|]. congruence.
Qed.

(** C2: whatever events the main loop dispatches, in whatever order, and
    whatever the environment does in between: between two events the daemon is
    in a state it can sleep in, with the configuration it was started with and
    well-formed data; when it is running, it has put resolv.conf aside, its record
    of what it gave the cache - the table the next update is compared with - is
    the servers in use of the current table, and the serial it announces is the
    one requested last, which is not 0.  (What a cache restarted by a reload holds
    is another matter: [stale_forwards] of Liveness.v.) *)
Theorem daemon_invariant (cfg : dnsconfd_config_t) (ctx : fsm_context_t) :
  config_wf cfg → sockaddr_typed junk → daemon_reaches junk cfg ctx →
  resting (current_state ctx) = true ∧ config ctx = cfg ∧ context_wf ctx ∧
  (0 < requested_configuration_serial ctx < UINT_MOD)%Z ∧
  (current_state ctx = FSM_RUNNING → record_in_sync ctx ∧ is_Some (resolv_conf_backup ctx)).
Proof.
  intros Hc Hj Hr. destruct (daemon_reaches_inv _ _ Hc Hj Hr) as [(Hi & Hrest & Hsync & _) Hcfg].
  split; [done|]. split; [done|]. split; [apply Hi|]. split; [apply Hi|]. intros Hst.
  split; [by apply Hsync|]. apply Hi. by rewrite Hst.
Qed.

(** C3: the daemon never gets stuck: in every context it can reach, every
    event is handled to the end - no null pointer is dereferenced, no loop runs
    on - and the state moves only along the life graph. *)
Theorem daemon_progress (cfg : dnsconfd_config_t) (ctx : fsm_context_t) (event : daemon_event)
    (e : env) (w : world) :
  config_wf cfg → sockaddr_typed junk → daemon_reaches junk cfg ctx → event_ok event →
  ∃ ctx' w', dispatch junk event ctx e w = Some (ctx', w') ∧ daemon_reaches junk cfg ctx' ∧
    life_step event (current_state ctx) (current_state ctx').
Proof.
  intros Hc Hj Hr Hok. destruct (daemon_reaches_inv _ _ Hc Hj Hr) as [Hinv _].
  destruct (wp_exists _ _ _ _ (wp_dispatch e junk event ctx w Hinv Hj Hok))
    as (ctx' & w' & Hrun & _ & _ & Hs).
  exists ctx', w'. split; [done|]. split; [|done]. by eapply daemon_steps.
Qed.
End Life.

(** ** Witnesses *)

Definition ex_dict (last : string) : server_dict :=
  {["address" := VString ("10.0.0." +:+ last); "port" := VInt32 0; "ca" := VString ex_ca]}.
Definition ex_dicts : list server_dict := [ex_dict "9"; ex_dict "7"; ex_dict "9"].

(** The context after an event, the start job being finished before it. *)
Definition ex_ready : world :=
  World 100 {["/etc/resolv.conf" := "nameserver 192.0.2.1"; STATUS_FILE := "ready"]} false [].
Definition ex_after (event : daemon_event) (ctx : fsm_context_t) : fsm_context_t :=
  match dispatch sockaddr_zero event ctx ex_env ex_ready with
  | Some (ctx', _) => ctx'
  | None => ctx
  end.

(** The bus name is acquired, unbound starts, a client updates the servers. *)
Definition ex_started : fsm_context_t := ex_after DNameAcquired (initial_context ex_config).
Definition ex_ran : fsm_context_t :=
  ex_after (DStatusFile G_FILE_MONITOR_EVENT_CREATED) ex_started.
Definition ex_live : fsm_context_t := ex_after (DCall (CallUpdate ex_dicts 1)) ex_ran.

Example ex_live_state :
  (current_state ex_started, current_state ex_ran, current_state ex_live,
   length (current_dynamic_servers ex_live), current_configuration_serial ex_live)
  = (FSM_WAITING_FOR_START_JOB, FSM_RUNNING, FSM_RUNNING, 3, 3%Z).
Proof. vm_compute. reflexivity. Qed.

Lemma ex_dicts_ok : Forall dict_ok ex_dicts.
Proof.
  assert (∀ last, dict_ok (ex_dict last)) as Hd.
  { intros last k v. unfold ex_dict. rewrite !lookup_insert_Some, lookup_singleton_Some.
    intros [[_ <-]|[_ [[_ <-]|[_ [_ <-]]]]]; simpl; unfold in_int, INT_MIN, INT_MAX; try lia; done. }
  repeat constructor; apply Hd.
Qed.

(** An event of the sample run is dispatched to its end. *)
Lemma ex_after_reaches event ctx :
  event_ok event → daemon_reaches sockaddr_zero ex_config ctx →
  daemon_reaches sockaddr_zero ex_config (ex_after event ctx).
Proof.
  intros Hok Hr. unfold ex_after. destruct (dispatch _ _ _ _ _) as [[ctx' w']|] eqn:E; [|done].
  by eapply daemon_steps.
Qed.

Lemma ex_live_reached : daemon_reaches sockaddr_zero ex_config ex_live.
Proof.
  apply ex_after_reaches; [apply ex_dicts_ok|]. apply ex_after_reaches; [done|].
  apply ex_after_reaches; [done|]. constructor.
Qed.

Definition ex_parsed : list server_uri_t :=
  match servers_of_dicts sockaddr_zero ex_dicts with inr l => l | inl _ => [] end.

Lemma ex_decoded : servers_of_dicts sockaddr_zero ex_dicts = inr ex_parsed.
Proof. vm_compute. reflexivity. Qed.

Theorem update_call_correct_witness :
  wp (handle_update_call sockaddr_zero ex_dicts 1 (initial_context ex_config)) ex_env ex_world
    (λ r w', daemon_inv r.1 ∧
      r.2 = (requested_configuration_serial r.1, "Update accepted") ∧ r.2.1 ≠ 0%Z ∧
      (current_state r.1 = FSM_RUNNING → current_configuration_serial r.1 = r.2.1) ∧
      resolution_mode r.1 = MODE_PREFER ∧
      Forall2 (lowered ex_env) (first_interface [] ex_parsed) (current_dynamic_servers r.1) ∧
      one_interface (current_dynamic_servers r.1)).
Proof.
  eapply wp_mono.
  - apply (update_call_correct ex_env sockaddr_zero ex_dicts 1 (initial_context ex_config) ex_world).
    + apply initial_daemon_inv, ex_config_wf.
    + apply sockaddr_zero_typed.
    + apply ex_dicts_ok.
  - intros r w'. rewrite ex_decoded. exact (λ x, x).
Defined.

Theorem status_call_correct_witness :
  wp (handle_status_call ex_running) ex_env ex_world (λ j w', only_clock ex_world w' ∧
    ∃ members servers,
      j = JObject [("service", JString "unbound");
                   ("mode", JString "backup");
                   ("cache_config", JObject members);
                   ("state", JString "RUNNING");
                   ("servers", JArray servers)] ∧
      cache_object (current_unbound_domain_to_servers ex_running) members ∧
      mapM server_uri_to_json (all_servers ex_running) = Some servers).
Proof. apply (status_call_correct ex_env ex_running ex_world). apply ex_running_inv. Defined.

Theorem daemon_invariant_witness :
  record_in_sync ex_live ∧ is_Some (resolv_conf_backup ex_live).
Proof.
  apply (daemon_invariant sockaddr_zero ex_config ex_live).
  - apply ex_config_wf.
  - apply sockaddr_zero_typed.
  - apply ex_live_reached.
  - vm_compute. reflexivity.
Defined.

Theorem daemon_progress_witness :
  ∃ ctx' w', dispatch sockaddr_zero DSigterm ex_live ex_env ex_ready = Some (ctx', w') ∧
    daemon_reaches sockaddr_zero ex_config ctx' ∧
    life_step DSigterm (current_state ex_live) (current_state ctx').
Proof.
  apply (daemon_progress sockaddr_zero ex_config ex_live DSigterm ex_env ex_ready).
  - apply ex_config_wf.
  - apply sockaddr_zero_typed.
  - apply ex_live_reached.
  - exact I.
Defined.
