(* ===== verification/Liveness.v ===== *)
(** * What the daemon achieves when the system cooperates

    In an environment where no call fails and whose answers do not change, the
    daemon started, or handed new servers, either reaches [RUNNING] after the
    service of the cache reported itself ready once or twice, or goes on
    restarting the cache for ever; which of the two is decided by the CAs that
    [write_configuration] and [update] pick. *)

From S2P Require Import Prelude CLib GLib SockAddr NetworkAddress ServerUri ServerTable.
From S2P Require Import ConfigData World UnboundSelect FsmContext UnboundConf UnboundControl.
From S2P Require Import ResolvConf Service Fsm DbusServer Daemon.

(** ** Specification *)

(** No call fails, no command fails, and the files that can be read and the
    order of a table stay as they are. *)
Record steady (e : env) : Prop := {
  st_reliable : reliable e;
  st_commands : commands_succeed e;
  st_access n p : env_access e n p = env_access e 0 p;
  st_order n : env_order e n = env_order e 0
}.

(** The CA that is picked for a table. *)
Definition steady_ca (e : env) (t : option server_table) (mode : dnsconfd_mode_t)
    (cfg : dnsconfd_config_t) : option string :=
  match t ≫= (λ t, effective_ca_from_uris (env_order e 0 t) mode) with
  | Some ca => Some ca
  | None => List.find (env_access e 0) (config_cas cfg)
  end.

Section Rounds.
Context `{Inet} `{Idn} `{GListSort} `{IntOverflow}.

(** The table of all servers, and the CAs of it and of the servers in use: the
    first is written to the configuration of the cache, the second is what an
    update compares with it. *)
Definition full_table (cfg : dnsconfd_config_t) (dynamic : list server_uri_t) : option server_table :=
  server_list_to_hash_table (static_servers cfg ++ dynamic).

Definition written_ca (e : env) mode cfg dynamic := steady_ca e (full_table cfg dynamic) mode cfg.
Definition wanted_ca (e : env) mode cfg dynamic :=
  steady_ca e (used_of mode <$> full_table cfg dynamic) mode cfg.

(** The last thing the daemon did was to announce that it is ready with the
    serial [serial]. *)
Definition announced (serial : Z) (w : world) : Prop :=
  ∃ before, w_trace w = before ++ [ANotify "READY=1"; ASerialSignal serial].

(** The daemon runs with the request [serial] and has announced it. *)
Definition up (serial : Z) (ctx : fsm_context_t) (w : world) : Prop :=
  current_state ctx = FSM_RUNNING ∧ requested_configuration_serial ctx = serial ∧ announced serial w.

(** The contents resolv.conf is to be restored to can be had. *)
Definition resolv_known (path : string) (ctx : fsm_context_t) (w : world) : Prop :=
  is_Some (resolv_conf_backup ctx) ∨ is_Some (w_files w !! path).

(** The daemon restarts the cache with the configuration written for [ctx]. *)
Record restarting (e : env) (path : string) (ctx ctx' : fsm_context_t) (w' : world) : Prop := {
  rs_state : current_state ctx' = FSM_WAITING_FOR_START_JOB;
  rs_config : config ctx' = config ctx;
  rs_mode : resolution_mode ctx' = resolution_mode ctx;
  rs_dynamic : current_dynamic_servers ctx' = current_dynamic_servers ctx;
  rs_table : current_domain_to_servers ctx' = full_table (config ctx) (current_dynamic_servers ctx);
  rs_ca : effective_ca ctx'
    = written_ca e (resolution_mode ctx) (config ctx) (current_dynamic_servers ctx);
  rs_expected : sm_expected_status (service_management_ctx ctx') = Some "ready";
  rs_control : w_files w' !! CONTROL_FILE = Some "restart";
  rs_known : resolv_known path ctx' w'
}.

(** The daemon waits for the cache to restart. *)
Definition waiting (e : env) (path : string) (ctx : fsm_context_t) (w : world) : Prop :=
  restarting e path ctx ctx w.

(** The CA of the servers of the daemon that are in use. *)
Definition ca_wanted (e : env) (ctx : fsm_context_t) : option string :=
  wanted_ca e (resolution_mode ctx) (config ctx) (current_dynamic_servers ctx).

(** The CA of all the servers the daemon has. *)
Definition ca_written (e : env) (ctx : fsm_context_t) : option string :=
  written_ca e (resolution_mode ctx) (config ctx) (current_dynamic_servers ctx).

(** What a daemon ends up with: if [P] it runs with the request [serial], else it
    waits for another restart. *)
Definition arrived (e : env) (path : string) (P : Prop) `{Decision P} (serial : Z)
    (ctx : fsm_context_t) (w : world) : Prop :=
  if decide P then up serial ctx w else waiting e path ctx w.

(** A context with the same configuration, mode and dynamic servers. *)
Definition same_servers (ctx ctx' : fsm_context_t) : Prop :=
  config ctx' = config ctx ∧ resolution_mode ctx' = resolution_mode ctx ∧
  current_dynamic_servers ctx' = current_dynamic_servers ctx.

(** No server brings a CA. *)
Definition no_ca (l : list server_uri_t) : Prop :=
  ∀ s, s ∈ l → su_certification_authority s = None.

(** The service manager reports that the cache is ready, and the file monitor
    tells the daemon. *)
Context (junk : sockaddr_storage).

Definition ready_round (ctx : fsm_context_t) : M fsm_context_t :=
  set_file STATUS_FILE "ready";;
  dispatch junk (DStatusFile G_FILE_MONITOR_EVENT_CHANGES_DONE_HINT) ctx.

Fixpoint ready_rounds (n : nat) (ctx : fsm_context_t) : M fsm_context_t :=
  match n with
  | 0 => mret ctx
  | S n => ctx ← ready_round ctx; ready_rounds n ctx
  end.
End Rounds.

(** ** Proofs: the CA in a steady environment *)

Section Steady.
Context `{InetLaws} `{GListSortLaws} `{IntOverflow} (e : env) (Hsteady : steady e).

Lemma wlp_first_accessible paths w :
  wlp e (first_accessible paths) w (λ r _, r = List.find (env_access e 0) paths).
Proof.
  revert w. induction paths as [|p paths IH]; intros w; [by apply wlp_ret|]. cbn [first_accessible List.find].
  eapply (wlp_seq _ _ _ _ (λ b, b = env_access e 0 p)).
  { intros b w' Hr. destruct (wlp_wp _ _ _ _ (wp_access e p w) _ _ Hr) as [-> _].
    apply st_access, Hsteady. }
  intros b w1 ->. destruct (env_access e 0 p); [by apply wlp_ret|apply IH].
Qed.

Lemma wlp_get_effective_ca t mode cfg w :
  wlp e (get_effective_ca t mode cfg) w (λ r _, r = steady_ca e t mode cfg).
Proof.
  unfold get_effective_ca, steady_ca.
  eapply (wlp_seq _ _ _ _ (λ r, r = t ≫= (λ t, effective_ca_from_uris (env_order e 0 t) mode))).
  { destruct t as [t|]; [|by apply wlp_ret]. apply wlp_bind.
    intros l w1 ->%wlp_iterate. apply wlp_ret. by rewrite (st_order _ Hsteady). }
  intros r w1 ->. destruct (t ≫= _); [by apply wlp_ret|]. unfold effective_ca_from_config.
  apply wlp_bind, wlp_deref. intros cas Hcas. unfold config_cas. rewrite Hcas.
  apply wlp_first_accessible.
Qed.

Lemma steady_ca_Some t mode cfg : ca_available e cfg → is_Some (steady_ca e t mode cfg).
Proof.
  intros (p & Hp & Hacc). unfold steady_ca. destruct (t ≫= _); [by eexists|].
  destruct (List.find _ _) eqn:E; [by eexists|].
  apply list_elem_of_In in Hp. pose proof (List.find_none _ _ E p Hp) as Hn. by rewrite Hacc in Hn.
Qed.

(** *** What is written, and what an update wants *)

Lemma wlp_write_configuration ctx w :
  wlp e (write_configuration ctx) w (λ r _, r.2 = Success →
    effective_ca r.1
    = steady_ca e (current_domain_to_servers ctx) (resolution_mode ctx) (config ctx)).
Proof.
  unfold write_configuration, close_and_fail. apply wlp_skip. intros [] w1; cbn [negb].
  2: by apply wlp_ret.
  apply wlp_skip. intros _ w2. apply wlp_skip. intros [|msg] w3.
  2: { apply wlp_skip. intros _ w4. by apply wlp_ret. }
  eapply wlp_seq; [apply wlp_get_effective_ca|]. cbv beta. intros ca w4 <-. destruct ca as [ca|].
  2: { apply wlp_skip. intros _ w5. by apply wlp_ret. }
  repeat first [by apply wlp_ret|apply wlp_skip; intros ? ?|case_match].
Qed.

Lemma wlp_kickoff ctx w :
  wlp e (fsm_starting_event_kickoff ctx) w (λ r _, r.2 = EVENT_SUCCESS →
    effective_ca r.1
    = steady_ca e (current_domain_to_servers (refreshed ctx)) (resolution_mode ctx) (config ctx)).
Proof.
  unfold fsm_starting_event_kickoff. rewrite (surjective_pairing (update_context ctx)).
  change (update_context ctx).1 with (refreshed ctx). cbv beta iota.
  apply wlp_skip. intros [sm []] w1; cbn [fst snd negb]; [|by apply wlp_ret].
  eapply wlp_seq.
  { intros r w2 Hr. exact (wlp_write_configuration _ _ _ _ Hr). }
  cbv beta. intros [ctx' []] w2 Hr; apply wlp_ret; [by auto|done].
Qed.

Lemma wlp_update ctx t w :
  context_wf ctx → current_domain_to_servers ctx = Some t →
  wlp e (update ctx) w (λ r _,
    let wanted := steady_ca e (Some (used_of (resolution_mode ctx) t)) (resolution_mode ctx)
                    (config ctx) in
    match r with
    | UpdateDone _ => wanted = effective_ca ctx
    | UpdateReload => wanted ≠ effective_ca ctx
    | UpdateError _ => True
    end).
Proof.
  intros Hwf Ht. pose proof (xw_table _ Hwf _ Ht) as Htw. unfold update. rewrite Ht.
  apply wlp_bind, wlp_deref. intros _ [= <-].
  eapply (wlp_seq _ _ _ _ (λ l, l ≡ₚ map_to_list t)).
  { intros l w1 ->%wlp_iterate. apply hash_entries_perm. }
  intros entries w1 Hp. rewrite (used_table_spec _ _ _ Htw Hp). apply wlp_bind, wlp_deref.
  intros _ [= <-]. eapply wlp_seq; [apply wlp_get_effective_ca|]. cbv beta. intros r w2 Hr.
  rewrite <-Hr. destruct r as [new_ca|]; [|by apply wlp_ret].
  apply wlp_bind, wlp_deref. intros ca ->. case_bool_decide as Heq; cbn [negb].
  2: { apply wlp_ret. congruence. }
  repeat first [by apply wlp_ret; subst|apply wlp_skip; intros ? ?|case_match].
Qed.

(** *** Restarting the cache *)

Context (path : string).
Context (Hconf : path ≠ unbound_conf_path) (Hstatus : path ≠ STATUS_FILE)
  (Hcontrol : path ≠ CONTROL_FILE).

(** What the kickoff leaves of the context it started from. *)
Definition kicked (ctx ctx' : fsm_context_t) (w w' : world) : Prop :=
  ∃ sm, ctx' = set_effective_ca
      (written_ca e (resolution_mode ctx) (config ctx) (current_dynamic_servers ctx))
      (set_service_ctx sm (refreshed ctx)) ∧
    w_files w' !! path = w_files w !! path.

Lemma wp_steady_kickoff ctx w :
  context_wf ctx → ca_available e (config ctx) →
  wp (fsm_starting_event_kickoff ctx) e w (λ r w', r.2 = EVENT_SUCCESS ∧ kicked ctx r.1 w w').
Proof.
  intros Hwf Hca. eapply wp_mono.
  { apply wp_wlp; [by apply wp_kickoff|apply wlp_kickoff]. }
  cbv beta. intros [ctx' ev] w' [(ca & sm & Hctx & F & _ & _ & Hok & _) Heff]. cbn [fst snd] in *.
  assert (ev = EVENT_SUCCESS) as Hev by (apply Hok; [apply Hsteady|done]).
  split; [done|]. specialize (Heff Hev). subst ctx'. exists sm. split; [|by apply F].
  f_equal. exact Heff.
Qed.

(** From the written configuration to the state in which the start is awaited. *)
Lemma wp_steady_restart fuel ctx ctx' w0 w :
  kicked ctx ctx' w0 w → resolv_known path ctx w0 →
  wp (transition_loop (S (S fuel)) (set_current_state FSM_CONFIGURING_DNS_MANAGER ctx')
        EVENT_SUCCESS) e w
    (λ r w', ∃ c, r = Some (c, 0%Z) ∧ restarting e path ctx c w' ∧
      requested_configuration_serial c = next_serial (requested_configuration_serial ctx)).
Proof.
  intros (sm & -> & Hfile) Hknown.
  eapply (wp_loop_first _ _ _ _ _ (λ r w', ∃ sm', sm_expected_status sm' = Some "ready" ∧
    r = Some (set_current_state FSM_SUBMITTING_START_JOB (set_service_ctx sm'
      (set_current_state FSM_CONFIGURING_DNS_MANAGER (set_effective_ca
        (written_ca e (resolution_mode ctx) (config ctx) (current_dynamic_servers ctx))
        (set_service_ctx sm (refreshed ctx))))), EVENT_SUCCESS) ∧
    w_files w' !! path = w_files w !! path ∧ w_files w' !! CONTROL_FILE = Some "restart")).
  - cbn [fsm_step current_state set_current_state]. unfold leave. eapply wp_seq; [apply wp_job|].
    cbv beta. intros [c ev] w1 ((sm' & Hc & Hexp) & F & _ & Hev & Hrel). cbn [fst snd] in *.
    subst c. specialize (Hrel (st_reliable _ Hsteady)). subst ev.
    apply wp_ret. exists sm'. split; [done|]. split; [done|]. split; [by apply F|].
    by destruct Hev as [(_ & _ & ?)|].
  - intros c ev w1 (sm' & Hexp & Heq & F & Hctl). simplify_eq. cbn [loop_rest].
    apply (wp_loop_first _ _ _ _ _ (λ r w', w' = w1 ∧ ∃ c,
      r = Some (c, EVENT_NONE) ∧ restarting e path ctx c w1 ∧
      requested_configuration_serial c = next_serial (requested_configuration_serial ctx))); [|intros c ev w2 (-> & c' & Heq & Hr)
      |by intros w2 (_ & ? & ? & _)].
    + cbn [fsm_step current_state set_current_state]. apply wp_ret. split; [done|].
      eexists. split; [done|]. split; [|done]. split; try done. destruct Hknown as [Hb|Hf]; [by left|right].
      by rewrite F, Hfile.
    + simplify_eq. apply wp_ret. by eexists.
  - by intros w1 (? & _ & ? & _).
Qed.

(** *** Handing the servers to the running cache *)

(** One iteration that gives [(c, ev')], and the rest. *)
Lemma wp_loop_enter fuel ctx ev s action c w (P : fsm_context_t * fsm_event_t → world → Prop) Q :
  fsm_step ctx ev = enter s action c →
  wp (action (set_current_state s c)) e w P →
  (∀ r w', P r w' → wp (loop_rest fuel (Some r)) e w' Q) →
  wp (transition_loop (S fuel) ctx ev) e w Q.
Proof.
  intros Hstep Hact Hrest. eapply (wp_loop_first _ _ _ _ _
    (λ r w', match r with Some p => P p w' | None => False end)); [|by auto|done].
  rewrite Hstep. unfold enter. eapply wp_seq; [exact Hact|]. intros r w' HP. by apply wp_ret.
Qed.

Lemma wp_steady_set_resolv_conf ctx t w :
  context_wf ctx → current_domain_to_servers ctx = Some t →
  resolv_conf_path (config ctx) = Some path → resolv_known path ctx w →
  wp (set_resolv_conf ctx) e w (λ r w', r.2 = EVENT_SUCCESS ∧
    ∃ b, r.1 = set_backup (Some b) ctx).
Proof.
  intros Hwf Ht Hpath Hknown. unfold set_resolv_conf. rewrite Ht.
  eapply wp_seq; [apply (wp_write_resolv_conf _ _ _ _ _ path);
    [apply Hwf|by eapply xw_table|done]|].
  cbv beta. intros [b st] w1 (_ & _ & _ & _ & _ & Hst). simpl in *. apply wp_ret. destruct st.
  - destruct Hst as [[b' ->] _]. split; [done|]. by exists b'.
  - destruct (Hst (st_reliable _ Hsteady)) as [Hb Hf].
    destruct Hknown as [[? Hk]|[? Hk]]; congruence.
Qed.

Lemma wp_steady_update ctx t w :
  context_wf ctx → current_domain_to_servers ctx = Some t → is_Some (effective_ca ctx) →
  ca_available e (config ctx) →
  wp (update_dns_manager ctx) e w (λ r w',
    if decide (steady_ca e (Some (used_of (resolution_mode ctx) t)) (resolution_mode ctx)
                 (config ctx) = effective_ca ctx)
    then r.2 = EVENT_SUCCESS ∧ current_state r.1 = current_state ctx ∧
         requested_configuration_serial r.1 = requested_configuration_serial ctx ∧
         announced (requested_configuration_serial ctx) w'
    else r = (ctx, EVENT_RELOAD) ∧ w_files w' = w_files w).
Proof.
  intros Hwf Ht Hca Hav. unfold update_dns_manager. case_decide as Heq; (eapply wp_seq;
    [apply wp_wlp; [by eapply wp_update|by eapply wlp_update]|]);
    cbv beta; intros [t'| |] w1 [(F & acts & T & Hr) Hw]; cbv zeta in Hw; [|done| |done| |].
  - wp_first wp_emit. intros _ w2 [_ T2].
    unfold emit_configuration_serial_signal. wp_first wp_emit. intros _ w3 [_ T3].
    apply wp_ret. do 3 (split; [done|]). exists (w_trace w1). by rewrite T3, T2, <-app_assoc.
  - destruct Hr. split; [apply Hsteady|done].
  - by apply wp_ret.
  - destruct Hr. split; [apply Hsteady|done].
Qed.

(** What becomes of a daemon that hands its servers to the cache. *)
Definition pushed (ctx : fsm_context_t) (r : option (fsm_context_t * Z)) (w' : world) : Prop :=
  ∃ ctx', r = Some (ctx', 0%Z) ∧
    if decide (ca_wanted e ctx = effective_ca ctx)
    then up (requested_configuration_serial ctx) ctx' w'
    else restarting e path ctx ctx' w'.

Lemma pushed_ext ctx1 ctx2 r w' :
  config ctx1 = config ctx2 → resolution_mode ctx1 = resolution_mode ctx2 →
  current_dynamic_servers ctx1 = current_dynamic_servers ctx2 →
  effective_ca ctx1 = effective_ca ctx2 →
  requested_configuration_serial ctx1 = requested_configuration_serial ctx2 → pushed ctx1 r w' → pushed ctx2 r w'.
Proof.
  unfold pushed, ca_wanted. intros E1 E2 E3 E4 E5 (c & -> & Hc). exists c. split; [done|].
  rewrite E1, E2, E3, E4, ?E5 in Hc. case_decide; [done|].
  destruct Hc as [? ? ? ? ? ? ? ? ?]. split; congruence.
Qed.

Lemma wp_push_update fuel ctx t w :
  context_wf ctx → current_state ctx = FSM_SETTING_RESOLV_CONF →
  current_domain_to_servers ctx = Some t →
  full_table (config ctx) (current_dynamic_servers ctx) = Some t →
  is_Some (effective_ca ctx) → ca_available e (config ctx) → is_Some (resolv_conf_backup ctx) →
  wp (transition_loop (4 + fuel) ctx EVENT_SUCCESS) e w (pushed ctx).
Proof.
  intros Hwf Hst Ht Hfull Hca Hav Hbk. unfold pushed, ca_wanted, wanted_ca. rewrite Hfull.
  set (c1 := set_current_state FSM_UPDATING_DNS_MANAGER ctx).
  assert (Hwf1 : context_wf c1) by (by eapply set_fields_wf).
  assert (Hstep : fsm_step ctx EVENT_SUCCESS = enter FSM_UPDATING_DNS_MANAGER update_dns_manager ctx)
    by (unfold fsm_step; by rewrite Hst).
  eapply wp_loop_enter; [exact Hstep|by eapply (wp_steady_update c1)|]. cbv beta.
  intros [c ev] w1 Hr. cbn [fmap option_fmap option_map].
  change (steady_ca e (Some (used_of (resolution_mode c1) t))
    (resolution_mode c1) (config c1)) with (steady_ca e (Some (used_of (resolution_mode ctx) t))
    (resolution_mode ctx) (config ctx)) in Hr. change (effective_ca c1) with (effective_ca ctx) in Hr.
  case_decide as Heq; cbn [fst snd] in Hr.
  - destruct Hr as (-> & Hc & Hser & Hann). cbn [loop_rest].
    apply (wp_loop_first _ _ _ _ _ (λ r w', w' = w1 ∧
      r = Some (set_current_state FSM_RUNNING c, EVENT_NONE))).
    + unfold fsm_step. rewrite Hc. by apply wp_ret.
    + intros c' ev' w2 [-> [= -> ->]]. apply wp_ret. by eexists.
    + by intros w2 [_ ?].
  - destruct Hr as [[= -> ->] F1]. cbn [loop_rest].
    apply (wp_loop_first _ _ _ _ _ (λ r w', ∃ c2, r = Some
      (set_current_state FSM_CONFIGURING_DNS_MANAGER c2, EVENT_SUCCESS) ∧
      ∃ w2, kicked (set_current_state FSM_CONFIGURING_DNS_MANAGER c1) c2 w2 w')).
    + unfold fsm_step. cbn [current_state set_current_state c1]. wp_first wp_emit. intros _ w2 _.
      unfold enter. eapply wp_seq; [apply wp_steady_kickoff; [by eapply (set_fields_wf ctx)|done]|].
      cbv beta. intros [c2 ev2] w3 Hk. cbn [fst snd] in Hk. destruct Hk as [-> Hk]. apply wp_ret.
      exists c2. split; [|by exists w2]. do 2 f_equal. symmetry. apply set_current_state_id.
      by destruct Hk as (? & -> & _).
    + intros c' ev' w2 (c2 & [= -> ->] & w3 & Hk). cbn [loop_rest].
      eapply wp_mono; [eapply wp_steady_restart; [exact Hk|by left]|].
      cbv beta. intros r w4 (c & -> & [? ? ? ? ? ? ? ? ?] & _). exists c. split; [done|]. by split.
    + by intros w2 (? & ? & _).
Qed.

Lemma wp_steady_push ctx0 ev ctx w :
  fsm_step ctx0 ev = enter FSM_SETTING_RESOLV_CONF set_resolv_conf ctx →
  context_wf ctx → is_Some (current_domain_to_servers ctx) →
  current_domain_to_servers ctx = full_table (config ctx) (current_dynamic_servers ctx) →
  is_Some (effective_ca ctx) → ca_available e (config ctx) →
  resolv_conf_path (config ctx) = Some path → resolv_known path ctx w →
  wp (state_transition ctx0 ev) e w (pushed ctx).
Proof.
  intros Hstep Hwf [t Ht] Hfull Hca Hav Hpath Hknown.
  unfold state_transition, transition_fuel. eapply wp_loop_enter; [exact Hstep|..].
  { eapply wp_steady_set_resolv_conf; [by eapply (set_fields_wf ctx)|exact Ht|done|done]. }
  cbv beta. intros [c ev1] w1 Hr. cbn [fst snd] in Hr. destruct Hr as [-> [b ->]]. cbn [loop_rest].
  eapply wp_mono; [apply (wp_push_update 1 _ t); try done|].
  - by eapply (set_fields_wf ctx).
  - cbn. by rewrite <-Hfull.
  - intros r w2 Hr. refine (pushed_ext _ _ _ _ _ _ _ _ _ Hr); reflexivity.
Qed.

Lemma wp_quit_of (P : fsm_context_t → world → Prop) ctx ev w :
  wp (state_transition ctx ev) e w (λ r w', ∃ c, r = Some (c, 0%Z) ∧ P c w') →
  wp (transition_or_quit ctx ev) e w P.
Proof.
  intros Hp. unfold transition_or_quit. eapply wp_seq; [exact Hp|]. cbv beta.
  intros r w1 (c & -> & HP). apply wp_skip. by apply wp_ret.
Qed.

Lemma wp_steady_start cfg w :
  config_wf cfg → ca_available e cfg → is_Some (w_files w !! path) →
  wp (transition_or_quit (initial_context cfg) EVENT_KICKOFF) e w (λ ctx w',
    restarting e path (initial_context cfg) ctx w' ∧ requested_configuration_serial ctx = 2%Z).
Proof.
  intros Hcfg Hav Hfile. apply wp_quit_of. unfold state_transition, transition_fuel.
  apply (wp_loop_first _ _ _ _ _ (λ r w', ∃ c, r = Some
    (set_current_state FSM_CONFIGURING_DNS_MANAGER c, EVENT_SUCCESS) ∧
    kicked (initial_context cfg) c w w')).
  - unfold fsm_step. cbn [current_state initial_context]. unfold leave.
    eapply wp_seq; [by apply wp_steady_kickoff; [apply initial_inv|]|]. cbv beta.
    intros [c ev] w1 Hr. cbn [fst snd] in Hr. destruct Hr as [-> Hk]. apply wp_ret. by exists c.
  - intros c' ev' w1 (c & [= -> ->] & Hk).
    exact (wp_steady_restart 3 _ _ _ _ Hk (or_intror Hfile)).
  - by intros w1 (? & ? & _).
Qed.

Lemma restarting_same ctx ctx' w : restarting e path ctx ctx' w → waiting e path ctx' w.
Proof. intros [? ? ? ? ? ? ? ? ?]. split; congruence. Qed.

(** *** Rounds *)

Context `{Idn} (junk : sockaddr_storage).

(** What the callback of the file monitor is called with in a round. *)
Lemma wp_ready_status sm w :
  w_files w !! STATUS_FILE = Some "ready" →
  wp (on_file_changed sm G_FILE_MONITOR_EVENT_CHANGES_DONE_HINT) e w (λ r w',
    w_files w' = w_files w ∧ w_trace w' = w_trace w ∧ (r = None ∨ r = Some "done") ∧
    (sm_expected_status sm = Some "ready" → r = Some "done")).
Proof.
  intros Hfile. unfold on_file_changed. wp_first wp_g_file_get_contents.
  intros c w1 ([F _ T] & _ & Hrel). specialize (Hrel (st_reliable _ Hsteady)). rewrite Hfile in Hrel.
  subst c. apply wp_ret. do 2 (split; [done|]).
  assert (Hr : ∀ x, job_result x "ready" = None ∨ job_result x "ready" = Some "done").
  { intros [x|]; [|by left]. unfold job_result. case_bool_decide; [by right|by left]. }
  change (g_strstrip "ready") with "ready". split; [apply Hr|]. by intros ->.
Qed.

(** A round of a running daemon changes nothing. *)
Lemma wp_round_running ctx w :
  fsm_inv ctx → current_state ctx = FSM_RUNNING →
  wp (ready_round junk ctx) e w (λ ctx' w', ctx' = ctx ∧ w_trace w' = w_trace w).
Proof.
  intros Hi Hst. unfold ready_round. cbn [dispatch]. unfold on_status_file.
  wp_first wp_set_file. intros _ w1 (Hfile & _ & T1). eapply wp_seq; [by apply wp_ready_status|]. cbv beta.
  intros r w2 (_ & T2 & Hr & _). destruct Hr as [->| ->]; [apply wp_ret; split; congruence|].
  unfold on_systemd_job_finished. change (job_event "done") with EVENT_JOB_SUCCESS.
  eapply wp_seq; [apply wp_state_transition; [done|by rewrite Hst|done]|]. cbv beta.
  intros r w3 (c & code & -> & _ & _ & Hc). rewrite Hst in Hc. cbn [life_next] in Hc.
  destruct Hc as (_ & -> & ->). apply wp_skip, wp_ret. split; [done|congruence].
Qed.

Lemma wp_rounds_running n ctx w :
  fsm_inv ctx → current_state ctx = FSM_RUNNING →
  wp (ready_rounds junk n ctx) e w (λ ctx' w', ctx' = ctx ∧ w_trace w' = w_trace w).
Proof.
  intros Hi Hst. revert w. induction n as [|n IH]; intros w; [by apply wp_ret|]. cbn [ready_rounds].
  eapply wp_seq; [by apply wp_round_running|]. cbv beta. intros c w1 [-> T1].
  eapply wp_mono; [apply IH|]. cbv beta. intros c w2 [-> T2]. split; congruence.
Qed.

Lemma wp_round_waiting ctx w :
  daemon_inv ctx → waiting e path ctx w → ca_available e (config ctx) →
  resolv_conf_path (config ctx) = Some path →
  wp (ready_round junk ctx) e w (λ ctx' w', daemon_inv ctx' ∧ same_servers ctx ctx' ∧
    arrived e path (ca_wanted e ctx = effective_ca ctx) (requested_configuration_serial ctx) ctx' w').
Proof.
  intros Hinv Hw Hav Hpath. pose proof Hinv as (Hi & Hr & Hsync & Hex).
  pose proof Hw as [Hst _ _ _ Htab Hca Hexp _ Hknown].
  unfold ready_round. cbn [dispatch]. unfold on_status_file.
  wp_first wp_set_file. intros _ w1 (Hfile & F1 & T1).
  eapply wp_seq; [by apply wp_ready_status|]. cbv beta.
  intros r w2 (F2 & T2 & _ & Hdone). rewrite (Hdone Hexp).
  unfold on_systemd_job_finished. change (job_event "done") with EVENT_JOB_SUCCESS.
  eapply wp_seq.
  { apply wp_and; [apply wp_state_transition; [done|done|done]|].
    apply (wp_steady_push _ _ ctx); [unfold fsm_step; by rewrite Hst|apply Hi|..|exact Hav|done|].
    - apply Hi. by rewrite Hst.
    - exact Htab.
    - apply Hi. by rewrite Hst.
    - destruct Hknown as [?|Hf]; [by left|right]. by rewrite F2, F1. }
  cbv beta. intros r1 w3 [(c & code & -> & Hevo & Hi' & Hc) (c' & Heq & Hpush)]. simplify_eq.
  apply wp_skip, wp_ret. cbn [fst]. rewrite Hst in Hc. cbn [life_next] in Hc.
  destruct Hc as (_ & Hin & Hrun). cbn [adopt] in Hevo. split.
  - split; [done|]. split; [|split; [done|by eapply evolves_exits_ok]].
    eapply (life_next_resting FSM_WAITING_FOR_START_JOB EVENT_JOB_SUCCESS); [done|exact Hin].
  - destruct Hevo. split; [done|]. unfold arrived. case_decide; [done|].
    by apply restarting_same with ctx.
Qed.

Lemma up_trace serial ctx w w' : w_trace w' = w_trace w → up serial ctx w → up serial ctx w'.
Proof. unfold up, announced. by intros ->. Qed.

(** Rounds of a daemon that restarts the cache. *)
Lemma wp_rounds_waiting n ctx w :
  daemon_inv ctx → waiting e path ctx w → ca_available e (config ctx) →
  resolv_conf_path (config ctx) = Some path →
  wp (ready_rounds junk (S n) ctx) e w (λ ctx' w', daemon_inv ctx' ∧ same_servers ctx ctx' ∧
    arrived e path (ca_wanted e ctx' = ca_written e ctx') (requested_configuration_serial ctx) ctx' w').
Proof.
  revert ctx w. induction n as [|n IH]; intros ctx w Hinv Hw Hav Hpath.
  all: eapply wp_seq; [by apply wp_round_waiting|]; cbv beta; intros c w1 (Hinv1 & Hsame & Harr).
  all: assert (Hca : ca_wanted e ctx = effective_ca ctx ↔ ca_wanted e c = ca_written e c)
    by (rewrite (rs_ca _ _ _ _ _ Hw); unfold ca_wanted, ca_written;
        destruct Hsame as (-> & -> & ->); done).
  all: unfold arrived in *; rewrite (decide_ext _ _ _ _ Hca) in Harr.
  - apply wp_ret. split; [done|]. by split.
  - destruct (decide (ca_wanted e c = ca_written e c)) as [Heq|Hne].
    + eapply wp_mono; [apply (wp_rounds_running (S n)); [apply Hinv1|apply Harr]|].
      cbv beta. intros c' w2 [-> T2]. split; [done|]. split; [done|]. rewrite decide_True by done.
      by eapply up_trace.
    + destruct Hsame as (E1 & E2 & E3). rewrite <-E1 in Hav, Hpath.
      eapply wp_mono; [by apply IH|]. cbv beta. intros c' w2 (Hinv2 & (D1 & D2 & D3) & Harr2).
      split; [done|]. split; [split; [congruence|]; split; congruence|].
      assert (ca_wanted e c' ≠ ca_written e c')
        by (unfold ca_wanted, ca_written in *; by rewrite D1, D2, D3).
      unfold arrived in Harr2. by rewrite decide_False in * by done.
Qed.

(** *** No CAs among the servers *)

Lemma steady_ca_none t mode cfg :
  (∀ d l, t !! d = Some l → no_ca l) →
  steady_ca e (Some t) mode cfg = List.find (env_access e 0) (config_cas cfg).
Proof.
  intros Hnone. unfold steady_ca. cbn [mbind option_bind].
  pose proof (effective_ca_outcome t mode _ (hash_entries_perm (env_order e 0) t)) as Hs.
  destruct (effective_ca_from_uris _ mode) as [ca|]; [|done].
  destruct Hs as (d & l & s & Hl & Hin & [Hca _] & _). rewrite (Hnone d l Hl s Hin) in Hca. done.
Qed.

(** Then both CAs are the one of the configuration. *)
Lemma no_ca_agree ctx :
  Forall server_wf (static_servers (config ctx) ++ current_dynamic_servers ctx) →
  no_ca (static_servers (config ctx) ++ current_dynamic_servers ctx) →
  ca_wanted e ctx = ca_written e ctx.
Proof.
  intros Hwf Hnone. unfold ca_wanted, ca_written, wanted_ca, written_ca.
  destruct (server_list_to_hash_table_wf _ Hwf) as (t & Ht & Htw).
  assert (full_table (config ctx) (current_dynamic_servers ctx) = Some t) as -> by exact Ht.
  assert (Hall : ∀ d l, t !! d = Some l → no_ca l).
  { intros d l Hl s Hs. apply (hash_table_elem _ _ _ _ s Ht Hl) in Hs as [Hs _]. by apply Hnone. }
  cbn [fmap option_fmap option_map]. rewrite !steady_ca_none; [done|done|].
  intros d l. rewrite used_of_lookup. destruct (t !! d) as [value|] eqn:E; [|done]. simpl.
  destruct (Htw d value E) as [Hne Hvw].
  destruct (zone_servers_spec (resolution_mode ctx) d value Hne Hvw) as [Hu _].
  destruct (zone_servers _ d value) as [|u us] eqn:Ez; [done|]. intros [= <-] s Hs.
  apply (get_used_servers_elem _ _ _ _ _ Hu) in Hs as [Hs _]. by eapply Hall.
Qed.

(** *** The daemon arrives *)

(** C4: when the system cooperates, a daemon that gets its bus name comes up:
    after the service of the cache reported itself ready once or more often,
    it runs with its record of the cache in sync and has announced itself ready
    with the serial 2 - provided that the CA of the servers in use is that of all
    servers, as it is when no server brings a CA of its own; otherwise it never
    runs, but waits for one more restart of the cache after every round. *)
Theorem start_liveness (cfg : dnsconfd_config_t) (n : nat) (w : world) :
  config_wf cfg → ca_available e cfg → resolv_conf_path cfg = Some path →
  is_Some (w_files w !! path) →
  wp (ctx ← dispatch junk DNameAcquired (initial_context cfg); ready_rounds junk (S n) ctx) e w
    (λ ctx w', daemon_inv ctx ∧ config ctx = cfg ∧
      arrived e path (ca_wanted e ctx = ca_written e ctx) 2 ctx w' ∧
      (no_ca (static_servers cfg) → current_state ctx = FSM_RUNNING)).
Proof.
  intros Hcfg Hav Hpath Hfile. pose proof (initial_daemon_inv _ Hcfg) as Hinv0.
  cbn [dispatch]. unfold on_name_acquired. eapply wp_seq.
  { apply wp_and; [by apply wp_steady_start|]. apply wp_transition_or_quit; [apply Hinv0|done|done]. }
  cbv beta. intros c w1 [[Hrs Hser] (Hi & Hr & Hq)].
  destruct (quit_post_inv _ _ _ _ _ Hinv0 Hi Hr Hq) as [Hinv Hc]. cbn in Hc.
  eapply wp_mono; [apply wp_rounds_waiting; [done|by eapply restarting_same|by rewrite Hc..]|].
  cbv beta. intros c' w2 (Hinv2 & (E1 & E2 & E3) & Harr). rewrite Hc in E1. rewrite Hser in Harr.
  assert (Hdyn : current_dynamic_servers c' = []) by (rewrite E3; apply (rs_dynamic _ _ _ _ _ Hrs)).
  split; [done|]. split; [done|]. split; [done|]. intros Hnone. unfold arrived in Harr.
  rewrite decide_True in Harr; [apply Harr|].
  apply no_ca_agree; rewrite E1, Hdyn, app_nil_r; [apply Hcfg|done].
Qed.

(** An update of a running daemon. *)
Lemma wp_steady_update_call servers mode m parsed ctx w :
  daemon_inv ctx → current_state ctx = FSM_RUNNING → sockaddr_typed junk → Forall dict_ok servers →
  mode_of_uint32 mode = Some m → servers_of_dicts junk servers = inr parsed →
  ca_available e (config ctx) → resolv_conf_path (config ctx) = Some path →
  wp (handle_update_call junk servers mode ctx) e w (λ r w',
    arrived e path (ca_wanted e r.1 = effective_ca ctx) (requested_configuration_serial r.1) r.1 w').
Proof.
  intros (Hi & Hr & _ & _) Hst Hj Hd Hm Hp Hav Hpath. unfold handle_update_call. rewrite Hm.
  eapply wp_seq; [by apply (wp_parse_servers e junk servers [])|]. cbv beta.
  intros r w1 [Hw1 Hl]. rewrite Hp in Hl. destruct Hl as (l & -> & Hl).
  assert (Hlwf : Forall server_wf l).
  { eapply lowered_all_wf; [exact Hl|]. apply first_interface_wf; [constructor|].
    edestruct servers_of_dicts_wf as [Hwf _]; [exact Hj|exact Hd|exact Hp|exact Hwf]. }
  pose proof (fsm_inv_set_update m l ctx Hi Hlwf) as Hi'.
  change (set_mode m (set_dynamic (current_dynamic_servers ctx) l ctx)) with (handed_over m l ctx) in *.
  cbv zeta. set (h := handed_over m l ctx) in *.
  assert (Hsth : current_state h = FSM_RUNNING) by done.
  eapply (wp_seq _ _ _ _ (λ c w', arrived e path (ca_wanted e c = effective_ca ctx)
    (requested_configuration_serial c) c w'));
    [|by intros c w2 Hc; apply wp_ret].
  apply wp_quit_of. eapply wp_mono.
  { apply wp_and; [apply wp_state_transition; [done|by rewrite Hsth|done]|].
    apply (wp_steady_push _ _ (refreshed (set_dynamic_servers h))).
    - unfold fsm_step. by rewrite Hsth.
    - by apply refreshed_wf, set_dynamic_servers_wf, Hi'.
    - by apply refreshed_table, set_dynamic_servers_wf, Hi'.
    - done.
    - apply Hi. by rewrite Hst.
    - done.
    - done.
    - left. apply Hi. by rewrite Hst. }
  cbv beta. intros r w2 [(c & code & -> & Hevo & _) (c' & Heq & Hc)]. simplify_eq.
  exists c'. split; [done|]. unfold adopt in Hevo. rewrite Hsth in Hevo.
  assert (ca_wanted e c' = ca_wanted e (refreshed (set_dynamic_servers h))) as Hw.
  { unfold ca_wanted. by rewrite (evo_config _ _ _ _ Hevo), (evo_mode _ _ _ _ Hevo),
      (evo_servers _ _ _ _ Hevo). }
  unfold arrived. rewrite (decide_ext _ (ca_wanted e (refreshed (set_dynamic_servers h))
    = effective_ca ctx)) by (by rewrite Hw).
  change (effective_ca (refreshed (set_dynamic_servers h))) with (effective_ca ctx) in Hc.
  case_decide; [|by eapply restarting_same]. destruct Hc as (? & Hs & ?). split; [done|].
  rewrite Hs. done.
Qed.

(** C5: when the system cooperates, a running daemon comes up again with the
    servers of an update it accepted: at once ([n] is 0) if the CA of the servers
    in use is the one the cache was configured with, and after the service of the
    cache reported itself ready if it is the CA of all servers, in use or not; if
    it is neither, the daemon restarts the cache over and over, and never runs
    with the servers it accepted, however often the cache becomes ready. *)
Theorem update_liveness (servers : list server_dict) (mode : Z) (m : dnsconfd_mode_t)
    (parsed : list server_uri_t) (ctx : fsm_context_t) (n : nat) (w : world) :
  daemon_inv ctx → current_state ctx = FSM_RUNNING → sockaddr_typed junk → Forall dict_ok servers →
  mode_of_uint32 mode = Some m → servers_of_dicts junk servers = inr parsed →
  ca_available e (config ctx) → resolv_conf_path (config ctx) = Some path →
  wp (r ← handle_update_call junk servers mode ctx;
      c ← ready_rounds junk n r.1;
      mret (c, r.2.1)) e w (λ '(c, serial) w', daemon_inv c ∧ config c = config ctx ∧ resolution_mode c = m ∧
      Forall2 (lowered e) (first_interface [] parsed) (current_dynamic_servers c) ∧
      arrived e path (ca_wanted e c = effective_ca ctx ∨ (0 < n ∧ ca_wanted e c = ca_written e c))
        serial c w').
Proof.
  intros Hinv Hst Hj Hd Hm Hp Hav Hpath. eapply wp_seq.
  { apply wp_and; [by eapply wp_steady_update_call|by apply (wp_handle_update_call e junk)]. }
  cbv beta. intros [c reply] w1 [Harr Hcall]. rewrite Hm, Hp in Hcall. cbn [fst snd] in *.
  destruct Hcall as (l & w0 & Hl & _ & Hinv1 & Hq & ->).
  unfold quit_post, adopt in Hq. change (current_state (handed_over m l ctx)) with (current_state ctx) in Hq.
  rewrite Hst in Hq. cbn [life_next] in Hq. destruct Hq as (_ & [Ec Em Es _ _ _ _] & _).
  cbn in Ec, Em, Es. cbn [fst snd].
  assert (Hend : ∀ c', same_servers c c' → config c' = config ctx ∧ resolution_mode c' = m ∧
    Forall2 (lowered e) (first_interface [] parsed) (current_dynamic_servers c') ∧
    ca_wanted e c' = ca_wanted e c).
  { intros c' (E1 & E2 & E3). unfold ca_wanted. rewrite E1, E2, E3, Es. done. }
  unfold arrived in *. destruct (decide (ca_wanted e c = effective_ca ctx)) as [Heq|Hne].
  - eapply wp_seq; [apply (wp_rounds_running n); [apply Hinv1|apply Harr]|].
    cbv beta. intros c' w2 [-> T2]. apply wp_ret. split; [done|]. destruct (Hend c) as (? & ? & ? & _); [done|].
    do 3 (split; [done|]). rewrite decide_True by (by left).
    by eapply up_trace.
  - rewrite <-Ec in Hav, Hpath. destruct n as [|n].
    { apply wp_bind, wp_ret, wp_ret. destruct (Hend c) as (? & ? & ? & _); [done|].
      do 4 (split; [done|]). rewrite decide_False; [done|]. intros [?|[? _]]; [done|lia]. }
    eapply wp_seq; [by apply wp_rounds_waiting|].
    cbv beta. intros c' w2 (Hinv2 & Hsame & Harr2). apply wp_ret. destruct (Hend c' Hsame) as (? & ? & ? & Hw).
    do 4 (split; [done|]). unfold arrived in Harr2.
    rewrite (decide_ext _ (ca_wanted e c' = ca_written e c')); [done|].
    rewrite Hw. split; [intros [?|[_ ?]]; [done|congruence]|]. intros ?. right. split; [lia|done].
Qed.


End Steady.

(** ** Witnesses *)

Lemma ex_env_steady : steady ex_env.
Proof. by split. Qed.

Lemma ex_ca_available : ca_available ex_env ex_config.
Proof. exists ex_ca. split; [|done]. unfold config_cas. vm_compute. apply list_elem_of_here. Qed.

Theorem start_liveness_witness :
  wp (ctx ← dispatch sockaddr_zero DNameAcquired (initial_context ex_config);
      ready_rounds sockaddr_zero 1 ctx) ex_env ex_world
    (λ ctx w', daemon_inv ctx ∧ current_state ctx = FSM_RUNNING).
Proof.
  eapply wp_mono.
  - apply (start_liveness ex_env ex_env_steady "/etc/resolv.conf" ltac:(discriminate)
      ltac:(discriminate) ltac:(discriminate) sockaddr_zero ex_config 0 ex_world).
    + apply ex_config_wf.
    + apply ex_ca_available.
    + reflexivity.
    + eexists. reflexivity.
  - intros ctx w' (Hinv & _ & _ & Hrun). split; [exact Hinv|]. apply Hrun.
    intros s []%not_elem_of_nil.
Defined.

(** Two servers for the root, with different CAs: the preferred one is used, the
    CA of the other one is written. *)
Definition ex_tls_dict (last ca : string) (priority : Z) : server_dict :=
  {["address" := VString ("10.0.0." +:+ last); "protocol" := VString "dns+tls";
    "priority" := VInt32 priority; "ca" := VString ca]}.
Definition ex_tls_dicts : list server_dict :=
  [ex_tls_dict "1" "/etc/a.pem" 5; ex_tls_dict "2" "/etc/b.pem" 1].

Definition ex_tls_parsed : list server_uri_t :=
  match servers_of_dicts sockaddr_zero ex_tls_dicts with inr l => l | inl _ => [] end.

Lemma ex_tls_dicts_ok : Forall dict_ok ex_tls_dicts.
Proof.
  assert (∀ last ca p, in_int p → dict_ok (ex_tls_dict last ca p)) as Hd.
  { intros last ca p Hp k v. unfold ex_tls_dict. rewrite !lookup_insert_Some, lookup_singleton_Some.
    intros [[_ <-]|[_ [[_ <-]|[_ [[_ <-]|[_ [_ <-]]]]]]]; done. }
  repeat constructor; apply Hd; by vm_compute.
Qed.

Lemma lowered_wired l l' : Forall2 (lowered ex_env) l l' → l' = l.
Proof.
  induction 1 as [|s s' l l' Hs _ ->]; [done|]. f_equal. by destruct Hs as [[_ ->]|[[n Hn] _]].
Qed.

Lemma ex_ran_inv : daemon_inv ex_ran.
Proof.
  destruct (daemon_reaches_inv sockaddr_zero ex_config ex_ran) as [Hinv _];
    [apply ex_config_wf|apply sockaddr_zero_typed| |exact Hinv].
  apply ex_after_reaches; [done|]. apply ex_after_reaches; [done|]. constructor.
Qed.

(** However often the cache becomes ready, the daemon restarts it. *)
Theorem update_liveness_witness :
  wp (r ← handle_update_call sockaddr_zero ex_tls_dicts 0 ex_ran;
      c ← ready_rounds sockaddr_zero 100 r.1;
      mret (c, r.2.1)) ex_env ex_ready
    (λ '(c, _) w', current_state c = FSM_WAITING_FOR_START_JOB ∧
      w_files w' !! CONTROL_FILE = Some "restart" ∧ current_dynamic_servers c = ex_tls_parsed).
Proof.
  eapply wp_mono.
  - apply (update_liveness ex_env ex_env_steady "/etc/resolv.conf" ltac:(discriminate)
      ltac:(discriminate) ltac:(discriminate) sockaddr_zero ex_tls_dicts 0 MODE_BACKUP
      ex_tls_parsed ex_ran 100 ex_ready).
    + apply ex_ran_inv.
    + vm_compute. reflexivity.
    + apply sockaddr_zero_typed.
    + apply ex_tls_dicts_ok.
    + reflexivity.
    + vm_compute. reflexivity.
    + apply ex_ca_available.
    + reflexivity.
  - intros [c serial] w' (_ & Hc & Hm & Hl & Harr). apply lowered_wired in Hl. unfold arrived in Harr.
    rewrite decide_False in Harr.
    + split; [apply Harr|]. split; [apply Harr|exact Hl].
    + unfold ca_wanted, ca_written. rewrite Hc, Hm, Hl. vm_compute. intros [?|[_ ?]]; discriminate.
Defined.

(** *** The record is not the cache *)

(** Events one after the other. *)
Fixpoint ex_dispatch (events : list daemon_event) (ctx : fsm_context_t) : M fsm_context_t :=
  match events with
  | [] => mret ctx
  | event :: rest => ctx ← dispatch sockaddr_zero event ctx; ex_dispatch rest ctx
  end.

Definition ex_give (last : string) : daemon_event := DCall (CallUpdate [ex_dict last] 1).

(** The configuration file after them. *)
Definition ex_written (events : list daemon_event) : option string :=
  match ex_dispatch events ex_ran ex_env ex_ready with
  | Some (_, w) => w_files w !! unbound_conf_path
  | None => None
  end.

(** A daemon runs with server 9; while a reload waits for the cache it is given
    server 7, reloaded, and given server 9 again.  It then runs with the record
    that it gave the cache server 9 and has not sent a command since the first
    update, but the cache was restarted with the file that forwards to server 7. *)
Example stale_forwards :
  match (c ← ex_dispatch [ex_give "9"; DCall CallReload; ex_give "7"; DCall CallReload; ex_give "9"]
               ex_ran;
         ready_round sockaddr_zero c) ex_env ex_ready with
  | Some (c, w) =>
      (current_state c,
       (λ t, forwards_of t ".") <$> current_unbound_domain_to_servers c,
       omap (λ a, match a with ASpawn argv => Some argv | _ => None end) (w_trace w),
       w_files w !! unbound_conf_path)
  | None => (FSM_STOPPING, None, [], None)
  end
  = (FSM_RUNNING, Some (Some (false, ["10.0.0.9@53"])),
     [["unbound-control"; "forward_add"; "."; "10.0.0.9@53"]; ["unbound-control"; "flush_zone"; "."]],
     ex_written [ex_give "7"; DCall CallReload])
  ∧ ex_written [ex_give "7"; DCall CallReload] ≠ ex_written [ex_give "9"; DCall CallReload].
Proof. split; [vm_compute; reflexivity|]. vm_compute. discriminate. Qed.
