(* ===== verification/Client.v ===== *)
(** * The update command: src/src/configuration_parsing/update_command.c and
      src/src/cli_commands/cli_update.c

    The options of [dnsconfd update], the dictionaries it sends, and the wait
    for the serial of the reply.  The arguments argp hands to the parser, the
    replies of the bus and the signals received before the timeout are inputs. *)

From S2P Require Import Prelude CLib SockAddr NetworkAddress ServerUri ServerJson ServerParse.
From S2P Require Import ConfigData UnboundSelect DbusServer.

(** ** Definitions: the options *)

Record update_command_options_t := UpdateOptions {
  uo_mode : dnsconfd_mode_t;
  uo_json : bool;
  uo_servers_uris : list server_uri_t
}.

(** What [argp_parse] calls the parser with. *)
Inductive update_key :=
| OPT_JSON
| OPT_MODE (arg : string)
| UPDATE_KEY_ARG (arg : string)
| UPDATE_KEY_END.

Section UpdateOptions.
Context `{Inet} `{UriParser}.
Context (json_loads : string → option json).
Context (junk : sockaddr_storage).

(** The state has the static variable [parsed_as_json]; [Fail] is
    [argp_error], which ends the process with [EXIT_BAD_ARGUMENTS]. *)
Definition parse_update_command_opt (key : update_key)
    (state : update_command_options_t * bool) : result (update_command_options_t * bool) :=
  let '(config, parsed_as_json) := state in
  match key with
  | OPT_JSON => Ok (UpdateOptions (uo_mode config) true (uo_servers_uris config), parsed_as_json)
  | OPT_MODE arg =>
      if strcasecmp_eq arg "backup" then Ok state
      else if strcasecmp_eq arg "prefer" then
        Ok (UpdateOptions MODE_PREFER (uo_json config) (uo_servers_uris config), parsed_as_json)
      else if strcasecmp_eq arg "exclusive" then
        Ok (UpdateOptions MODE_EXCLUSIVE (uo_json config) (uo_servers_uris config), parsed_as_json)
      else Fail
  | UPDATE_KEY_ARG arg =>
      if parsed_as_json : bool then Fail
      else if uo_json config then
        match server_uri_t_list_from_json junk json_loads arg with
        | [] => Fail
        | servers => Ok (UpdateOptions (uo_mode config) (uo_json config) servers, true)
        end
      else
        new_server ← server_uri_t_init_from_string junk arg;
        Ok (UpdateOptions (uo_mode config) (uo_json config) (uo_servers_uris config ++ [new_server]),
            parsed_as_json)
  | UPDATE_KEY_END => Ok state
  end.

Fixpoint parse_update_keys (keys : list update_key) (state : update_command_options_t * bool) :
    result (update_command_options_t * bool) :=
  match keys with
  | [] => Ok state
  | key :: rest => state ← parse_update_command_opt key state; parse_update_keys rest state
  end.

Definition parse_update_command (keys : list update_key) : result update_command_options_t :=
  state ← parse_update_keys keys (UpdateOptions MODE_BACKUP false [], false); Ok state.1.
End UpdateOptions.

(** ** Definitions: the call *)

Section Variant.
Context `{Inet}.

Definition not_empty {A} (l : list A) : bool := match l with [] => false | _ => true end.

(** A value that is only sent under a condition. *)
Definition sent_if (cond : bool) (value : gvariant) : option gvariant :=
  if cond then Some value else None.

(** The entries of one server, in the order they are added. *)
Definition server_entries (server : server_uri_t) (addr_str : string) (nets : list string) :
    list (string * option gvariant) :=
  [("address", Some (VString addr_str));
   ("port", sent_if (0 <? server_port server)%Z (VInt32 (server_port server)));
   ("priority", Some (VInt32 (su_priority server)));
   ("protocol", Some (VString (dns_protocol_t_to_string (su_protocol server))));
   ("interface", sent_if (0 <? String.length (su_interface server)) (VString (su_interface server)));
   ("dnssec", Some (VBool (negb (su_dnssec server =? 0)%Z)));
   ("ca", VString <$> su_certification_authority server);
   ("name", VString <$> su_name server);
   ("routing_domains", sent_if (not_empty (su_routing_domains server))
                         (VStrings (su_routing_domains server)));
   ("search_domains", sent_if (not_empty (su_search_domains server))
                        (VStrings (su_search_domains server)));
   ("networks", sent_if (not_empty (su_networks server)) (VStrings nets))].

(** One iteration of the loop; [None]: a buffer is read that [ip_to_str] did
    not write. *)
Definition build_server_dict (server : server_uri_t) : option server_dict :=
  addr_str ← ip_to_str (su_address server);
  nets ← mapM network_address_to_string (su_networks server);
  Some (list_to_map (omap (λ '(key, value), (key,.) <$> value) (server_entries server addr_str nets))).

Definition build_servers_variant (servers : list server_uri_t) : option (list server_dict) :=
  mapM build_server_dict servers.
End Variant.

(** ** Definitions: waiting for the serial *)

Record UpdateContext := UpdateCtx { uc_expected_serial : Z; uc_success : bool }.

(** A [PropertiesChanged] signal: the interface, the properties with the value
    [g_variant_get_uint32] reads of each (0 when it is of another type), and the
    names of the invalidated properties. *)
Record properties_changed := PropertiesChanged {
  pc_interface : string;
  pc_changed : list (string * Z);
  pc_invalidated : list string
}.

(** The children of its parameters, of type [(sa{sv}as)]. *)
Inductive parameter :=
| ParamString (s : string)
| ParamDict (entries : list (string * Z))
| ParamStrings (l : list string).

Definition signal_parameters (signal : properties_changed) : list parameter :=
  [ParamString (pc_interface signal); ParamDict (pc_changed signal);
   ParamStrings (pc_invalidated signal)].

(** The conversions of a GVariant format string: [&s] stores the string, [a{sv}]
    a new iterator over the entries, [*] the value itself. *)
Inductive conversion := CONV_STRING | CONV_ARRAY | CONV_ANY.

Inductive stored :=
| StoredString (s : string)
| StoredIter (entries : list (string * Z))
| StoredVariant (p : parameter).

Definition convert (c : conversion) (p : parameter) : option stored :=
  match c, p with
  | CONV_STRING, ParamString s => Some (StoredString s)
  | CONV_ARRAY, ParamDict entries => Some (StoredIter entries)
  | CONV_ANY, _ => Some (StoredVariant p)
  | _, _ => None
  end.

(** [g_variant_get] stores one value per conversion through one of the
    [pointers] arguments; [None]: the behaviour is undefined, as when an
    argument is missing. *)
Fixpoint g_variant_get (params : list parameter) (format : list conversion) (pointers : nat) :
    option (list stored) :=
  match params, format, pointers with
  | [], [], _ => Some []
  | p :: params, c :: format, S pointers =>
      v ← convert c p;
      rest ← g_variant_get params format pointers;
      Some (v :: rest)
  | _, _, _ => None
  end.

(** The use of a stored pointer as what it does not point to is undefined. *)
Definition as_string (v : stored) : option string :=
  match v with StoredString s => Some s | _ => None end.

Definition as_dict_variant (v : stored) : option (list (string * Z)) :=
  match v with StoredVariant (ParamDict entries) => Some entries | _ => None end.

Definition manager_interface : string := "com.redhat.dnsconfd.Manager".

(** The loop over the properties; the second component: the loop was quit. *)
Fixpoint changed_properties (changed : list (string * Z)) (ctx : UpdateContext) :
    UpdateContext * bool :=
  match changed with
  | [] => (ctx, false)
  | (key, value) :: rest =>
      let hit := (key ==s "configuration_serial") && (value =? uc_expected_serial ctx)%Z in
      let r := changed_properties rest
                 (if hit then UpdateCtx (uc_expected_serial ctx) true else ctx) in
      (r.1, hit || r.2)
  end.

(** [g_variant_get(parameters, "(&sa{sv}*)", &interface, &changed_properties)]:
    three conversions, two pointers; what [changed_properties] is given is then
    used as a variant.  [None]: undefined behaviour. *)
Definition on_properties_changed (signal : properties_changed) (ctx : UpdateContext) :
    option (UpdateContext * bool) :=
  values ← g_variant_get (signal_parameters signal) [CONV_STRING; CONV_ARRAY; CONV_ANY] 2;
  interface ← values !! 0 ≫= as_string;
  if negb (interface ==s manager_interface) then Some (ctx, false)
  else
    changed ← values !! 1 ≫= as_dict_variant;
    Some (changed_properties changed ctx).

(** [g_main_loop_run]: signals are dispatched until the loop is quit; with no
    signal left it is the timeout that quits it. *)
Fixpoint run_signals (signals : list properties_changed) (ctx : UpdateContext) :
    option UpdateContext :=
  match signals with
  | [] => Some ctx
  | signal :: rest =>
      r ← on_properties_changed signal ctx;
      if r.2 : bool then Some r.1 else run_signals rest r.1
  end.

(** [prop_result]: the value of the property, if it could be read. *)
Definition wait_for_serial (serial : Z) (prop_result : option Z)
    (signals : list properties_changed) (ctx : UpdateContext) : option UpdateContext :=
  if match prop_result with Some retrieved_serial => (retrieved_serial =? serial)%Z | None => false end
  then Some (UpdateCtx (uc_expected_serial ctx) true)
  else run_signals signals (UpdateCtx serial (uc_success ctx)).

(** What the bus answers ([None] is an error), and the signals it delivers while
    the command waits. *)
Record bus := Bus {
  bus_connected : bool;
  bus_update : list server_dict → Z → option (Z * string);
  bus_serial : option Z;
  bus_signals : list properties_changed
}.

Definition cli_update_command `{Inet} (b : bus) (options : update_command_options_t) :
    option exit_code_t :=
  if negb (bus_connected b) then Some EXIT_COMMAND_FAILURE
  else
    servers ← build_servers_variant (uo_servers_uris options);
    let ctx := UpdateCtx 0 false in
    ctx ←
      match bus_update b servers (mode_value (uo_mode options)) with
      | None => Some ctx
      | Some (serial, _) =>
          if (serial =? 0)%Z then Some ctx
          else wait_for_serial serial (bus_serial b) (bus_signals b) ctx
      end;
    Some (if uc_success ctx then EXIT_OK else EXIT_COMMAND_FAILURE).

(** ** Specification *)

(** The server the daemon reads from the dictionary of a server, with the
    domains in their ASCII form. *)
Definition received_server (junk : sockaddr_storage) (s : server_uri_t)
    (routing search : list string) : server_uri_t :=
  let default_port := match su_protocol s with DNS_TLS => 853 | _ => 53 end%Z in
  ServerUri
    (set_port (if (server_port s =? 0)%Z then default_port else server_port s)
      (canonical_address sockaddr_zero (su_address s)))
    (su_priority s) (su_interface s) (su_dnssec s) (su_protocol s)
    (su_certification_authority s) (su_name s)
    (match routing with [] => ["."] | _ => routing end) search
    (reread_network junk <$> su_networks s).

(** ** Proofs *)

Section ClientProofs.
Context `{InetLaws} `{Idn} (junk : sockaddr_storage).

(** The value of a key among the entries. *)
Fixpoint entry (fields : list (string * option gvariant)) (key : string) : option gvariant :=
  match fields with
  | [] => None
  | (k, o) :: rest =>
      if k ==s key then match o with Some v => Some v | None => entry rest key end
      else entry rest key
  end.

Lemma entries_lookup fields key :
  (list_to_map (omap (λ '(k, o), (k,.) <$> o) fields) : server_dict) !! key = entry fields key.
Proof.
  induction fields as [|[k o] fields IH]; [apply lookup_empty|]. cbn [entry omap list_omap].
  destruct o as [v|]; cbn [fmap option_fmap option_map list_to_map foldr].
  - destruct (decide (k = key)) as [->|Hne].
    + rewrite bool_decide_eq_true_2 by done. apply lookup_insert_eq.
    + rewrite bool_decide_eq_false_2 by done. rewrite <-IH. by apply lookup_insert_ne.
  - rewrite <-IH. by case_bool_decide.
Qed.

Section Fields.
Context (s : server_uri_t) (Hs : server_wf s) (ip : string) (nets : list string).
Context (Hip : ip_to_str (su_address s) = Some ip).
Context (Hnets : mapM network_address_to_string (su_networks s) = Some nets).

Let d : server_dict :=
  list_to_map (omap (λ '(key, value), (key,.) <$> value) (server_entries s ip nets)).

(** Read one key of the dictionary. *)
Ltac read_key :=
  unfold field, lookup_value, d; rewrite entries_lookup; unfold server_entries;
  cbn [entry]; eval_keys; cbv iota.

Lemma sent_port : field d "port" G_VARIANT_TYPE_INT32 decode_port 0%Z = Some (server_port s).
Proof.
  read_key. pose proof (wf_port _ (sw_address _ Hs)). unfold server_port in *. unfold sent_if.
  destruct (Z.ltb_spec 0 (sin_port (su_address s))); [|f_equal; lia]. cbn.
  by rewrite (proj2 (Z.leb_le _ _)), (proj2 (Z.leb_le _ _)) by lia.
Qed.

Lemma sent_protocol :
  field d "protocol" G_VARIANT_TYPE_STRING decode_protocol DNS_UDP = Some (su_protocol s).
Proof.
  read_key. cbn [has_type decode_protocol]. rewrite protocol_roundtrip by apply Hs.
  pose proof (sw_protocol _ Hs). by destruct (su_protocol s).
Qed.

Lemma sent_interface :
  field d "interface" G_VARIANT_TYPE_STRING decode_interface "" = Some (su_interface s).
Proof.
  read_key. unfold sent_if. destruct (su_interface s) as [|c i] eqn:E; [done|].
  pose proof (sw_interface _ Hs) as Hi. rewrite E in Hi.
  change (0 <? String.length (String c i)) with true. cbn [has_type decode_interface].
  by rewrite (proj2 (Nat.ltb_lt _ _)).
Qed.

Lemma sent_dnssec :
  field d "dnssec" G_VARIANT_TYPE_BOOLEAN decode_dnssec 1%Z = Some (su_dnssec s).
Proof. read_key. by destruct (sw_dnssec _ Hs) as [-> | ->]. Qed.

Lemma sent_plain_fields :
  field d "priority" G_VARIANT_TYPE_INT32 decode_priority 0%Z = Some (su_priority s) ∧
  field d "ca" G_VARIANT_TYPE_STRING decode_string None = Some (su_certification_authority s) ∧
  field d "name" G_VARIANT_TYPE_STRING decode_string None = Some (su_name s).
Proof.
  split; [|split]; read_key; [done|by destruct (su_certification_authority s)|by destruct (su_name s)].
Qed.

Lemma sent_domains :
  field d "routing_domains" G_VARIANT_TYPE_STRING_ARRAY decode_domains []
    = mapM save_domain (su_routing_domains s) ∧
  field d "search_domains" G_VARIANT_TYPE_STRING_ARRAY decode_domains []
    = mapM save_domain (su_search_domains s).
Proof.
  split; read_key; unfold sent_if; [by destruct (su_routing_domains s)|by destruct (su_search_domains s)].
Qed.

Lemma sent_networks :
  field d "networks" G_VARIANT_TYPE_STRING_ARRAY (decode_networks junk) []
  = Some (reread_network junk <$> su_networks s).
Proof.
  read_key. unfold sent_if. pose proof (sw_networks _ Hs) as Hn. apply mapM_Some in Hnets.
  assert (mapM (λ x, network_address_t_from_string x junk) nets
    = Some (reread_network junk <$> su_networks s)) as Hm.
  { clear Hs. clearbody d. revert Hn. induction Hnets as [|n v ns vs Hv _ IH]; intros Hn; [done|].
    inversion Hn; subst. cbn. erewrite network_reread by done. by rewrite IH. }
  destruct (su_networks s); [done|]. exact Hm.
Qed.

Lemma sent_address : decode_address d = inr (canonical_address sockaddr_zero (set_port 0 (su_address s))).
Proof.
  unfold decode_address, d. rewrite entries_lookup. cbn [server_entries entry]. eval_keys. cbv iota.
  rewrite (parse_ip_canonical _ sockaddr_zero ip) by (apply Hs || done). f_equal.
  unfold canonical_address. by destruct (su_address s) as [[] z s4 s6].
Qed.
End Fields.

Lemma server_received s :
  server_wf s →
  ∃ d, build_server_dict s = Some d ∧
    parse_server junk d
    = match mapM save_domain (su_routing_domains s), mapM save_domain (su_search_domains s) with
      | Some routing, Some search => POk (received_server junk s routing search)
      | _, _ => PErr PARSE_ERROR_INVALID_DOMAIN
      end.
Proof.
  intros Hs. destruct (ip_to_str_Some _ (sw_address _ Hs)) as [ip Hip].
  destruct (network_texts_Some _ (sw_networks _ Hs)) as [nets Hnets].
  unfold build_server_dict. rewrite Hip, Hnets. cbn [mbind option_bind]. eexists. split; [done|].
  rewrite parse_server_decodes. unfold server_of_dict.
  rewrite (sent_address s Hs ip nets Hip), (sent_port s Hs), (sent_protocol s Hs),
    (sent_interface s Hs), (sent_dnssec s Hs), (sent_networks s Hs ip nets Hnets).
  destruct (sent_domains s ip nets) as [-> ->].
  destruct (sent_plain_fields s ip nets) as (-> & -> & ->). cbn [check].
  destruct (mapM save_domain (su_routing_domains s)); [|done].
  destruct (mapM save_domain (su_search_domains s)); [|done]. cbn [check].
  unfold received_server, canonical_address, set_port. do 2 f_equal.
  by destruct (su_address s) as [[] z s4 s6].
Qed.

Lemma servers_received servers :
  Forall server_wf servers →
  ∃ dicts, build_servers_variant servers = Some dicts ∧
    Forall2 (λ s d, parse_server junk d
      = match mapM save_domain (su_routing_domains s), mapM save_domain (su_search_domains s) with
        | Some routing, Some search => POk (received_server junk s routing search)
        | _, _ => PErr PARSE_ERROR_INVALID_DOMAIN
        end) servers dicts.
Proof.
  induction 1 as [|s servers Hs _ (dicts & Hd & HF)]; [by exists []|].
  destruct (server_received s Hs) as (d & Hsd & Hp). exists (d :: dicts).
  unfold build_servers_variant in *. cbn. rewrite Hsd. cbn. rewrite Hd. cbn. split; [done|].
  by constructor.
Qed.

(** What the update command sends is what the daemon receives: the
    dictionaries of well-formed servers are built without reading an unwritten
    buffer, and the parser of the call reads each one as the server it was built
    from - with the port of its protocol when it has none, with the root as its
    domain when it has none, and with domains in ASCII - or refuses it for a
    domain that has no ASCII form. *)
Theorem update_received (servers : list server_uri_t) :
  Forall server_wf servers →
  ∃ dicts, build_servers_variant servers = Some dicts ∧
    Forall2 (λ s d, parse_server junk d
      = match mapM save_domain (su_routing_domains s), mapM save_domain (su_search_domains s) with
        | Some routing, Some search => POk (received_server junk s routing search)
        | _, _ => PErr PARSE_ERROR_INVALID_DOMAIN
        end) servers dicts.
Proof. apply servers_received. Qed.
End ClientProofs.

(** *** The wait for the serial *)

(** There is no argument for the third conversion. *)
Lemma on_properties_changed_undefined signal ctx : on_properties_changed signal ctx = None.
Proof. done. Qed.

Lemma run_signals_spec signals ctx :
  run_signals signals ctx = match signals with [] => Some ctx | _ :: _ => None end.
Proof. destruct signals; [done|]. cbn [run_signals]. by rewrite on_properties_changed_undefined. Qed.

(** How the wait for a serial ends. *)
Definition wait_exit (serial : Z) (property : option Z) (signals : list properties_changed) :
    option exit_code_t :=
  if bool_decide (property = Some serial) then Some EXIT_OK
  else match signals with [] => Some EXIT_COMMAND_FAILURE | _ :: _ => None end.

Lemma cli_update_exit_wf `{InetLaws} (b : bus) (options : update_command_options_t) :
  Forall server_wf (uo_servers_uris options) →
  ∃ dicts, build_servers_variant (uo_servers_uris options) = Some dicts ∧
    cli_update_command b options
    = match bus_update b dicts (mode_value (uo_mode options)) with
      | Some (serial, _) =>
          if bus_connected b && negb (serial =? 0)%Z
          then wait_exit serial (bus_serial b) (bus_signals b)
          else Some EXIT_COMMAND_FAILURE
      | None => Some EXIT_COMMAND_FAILURE
      end.
Proof.
  intros Hs. assert (is_Some (build_servers_variant (uo_servers_uris options))) as [dicts Hd].
  { apply mapM_is_Some. eapply Forall_impl; [exact Hs|]. intros s [Ha _ _ _ _ Hn].
    destruct (ip_to_str_Some _ Ha) as [ip Hip], (network_texts_Some _ Hn) as [nets Hnets].
    unfold compose, build_server_dict. rewrite Hip, Hnets. by eexists. }
  exists dicts. split; [done|]. unfold cli_update_command. rewrite Hd.
  destruct (bus_connected b); cbn [negb mbind option_bind andb];
    [|by destruct (bus_update b dicts _) as [[]|]].
  destruct (bus_update b dicts _) as [[serial msg]|]; [|done].
  destruct (serial =? 0)%Z; [done|]. cbn [negb]. unfold wait_for_serial, wait_exit.
  destruct (bus_serial b) as [z|]; [destruct (Z.eqb_spec z serial) as [->|Hne]|].
  - by rewrite bool_decide_eq_true_2.
  - rewrite bool_decide_eq_false_2 by congruence. rewrite run_signals_spec. by destruct (bus_signals b).
  - rewrite bool_decide_eq_false_2 by done. rewrite run_signals_spec. by destruct (bus_signals b).
Qed.

(** *** The options *)

Section OptionProofs.
Context `{InetLaws} `{UriParser} (json_loads : string → option json) (junk : sockaddr_storage).

Lemma parse_update_keys_wf keys st st' :
  sockaddr_typed junk → Forall server_wf (uo_servers_uris st.1) →
  parse_update_keys json_loads junk keys st = Ok st' → Forall server_wf (uo_servers_uris st'.1).
Proof.
  intros Hj. revert st. induction keys as [|key keys IH]; intros st Hst; [by intros [= <-]|].
  cbn [parse_update_keys mbind result_bind].
  destruct (parse_update_command_opt json_loads junk key st) as [st1| |] eqn:E; try done.
  apply IH. destruct st as [cfg pj], key as [|arg|arg|]; cbn in E.
  - by simplify_eq.
  - repeat case_match; by simplify_eq.
  - destruct pj; [done|]. destruct (uo_json cfg).
    + pose proof (list_from_json_wf json_loads junk arg Hj) as Hl.
      destruct (server_uri_t_list_from_json junk json_loads arg); by simplify_eq.
    + destruct (server_uri_t_init_from_string junk arg) as [u| |] eqn:Eu; simplify_eq/=.
      apply Forall_app. split; [done|]. constructor; [|done].
      by eapply init_from_string_wf.
  - by simplify_eq.
Qed.

(** C15: how [dnsconfd update] ends, whatever servers its command line gives:
    with success when the daemon accepted the call with a serial other than 0 and
    the property already has that serial; with [EXIT_COMMAND_FAILURE] when the bus
    or the call fails, when the serial is 0, and when no signal comes before the
    timeout; and when it is waiting and any signal comes, its behaviour is
    undefined: the handler gives [g_variant_get] one pointer too few. *)
Theorem cli_update_exit (b : bus) (keys : list update_key) (options : update_command_options_t) :
  sockaddr_typed junk → parse_update_command json_loads junk keys = Ok options →
  ∃ dicts, build_servers_variant (uo_servers_uris options) = Some dicts ∧
    cli_update_command b options
    = match bus_update b dicts (mode_value (uo_mode options)) with
      | Some (serial, _) =>
          if bus_connected b && negb (serial =? 0)%Z
          then if bool_decide (bus_serial b = Some serial) then Some EXIT_OK
               else match bus_signals b with
                    | [] => Some EXIT_COMMAND_FAILURE
                    | _ :: _ => None
                    end
          else Some EXIT_COMMAND_FAILURE
      | None => Some EXIT_COMMAND_FAILURE
      end.
Proof.
  intros Hj Hk. apply cli_update_exit_wf. unfold parse_update_command in Hk.
  destruct (parse_update_keys _ _ _ _) as [st| |] eqn:E; simplify_eq/=.
  eapply parse_update_keys_wf; [done| |exact E]. constructor.
Qed.
End OptionProofs.

(** *** From the command line to the daemon *)

Section EndToEnd.
Context `{UriLaws} `{!InetLaws} `{Idn} (json_loads : string → option json).
Context (junk junk' : sockaddr_storage).

Lemma received_reread s routing search :
  server_wf s → received_server junk' (uri_reread junk s) routing search
              = received_server junk' s routing search.
Proof.
  intros [Ha _ _ _ _ Hn]. unfold received_server, server_port, uri_reread. cbn.
  assert (Hc : ∀ z z' a, sockaddr_wf a →
    canonical_address z' (set_port (sin_port a) (canonical_address z a)) = canonical_address z' a
    ∧ sin_port (canonical_address z a) = sin_port a).
  { intros z z' [[] p s4 s6] [Hf _ _ _]; done. }
  destruct (Hc sockaddr_zero sockaddr_zero _ Ha) as [Hc1 Hp].
  f_equal.
  - rewrite Hp. f_equal. rewrite <-Hc1 at 2. f_equal.
    by destruct (su_address s) as [[] ? ? ?].
  - clear Hc1 Hp Ha. induction Hn as [|n ns [Hna _ _] _ IH]; [done|]. cbn. f_equal; [|exact IH].
    unfold reread_network. cbn. f_equal. destruct Hna as [Hf _ _ _].
    by destruct (na_address n) as [[] ? ? ?].
Qed.

Lemma mode_keys m :
  ∀ st, parse_update_command_opt json_loads junk (OPT_MODE (dnsconfd_mode_t_to_string m)) (st, false)
  = Ok (match m with MODE_BACKUP => st
        | _ => UpdateOptions m (uo_json st) (uo_servers_uris st) end, false).
Proof. by destruct m. Qed.

Lemma uri_keys servers texts st :
  Forall server_wf servers → Forall server_plain servers → mapM uri_of_server servers = Some texts →
  uo_json st = false →
  parse_update_keys json_loads junk ((UPDATE_KEY_ARG <$> texts) ++ [UPDATE_KEY_END]) (st, false)
  = Ok (UpdateOptions (uo_mode st) false (uo_servers_uris st ++ (uri_reread junk <$> servers)), false).
Proof.
  intros Hwf Hplain Ht%mapM_Some. revert st.
  induction Ht as [|s t servers texts Hst _ IH]; intros [m js us] Hjs; cbn in Hjs; subst.
  { cbn. by rewrite app_nil_r. }
  inversion Hwf; inversion Hplain; subst. cbn [fmap list_fmap app parse_update_keys].
  cbn [parse_update_command_opt uo_json]. destruct (uri_reparsed junk s) as (t' & Ht' & Hp); [done..|].
  rewrite Hst in Ht'. simplify_eq. rewrite Hp. cbn [mbind result_bind].
  rewrite IH by done. cbn. by rewrite <-app_assoc.
Qed.

(** C13: from the command line to the daemon: the URIs of any well-formed servers
    (whose strings need no escapes), given to [dnsconfd update] with any mode,
    are parsed by the client, sent, and read by the daemon as the same servers,
    in order, with the defaults filled in. *)
Theorem uris_reach_daemon (m : dnsconfd_mode_t) (servers : list server_uri_t) :
  sockaddr_typed junk → Forall server_wf servers → Forall server_plain servers →
  ∃ texts options dicts,
    mapM uri_of_server servers = Some texts ∧
    parse_update_command json_loads junk
      (OPT_MODE (dnsconfd_mode_t_to_string m) :: (UPDATE_KEY_ARG <$> texts) ++ [UPDATE_KEY_END])
    = Ok options ∧
    uo_mode options = m ∧ build_servers_variant (uo_servers_uris options) = Some dicts ∧
    Forall2 (λ s d, parse_server junk' d
      = match mapM save_domain (su_routing_domains s), mapM save_domain (su_search_domains s) with
        | Some routing, Some search => POk (received_server junk' s routing search)
        | _, _ => PErr PARSE_ERROR_INVALID_DOMAIN
        end) servers dicts.
Proof.
  intros Hj Hwf Hplain.
  assert (is_Some (mapM uri_of_server servers)) as [texts Ht].
  { apply mapM_is_Some. rewrite Forall_forall in Hwf, Hplain |- *. intros s Hs.
    destruct (uri_reparsed junk s) as (t & Ht & _); [by auto..|]. by exists t. }
  assert (Hre : Forall server_wf (uri_reread junk <$> servers)).
  { apply Forall_fmap. rewrite Forall_forall in Hwf, Hplain |- *. intros s Hs.
    destruct (uri_reparsed junk s) as (t & _ & Hi); [by auto..|]. by eapply init_from_string_wf. }
  destruct (servers_received junk' _ Hre) as (dicts & Hd & HF).
  exists texts, (UpdateOptions m false (uri_reread junk <$> servers)), dicts.
  split; [done|]. split; [|split; [done|split; [done|]]].
  - unfold parse_update_command. cbn [parse_update_keys].
    rewrite (mode_keys m (UpdateOptions MODE_BACKUP false [])). cbn [mbind result_bind].
    rewrite (uri_keys servers texts) by (try done; by destruct m). by destruct m.
  - apply Forall2_fmap_l in HF. clear Ht Hd Hre. induction HF as [|s d ss ds Hs _ IH]; [constructor|].
    inversion Hwf; inversion Hplain; subst. constructor; [|by apply IH]. cbn in Hs. rewrite Hs.
    destruct (mapM save_domain (su_routing_domains s)); [|done].
    destruct (mapM save_domain (su_search_domains s)); [|done]. by rewrite received_reread.
Qed.

(** C18: the URI the status shows for a server of the cache is one the update
    command accepts, and it stands for the same protocol, the same address and -
    once the default is filled in - the same port; the name a TLS server is
    verified against is shown as a fragment, which is not read back. *)
Theorem status_uri_read_back (s : server_uri_t) :
  server_wf s → server_port s ≠ 0%Z → Forall plain (option_list (su_name s)) → su_name s ≠ Some "" →
  ∃ text s', status_uri s = Some text ∧ server_uri_t_init_from_string junk text = Ok s' ∧
    su_protocol s' = su_protocol s ∧ su_name s' = None ∧
    set_default_port (su_address s') (if bool_decide (su_protocol s = DNS_TLS) then 853 else 53)%Z
    = canonical_address sockaddr_zero (su_address s).
Proof.
  intros [Ha _ _ _ Hq _] Hport Hname Hname0. destruct (ip_to_str_Some _ Ha) as [ip Hip].
  set (dflt := (if bool_decide (su_protocol s = DNS_TLS) then 853 else 53)%Z).
  set (a := set_port (if (server_port s =? dflt)%Z then 0 else server_port s)%Z (su_address s)).
  set (frag := if bool_decide (su_protocol s = DNS_TLS) then default "" (su_name s) else "").
  assert (Hawf : sockaddr_wf a).
  { unfold a, server_port in *. destruct Ha. split; simpl; try done. destruct (_ =? _)%Z; lia. }
  assert (Hipa : ip_to_str a = Some ip) by done.
  assert (Htext : status_uri s = Some (uri_text (dns_protocol_t_to_string (su_protocol s))
    (host_text (ss_family a) ip) (port_text a) (query_text []) frag)).
  { unfold status_uri. rewrite Hip. cbn [mbind option_bind]. f_equal.
    assert (Hpt : optional_text ":" (port_text a)
      = if (server_port s =? dflt)%Z then "" else ":" +:+ fmt_d (server_port s)).
    { unfold port_text, a, server_port. cbn. destruct (_ =? dflt)%Z; [done|].
      unfold server_port in Hport. destruct (Z.eqb_spec (sin_port (su_address s)) 0); [done|].
      unfold optional_text. by rewrite bool_decide_eq_false_2 by apply fmt_d_not_nil. }
    assert (Hh : (if bool_decide (ss_family (su_address s) = AF_INET) then ip
      else "[" +:+ ip +:+ "]") = host_text (ss_family a) ip).
    { unfold a. cbn [ss_family set_port]. by destruct (ss_family (su_address s)). }
    unfold uri_text. rewrite Hpt, Hh. change (optional_text "?" (query_text [])) with "".
    unfold frag, dflt. destruct (bool_decide (su_protocol s = DNS_TLS)).
    - assert (Hf : optional_text "#" (default "" (su_name s))
        = match su_name s with Some n => "#" +:+ n | None => "" end).
      { destruct (su_name s) as [[|c n]|]; done. }
      rewrite Hf. destruct (server_port s =? 853)%Z, (su_name s); cbn [negb];
        by rewrite !string_app_assoc, ?string_app_nil_r.
    - destruct (server_port s =? 53)%Z; cbn [negb];
        by rewrite !string_app_assoc, ?string_app_nil_r. }
  assert (Hparse : server_uri_t_init_from_string junk (uri_text
    (dns_protocol_t_to_string (su_protocol s)) (host_text (ss_family a) ip) (port_text a)
    (query_text []) frag) = Ok (set_address (canonical_address sockaddr_zero a)
                                 (set_protocol (su_protocol s) server_uri_t_init))).
  { rewrite (init_of_parts _ _ (su_protocol s) a ip
      (optional_text "?" (query_text []) +:+ optional_text "#" frag) (query_text [])); try done.
    - apply uri_parse_text; [by apply protocol_scheme|done|done|by apply port_digits|constructor|].
      unfold frag. destruct (bool_decide _); [|constructor].
      destruct (su_name s); [by inversion Hname|constructor].
    - change (optional_text "?" (query_text [])) with "". unfold optional_text.
      by case_bool_decide. }
  eexists _, _. split; [exact Htext|]. split; [exact Hparse|]. split; [done|]. split; [done|].
  cbn [su_address set_address set_protocol]. unfold set_default_port, canonical_address, a.
  destruct Ha as [Hf _ _ _]. unfold server_port in *. destruct (su_address s) as [[] p s4 s6]; try done;
    cbn in *; destruct (Z.eqb_spec p dflt); subst; try done; by rewrite (proj2 (Z.eqb_neq _ _)).
Qed.
End EndToEnd.

(** ** Witnesses *)

Theorem update_received_witness :
  ∃ dicts, build_servers_variant [ex_uri_server; ex_named] = Some dicts ∧
    Forall2 (λ s d, parse_server sockaddr_zero d
      = match mapM save_domain (su_routing_domains s), mapM save_domain (su_search_domains s) with
        | Some routing, Some search => POk (received_server sockaddr_zero s routing search)
        | _, _ => PErr PARSE_ERROR_INVALID_DOMAIN
        end) [ex_uri_server; ex_named] dicts.
Proof.
  apply (update_received sockaddr_zero [ex_uri_server; ex_named]).
  apply servers_wf_check. vm_compute. reflexivity.
Defined.

(** A bus on which the daemon takes the update and is done with it at once; and
    one on which it announces the serial later. *)
Definition ex_bus : bus := Bus true (λ _ _, Some (7, "Update accepted")%Z) (Some 7%Z) [].

Definition ex_bus_announcing : bus :=
  Bus true (λ _ _, Some (7, "Update accepted")%Z) (Some 6%Z)
    [PropertiesChanged manager_interface [("configuration_serial", 7%Z)] []].

Definition ex_options : update_command_options_t :=
  match parse_update_command (λ _, None) sockaddr_zero
          [OPT_MODE "Prefer"; UPDATE_KEY_ARG "dns+tls://192.168.6.3?name=named"; UPDATE_KEY_END] with
  | Ok o => o
  | _ => UpdateOptions MODE_BACKUP false []
  end.

Theorem cli_update_exit_witness : cli_update_command ex_bus ex_options = Some EXIT_OK.
Proof.
  destruct (cli_update_exit (λ _, None) sockaddr_zero ex_bus
    [OPT_MODE "Prefer"; UPDATE_KEY_ARG "dns+tls://192.168.6.3?name=named"; UPDATE_KEY_END] ex_options)
    as (dicts & _ & Hexit).
  - apply sockaddr_zero_typed.
  - vm_compute. reflexivity.
  - rewrite Hexit. vm_compute. reflexivity.
Defined.

Example ex_announced : cli_update_command ex_bus_announcing ex_options = None.
Proof. vm_compute. reflexivity. Qed.

Theorem uris_reach_daemon_witness :
  ∃ texts options dicts,
    mapM uri_of_server [ex_uri_server] = Some texts ∧
    parse_update_command (λ _, None) sockaddr_zero
      (OPT_MODE "exclusive" :: (UPDATE_KEY_ARG <$> texts) ++ [UPDATE_KEY_END]) = Ok options ∧
    uo_mode options = MODE_EXCLUSIVE ∧
    build_servers_variant (uo_servers_uris options) = Some dicts ∧
    Forall2 (λ s d, parse_server sockaddr_zero d
      = match mapM save_domain (su_routing_domains s), mapM save_domain (su_search_domains s) with
        | Some routing, Some search => POk (received_server sockaddr_zero s routing search)
        | _, _ => PErr PARSE_ERROR_INVALID_DOMAIN
        end) [ex_uri_server] dicts.
Proof.
  apply (uris_reach_daemon (λ _, None) sockaddr_zero sockaddr_zero MODE_EXCLUSIVE [ex_uri_server]).
  - apply sockaddr_zero_typed.
  - apply servers_wf_check. vm_compute. reflexivity.
  - constructor; [apply ex_uri_server_plain|constructor].
Defined.

Theorem status_uri_read_back_witness :
  ∃ text s', status_uri ex_uri_server = Some text ∧
    server_uri_t_init_from_string sockaddr_zero text = Ok s' ∧ su_protocol s' = DNS_TLS ∧
    su_name s' = None ∧
    set_default_port (su_address s') 853
    = canonical_address sockaddr_zero (su_address ex_uri_server).
Proof.
  apply (status_uri_read_back sockaddr_zero ex_uri_server).
  - apply server_wf_check_sound. vm_compute. reflexivity.
  - discriminate.
  - apply ex_uri_server_plain.
  - discriminate.
Defined.
