(* ===== verification/EndToEnd.v ===== *)
(** * A client and the daemon together

    [dnsconfd update] of Client.v against the handlers of the daemon in
    DbusServer.v: what the user is told about servers the daemon was given. *)

From S2P Require Import Prelude CLib GLib SockAddr NetworkAddress ServerUri ServerTable ServerParse.
From S2P Require Import ConfigData World UnboundSelect FsmContext Fsm DbusServer Daemon Liveness Client.

(** ** Specification *)

Section Session.
Context `{Inet} `{Idn} `{GListSort} `{IntOverflow}.
Context (junk : sockaddr_storage).

(** The command calls the daemon, which answers the call and then the question
    for the serial; [signals] are the signals the command gets until the timeout.
    The result: the daemon and the exit code of the command, [None] when its
    behaviour is undefined. *)
Definition update_session (options : update_command_options_t) (signals : list properties_changed)
    (ctx : fsm_context_t) : M (fsm_context_t * option exit_code_t) :=
  match build_servers_variant (uo_servers_uris options) with
  | None => mret (ctx, None)
  | Some dicts =>
      r ← handle_update_call junk dicts (mode_value (uo_mode options)) ctx;
      mret (r.1, cli_update_command
        (Bus true (λ _ _, Some r.2) (handle_get_property "configuration_serial" r.1) signals)
        options)
  end.

(** The servers as the daemon reads them; [None]: a domain has no ASCII form. *)
Definition received_servers (servers : list server_uri_t) : option (list server_uri_t) :=
  mapM (λ s, routing ← mapM save_domain (su_routing_domains s);
             search ← mapM save_domain (su_search_domains s);
             Some (received_server junk s routing search)) servers.
End Session.

(** ** Proofs *)

Section SessionProofs.
Context `{InetLaws} `{Idn} `{GListSortLaws} `{IntOverflow} (e : env).
Context (junk : sockaddr_storage).

Lemma servers_of_dicts_received servers dicts :
  Forall2 (λ s d, parse_server junk d
    = match mapM save_domain (su_routing_domains s), mapM save_domain (su_search_domains s) with
      | Some routing, Some search => POk (received_server junk s routing search)
      | _, _ => PErr PARSE_ERROR_INVALID_DOMAIN
      end) servers dicts →
  servers_of_dicts junk dicts
  = match received_servers junk servers with
    | Some l => inr l
    | None => inl PARSE_ERROR_INVALID_DOMAIN
    end.
Proof.
  unfold received_servers. induction 1 as [|s d servers dicts Hd _ IH]; [done|].
  cbn [servers_of_dicts mapM]. rewrite <-parse_server_decodes, Hd, IH.
  destruct (mapM save_domain (su_routing_domains s)) as [routing|]; [|done].
  destruct (mapM save_domain (su_search_domains s)) as [search|]; [|done]. simpl.
  by destruct (mapM _ servers).
Qed.

(** The values sent have the ranges of their types. *)
Lemma sent_fields_ok (fields : list (string * option gvariant)) :
  Forall (λ f, ∀ v, f.2 = Some v → variant_ok v) fields →
  dict_ok (list_to_map (omap (λ '(key, value), (key,.) <$> value) fields)).
Proof.
  induction 1 as [|[k o] fields Hf _ IH]; [by intros ? ?|]. cbn [omap list_omap].
  destruct o as [v|]; [|exact IH]. cbn. apply map_Forall_insert_2; [by apply Hf|exact IH].
Qed.

Lemma build_server_dict_ok s d : server_wf s → build_server_dict s = Some d → dict_ok d.
Proof.
  intros Hs. unfold build_server_dict.
  destruct (ip_to_str (su_address s)) as [ip|]; [|done]. cbn [mbind option_bind].
  destruct (mapM network_address_to_string (su_networks s)) as [nets|]; [|done].
  intros Heq. apply (inj Some) in Heq as <-. apply sent_fields_ok.
  pose proof (sw_priority _ Hs). pose proof (wf_port _ (sw_address _ Hs)) as Hp.
  unfold server_entries, sent_if, server_port. destruct (su_certification_authority s), (su_name s).
  all: repeat (apply Forall_cons; split; [intros v; cbn; repeat case_match; intros; simplify_eq/=;
    unfold in_int, INT_MIN, INT_MAX in *; done || lia|]).
  all: constructor.
Qed.

Lemma build_servers_variant_ok servers dicts :
  Forall server_wf servers → build_servers_variant servers = Some dicts → Forall dict_ok dicts.
Proof.
  unfold build_servers_variant. intros Hs. rewrite mapM_Some. intros HF.
  induction HF as [|s d servers dicts Hd _ IH]; [constructor|]. inversion Hs; subst.
  constructor; [by eapply build_server_dict_ok|by apply IH].
Qed.

(** The mode and the servers after an update was handed over. *)
Lemma handed_over_mode m l ctx w c w' :
  quit_post (handed_over m l ctx) EVENT_UPDATE w c w' → resolution_mode c = m.
Proof.
  unfold quit_post. destruct (life_next _ _); [by intros (-> & _)|].
  intros (_ & Hevo & _). rewrite (evo_mode _ _ _ _ Hevo). unfold adopt. by case_match.
Qed.

Lemma handed_over_servers m l ctx w c w' :
  quit_post (handed_over m l ctx) EVENT_UPDATE w c w' →
  current_state ctx ∈ [FSM_STARTING; FSM_WAITING_FOR_START_JOB; FSM_RUNNING] →
  current_dynamic_servers c = l.
Proof.
  unfold quit_post, adopt. change (current_state (handed_over m l ctx)) with (current_state ctx).
  intros Hq Hst. repeat (apply elem_of_cons in Hst as [Hst|Hst]; [rewrite Hst in Hq;
    destruct Hq as (_ & Hevo & _); by rewrite (evo_servers _ _ _ _ Hevo)|]).
  by apply not_elem_of_nil in Hst.
Qed.

Lemma mode_of_value m : mode_of_uint32 (mode_value m) = Some m.
Proof. by destruct m. Qed.

(** C14: an update from the command to the daemon and back: well-formed servers
    that [dnsconfd update] is given are sent and answered.  When a domain of theirs
    has no ASCII form, nothing changes in the daemon and the command fails.  Else
    the daemon has taken over the mode and, unless it was stopping, the servers as
    it reads them - once each address, with the priorities of wireless interfaces
    lowered, whatever [prioritize_wire] says.  If it runs afterwards, its record of
    what the cache was given is the servers in use and the command succeeds,
    whatever signals come.  If the configuration is still pending, the command
    fails at the timeout when no signal comes before it, and its behaviour is
    undefined as soon as one does, such as the one that announces the serial. *)
Theorem update_session_correct (options : update_command_options_t)
    (signals : list properties_changed) (ctx : fsm_context_t) (w : world) :
  daemon_inv ctx → sockaddr_typed junk → Forall server_wf (uo_servers_uris options) →
  wp (update_session junk options signals ctx) e w (λ '(ctx', code) _, daemon_inv ctx' ∧
    match received_servers junk (uo_servers_uris options) with
    | None => ctx' = ctx ∧ code = Some EXIT_COMMAND_FAILURE
    | Some received =>
        resolution_mode ctx' = uo_mode options ∧
        (current_state ctx ∈ [FSM_STARTING; FSM_WAITING_FOR_START_JOB; FSM_RUNNING] →
          Forall2 (lowered e) (first_interface [] received) (current_dynamic_servers ctx')) ∧
        (current_state ctx' = FSM_RUNNING → record_in_sync ctx' ∧ code = Some EXIT_OK) ∧
        (current_configuration_serial ctx' ≠ requested_configuration_serial ctx' →
          code = match signals with [] => Some EXIT_COMMAND_FAILURE | _ :: _ => None end)
    end).
Proof.
  intros Hinv Hj Hwf. destruct (servers_received junk _ Hwf) as (dicts & Hb & HF).
  unfold update_session. rewrite Hb. pose proof (build_servers_variant_ok _ _ Hwf Hb) as Hd.
  eapply wp_seq; [by apply (wp_handle_update_call e junk)|]. cbv beta. intros [c [serial msg]] w1 Hr.
  rewrite mode_of_value, (servers_of_dicts_received _ _ HF) in Hr. apply wp_ret.
  cbn [fst snd] in *. set (b := Bus _ _ _ _).
  destruct (cli_update_exit_wf b options Hwf) as (dicts' & Hb' & Hexit). rewrite Hexit. clear Hexit.
  cbn [bus_connected bus_update bus_serial bus_signals b andb].
  assert (handle_get_property "configuration_serial" c = Some (current_configuration_serial c))
    as -> by done.
  destruct (received_servers junk (uo_servers_uris options)) as [received|].
  2: { destruct Hr as [[= -> -> ->] _]. split; [done|]. done. }
  destruct Hr as (l & w2 & Hl & _ & Hinv' & Hq & [= -> ->]). split; [done|].
  pose proof (inv_serial _ (proj1 Hinv')) as Hser.
  assert (Hnz : negb (requested_configuration_serial c =? 0)%Z = true) by lia.
  rewrite Hnz. unfold wait_exit. cbn [andb].
  assert (Hq' : quit_post (handed_over (uo_mode options) l ctx) EVENT_UPDATE w2 c w1) by exact Hq.
  split; [|split; [|split]].
  - by apply (handed_over_mode _ _ _ _ _ _ Hq').
  - intros Hst. replace (current_dynamic_servers c) with l; [done|].
    symmetry. by eapply handed_over_servers.
  - intros Hrun. destruct Hinv' as (_ & _ & Hsync & _). pose proof (Hsync Hrun) as Hs.
    split; [done|]. destruct Hs as [Heq _]. rewrite bool_decide_eq_true_2 by congruence. done.
  - intros Hne. rewrite bool_decide_eq_false_2 by congruence. done.
Qed.
End SessionProofs.

(** ** Witnesses *)

Definition ex_received : list server_uri_t :=
  default [] (received_servers sockaddr_zero (uo_servers_uris ex_options)).

(** The cache runs already: no signal is needed. *)
Theorem update_session_correct_witness :
  wp (update_session sockaddr_zero ex_options [] ex_ran) ex_env ex_ready (λ '(ctx', code) _,
    resolution_mode ctx' = MODE_PREFER ∧
    Forall2 (lowered ex_env) (first_interface [] ex_received) (current_dynamic_servers ctx') ∧
    (current_state ctx' = FSM_RUNNING → code = Some EXIT_OK)).
Proof.
  eapply wp_mono.
  - apply (update_session_correct ex_env sockaddr_zero ex_options [] ex_ran ex_ready).
    + apply ex_ran_inv.
    + apply sockaddr_zero_typed.
    + apply servers_wf_check. vm_compute. reflexivity.
  - intros [ctx' code] w'.
    assert (received_servers sockaddr_zero (uo_servers_uris ex_options) = Some ex_received) as ->
      by (vm_compute; reflexivity).
    intros (_ & Hm & Hl & Hrun & _). split; [exact Hm|]. split.
    + apply Hl. vm_compute. apply list_elem_of_further, list_elem_of_further, list_elem_of_here.
    + intros Hst. by apply Hrun.
Defined.

Example ex_session :
  match update_session sockaddr_zero ex_options [] ex_ran ex_env ex_ready with
  | Some ((ctx', code), _) => (current_state ctx', length (current_dynamic_servers ctx'), code)
  | None => (FSM_STOPPING, 0, None)
  end = (FSM_RUNNING, 1, Some EXIT_OK).
Proof. vm_compute. reflexivity. Qed.
