(* ===== verification/Options.v ===== *)
(** * The command line: src/src/configuration_parsing/global_options.c (lines 1-203),
      config_command.c, status_command.c, reload_command.c

    The option parsers that argp calls.  How argp cuts the arguments into calls
    of a parser, and the help it prints on its own, is the interface [Argp]. *)

From S2P Require Import Prelude CLib SockAddr NetworkAddress ServerUri ServerJson ServerParse.
From S2P Require Import ConfigData ConfigFile Client.

(** ** Definitions: the subcommands *)

Inductive config_action_t :=
| CONFIG_ACTION_NONE | CONFIG_ACTION_NM_ENABLE | CONFIG_ACTION_NM_DISABLE
| CONFIG_ACTION_TAKE_RESOLVCONF | CONFIG_ACTION_RETURN_RESOLVCONF
| CONFIG_ACTION_INSTALL | CONFIG_ACTION_UNINSTALL.
#[export] Instance config_action_t_eq_dec : EqDecision config_action_t.
Proof. solve_decision. Defined.

Record config_command_options_t := ConfigOptions { co_action : config_action_t }.
Record status_command_options_t := StatusOptions { so_json : bool }.

(** The union, by the member that was written last; zero at first. *)
Inductive command_options_t :=
| no_options
| status_options (o : status_command_options_t)
| update_options (o : update_command_options_t)
| config_options (o : config_command_options_t).

(** What [argp_parse] does: the calls of the parser, and then the exit status
    when argp ends the process itself (a help text, an unknown option). *)
Definition argp_run (key : Type) : Type := list key * option Z.

(** The outcome of a parser: a value, the end of the process, or an access
    outside of a buffer. *)
Inductive parse_outcome (A : Type) :=
| Parses (a : A)
| Exits (exit_status : Z)
| Crashes.
Arguments Parses {A} a.
Arguments Exits {A} exit_status.
Arguments Crashes {A}.

(** [argp_err_exit_status], with which [argp_error] ends the process. *)
Definition argp_err_exit_status : Z := exit_code_value EXIT_BAD_ARGUMENTS.

Definition argp_error {A} : parse_outcome A := Exits argp_err_exit_status.

#[export] Instance parse_outcome_bind : MBind parse_outcome := λ A B f o,
  match o with Parses a => f a | Exits z => Exits z | Crashes => Crashes end.

Fixpoint run_keys {key state} (parser : key → state → parse_outcome state) (keys : list key)
    (st : state) : parse_outcome state :=
  match keys with
  | [] => Parses st
  | k :: rest => st ← parser k st; run_keys parser rest st
  end.

Definition argp_parse {key state} (parser : key → state → parse_outcome state)
    (run : argp_run key) (st : state) : parse_outcome state :=
  st ← run_keys parser run.1 st;
  match run.2 with Some z => Exits z | None => Parses st end.

Inductive status_key := STATUS_OPT_JSON | STATUS_KEY_ARG (arg : string) | STATUS_KEY_END.
Inductive plain_key := PLAIN_KEY_ARG (arg : string) | PLAIN_KEY_END.

Definition parse_status_command_opt (key : status_key) (config : status_command_options_t) :
    parse_outcome status_command_options_t :=
  match key with
  | STATUS_OPT_JSON => Parses (StatusOptions true)
  | STATUS_KEY_ARG _ => argp_error
  | STATUS_KEY_END => Parses config
  end.

Definition parse_reload_command_opt (key : plain_key) (input : ()) : parse_outcome () :=
  match key with
  | PLAIN_KEY_ARG _ => argp_error
  | PLAIN_KEY_END => Parses input
  end.

Definition parse_config_command_opt (key : plain_key) (config : config_command_options_t) :
    parse_outcome config_command_options_t :=
  match key with
  | PLAIN_KEY_ARG arg =>
      if negb (bool_decide (co_action config = CONFIG_ACTION_NONE)) then argp_error
      else if strcasecmp_eq arg "nm_enable" then Parses (ConfigOptions CONFIG_ACTION_NM_ENABLE)
      else if strcasecmp_eq arg "nm_disable" then Parses (ConfigOptions CONFIG_ACTION_NM_DISABLE)
      else if strcasecmp_eq arg "take_resolvconf" then
        Parses (ConfigOptions CONFIG_ACTION_TAKE_RESOLVCONF)
      else if strcasecmp_eq arg "return_resolvconf" then
        Parses (ConfigOptions CONFIG_ACTION_RETURN_RESOLVCONF)
      else if strcasecmp_eq arg "install" then Parses (ConfigOptions CONFIG_ACTION_INSTALL)
      else if strcasecmp_eq arg "uninstall" then Parses (ConfigOptions CONFIG_ACTION_UNINSTALL)
      else argp_error
  | PLAIN_KEY_END =>
      if bool_decide (co_action config = CONFIG_ACTION_NONE) then argp_error else Parses config
  end.

(** ** Definitions: the global options *)

Inductive global_key :=
| OPT_LOG_LEVEL (arg : string)
| OPT_STDERR_LOG | OPT_NO_STDERR_LOG | OPT_SYSLOG_LOG | OPT_NO_SYSLOG_LOG
| OPT_FILE_LOG (arg : string)
| OPT_RESOLV_CONF_PATH (arg : string)
| OPT_LISTEN_ADDRESS (arg : string)
| OPT_PRIORITIZE_WIRE | OPT_NO_PRIORITIZE_WIRE
| OPT_RESOLVER_OPTIONS (arg : string)
| OPT_DNSSEC_ENABLED | OPT_NO_DNSSEC_ENABLED
| OPT_CONFIG_FILE (arg : string)
| OPT_CERTIFICATION_AUTHORITY (arg : string)
| GLOBAL_KEY_ARG (arg : string) (following : list string)
| GLOBAL_KEY_END.

(** The calls for an argument vector. *)
Class Argp := {
  argp_global : list string → argp_run global_key;
  argp_status : list string → argp_run status_key;
  argp_reload : list string → argp_run plain_key;
  argp_config : list string → argp_run plain_key;
  argp_update : list string → argp_run update_key
}.

Section GlobalOptions.
Context `{Inet} `{UriParser} `{Argp}.
Context (json_loads : string → option json).
Context (junk : sockaddr_storage).

Definition global_state : Type := dnsconfd_config_t * command_options_t.

Definition parse_status_command (argv : list string) : parse_outcome status_command_options_t :=
  argp_parse parse_status_command_opt (argp_status argv) (StatusOptions false).

Definition parse_reload_command (argv : list string) : parse_outcome () :=
  argp_parse parse_reload_command_opt (argp_reload argv) ().

Definition parse_config_command (argv : list string) : parse_outcome config_command_options_t :=
  argp_parse parse_config_command_opt (argp_config argv) (ConfigOptions CONFIG_ACTION_NONE).

(** [parse_update_command] of Client, under argp. *)
Definition run_update_command (argv : list string) : parse_outcome update_command_options_t :=
  match parse_update_command json_loads junk (argp_update argv).1 with
  | Ok o => match (argp_update argv).2 with Some z => Exits z | None => Parses o end
  | Fail => argp_error
  | Fault => Crashes
  end.

(** [&state->argv[state->next - 1]] is the command and what follows it. *)
Definition parse_command (arg : string) (following : list string) (st : global_state) :
    parse_outcome global_state :=
  let config := st.1 in
  if negb (bool_decide (command config = COMMAND_START)) then argp_error
  else if strcasecmp_eq arg "status" then
    o ← parse_status_command (arg :: following);
    Parses (set_command COMMAND_STATUS config, status_options o)
  else if strcasecmp_eq arg "reload" then
    _ ← parse_reload_command (arg :: following);
    Parses (set_command COMMAND_RELOAD config, st.2)
  else if strcasecmp_eq arg "config" then
    o ← parse_config_command (arg :: following);
    Parses (set_command COMMAND_CONFIG config, config_options o)
  else if strcasecmp_eq arg "update" then
    o ← run_update_command (arg :: following);
    Parses (set_command COMMAND_UPDATE config, update_options o)
  else argp_error.

(** The second component: [state->next] was set to the end of the arguments. *)
Definition parse_global_opt (key : global_key) (st : global_state) :
    parse_outcome (global_state * bool) :=
  let '(config, options) := st in
  let set c : parse_outcome (global_state * bool) := Parses (c, options, false) in
  match key with
  | OPT_LOG_LEVEL arg =>
      let level := parse_log_level arg in
      if (level <? 0)%Z then argp_error else set (set_log_level level config)
  | OPT_STDERR_LOG => set (set_stderr_log CONFIG_BOOLEAN_TRUE config)
  | OPT_NO_STDERR_LOG => set (set_stderr_log CONFIG_BOOLEAN_FALSE config)
  | OPT_SYSLOG_LOG => set (set_syslog_log CONFIG_BOOLEAN_TRUE config)
  | OPT_NO_SYSLOG_LOG => set (set_syslog_log CONFIG_BOOLEAN_FALSE config)
  | OPT_FILE_LOG arg => set (set_file_log (Some arg) config)
  | OPT_RESOLV_CONF_PATH arg => set (set_resolv_conf_path (Some arg) config)
  | OPT_LISTEN_ADDRESS arg =>
      match parse_ip_str arg (listen_address config) with
      | Some a => set (set_listen_address a config)
      | None => argp_error
      end
  | OPT_PRIORITIZE_WIRE => set (set_prioritize_wire CONFIG_BOOLEAN_TRUE config)
  | OPT_NO_PRIORITIZE_WIRE => set (set_prioritize_wire CONFIG_BOOLEAN_FALSE config)
  | OPT_RESOLVER_OPTIONS arg => set (set_resolver_options (Some arg) config)
  | OPT_DNSSEC_ENABLED => set (set_dnssec_enabled CONFIG_BOOLEAN_TRUE config)
  | OPT_NO_DNSSEC_ENABLED => set (set_dnssec_enabled CONFIG_BOOLEAN_FALSE config)
  | OPT_CONFIG_FILE arg => set (set_config_file (Some arg) config)
  | OPT_CERTIFICATION_AUTHORITY arg => set (set_certification_authority_option (Some arg) config)
  | GLOBAL_KEY_ARG arg following => st ← parse_command arg following st; Parses (st, true)
  | GLOBAL_KEY_END => Parses (st, false)
  end.

(** The calls of argp; none is left when no argument is. *)
Fixpoint parse_global_keys (keys : list global_key) (exit_status : option Z) (st : global_state) :
    parse_outcome global_state :=
  match keys with
  | [] => match exit_status with Some z => Exits z | None => Parses st end
  | key :: rest =>
      r ← parse_global_opt key st;
      if r.2 : bool then Parses r.1 else parse_global_keys rest exit_status r.1
  end.

(** [*config = temp_config], all zero but the log level. *)
Definition empty_config : dnsconfd_config_t :=
  Config None None None None None [] [] sockaddr_zero COMMAND_START (-1)
    CONFIG_BOOLEAN_UNSET CONFIG_BOOLEAN_UNSET CONFIG_BOOLEAN_UNSET CONFIG_BOOLEAN_UNSET.

Definition parse_arguments (argv : list string) : parse_outcome global_state :=
  parse_global_keys (argp_global argv).1 (argp_global argv).2 (empty_config, no_options).
End GlobalOptions.
