(* ===== verification/Config.v ===== *)
(** * The configuration of the program: environment_config.c and
      global_options.c (lines 205-337) of src/src/configuration_parsing

    Four sources in the order of their priority: the command line, the
    environment, the configuration file, the defaults. *)

From S2P Require Import Prelude CLib SockAddr NetworkAddress ServerUri ServerJson ServerParse.
From S2P Require Import ConfigData ConfigFile ConfigDocument Client Options.

(** ** Definitions: the environment *)

Definition string_options : list (string * (option string → dnsconfd_config_t → dnsconfd_config_t)) :=
  [("FILE_LOG", set_file_log);
   ("RESOLV_CONF_PATH", set_resolv_conf_path);
   ("RESOLVER_OPTIONS", set_resolver_options);
   ("CERTIFICATION_AUTHORITY", set_certification_authority_option);
   ("CONFIG_FILE", set_config_file)].

Definition boolean_options : list (string * (config_boolean_t → dnsconfd_config_t → dnsconfd_config_t)) :=
  [("STDERR_LOG", set_stderr_log);
   ("SYSLOG_LOG", set_syslog_log);
   ("PRIORITIZE_WIRE", set_prioritize_wire);
   ("DNSSEC_ENABLED", set_dnssec_enabled)].

Section Environment.
Context `{Inet}.
Context (getenv : string → option string).

(** The two loops. *)
Definition read_strings (config : dnsconfd_config_t) : dnsconfd_config_t :=
  foldl (λ c '(opt_key, set),
    match getenv opt_key with Some env_val => set (Some env_val) c | None => c end)
    config string_options.

Definition read_booleans (config : dnsconfd_config_t) : dnsconfd_config_t :=
  foldl (λ c '(opt_key, set),
    match getenv opt_key with Some env_val => set (parse_boolean env_val) c | None => c end)
    config boolean_options.

Definition parse_environment_variables (config : dnsconfd_config_t) : string + dnsconfd_config_t :=
  let config := read_booleans (read_strings config) in
  let level :=
    match getenv "LOG_LEVEL" with
    | Some env_val =>
        let log_level := parse_log_level env_val in
        if (log_level <? 0)%Z then inl "Failed to parse log level in environment variables"
        else inr (set_log_level log_level config)
    | None => inr config
    end in
  match level with
  | inl error_string => inl error_string
  | inr config =>
      match getenv "LISTEN_ADDRESS" with
      | Some env_val =>
          match parse_ip_str env_val (listen_address config) with
          | Some a => inr (set_listen_address a config)
          | None => inl "Failed to parse listen address from environmental variables"
          end
      | None => inr config
      end
  end.
End Environment.

(** ** Definitions: the merge *)

Definition merge_string (high low : option string) : option string :=
  match high with None => low | Some _ => high end.

Definition merge_list {A} (high low : list A) : list A :=
  match high with [] => low | _ => high end.

Definition merge_boolean (high low : config_boolean_t) : config_boolean_t :=
  if bool_decide (high = CONFIG_BOOLEAN_UNSET) then low else high.

Definition merge_configs (high_prio low_prio : dnsconfd_config_t) : dnsconfd_config_t :=
  Config
    (merge_string (file_log high_prio) (file_log low_prio))
    (merge_string (resolv_conf_path high_prio) (resolv_conf_path low_prio))
    (merge_string (resolver_options high_prio) (resolver_options low_prio))
    (merge_string (config_file high_prio) (config_file low_prio))
    (merge_string (certification_authority high_prio) (certification_authority low_prio))
    (merge_list (static_servers high_prio) (static_servers low_prio))
    (merge_list (rpz_zones high_prio) (rpz_zones low_prio))
    (if bool_decide (ss_family (listen_address high_prio) = AF_UNSPEC)
     then listen_address low_prio else listen_address high_prio)
    (command high_prio)
    (if (log_level high_prio <? 0)%Z then log_level low_prio else log_level high_prio)
    (merge_boolean (stderr_log high_prio) (stderr_log low_prio))
    (merge_boolean (syslog_log high_prio) (syslog_log low_prio))
    (merge_boolean (prioritize_wire high_prio) (prioritize_wire low_prio))
    (merge_boolean (dnssec_enabled high_prio) (dnssec_enabled low_prio)).

Definition default_config_file : string := "/etc/dnsconfd/dnsconfd.conf".
Definition default_resolv_conf_path : string := "/etc/resolv.conf".
Definition default_resolver_options : string := "edns0 trust-ad".
Definition default_certification_authority : string :=
  "/etc/pki/dns/extracted/pem/tls-ca-bundle.pem /etc/pki/ca-trust/extracted/pem/tls-ca-bundle.pem".

(** [127.0.0.1] written into the address. *)
Definition set_loopback `{Inet} (a : sockaddr_storage) : sockaddr_storage :=
  SockAddr AF_INET (sin_port a) (default (sin_addr a) (inet_pton4 "127.0.0.1")) (sin6_addr a).

Definition set_defaults `{Inet} (config : dnsconfd_config_t) : dnsconfd_config_t :=
  let config :=
    set_log_level (if (log_level config <? 0)%Z then LOG_INFO else log_level config) config in
  let config := set_stderr_log (merge_boolean (stderr_log config) CONFIG_BOOLEAN_TRUE) config in
  let config := set_syslog_log (merge_boolean (syslog_log config) CONFIG_BOOLEAN_FALSE) config in
  let config :=
    set_resolv_conf_path (merge_string (resolv_conf_path config) (Some default_resolv_conf_path))
      config in
  let config :=
    set_listen_address (if bool_decide (ss_family (listen_address config) = AF_UNSPEC)
                        then set_loopback (listen_address config) else listen_address config) config in
  let config :=
    set_prioritize_wire (merge_boolean (prioritize_wire config) CONFIG_BOOLEAN_TRUE) config in
  let config :=
    set_dnssec_enabled (merge_boolean (dnssec_enabled config) CONFIG_BOOLEAN_FALSE) config in
  let config :=
    set_resolver_options (merge_string (resolver_options config) (Some default_resolver_options))
      config in
  set_certification_authority_option
    (merge_string (certification_authority config) (Some default_certification_authority)) config.

(** What [parse_configuration] does: it returns 0, it prints an error - a null
    string, if it is [None] - and returns 1, or the process ends or crashes. *)
Inductive configuration_outcome :=
| Configured (config : dnsconfd_config_t) (options : command_options_t)
| ConfigurationError (error_string : option string)
| ProcessExits (exit_status : Z)
| ProcessCrashes.

Section Configuration.
Context `{Inet} `{UriParser} `{Argp} `{ConfigFiles}.
Context (json_loads : string → option json).
Context (junk : sockaddr_storage).
Context (getenv : string → option string).

Definition parse_configuration (argv : list string) : configuration_outcome :=
  match parse_arguments json_loads junk argv with
  | Exits z => ProcessExits z
  | Crashes => ProcessCrashes
  | Parses (config, options) =>
      match parse_environment_variables getenv empty_config with
      | inl error_string => ConfigurationError (Some error_string)
      | inr temp_config =>
          let config := merge_configs config temp_config in
          let path := default default_config_file (config_file config) in
          let config := set_config_file (Some path) config in
          match parse_config_file junk path empty_config with
          | None => ProcessCrashes
          | Some (inl error_string) => ConfigurationError error_string
          | Some (inr temp_config) => Configured (set_defaults (merge_configs config temp_config)) options
          end
      end
  end.
End Configuration.

(** ** Specification: the first source that sets an option decides *)

(** The first value that is set. *)
Fixpoint first_set {A} (sources : list (option A)) (dflt : A) : A :=
  match sources with
  | [] => dflt
  | Some a :: _ => a
  | None :: rest => first_set rest dflt
  end.

(** How each kind of option says that it is not set. *)
Definition set_level (z : Z) : option Z := if (z <? 0)%Z then None else Some z.
Definition set_boolean (b : config_boolean_t) : option config_boolean_t :=
  match b with CONFIG_BOOLEAN_UNSET => None | _ => Some b end.
Definition set_family (a : sockaddr_storage) : option sockaddr_storage :=
  match ss_family a with AF_UNSPEC => None | _ => Some a end.
Definition set_elements {A} (l : list A) : option (list A) :=
  match l with [] => None | _ => Some l end.

Definition loopback : sockaddr_storage :=
  SockAddr AF_INET 0 [127; 0; 0; 1]%Z (sin6_addr sockaddr_zero).

(** The configuration of the program from those of the command line, the
    environment and the file at [path]. *)
Definition effective_config (cli env file : dnsconfd_config_t) (path : string) : dnsconfd_config_t :=
  let pick {A B} (get : dnsconfd_config_t → A) (set : A → option B) : B → B :=
    first_set [set (get cli); set (get env); set (get file)] in
  let pick_string get : string → option string := λ d, Some (pick get (λ s, s) d) in
  Config
    (pick file_log (fmap Some) None)
    (pick_string resolv_conf_path "/etc/resolv.conf")
    (pick_string resolver_options "edns0 trust-ad")
    (Some path)
    (pick_string certification_authority default_certification_authority)
    (pick static_servers set_elements [])
    (pick rpz_zones set_elements [])
    (pick listen_address set_family loopback)
    (command cli)
    (pick log_level set_level LOG_INFO)
    (pick stderr_log set_boolean CONFIG_BOOLEAN_TRUE)
    (pick syslog_log set_boolean CONFIG_BOOLEAN_FALSE)
    (pick prioritize_wire set_boolean CONFIG_BOOLEAN_TRUE)
    (pick dnssec_enabled set_boolean CONFIG_BOOLEAN_FALSE).

(** ** Proofs *)

Section MergeProofs.
Context `{InetLaws}.
Context (Hloopback : inet_pton4 "127.0.0.1" = Some [127; 0; 0; 1]%Z).

Lemma merged_level a b c :
  (let x := if a <? 0 then b else a in let y := if x <? 0 then c else x in
   if y <? 0 then LOG_INFO else y)%Z
  = first_set [set_level a; set_level b; set_level c] LOG_INFO.
Proof.
  unfold set_level. cbv zeta. destruct (a <? 0)%Z eqn:Ea; simpl; [|by rewrite Ea, Ea].
  destruct (b <? 0)%Z eqn:Eb; simpl; [|by rewrite Eb]. by destruct (c <? 0)%Z.
Qed.

Lemma merged_boolean a b c d :
  merge_boolean (merge_boolean (merge_boolean a b) c) d
  = first_set [set_boolean a; set_boolean b; set_boolean c] d.
Proof. by destruct a, b, c. Qed.

Lemma merged_string a b c d :
  merge_string (merge_string (merge_string a b) c) (Some d) = Some (first_set [a; b; c] d).
Proof. by destruct a, b, c. Qed.

Lemma merged_list {A} (a b c : list A) :
  merge_list (merge_list a b) c = first_set [set_elements a; set_elements b; set_elements c] [].
Proof. by destruct a, b, c. Qed.

Lemma set_family_decide a :
  set_family a = if bool_decide (ss_family a = AF_UNSPEC) then None else Some a.
Proof. unfold set_family. by destruct (ss_family a). Qed.

(** Decide the tests of the family that [E] is about. *)
Ltac decide_family E :=
  rewrite ?(bool_decide_eq_true_2 _ E), ?(bool_decide_eq_false_2 _ E).

Lemma merged_address (a b c : sockaddr_storage) :
  c = sockaddr_zero ∨ ss_family c ≠ AF_UNSPEC →
  (let x := if bool_decide (ss_family a = AF_UNSPEC) then b else a in
   let y := if bool_decide (ss_family x = AF_UNSPEC) then c else x in
   if bool_decide (ss_family y = AF_UNSPEC) then set_loopback y else y)
  = first_set [set_family a; set_family b; set_family c] loopback.
Proof.
  intros Hc. cbv zeta. rewrite !set_family_decide.
  destruct (decide (ss_family a = AF_UNSPEC)) as [Ea|Ea]; decide_family Ea; [|done].
  destruct (decide (ss_family b = AF_UNSPEC)) as [Eb|Eb]; decide_family Eb; [|done].
  destruct (decide (ss_family c = AF_UNSPEC)) as [Ec|Ec]; decide_family Ec; [|done].
  destruct Hc as [->|?]; [|done]. unfold set_loopback. by rewrite Hloopback.
Qed.

Lemma set_defaults_members c :
  set_defaults c
  = Config (file_log c)
      (merge_string (resolv_conf_path c) (Some default_resolv_conf_path))
      (merge_string (resolver_options c) (Some default_resolver_options)) (config_file c)
      (merge_string (certification_authority c) (Some default_certification_authority))
      (static_servers c) (rpz_zones c)
      (if bool_decide (ss_family (listen_address c) = AF_UNSPEC)
       then set_loopback (listen_address c) else listen_address c) (command c)
      (if (log_level c <? 0)%Z then LOG_INFO else log_level c)
      (merge_boolean (stderr_log c) CONFIG_BOOLEAN_TRUE)
      (merge_boolean (syslog_log c) CONFIG_BOOLEAN_FALSE)
      (merge_boolean (prioritize_wire c) CONFIG_BOOLEAN_TRUE)
      (merge_boolean (dnssec_enabled c) CONFIG_BOOLEAN_FALSE).
Proof. reflexivity. Qed.

Lemma merge_effective cli env file path :
  listen_address file = sockaddr_zero ∨ ss_family (listen_address file) ≠ AF_UNSPEC →
  set_defaults (merge_configs (set_config_file (Some path) (merge_configs cli env)) file)
  = effective_config cli env file path.
Proof.
  intros Hl. rewrite set_defaults_members. unfold effective_config. cbv zeta.
  rewrite <-!merged_string, <-!merged_boolean, <-!merged_list, <-merged_level,
    <-merged_address by done.
  unfold merge_configs, set_config_file.
  cbn [file_log resolv_conf_path resolver_options config_file certification_authority
    static_servers rpz_zones listen_address command log_level stderr_log syslog_log
    prioritize_wire dnssec_enabled].
  f_equal. by destruct (file_log cli), (file_log env), (file_log file).
Qed.
End MergeProofs.

(** What argp documents: the last call of a parser that argp does not end on
    its own is the one for the end of the arguments. *)
Class ArgpLaws `{Argp} : Prop := {
  argp_config_end argv keys :
    argp_config argv = (keys, None) → ∃ keys', keys = keys' ++ [PLAIN_KEY_END]
}.

(** The member of the union that was written is that of the command. *)
Definition options_match (cmd : dnsconfd_command_t) (o : command_options_t) : Prop :=
  match cmd with
  | COMMAND_STATUS => ∃ s, o = status_options s
  | COMMAND_CONFIG => ∃ c, o = config_options c ∧ co_action c ≠ CONFIG_ACTION_NONE
  | COMMAND_UPDATE => ∃ u, o = update_options u ∧ Forall server_wf (uo_servers_uris u)
  | COMMAND_START | COMMAND_RELOAD => True
  end.

(** Every option is decided. *)
Record config_complete (c : dnsconfd_config_t) : Prop := {
  cc_level : (LOG_EMERG ≤ log_level c ≤ LOG_DEBUG)%Z;
  cc_stderr : stderr_log c ≠ CONFIG_BOOLEAN_UNSET;
  cc_syslog : syslog_log c ≠ CONFIG_BOOLEAN_UNSET;
  cc_wire : prioritize_wire c ≠ CONFIG_BOOLEAN_UNSET;
  cc_dnssec : dnssec_enabled c ≠ CONFIG_BOOLEAN_UNSET;
  cc_resolver_options : is_Some (resolver_options c);
  cc_config_file : is_Some (config_file c)
}.

(** *** The sources *)

Section SourceProofs.
Context `{InetLaws} `{UriParser} `{ArgpLaws}.
Context (json_loads : string → option json) (junk : sockaddr_storage).

Lemma empty_config_wf : partial_wf empty_config.
Proof. split; simpl; [constructor..|by left|vm_compute; done]. Qed.

Lemma listen_typed c : partial_wf c → sockaddr_typed (listen_address c).
Proof.
  intros [_ _ [->|Ha] _]; [apply sockaddr_zero_typed|by apply sockaddr_wf_typed].
Qed.

(** Setting one option keeps the rest well formed. *)
Lemma set_listen_wf s a c :
  partial_wf c → parse_ip_str s (listen_address c) = Some a → partial_wf (set_listen_address a c).
Proof.
  intros Hc Hp. apply parse_ip_str_wf in Hp as [Ha _]; [|by apply listen_typed].
  destruct Hc. split; simpl; auto.
Qed.

Lemma set_level_wf v c :
  partial_wf c → partial_wf (set_log_level (parse_log_level v) c).
Proof. intros []. split; simpl; try done. apply parse_log_level_range. Qed.

Lemma parse_environment_variables_wf getenv c c' :
  partial_wf c → parse_environment_variables getenv c = inr c' → partial_wf c'.
Proof.
  intros Hc. unfold parse_environment_variables.
  assert (partial_wf (read_booleans getenv (read_strings getenv c))) as Hb.
  { unfold read_booleans, read_strings, string_options, boolean_options. cbn [foldl].
    destruct Hc. repeat case_match; by split. }
  revert Hb. generalize (read_booleans getenv (read_strings getenv c)). clear c Hc. intros c Hc.
  assert (Hl : ∀ c, partial_wf c →
    match getenv "LISTEN_ADDRESS" with
    | Some env_val =>
        match parse_ip_str env_val (listen_address c) with
        | Some a => inr (set_listen_address a c)
        | None => inl "Failed to parse listen address from environmental variables"
        end
    | None => inr c
    end = inr c' → partial_wf c').
  { intros c0 Hc0. destruct (getenv "LISTEN_ADDRESS"); [|by intros [= <-]].
    destruct (parse_ip_str _ _) eqn:E; [|done]. intros [= <-]. by eapply set_listen_wf. }
  destruct (getenv "LOG_LEVEL"); [|by apply Hl]. destruct (_ <? 0)%Z; [done|].
  by apply Hl, set_level_wf.
Qed.

Lemma parse_config_keys keys o o' :
  run_keys parse_config_command_opt (keys ++ [PLAIN_KEY_END]) o = Parses o' →
  co_action o' ≠ CONFIG_ACTION_NONE.
Proof.
  revert o. induction keys as [|k keys IH]; intros o; cbn.
  - case_bool_decide; [done|]. by intros [= <-].
  - destruct (parse_config_command_opt k o); [apply IH|done..].
Qed.

Lemma parse_command_ok arg following c o c' o' :
  sockaddr_typed junk → partial_wf c →
  parse_command json_loads junk arg following (c, o) = Parses (c', o') →
  partial_wf c' ∧ options_match (command c') o'.
Proof.
  intros Hj Hc. unfold parse_command. cbn [fst snd].
  assert (Hcmd : ∀ cmd, partial_wf (set_command cmd c)) by (intros cmd; by destruct Hc).
  destruct (negb _); [done|]. destruct (strcasecmp_eq arg "status").
  { destruct (parse_status_command _); [|done..]. intros [= <- <-]. split; [done|by eexists]. }
  destruct (strcasecmp_eq arg "reload").
  { destruct (parse_reload_command _); [|done..]. by intros [= <- <-]. }
  destruct (strcasecmp_eq arg "config").
  { unfold parse_config_command, argp_parse. destruct (argp_config _) as [keys ex] eqn:Ek. cbn.
    destruct (run_keys _ _ _) as [co| |] eqn:E; [|done..]. cbn. destruct ex; [done|].
    intros [= <- <-]. split; [done|]. eexists. split; [done|].
    apply argp_config_end in Ek as [keys' ->]. by eapply parse_config_keys. }
  destruct (strcasecmp_eq arg "update"); [|done].
  unfold run_update_command. destruct (parse_update_command _ _ _) as [u| |] eqn:E; [|done..].
  destruct (argp_update _).2; [done|]. intros [= <- <-]. split; [done|]. eexists. split; [done|].
  unfold parse_update_command in E.
  destruct (parse_update_keys _ _ _ _) as [st| |] eqn:Ek; simplify_eq/=.
  eapply parse_update_keys_wf; [done| |exact Ek]. constructor.
Qed.

Definition update_crashes : Prop :=
  ∃ arg following, strcasecmp_eq arg "update" = true ∧
    run_update_command json_loads junk (arg :: following) = Crashes.

(** Only the parser of the update command can leave a buffer. *)
Lemma run_keys_safe {K S} (parser : K → S → parse_outcome S) keys o :
  (∀ k o, parser k o ≠ Crashes) → run_keys parser keys o ≠ Crashes.
Proof.
  intros Hp. revert o. induction keys as [|k keys IH]; intros o; [done|]. cbn.
  pose proof (Hp k o). destruct (parser k o); [by apply IH|done..].
Qed.

Lemma argp_parse_safe {K S} (parser : K → S → parse_outcome S) run o :
  (∀ k o, parser k o ≠ Crashes) → argp_parse parser run o ≠ Crashes.
Proof.
  intros Hp. unfold argp_parse. pose proof (run_keys_safe parser run.1 o Hp).
  destruct (run_keys parser run.1 o); [cbn; by destruct run.2|done..].
Qed.

Lemma subcommands_safe argv :
  parse_status_command argv ≠ Crashes ∧ parse_reload_command argv ≠ Crashes ∧
  parse_config_command argv ≠ Crashes.
Proof.
  split; [|split]; apply argp_parse_safe; intros [] ?; try done; cbn; by repeat case_match.
Qed.

Lemma parse_command_crashes arg following st :
  parse_command json_loads junk arg following st = Crashes → update_crashes.
Proof.
  unfold parse_command. destruct (subcommands_safe (arg :: following)) as (Hs & Hr & Hc).
  destruct (negb _); [done|].
  destruct (strcasecmp_eq arg "status"); [by destruct (parse_status_command _)|].
  destruct (strcasecmp_eq arg "reload"); [by destruct (parse_reload_command _)|].
  destruct (strcasecmp_eq arg "config"); [by destruct (parse_config_command _)|].
  destruct (strcasecmp_eq arg "update") eqn:Eu; [|done].
  destruct (run_update_command json_loads junk (arg :: following)) eqn:E; [done..|].
  intros _. by exists arg, following.
Qed.

Lemma parse_global_opt_ok key c o c' o' next :
  sockaddr_typed junk → partial_wf c → options_match (command c) o →
  parse_global_opt json_loads junk key (c, o) = Parses (c', o', next) →
  partial_wf c' ∧ options_match (command c') o'.
Proof.
  intros Hj Hc Ho. unfold parse_global_opt. cbv zeta.
  destruct key; try (intros [= <- <- <-]; by destruct Hc).
  - destruct (_ <? 0)%Z; [done|]. intros [= <- <- <-]. by split; [apply set_level_wf|].
  - destruct (parse_ip_str _ _) eqn:E; [|done]. intros [= <- <- <-].
    by split; [eapply set_listen_wf|].
  - destruct (parse_command _ _ _ _ _) as [[c1 o1]| |] eqn:E; [|done..]. intros [= <- <- <-].
    by eapply parse_command_ok.
Qed.

Lemma parse_global_opt_crashes key st :
  parse_global_opt json_loads junk key st = Crashes → update_crashes.
Proof.
  unfold parse_global_opt. destruct st as [c o]. cbv zeta. destruct key; try done.
  - by destruct (_ <? 0)%Z.
  - by destruct (parse_ip_str _ _).
  - destruct (parse_command _ _ _ _ _) eqn:E; [done..|]. intros _. by eapply parse_command_crashes.
Qed.

Lemma parse_arguments_ok argv :
  sockaddr_typed junk →
  match parse_arguments json_loads junk argv with
  | Parses (c, o) => partial_wf c ∧ options_match (command c) o
  | Exits _ => True
  | Crashes => update_crashes
  end.
Proof.
  intros Hj. unfold parse_arguments. destruct (argp_global argv) as [keys ex]. cbn [fst snd].
  assert (Hst : partial_wf empty_config ∧ options_match (command empty_config) no_options)
    by (split; [apply empty_config_wf|done]).
  revert Hst. generalize empty_config, no_options.
  induction keys as [|key keys IH]; intros c o [Hc Ho]; cbn [parse_global_keys]; [by destruct ex|].
  destruct (parse_global_opt json_loads junk key (c, o)) as [[[c' o'] next]| |] eqn:E;
    cbn [mbind parse_outcome_bind fst snd]; [|done|].
  - pose proof (parse_global_opt_ok _ _ _ _ _ _ Hj Hc Ho E) as Hok. destruct next; [done|].
    by apply IH.
  - by eapply parse_global_opt_crashes.
Qed.
End SourceProofs.

(** *** The merge *)

Lemma merge_configs_wf a b : partial_wf a → partial_wf b → partial_wf (merge_configs a b).
Proof.
  intros [Sa Za La Va] [Sb Zb Lb Vb]. unfold merge_configs. split; cbn.
  - by destruct (static_servers a).
  - by destruct (rpz_zones a).
  - by case_bool_decide.
  - by destruct (_ <? 0)%Z.
Qed.

Lemma set_defaults_wf `{InetLaws} c :
  partial_wf c → is_Some (config_file c) → config_wf (set_defaults c) ∧ config_complete (set_defaults c).
Proof.
  intros [Hs Hz Hl Hv] Hf. rewrite set_defaults_members. split; split; cbn; try done.
  - by destruct (resolv_conf_path c).
  - by destruct (certification_authority c).
  - case_bool_decide as Hf'; [|destruct Hl as [Hz0|?]; [by rewrite Hz0 in Hf'|done]].
    destruct Hl as [->|[]]; [|done]. split; cbn; try done; try apply (bytes_ok_replicate 16).
    destruct (inet_pton4 "127.0.0.1") eqn:E; [by eapply pton4_bytes|apply (bytes_ok_replicate 4)].
  - unfold LOG_EMERG, LOG_INFO, LOG_DEBUG in *. destruct (Z.ltb_spec (log_level c) 0); lia.
  - by destruct (stderr_log c).
  - by destruct (syslog_log c).
  - by destruct (prioritize_wire c).
  - by destruct (dnssec_enabled c).
  - by destruct (resolver_options c).
Qed.

Section ConfigurationProofs.
Context `{InetLaws} `{UriParser} `{ArgpLaws} `{ConfigFilesLaws}.
Context (json_loads : string → option json) (junk : sockaddr_storage).
Context (getenv : string → option string).

Lemma config_file_wf path :
  sockaddr_typed junk →
  ∃ r, parse_config_file junk path empty_config = Some r ∧
       match r with inr c => partial_wf c | inl _ => True end.
Proof. intros Hj. by apply parse_config_files_wf, empty_config_wf. Qed.

Lemma configuration_wf argv :
  sockaddr_typed junk →
  match parse_configuration json_loads junk getenv argv with
  | Configured config options =>
      config_wf config ∧ config_complete config ∧ options_match (command config) options
  | ProcessCrashes => update_crashes json_loads junk
  | ConfigurationError _ | ProcessExits _ => True
  end.
Proof.
  intros Hj. unfold parse_configuration. pose proof (parse_arguments_ok json_loads junk argv Hj) as Ha.
  destruct (parse_arguments json_loads junk argv) as [[cli options]| |]; [|done..].
  destruct Ha as [Hcli Ho].
  destruct (parse_environment_variables getenv empty_config) as [|env] eqn:Ee; [done|].
  apply parse_environment_variables_wf in Ee; [|apply empty_config_wf]. cbv zeta.
  set (path := default _ _). destruct (config_file_wf path Hj) as (r & -> & Hr).
  destruct r as [|file]; [done|].
  destruct (set_defaults_wf (merge_configs (set_config_file (Some path) (merge_configs cli env)) file)).
  - apply merge_configs_wf; [|done]. destruct (merge_configs_wf cli env Hcli Ee). by split.
  - by eexists.
  - by rewrite set_defaults_members.
Qed.

Lemma configuration_crashes argv :
  sockaddr_typed junk →
  parse_configuration json_loads junk getenv argv = ProcessCrashes ↔
  parse_arguments json_loads junk argv = Crashes.
Proof.
  intros Hj. unfold parse_configuration.
  destruct (parse_arguments json_loads junk argv) as [[cli options]| |]; [|done..].
  destruct (parse_environment_variables getenv empty_config) as [|env]; [done|]. cbv zeta.
  set (path := default _ _). destruct (config_file_wf path Hj) as (r & -> & _). by destruct r.
Qed.

(** C31: the configuration of the program is, option by option, the value of the
    first source that sets it: the command line, then the environment, then the
    configuration file - the one the command line or the environment names, else
    /etc/dnsconfd/dnsconfd.conf - and the documented default last; the program
    goes no further when one of them is refused. *)
Theorem configuration_precedence (argv : list string) :
  sockaddr_typed junk → inet_pton4 "127.0.0.1" = Some [127; 0; 0; 1]%Z →
  parse_configuration json_loads junk getenv argv
  = match parse_arguments json_loads junk argv with
    | Exits z => ProcessExits z
    | Crashes => ProcessCrashes
    | Parses (cli, options) =>
        match parse_environment_variables getenv empty_config with
        | inl e => ConfigurationError (Some e)
        | inr env =>
            let path := first_set [config_file cli; config_file env] "/etc/dnsconfd/dnsconfd.conf" in
            match parse_config_file junk path empty_config with
            | None => ProcessCrashes
            | Some (inl e) => ConfigurationError e
            | Some (inr file) => Configured (effective_config cli env file path) options
            end
        end
    end.
Proof.
  intros Hj Hloop. unfold parse_configuration.
  destruct (parse_arguments json_loads junk argv) as [[cli options]| |]; [|done..].
  destruct (parse_environment_variables getenv empty_config) as [|env]; [done|]. cbv zeta.
  replace (default default_config_file (config_file (merge_configs cli env)))
    with (first_set [config_file cli; config_file env] default_config_file)
    by (cbn; by destruct (config_file cli), (config_file env)).
  fold default_config_file. set (path := first_set _ default_config_file).
  destruct (config_file_wf path Hj) as (r & -> & Hr). destruct r as [|file]; [done|].
  rewrite merge_effective; [done|done|]. destruct Hr as [_ _ [?|[? _ _ _]] _]; auto.
Qed.

(** C32: the configuration that the program starts with is complete and well
    formed - what the daemon's theorems assume of it -, whatever the arguments,
    the environment and the files are; the options of the command are those of
    the command given, with well-formed servers; and the parsing crashes only in
    the parser of the servers of [dnsconfd update] - an error whose string is null
    is an outcome here ([ConfigurationError None]), which [main] then prints. *)
Theorem configuration_sound (argv : list string) :
  sockaddr_typed junk →
  match parse_configuration json_loads junk getenv argv with
  | Configured config options =>
      config_wf config ∧ config_complete config ∧ options_match (command config) options
  | ProcessCrashes => update_crashes json_loads junk
  | ConfigurationError _ | ProcessExits _ => True
  end.
Proof. apply configuration_wf. Qed.
End ConfigurationProofs.

(** ** Examples *)

Section ExampleArgp.
Definition after_key {K} (k : K) (run : argp_run K) : argp_run K := (k :: run.1, run.2).

(** Two of the options, and the commands. *)
Fixpoint example_global (args : list string) : argp_run global_key :=
  match args with
  | [] => ([GLOBAL_KEY_END], None)
  | arg :: rest =>
      if arg ==s "--help" then ([], Some 0%Z)
      else if arg ==s "--no-stderr-log" then after_key OPT_NO_STDERR_LOG (example_global rest)
      else
        match rest with
        | value :: rest' =>
            if arg ==s "--config-file" then after_key (OPT_CONFIG_FILE value) (example_global rest')
            else ([GLOBAL_KEY_ARG arg rest], None)
        | [] => ([GLOBAL_KEY_ARG arg rest], None)
        end
  end.
End ExampleArgp.

#[export] Instance example_argp : Argp := {|
  argp_global argv := example_global (tail argv);
  argp_status argv := ((STATUS_KEY_ARG <$> tail argv) ++ [STATUS_KEY_END], None);
  argp_reload argv := ((PLAIN_KEY_ARG <$> tail argv) ++ [PLAIN_KEY_END], None);
  argp_config argv := ((PLAIN_KEY_ARG <$> tail argv) ++ [PLAIN_KEY_END], None);
  argp_update argv := ((UPDATE_KEY_ARG <$> tail argv) ++ [UPDATE_KEY_END], None)
|}.

#[export] Instance example_argp_laws : ArgpLaws.
Proof. split. intros argv keys [= <-]. by eexists. Qed.

Definition example_env (name : string) : option string :=
  if name ==s "LOG_LEVEL" then Some "err" else if name ==s "STDERR_LOG" then Some "yes" else None.

Definition example_argv : list string :=
  ["dnsconfd"; "--config-file"; "/etc/main.conf"; "--no-stderr-log"; "config"; "install"].

(** The level is from the environment, the output to stderr is off by the
    command line, the address and the server are from the file. *)
Definition example_configuration : dnsconfd_config_t :=
  Config None (Some "/etc/resolv.conf") (Some "edns0 trust-ad") (Some "/etc/main.conf")
    (Some default_certification_authority) [file_server sockaddr_zero example_file_server] []
    (SockAddr AF_INET 0 [127; 0; 0; 2]%Z (replicate 16 0%Z)) COMMAND_CONFIG LOG_ERR
    CONFIG_BOOLEAN_FALSE CONFIG_BOOLEAN_FALSE CONFIG_BOOLEAN_TRUE CONFIG_BOOLEAN_FALSE.

Theorem configuration_precedence_witness :
  parse_configuration (λ _, None) sockaddr_zero example_env example_argv
  = Configured example_configuration (config_options (ConfigOptions CONFIG_ACTION_INSTALL)).
Proof.
  rewrite (configuration_precedence (λ _, None) sockaddr_zero example_env example_argv);
    [by vm_compute|apply sockaddr_zero_typed|by vm_compute].
Defined.

Theorem configuration_sound_witness :
  config_wf example_configuration ∧ config_complete example_configuration ∧
  options_match COMMAND_CONFIG (config_options (ConfigOptions CONFIG_ACTION_INSTALL)).
Proof.
  exact (configuration_sound (λ _, None) sockaddr_zero example_env example_argv sockaddr_zero_typed).
Defined.
