(* ===== verification/Logging.v ===== *)
(** * Logging: src/src/log_utilities.c

    The context of the log, and where a message goes.  The C library keeps the
    flags of [openlog]; a message is the line the program formats, without what
    the sinks put around it. *)

From S2P Require Import Prelude ConfigData ConfigFile Options Config.

(** ** Definitions *)

(** [log_switch_values_t]. *)
Definition LOG_TO_STDERR : Z := 1.
Definition LOG_TO_SYSLOG : Z := 2.
Definition LOG_TO_FILE : Z := 4.

(** Flags of [openlog]. *)
Definition LOG_PID : Z := 1.
Definition LOG_CONS : Z := 2.
Definition LOG_NDELAY : Z := 8.
Definition LOG_PERROR : Z := 32.

Inductive sink := SINK_SYSLOG | SINK_STDERR | SINK_FILE (path : string).

(** The static context, with the flags the C library was given. *)
Record logging_context_t := LoggingContext {
  lc_log_level : Z;
  lc_log_switch : Z;
  lc_opened_log_file : option string;
  lc_syslog_flags : Z
}.

Definition initial_logging : logging_context_t := LoggingContext (-1) 0 None 0.

(** [fopen_ok]: whether the log file can be opened.  The second component is
    the value returned. *)
Definition initialize_logs (fopen_ok : string → bool) (config : dnsconfd_config_t)
    (ctx : logging_context_t) : logging_context_t * Z :=
  let is_true b := bool_decide (b = CONFIG_BOOLEAN_TRUE) in
  let syslog_flags :=
    Z.lor (Z.lor (Z.lor LOG_CONS LOG_NDELAY) LOG_PID)
      (if is_true (stderr_log config) then LOG_PERROR else 0) in
  let '(log_switch, flags, stderr_syslog_handled) :=
    if is_true (syslog_log config) then (LOG_TO_SYSLOG, syslog_flags, is_true (stderr_log config))
    else (lc_log_switch ctx, lc_syslog_flags ctx, false) in
  let log_switch :=
    Z.lor log_switch
      (if negb stderr_syslog_handled && is_true (stderr_log config) then LOG_TO_STDERR else 0) in
  match file_log config with
  | Some path =>
      let log_switch := Z.lor log_switch LOG_TO_FILE in
      if fopen_ok path
      then (LoggingContext (log_level config) log_switch (Some path) flags, 0%Z)
      else (LoggingContext (log_level config) log_switch None flags, (-1)%Z)
  | None => (LoggingContext (log_level config) log_switch (lc_opened_log_file ctx) flags, 0%Z)
  end.

(** [log_switch & value]. *)
Definition switched (ctx : logging_context_t) (value : Z) : bool :=
  negb (Z.land (lc_log_switch ctx) value =? 0)%Z.

(** [vsyslog]: with [LOG_PERROR] the message also goes to stderr. *)
Definition vsyslog (ctx : logging_context_t) (message : string) : list (sink * string) :=
  (SINK_SYSLOG, message)
  :: (if (Z.land (lc_syslog_flags ctx) LOG_PERROR =? 0)%Z then [] else [(SINK_STDERR, message)]).

(** The lines written; [None]: a null stream is written to. *)
Definition dnsconfd_log (ctx : logging_context_t) (level : Z) (message : string) :
    option (list (sink * string)) :=
  if (lc_log_level ctx <? level)%Z then Some []
  else
    let first :=
      if switched ctx LOG_TO_SYSLOG then vsyslog ctx message
      else if switched ctx LOG_TO_STDERR then [(SINK_STDERR, message)]
      else [] in
    if switched ctx LOG_TO_FILE then
      match lc_opened_log_file ctx with
      | Some path => Some (first ++ [(SINK_FILE path, message)])
      | None => None
      end
    else Some first.

Definition close_logs (ctx : logging_context_t) : logging_context_t :=
  LoggingContext (lc_log_level ctx) 0 None
    (if switched ctx LOG_TO_SYSLOG then 0%Z else lc_syslog_flags ctx).

(** ** Specification: the sinks the configuration names *)

Definition configured_sinks (config : dnsconfd_config_t) : list sink :=
  (if bool_decide (syslog_log config = CONFIG_BOOLEAN_TRUE) then [SINK_SYSLOG] else [])
  ++ (if bool_decide (stderr_log config = CONFIG_BOOLEAN_TRUE) then [SINK_STDERR] else [])
  ++ (match file_log config with Some path => [SINK_FILE path] | None => [] end).

(** ** Theorems *)

Lemma log_delivery_all fopen_ok config ctx level message :
  initialize_logs fopen_ok config initial_logging = (ctx, 0%Z) →
  dnsconfd_log ctx level message
  = Some (if (level <=? log_level config)%Z then (λ s, (s, message)) <$> configured_sinks config
          else []).
Proof.
  unfold initialize_logs, dnsconfd_log, configured_sinks, switched, vsyslog. intros Hi.
  rewrite Z.leb_antisym. destruct config as [[path|] ? ? ? ? ? ? ? ? lvl err sys ? ?]; cbn in Hi |- *;
    [destruct (fopen_ok path)|]; destruct sys, err; vm_compute in Hi; simplify_eq;
    cbn [lc_log_level]; by destruct (lvl <? level)%Z.
Qed.

(** C35: once the logs are opened, a message that is not above the configured
    level is written exactly once to each of syslog, stderr and the log file that
    the configuration turns on, and to no other; a message above the level is
    written nowhere; and no message is written to a file that is not open. *)
Theorem log_delivery (fopen_ok : string → bool) (config : dnsconfd_config_t)
    (ctx : logging_context_t) (level : Z) (message : string) :
  initialize_logs fopen_ok config initial_logging = (ctx, 0%Z) →
  dnsconfd_log ctx level message
  = Some (if (level <=? log_level config)%Z then (λ s, (s, message)) <$> configured_sinks config
          else []).
Proof. apply log_delivery_all. Qed.

(** Logging fails exactly when the log file cannot be opened. *)
Lemma initialize_logs_fails fopen_ok config ctx :
  (initialize_logs fopen_ok config ctx).2 = 0%Z ↔
  ∀ path, file_log config = Some path → fopen_ok path = true.
Proof.
  unfold initialize_logs. destruct (bool_decide (syslog_log config = _)); cbv iota zeta;
    (destruct (file_log config) as [path|]; [|by split]);
    (destruct (fopen_ok path) eqn:E; split; try done; [by intros _ ? [= <-]|intros Hp];
     by rewrite (Hp path eq_refl) in E).
Qed.

Lemma closed_logs_silent ctx level message : dnsconfd_log (close_logs ctx) level message = Some [].
Proof. unfold dnsconfd_log. by destruct (_ <? level)%Z. Qed.

(** ** Witness *)

Definition logging_config : dnsconfd_config_t :=
  set_log_level LOG_INFO (set_syslog_log CONFIG_BOOLEAN_TRUE (set_stderr_log CONFIG_BOOLEAN_TRUE
    (set_file_log (Some "/var/log/dnsconfd.log") empty_config))).

Theorem log_delivery_witness :
  dnsconfd_log (initialize_logs (λ _, true) logging_config initial_logging).1 LOG_ERR "failed"
  = Some [(SINK_SYSLOG, "failed"); (SINK_STDERR, "failed");
          (SINK_FILE "/var/log/dnsconfd.log", "failed")].
Proof.
  rewrite (log_delivery (λ _, true) logging_config); [by vm_compute|by vm_compute].
Defined.
