(* ===== verification/CliConfig.v ===== *)
(** * The config command of the client: src/src/cli_commands/cli_config.c

    It writes NetworkManager's drop-in file and changes the owner of
    resolv.conf.  Unlike the daemon it looks at symbolic links and owners, so
    it has a world of its own: nodes of the file system by their paths, and an
    environment that decides which calls fail. *)

From S2P Require Import Prelude ServerUri World ConfigData Options.

(** ** Definitions: the file system *)

Inductive node :=
| Regular (contents : string) (uid gid : Z)
| Symlink (target : string).
#[export] Instance node_eq_dec : EqDecision node.
Proof. solve_decision. Defined.

Record fs_env := FsEnv {
  fe_ok : nat → bool;
  fe_garbage : nat → string;
  fe_spawn : nat → list string → spawn_result;
  fe_getpwnam : string → option Z;
  fe_uid : Z;
  fe_gid : Z
}.

Record fs_state := FsState {
  fs_clock : nat;
  fs_nodes : gmap string node;
  fs_spawned : list (list string)
}.

Definition F (A : Type) : Type := fs_env → fs_state → A * fs_state.
#[export] Instance F_ret : MRet F := λ A a e s, (a, s).
#[export] Instance F_bind : MBind F := λ A B f m e s, let r := m e s in f r.1 e r.2.

Definition fs_ask {A} (f : fs_env → nat → A) : F A := λ e s,
  (f e (fs_clock s), FsState (S (fs_clock s)) (fs_nodes s) (fs_spawned s)).

Definition fs_modify (f : gmap string node → gmap string node) : F () := λ e s,
  ((), FsState (fs_clock s) (f (fs_nodes s)) (fs_spawned s)).

Definition fs_get : F (gmap string node) := λ e s, (fs_nodes s, s).

(** Where symbolic links lead; [None] after as many as Linux follows. *)
Fixpoint follow (fuel : nat) (nodes : gmap string node) (path : string) : option string :=
  match fuel with
  | 0 => None
  | S fuel =>
      match nodes !! path with
      | Some (Symlink target) => follow fuel nodes target
      | _ => Some path
      end
  end.
Definition MAXSYMLINKS : nat := 40.
Definition resolve (nodes : gmap string node) (path : string) : option string :=
  follow (S MAXSYMLINKS) nodes path.

Inductive stat_result := StatNode (n : node) | StatNoent | StatError.

Definition fs_lstat (path : string) : F stat_result :=
  ok ← fs_ask fe_ok;
  nodes ← fs_get;
  mret (if ok : bool then match nodes !! path with Some n => StatNode n | None => StatNoent end
        else StatError).

Definition fs_stat (path : string) : F stat_result :=
  ok ← fs_ask fe_ok;
  nodes ← fs_get;
  mret (if ok : bool then
          match resolve nodes path with
          | Some p => match nodes !! p with Some n => StatNode n | None => StatNoent end
          | None => StatError
          end
        else StatError).

(** Open the file links lead to, creating it; the stream is known by the path. *)
Definition fs_open (truncate : bool) (path : string) : F (option string) :=
  ok ← fs_ask fe_ok;
  nodes ← fs_get;
  owner ← fs_ask (λ e _, (fe_uid e, fe_gid e));
  match (if ok : bool then resolve nodes path else None) with
  | None => mret None
  | Some p =>
      fs_modify (λ nodes,
        match nodes !! p with
        | Some (Regular contents uid gid) =>
            <[p := Regular (if truncate then "" else contents) uid gid]> nodes
        | _ => <[p := Regular "" owner.1 owner.2]> nodes
        end);;
      mret (Some p)
  end.

(** Replace the contents of an open file. *)
Definition fs_write (p : string) (text : string → string) : F () :=
  fs_modify (λ nodes,
    match nodes !! p with
    | Some (Regular contents uid gid) => <[p := Regular (text contents) uid gid]> nodes
    | _ => nodes
    end).

(** [fprintf(...) >= 0] and [fclose]: a failure leaves the contents unspecified. *)
Definition fs_fprintf (p text : string) : F bool :=
  ok ← fs_ask fe_ok;
  g ← fs_ask fe_garbage;
  fs_write p (λ c, if ok : bool then c +:+ text else g);;
  mret ok.

Definition fs_fclose (p : string) : F bool :=
  ok ← fs_ask fe_ok;
  g ← fs_ask fe_garbage;
  fs_write p (λ c, if ok : bool then c else g);;
  mret ok.

Definition fs_unlink (path : string) : F bool :=
  ok ← fs_ask fe_ok;
  if ok : bool then fs_modify (delete path);; mret true else mret false.

Definition fs_chown (path : string) (uid gid : Z) : F bool :=
  ok ← fs_ask fe_ok;
  nodes ← fs_get;
  match (if ok : bool then resolve nodes path else None) with
  | None => mret false
  | Some p =>
      match nodes !! p with
      | Some (Regular contents _ _) => fs_modify <[p := Regular contents uid gid]>;; mret true
      | _ => mret false
      end
  end.

Definition fs_spawn (argv : list string) : F spawn_result := λ e s,
  (fe_spawn e (fs_clock s) argv, FsState (S (fs_clock s)) (fs_nodes s) (fs_spawned s ++ [argv])).

(** ** Definitions: the command *)

Definition NM_CONFIG_PATH : string := "/etc/NetworkManager/conf.d/dnsconfd.conf".
Definition newline : string := String "010"%char "".
Definition NM_CONFIG_CONTENT : string := "[main]" +:+ newline +:+ "dns=dnsconfd" +:+ newline.

Definition reload_network_manager : F exit_code_t :=
  r ← fs_spawn ["systemctl"; "reload"; "NetworkManager"];
  mret (match r with
        | SpawnFailed => EXIT_COMMAND_FAILURE
        | SpawnExited code => if (code =? 0)%Z then EXIT_OK else EXIT_COMMAND_FAILURE
        | SpawnSignaled _ => EXIT_COMMAND_FAILURE
        end).

(** The value of [fclose] is not looked at. *)
Definition do_nm_enable : F exit_code_t :=
  fp ← fs_open true NM_CONFIG_PATH;
  match fp with
  | None => mret EXIT_COMMAND_FAILURE
  | Some fp =>
      printed ← fs_fprintf fp NM_CONFIG_CONTENT;
      _ ← fs_fclose fp;
      if printed : bool then reload_network_manager else mret EXIT_COMMAND_FAILURE
  end.

Definition do_nm_disable : F exit_code_t :=
  st ← fs_stat NM_CONFIG_PATH;
  match st with
  | StatNode _ =>
      fp ← fs_open true NM_CONFIG_PATH;
      match fp with
      | None => mret EXIT_COMMAND_FAILURE
      | Some fp => _ ← fs_fclose fp; reload_network_manager
      end
  | StatNoent => reload_network_manager
  | StatError => mret EXIT_COMMAND_FAILURE
  end.

(** The file and its owner, once the link is out of the way. *)
Definition own_resolvconf (path : string) (target_gid : Z) : F exit_code_t :=
  fp ← fs_open false path;
  match fp with
  | None => mret EXIT_COMMAND_FAILURE
  | Some fp =>
      _ ← fs_fclose fp;
      pwd ← fs_ask (λ e _, fe_getpwnam e "dnsconfd");
      match pwd with
      | None => mret EXIT_COMMAND_FAILURE
      | Some pw_uid =>
          ok ← fs_chown path pw_uid target_gid;
          mret (if ok : bool then EXIT_OK else EXIT_COMMAND_FAILURE)
      end
  end.

Definition do_take_resolvconf (path : string) : F exit_code_t :=
  st ← fs_lstat path;
  match st with
  | StatNode (Symlink _) =>
      ok ← fs_unlink path;
      if ok : bool then own_resolvconf path 0 else mret EXIT_COMMAND_FAILURE
  | StatNode (Regular _ _ st_gid) => own_resolvconf path st_gid
  | StatNoent => own_resolvconf path 0
  | StatError => mret EXIT_COMMAND_FAILURE
  end.

Definition do_return_resolvconf (path : string) : F exit_code_t :=
  ok ← fs_chown path 0 0;
  mret (if ok : bool then EXIT_OK else EXIT_COMMAND_FAILURE).

Definition cli_config_command (action : config_action_t) (resolv_conf : string) : F exit_code_t :=
  match action with
  | CONFIG_ACTION_NM_ENABLE => do_nm_enable
  | CONFIG_ACTION_NM_DISABLE => do_nm_disable
  | CONFIG_ACTION_TAKE_RESOLVCONF => do_take_resolvconf resolv_conf
  | CONFIG_ACTION_RETURN_RESOLVCONF => do_return_resolvconf resolv_conf
  | CONFIG_ACTION_INSTALL =>
      ret ← do_nm_enable;
      if decide (ret = EXIT_OK) then do_take_resolvconf resolv_conf else mret ret
  | CONFIG_ACTION_UNINSTALL =>
      ret ← do_nm_disable;
      if decide (ret = EXIT_OK) then do_return_resolvconf resolv_conf else mret ret
  | CONFIG_ACTION_NONE => mret EXIT_BAD_ARGUMENTS
  end.

(** ** Proofs: what the calls change *)

#[local] Arguments resolve : simpl never.

(** No symbolic link is at [p]. *)
Definition no_link (nodes : gmap string node) (p : string) : Prop :=
  ∀ target, nodes !! p ≠ Some (Symlink target).

(** Only the nodes of [P] change, none of which is a link. *)
Record only (P : string → Prop) (nodes nodes' : gmap string node) : Prop := {
  only_else q : ¬ P q → nodes' !! q = nodes !! q;
  only_before q : P q → no_link nodes q;
  only_after q : P q → no_link nodes' q
}.

Lemma follow_no_link fuel nodes path p : follow fuel nodes path = Some p → no_link nodes p.
Proof.
  revert path. induction fuel as [|fuel IH]; intros path; simpl; [done|].
  destruct (nodes !! path) as [[c u g|t]|] eqn:E; [intros [= <-] t; congruence|apply IH|].
  intros [= <-] t. congruence.
Qed.

Lemma resolve_no_link_self nodes path : no_link nodes path → resolve nodes path = Some path.
Proof.
  intros Hn. unfold resolve. cbn [follow]. destruct (nodes !! path) as [[|t]|] eqn:E; [done| |done].
  by destruct (Hn t).
Qed.

(** Links lead to the same files as before. *)
Lemma only_resolve `{∀ q, Decision (P q)} nodes nodes' path :
  only P nodes nodes' → resolve nodes' path = resolve nodes path.
Proof.
  intros [He Hb Ha]. unfold resolve. generalize (S MAXSYMLINKS) as fuel. intros fuel.
  revert path. induction fuel as [|fuel IH]; intros path; [done|]. cbn [follow].
  destruct (decide (P path)) as [Hp|Hp].
  - specialize (Hb _ Hp). specialize (Ha _ Hp).
    destruct (nodes !! path) as [[|t]|] eqn:E; [|by destruct (Hb t)|];
      (destruct (nodes' !! path) as [[|t]|] eqn:E'; [done|by destruct (Ha t)|done]).
  - rewrite He by done. destruct (nodes !! path) as [[|t]|]; [done|apply IH|done].
Qed.

Lemma only_refl P nodes : (∀ q, P q → no_link nodes q) → only P nodes nodes.
Proof. done. Qed.

Lemma only_trans P a b c : only P a b → only P b c → only P a c.
Proof. intros [] []. split; auto. intros q Hq. by rewrite only_else1, only_else0. Qed.

(** The file a path leads to. *)
Definition target (nodes : gmap string node) (path q : string) : Prop := resolve nodes path = Some q.
#[export] Instance target_dec nodes path q : Decision (target nodes path q).
Proof. unfold target. apply _. Defined.

Lemma target_no_link nodes path q : target nodes path q → no_link nodes q.
Proof. apply follow_no_link. Qed.

(** One regular node written. *)
Lemma only_insert P nodes p c u g :
  (∀ q, P q → no_link nodes q) → P p → only P nodes (<[p := Regular c u g]> nodes).
Proof.
  intros Hn Hp. split; [|done|].
  - intros q Hq. apply lookup_insert_ne. by intros ->.
  - intros q Hq. destruct (decide (q = p)) as [->|Hne]; intros t.
    + by rewrite lookup_insert_eq.
    + rewrite lookup_insert_ne by done. by apply Hn.
Qed.

(** Run the calls that are known. *)
Ltac run_calls :=
  unfold fs_lstat, fs_stat, fs_ask, fs_get, fs_modify, mbind, F_bind, mret, F_ret; cbn [fst snd fs_nodes fs_clock fs_spawned].

Section Frames.
Context (e : fs_env).

Lemma fs_write_only P p text s :
  (∀ q, P q → no_link (fs_nodes s) q) → P p →
  only P (fs_nodes s) (fs_nodes (fs_write p text e s).2).
Proof.
  intros Hn Hp. unfold fs_write, fs_modify. cbn.
  destruct (fs_nodes s !! p) as [[c u g|t]|]; [by apply only_insert|by apply only_refl..].
Qed.

Lemma fs_open_only truncate path s :
  let r := fs_open truncate path e s in
  only (target (fs_nodes s) path) (fs_nodes s) (fs_nodes r.2) ∧
  ∀ p, r.1 = Some p → target (fs_nodes s) path p.
Proof.
  assert (Hn : ∀ q, target (fs_nodes s) path q → no_link (fs_nodes s) q) by apply target_no_link.
  unfold fs_open. run_calls. destruct (fe_ok e (fs_clock s)); cbn [fst snd fs_nodes]; [|by split; [apply only_refl|]].
  destruct (resolve (fs_nodes s) path) as [p|] eqn:Hp; cbn [fst snd fs_nodes]; [|by split; [apply only_refl|]].
  split; [|by intros ? [= <-]].
  destruct (fs_nodes s !! p) as [[c u g|t]|]; by apply only_insert.
Qed.

Lemma fs_chown_only path uid gid s :
  only (target (fs_nodes s) path) (fs_nodes s) (fs_nodes (fs_chown path uid gid e s).2).
Proof.
  assert (Hn : ∀ q, target (fs_nodes s) path q → no_link (fs_nodes s) q) by apply target_no_link.
  unfold fs_chown. run_calls. destruct (fe_ok e (fs_clock s)); cbn [fst snd fs_nodes]; [|by apply only_refl].
  destruct (resolve (fs_nodes s) path) as [p|] eqn:Hp; cbn [fst snd fs_nodes]; [|by apply only_refl].
  destruct (fs_nodes s !! p) as [[c u g|t]|]; [by apply only_insert|by apply only_refl..].
Qed.

Lemma fs_fprintf_only P p text s :
  (∀ q, P q → no_link (fs_nodes s) q) → P p →
  only P (fs_nodes s) (fs_nodes (fs_fprintf p text e s).2).
Proof. intros Hn Hp. unfold fs_fprintf. run_calls. by apply (fs_write_only P p _ (FsState _ _ _)). Qed.

Lemma fs_fclose_only P p s :
  (∀ q, P q → no_link (fs_nodes s) q) → P p →
  only P (fs_nodes s) (fs_nodes (fs_fclose p e s).2).
Proof. intros Hn Hp. unfold fs_fclose. run_calls. by apply (fs_write_only P p _ (FsState _ _ _)). Qed.

Lemma reload_nodes s : fs_nodes (reload_network_manager e s).2 = fs_nodes s.
Proof. done. Qed.

Lemma do_nm_enable_only s :
  only (target (fs_nodes s) NM_CONFIG_PATH) (fs_nodes s) (fs_nodes (do_nm_enable e s).2).
Proof.
  unfold do_nm_enable. run_calls. destruct (fs_open_only true NM_CONFIG_PATH s) as [Ho Hp].
  destruct (fs_open true NM_CONFIG_PATH e s) as [[p|] s1]; cbn [fst snd] in *; [|done].
  specialize (Hp _ eq_refl).
  pose proof (fs_fprintf_only _ p NM_CONFIG_CONTENT s1 (only_after _ _ _ Ho) Hp) as Hf.
  destruct (fs_fprintf p NM_CONFIG_CONTENT e s1) as [printed s2]. cbn [fst snd] in *.
  pose proof (fs_fclose_only _ p s2 (only_after _ _ _ Hf) Hp) as Hc.
  destruct (fs_fclose p e s2) as [closed s3]. cbn [fst snd] in *.
  assert (only (target (fs_nodes s) NM_CONFIG_PATH) (fs_nodes s) (fs_nodes s3))
    by (by eapply only_trans; [|eapply only_trans]).
  destruct printed; [by rewrite reload_nodes|done].
Qed.

Lemma do_nm_disable_only s :
  only (target (fs_nodes s) NM_CONFIG_PATH) (fs_nodes s) (fs_nodes (do_nm_disable e s).2).
Proof.
  unfold do_nm_disable. run_calls.
  assert (Hn : only (target (fs_nodes s) NM_CONFIG_PATH) (fs_nodes s) (fs_nodes s))
    by apply only_refl, target_no_link.
  match goal with |- context [match ?x with StatNode _ => _ | _ => _ end] => destruct x end;
    [|by rewrite reload_nodes|done].
  set (s0 := FsState _ _ _). change (fs_nodes s) with (fs_nodes s0).
  destruct (fs_open_only true NM_CONFIG_PATH s0) as [Ho Hp].
  destruct (fs_open true NM_CONFIG_PATH e s0) as [[p|] s1]; cbn [fst snd] in *; [|done].
  pose proof (fs_fclose_only _ p s1 (only_after _ _ _ Ho) (Hp _ eq_refl)) as Hc.
  destruct (fs_fclose p e s1) as [closed s2]. cbn [fst snd] in *.
  rewrite reload_nodes. by eapply only_trans.
Qed.

Lemma own_resolvconf_only path gid s :
  only (target (fs_nodes s) path) (fs_nodes s) (fs_nodes (own_resolvconf path gid e s).2).
Proof.
  unfold own_resolvconf. run_calls. destruct (fs_open_only false path s) as [Ho Hp].
  destruct (fs_open false path e s) as [[p|] s1]; cbn [fst snd] in *; [|done].
  pose proof (fs_fclose_only _ p s1 (only_after _ _ _ Ho) (Hp _ eq_refl)) as Hc.
  destruct (fs_fclose p e s1) as [closed s2]. cbn [fst snd] in *.
  assert (H2 : only (target (fs_nodes s) path) (fs_nodes s) (fs_nodes s2)) by (by eapply only_trans).
  destruct (fe_getpwnam e "dnsconfd") as [uid|]; [|done]. cbn [fst snd].
  pose proof (fs_chown_only path uid gid (FsState (S (fs_clock s2)) (fs_nodes s2) (fs_spawned s2))) as Hch.
  cbn [fs_nodes] in Hch.
  destruct (fs_chown path uid gid e _) as [ok s3]. cbn [fst snd] in *.
  eapply only_trans; [exact H2|]. destruct Hch as [He Hb Ha]. unfold target in *.
  rewrite (only_resolve _ _ path H2) in He, Hb, Ha. by split.
Qed.

(** What the command can change, from where the links lead. *)
Definition touched (nodes : gmap string node) (resolv_conf q : string) : Prop :=
  target nodes NM_CONFIG_PATH q ∨ q = resolv_conf ∨ target nodes resolv_conf q.

Lemma take_frame path s q :
  q ≠ path → ¬ target (fs_nodes s) path q →
  fs_nodes (do_take_resolvconf path e s).2 !! q = fs_nodes s !! q.
Proof.
  intros Hne Ht. unfold do_take_resolvconf. run_calls.
  assert (Hown : ∀ gid s0, fs_nodes s0 = fs_nodes s →
    fs_nodes (own_resolvconf path gid e s0).2 !! q = fs_nodes s !! q).
  { intros gid s0 E. pose proof (own_resolvconf_only path gid s0) as Ho. rewrite E in Ho.
    by apply (only_else _ _ _ Ho). }
  destruct (fe_ok e (fs_clock s)); [|done].
  destruct (fs_nodes s !! path) as [[c u g|t]|]; [by apply Hown| |by apply Hown].
  unfold fs_unlink. run_calls. destruct (fe_ok e (S (fs_clock s))); [|done]. cbn [fst snd fs_nodes].
  set (s0 := FsState _ _ _). pose proof (own_resolvconf_only path 0 s0) as Ho.
  rewrite (only_else _ _ _ Ho); [by apply lookup_delete_ne|]. unfold target.
  rewrite resolve_no_link_self; [congruence|]. intros ?. cbn. by rewrite lookup_delete_eq.
Qed.

Lemma config_frame action resolv_conf s q :
  ¬ touched (fs_nodes s) resolv_conf q →
  fs_nodes (cli_config_command action resolv_conf e s).2 !! q = fs_nodes s !! q.
Proof.
  intros Hq. assert (Hnm : ¬ target (fs_nodes s) NM_CONFIG_PATH q) by (intros ?; apply Hq; by left).
  assert (Hne : q ≠ resolv_conf) by (intros ?; apply Hq; right; by left).
  assert (Ht : ¬ target (fs_nodes s) resolv_conf q) by (intros ?; apply Hq; right; by right).
  pose proof (do_nm_enable_only s) as He. pose proof (do_nm_disable_only s) as Hd.
  destruct action; unfold cli_config_command; run_calls; try done.
  - by apply He.
  - by apply Hd.
  - by apply take_frame.
  - unfold do_return_resolvconf. run_calls. by apply (only_else _ _ _ (fs_chown_only resolv_conf 0 0 s)).
  - destruct (decide _); [|by apply He]. rewrite take_frame; [by apply He|done|].
    unfold target. by rewrite (only_resolve _ _ resolv_conf He).
  - destruct (decide _); [|by apply Hd]. unfold do_return_resolvconf. run_calls.
    rewrite (only_else _ _ _ (fs_chown_only resolv_conf 0 0 _)); [by apply Hd|].
    unfold target. by rewrite (only_resolve _ _ resolv_conf Hd).
Qed.

(** The exit codes of the actions. *)
Definition ok_or_failure (c : exit_code_t) : Prop := c = EXIT_OK ∨ c = EXIT_COMMAND_FAILURE.

Lemma reload_exit s : ok_or_failure (reload_network_manager e s).1.
Proof.
  unfold ok_or_failure, reload_network_manager, fs_spawn. run_calls.
  destruct (fe_spawn _ _ _); cbn; try case_match; auto.
Qed.

Lemma nm_exit s : ok_or_failure (do_nm_enable e s).1 ∧ ok_or_failure (do_nm_disable e s).1.
Proof.
  split; [unfold do_nm_enable|unfold do_nm_disable]; run_calls;
    repeat case_match; cbn [fst]; try apply reload_exit; by right.
Qed.

Lemma resolvconf_exit path s :
  ok_or_failure (do_take_resolvconf path e s).1 ∧ ok_or_failure (do_return_resolvconf path e s).1.
Proof.
  assert (Hown : ∀ gid s0, ok_or_failure (own_resolvconf path gid e s0).1).
  { intros. unfold own_resolvconf. run_calls. repeat case_match; cbn [fst]; first [by left|by right]. }
  split; [unfold do_take_resolvconf|unfold do_return_resolvconf]; run_calls;
    repeat case_match; cbn [fst]; first [apply Hown|by left|by right].
Qed.

Lemma config_exit action resolv_conf s :
  action ≠ CONFIG_ACTION_NONE → ok_or_failure (cli_config_command action resolv_conf e s).1.
Proof.
  intros Ha. destruct action; unfold cli_config_command; run_calls; try done;
    try apply nm_exit; try apply resolvconf_exit;
    (destruct (decide _); [apply resolvconf_exit|apply nm_exit]).
Qed.
End Frames.

(** ** Proofs: a command that succeeds *)

Section Reliable.
Context (e : fs_env) (Hok : ∀ n, fe_ok e n = true).

Definition fs_result {A} (r : A * fs_state) (a : A) (nodes : gmap string node) : Prop :=
  r.1 = a ∧ fs_nodes r.2 = nodes.

(** The node an open file has. *)
Definition opened (truncate : bool) (old : option node) : node :=
  match old with
  | Some (Regular c u g) => Regular (if truncate then "" else c) u g
  | _ => Regular "" (fe_uid e) (fe_gid e)
  end.

Lemma fs_open_ok truncate path s :
  no_link (fs_nodes s) path →
  fs_result (fs_open truncate path e s) (Some path)
    (<[path := opened truncate (fs_nodes s !! path)]> (fs_nodes s)).
Proof.
  intros Hn. unfold fs_result, fs_open. run_calls. rewrite Hok, (resolve_no_link_self _ _ Hn).
  split; [done|]. cbn. by destruct (fs_nodes s !! path) as [[]|].
Qed.

Lemma fs_fprintf_ok p text s c u g :
  fs_nodes s !! p = Some (Regular c u g) →
  fs_result (fs_fprintf p text e s) true (<[p := Regular (c +:+ text) u g]> (fs_nodes s)).
Proof.
  intros Hp. unfold fs_result, fs_fprintf, fs_write. run_calls. by rewrite Hok, Hp.
Qed.

Lemma fs_fclose_ok p s : fs_result (fs_fclose p e s) true (fs_nodes s).
Proof.
  unfold fs_result, fs_fclose, fs_write. run_calls. rewrite Hok. split; [done|].
  destruct (fs_nodes s !! p) as [[c u g|]|] eqn:E; [by apply insert_id|done..].
Qed.

Lemma fs_chown_ok path c u g uid gid s :
  fs_nodes s !! path = Some (Regular c u g) →
  fs_result (fs_chown path uid gid e s) true (<[path := Regular c uid gid]> (fs_nodes s)).
Proof.
  intros Hp. unfold fs_result, fs_chown. run_calls.
  rewrite Hok, resolve_no_link_self by (intros ?; congruence). by rewrite Hp.
Qed.

Lemma fs_bind_ok {A B} (m : F A) (f : A → F B) s a nodes b nodes' :
  fs_result (m e s) a nodes →
  (∀ s', fs_nodes s' = nodes → fs_result (f a e s') b nodes') → fs_result ((m ≫= f) e s) b nodes'.
Proof.
  unfold fs_result, mbind, F_bind. destruct (m e s) as [a0 s0]. cbn. intros [-> <-] Hf. by apply Hf.
Qed.

Context (Hreload : ∀ n, fe_spawn e n ["systemctl"; "reload"; "NetworkManager"] = SpawnExited 0).

Lemma reload_ok s : fs_result (reload_network_manager e s) EXIT_OK (fs_nodes s).
Proof. unfold fs_result, reload_network_manager, fs_spawn. run_calls. by rewrite Hreload. Qed.

(** The drop-in file with its owner. *)
Definition nm_file (contents : string) (old : option node) : node :=
  match old with
  | Some (Regular _ u g) => Regular contents u g
  | _ => Regular contents (fe_uid e) (fe_gid e)
  end.

Lemma opened_empty old : opened true old = nm_file "" old.
Proof. by destruct old as [[]|]. Qed.

Lemma do_nm_enable_ok s :
  no_link (fs_nodes s) NM_CONFIG_PATH →
  fs_result (do_nm_enable e s) EXIT_OK
    (<[NM_CONFIG_PATH := nm_file NM_CONFIG_CONTENT (fs_nodes s !! NM_CONFIG_PATH)]> (fs_nodes s)).
Proof.
  intros Hn. unfold do_nm_enable. eapply fs_bind_ok; [by apply fs_open_ok|].
  intros s1 H1. cbv iota beta. rewrite opened_empty in H1.
  destruct (nm_file "" (fs_nodes s !! NM_CONFIG_PATH)) as [c u g|] eqn:Ef;
    [|by destruct (fs_nodes s !! NM_CONFIG_PATH) as [[]|]].
  eapply fs_bind_ok; [eapply fs_fprintf_ok; by rewrite H1, lookup_insert_eq|].
  intros s2 H2. eapply fs_bind_ok; [apply fs_fclose_ok|]. intros s3 H3. cbv iota.
  rewrite H1, insert_insert_eq in H2. rewrite H2 in H3.
  replace (nm_file _ _) with (Regular (c +:+ NM_CONFIG_CONTENT) u g); [rewrite <-H3; apply reload_ok|].
  destruct (fs_nodes s !! NM_CONFIG_PATH) as [[]|]; by simplify_eq/=.
Qed.

Lemma do_nm_disable_ok s c u g :
  fs_nodes s !! NM_CONFIG_PATH = Some (Regular c u g) →
  fs_result (do_nm_disable e s) EXIT_OK (<[NM_CONFIG_PATH := Regular "" u g]> (fs_nodes s)).
Proof.
  intros Hp. assert (Hn : no_link (fs_nodes s) NM_CONFIG_PATH) by (intros ?; congruence).
  unfold do_nm_disable. eapply (fs_bind_ok _ _ _ (StatNode (Regular c u g)) (fs_nodes s)).
  { unfold fs_result. run_calls. rewrite Hok, (resolve_no_link_self _ _ Hn). by rewrite Hp. }
  intros s1 H1. cbv iota beta. eapply fs_bind_ok; [apply fs_open_ok; by rewrite H1|].
  intros s2 H2. cbv iota beta. eapply fs_bind_ok; [apply fs_fclose_ok|]. intros s3 H3.
  rewrite H1, Hp in H2. cbn [opened] in H2. rewrite <-H2, <-H3. apply reload_ok.
Qed.

Context (uid : Z) (Huser : fe_getpwnam e "dnsconfd" = Some uid).

(** resolv.conf in the hands of the daemon: a link is replaced by an empty file,
    a file keeps its contents and its group. *)
Definition taken (old : option node) : node :=
  match old with
  | Some (Regular c _ g) => Regular c uid g
  | _ => Regular "" uid 0
  end.

Lemma own_resolvconf_ok path gid s c u g :
  no_link (fs_nodes s) path → opened false (fs_nodes s !! path) = Regular c u g →
  fs_result (own_resolvconf path gid e s) EXIT_OK (<[path := Regular c uid gid]> (fs_nodes s)).
Proof.
  intros Hn Ho. unfold own_resolvconf. eapply fs_bind_ok; [by apply fs_open_ok|].
  intros s1 H1. cbv iota beta. rewrite Ho in H1.
  eapply fs_bind_ok; [apply fs_fclose_ok|]. intros s2 H2.
  eapply (fs_bind_ok _ _ _ (Some uid) (fs_nodes s2)); [by unfold fs_result; run_calls|].
  intros s3 H3. cbv iota beta. eapply fs_bind_ok.
  { eapply fs_chown_ok. by rewrite H3, H2, H1, lookup_insert_eq. }
  intros s4 H4. rewrite H3, H2, H1, insert_insert_eq in H4. by rewrite <-H4.
Qed.

Lemma do_take_resolvconf_ok path s :
  fs_result (do_take_resolvconf path e s) EXIT_OK
    (<[path := taken (fs_nodes s !! path)]> (fs_nodes s)).
Proof.
  unfold do_take_resolvconf. destruct (fs_nodes s !! path) as [n|] eqn:E; cbn [taken].
  - eapply (fs_bind_ok _ _ _ (StatNode n) (fs_nodes s)).
    { unfold fs_result. run_calls. by rewrite Hok, E. }
    intros s1 H1. cbv iota beta. destruct n as [c u g|t].
    + rewrite <-H1 in E |- *. eapply own_resolvconf_ok; [intros ?; congruence|]. by rewrite E.
    + eapply (fs_bind_ok _ _ _ true (delete path (fs_nodes s))).
      { unfold fs_result, fs_unlink. run_calls. by rewrite Hok, H1. }
      intros s2 H2. cbv iota. rewrite <-(insert_delete_eq (fs_nodes s)), <-H2.
      eapply own_resolvconf_ok; rewrite H2; [intros ?|]; by rewrite lookup_delete_eq.
  - eapply (fs_bind_ok _ _ _ StatNoent (fs_nodes s)).
    { unfold fs_result. run_calls. by rewrite Hok, E. }
    intros s1 H1. cbv iota beta. rewrite <-H1 in E |- *.
    eapply own_resolvconf_ok; [intros ?; congruence|]. by rewrite E.
Qed.

(** resolv.conf in the hands of root. *)
Definition given_back (n : node) : node :=
  match n with Regular c _ _ => Regular c 0 0 | Symlink t => Symlink t end.

Lemma install_ok resolv_conf s :
  no_link (fs_nodes s) NM_CONFIG_PATH → resolv_conf ≠ NM_CONFIG_PATH →
  fs_result (cli_config_command CONFIG_ACTION_INSTALL resolv_conf e s) EXIT_OK
    (<[resolv_conf := taken (fs_nodes s !! resolv_conf)]>
      (<[NM_CONFIG_PATH := nm_file NM_CONFIG_CONTENT (fs_nodes s !! NM_CONFIG_PATH)]> (fs_nodes s))).
Proof.
  intros Hn Hne. unfold cli_config_command. eapply fs_bind_ok; [by apply do_nm_enable_ok|].
  intros s1 H1. rewrite decide_True by done. rewrite <-H1.
  assert (fs_nodes s1 !! resolv_conf = fs_nodes s !! resolv_conf) as <-
    by (by rewrite H1, lookup_insert_ne).
  by apply do_take_resolvconf_ok.
Qed.

Lemma uninstall_ok resolv_conf nodes s r nmc old :
  resolv_conf ≠ NM_CONFIG_PATH →
  fs_result (r, s) EXIT_OK
    (<[resolv_conf := taken old]> (<[NM_CONFIG_PATH := nm_file nmc (nodes !! NM_CONFIG_PATH)]> nodes)) →
  fs_result (cli_config_command CONFIG_ACTION_UNINSTALL resolv_conf e s) EXIT_OK
    (<[resolv_conf := given_back (taken old)]>
      (<[NM_CONFIG_PATH := nm_file "" (nodes !! NM_CONFIG_PATH)]> nodes)).
Proof.
  intros Hne [_ Hs]. cbn [snd] in Hs. unfold cli_config_command.
  destruct (nm_file nmc (nodes !! NM_CONFIG_PATH)) as [c u g|t] eqn:Ef;
    [|by destruct (nodes !! NM_CONFIG_PATH) as [[]|]].
  assert (nm_file "" (nodes !! NM_CONFIG_PATH) = Regular "" u g) as ->
    by (destruct (nodes !! NM_CONFIG_PATH) as [[]|]; by simplify_eq/=).
  eapply fs_bind_ok.
  { eapply do_nm_disable_ok. by rewrite Hs, lookup_insert_ne, lookup_insert_eq. }
  intros s1 H1. rewrite decide_True by done. unfold do_return_resolvconf.
  destruct (taken old) as [rc ru rg|t] eqn:Et; [|by destruct old as [[]|]].
  eapply fs_bind_ok.
  { eapply fs_chown_ok. by rewrite H1, lookup_insert_ne, Hs, lookup_insert_eq. }
  intros s2 H2. split; [done|]. change (fs_nodes s2 =
    <[resolv_conf := Regular rc 0 0]> (<[NM_CONFIG_PATH := Regular "" u g]> nodes)).
  rewrite H2, H1, Hs. apply map_eq. intros q.
  destruct (decide (q = resolv_conf)) as [->|]; [by rewrite !lookup_insert_eq|].
  rewrite !(lookup_insert_ne _ resolv_conf) by done.
  destruct (decide (q = NM_CONFIG_PATH)) as [->|]; [by rewrite !lookup_insert_eq|].
  by rewrite !lookup_insert_ne by done.
Qed.
End Reliable.

(** ** Theorems *)

(** C34: whatever goes wrong in between, [dnsconfd config] touches no file but
    NetworkManager's drop-in and resolv.conf - the paths and the files their links
    lead to -, and it ends with success or [EXIT_COMMAND_FAILURE]. *)
Theorem config_command_frame (e : fs_env) (action : config_action_t) (resolv_conf q : string)
    (s : fs_state) :
  action ≠ CONFIG_ACTION_NONE → ¬ touched (fs_nodes s) resolv_conf q →
  let r := cli_config_command action resolv_conf e s in
  fs_nodes r.2 !! q = fs_nodes s !! q ∧ (r.1 = EXIT_OK ∨ r.1 = EXIT_COMMAND_FAILURE).
Proof. intros Ha Hq. split; [by apply config_frame|by apply config_exit]. Qed.

(** C33: when the calls succeed and the user dnsconfd exists, [config install]
    leaves NetworkManager's drop-in with the text that hands DNS to dnsconfd and
    resolv.conf owned by dnsconfd - an existing file with its contents and its
    group, a link replaced by an empty file -; [config uninstall] after it empties
    the drop-in and gives resolv.conf back to root with the same contents; both
    report success and change nothing else. *)
Theorem config_install_correct (e : fs_env) (uid : Z) (resolv_conf : string) (s : fs_state) :
  (∀ n, fe_ok e n = true) → fe_getpwnam e "dnsconfd" = Some uid →
  (∀ n, fe_spawn e n ["systemctl"; "reload"; "NetworkManager"] = SpawnExited 0) →
  no_link (fs_nodes s) NM_CONFIG_PATH → resolv_conf ≠ NM_CONFIG_PATH →
  let nm contents := nm_file e contents (fs_nodes s !! NM_CONFIG_PATH) in
  let resolv := taken uid (fs_nodes s !! resolv_conf) in
  let installed := cli_config_command CONFIG_ACTION_INSTALL resolv_conf e s in
  let uninstalled := cli_config_command CONFIG_ACTION_UNINSTALL resolv_conf e installed.2 in
  fs_result installed EXIT_OK
    (<[resolv_conf := resolv]> (<[NM_CONFIG_PATH := nm NM_CONFIG_CONTENT]> (fs_nodes s))) ∧
  fs_result uninstalled EXIT_OK
    (<[resolv_conf := given_back resolv]> (<[NM_CONFIG_PATH := nm ""]> (fs_nodes s))).
Proof.
  intros Hok Huser Hreload Hn Hne. cbv zeta.
  assert (Hi := install_ok e Hok Hreload uid Huser resolv_conf s Hn Hne). split; [exact Hi|].
  destruct (cli_config_command CONFIG_ACTION_INSTALL resolv_conf e s) as [r1 s1].
  by eapply uninstall_ok.
Qed.

(** ** Witnesses *)

Definition example_fs_env : fs_env :=
  FsEnv (λ _, true) (λ _, "") (λ _ _, SpawnExited 0)
    (λ user, if user ==s "dnsconfd" then Some 990%Z else None) 0 0.

(** resolv.conf as systemd-resolved leaves it. *)
Definition example_fs : fs_state :=
  FsState 0 {["/etc/resolv.conf" := Symlink "/run/systemd/resolve/stub-resolv.conf";
              "/run/systemd/resolve/stub-resolv.conf" := Regular "nameserver 127.0.0.53" 193 193]} [].

Theorem config_command_frame_witness :
  let r := cli_config_command CONFIG_ACTION_INSTALL "/etc/resolv.conf" example_fs_env example_fs in
  fs_nodes r.2 !! "/etc/hosts" = None ∧ (r.1 = EXIT_OK ∨ r.1 = EXIT_COMMAND_FAILURE).
Proof.
  apply (config_command_frame example_fs_env CONFIG_ACTION_INSTALL "/etc/resolv.conf" "/etc/hosts" example_fs).
  - done.
  - apply (bool_decide_unpack _). by vm_compute.
Defined.

Theorem config_install_correct_witness :
  fs_result (cli_config_command CONFIG_ACTION_INSTALL "/etc/resolv.conf" example_fs_env example_fs)
    EXIT_OK
    {["/etc/resolv.conf" := Regular "" 990 0;
      "/run/systemd/resolve/stub-resolv.conf" := Regular "nameserver 127.0.0.53" 193 193;
      NM_CONFIG_PATH := Regular NM_CONFIG_CONTENT 0 0]}.
Proof.
  destruct (config_install_correct example_fs_env 990 "/etc/resolv.conf" example_fs) as [[Hc Hf] _].
  - done.
  - done.
  - done.
  - intros t. by vm_compute.
  - done.
  - split; [exact Hc|]. rewrite Hf. apply (bool_decide_unpack _). by vm_compute.
Defined.
