(* ===== verification/Main.v ===== *)
(** * The commands and the entry point: src/src/main.c, and cli_common.c,
      cli_status.c and cli_reload.c of src/src/cli_commands

    What the program does with its configuration.  The answers of the bus, the
    text jansson prints and the main loop of GLib are inputs. *)

From S2P Require Import Prelude CLib GLib SockAddr NetworkAddress ServerUri ServerJson ServerParse.
From S2P Require Import ConfigData ConfigFile ConfigDocument World UnboundSelect FsmContext Fsm.
From S2P Require Import DbusServer Daemon Client Options Config Logging CliConfig.

(** ** Definitions: status and reload *)

Definition json_string_value (j : json) : option string :=
  match j with JString s => Some s | _ => None end.

(** [json_object_get]: null for a value that is not an object. *)
Definition object_member (root : json) (key : string) : option json :=
  match root with JObject members => json_object_get members key | _ => None end.

Section Status.
Context (json_loads : string → option json).
(** [json_dumps(element, JSON_INDENT(2))]. *)
Context (json_dumps : json → option string).

Definition lf : string := String "010"%char "".

(** A member printed as a string, after a label. *)
Definition print_string (root : json) (key label : string) : string :=
  match object_member root key with
  | Some element => label +:+ default "N/A" (json_string_value element) +:+ lf
  | None => ""
  end.

(** A member printed as JSON; [None] when jansson cannot. *)
Definition print_json (root : json) (key label : string) : option string :=
  match object_member root key with
  | Some element => output ← json_dumps element; Some (label +:+ output +:+ lf)
  | None => Some ""
  end.

(** What is printed, and the value returned. *)
Definition print_status (response : string) : string * Z :=
  match json_loads response with
  | None => ("", 1%Z)
  | Some root =>
      let out := print_string root "service" ("Running cache service:" +:+ lf)
                 +:+ print_string root "mode" "Resolving mode: " in
      match print_json root "cache_config" ("Config present in service:" +:+ lf) with
      | None => (out, 1%Z)
      | Some cache_config =>
          let out := out +:+ cache_config +:+ print_string root "state" ("State of Dnsconfd:" +:+ lf) in
          match print_json root "servers" "Info about servers: " with
          | None => (out, 1%Z)
          | Some servers => (out +:+ servers, 0%Z)
          end
      end
  end.

(** What the bus answers to a simple call: [None] is an error. *)
Definition cli_call_simple_method (connected : bool) (reply : option string) : option string :=
  if connected then reply else None.

(** What is printed to the standard output, and the exit code. *)
Definition cli_status_command (connected : bool) (reply : option string)
    (options : status_command_options_t) : string * exit_code_t :=
  match cli_call_simple_method connected reply with
  | None => ("", EXIT_COMMAND_FAILURE)
  | Some response =>
      if so_json options then (response +:+ lf, EXIT_OK)
      else
        let '(out, failed) := print_status response in
        (if (failed =? 0)%Z then out else out +:+ response +:+ lf, EXIT_OK)
  end.
End Status.

Definition cli_reload_command (connected : bool) (reply : option string) : exit_code_t :=
  match cli_call_simple_method connected reply with
  | None => EXIT_COMMAND_FAILURE
  | Some _ => EXIT_OK
  end.

(** ** Definitions: the daemon until its loop ends *)

Section Run.
Context `{Inet} `{Idn} `{GListSort} `{IntOverflow}.
Context (junk : sockaddr_storage).

Definition told_to_quit (w : world) : bool :=
  existsb (λ a, match a with AQuit => true | _ => false end) (w_trace w).

(** The events the loop dispatches; the boolean: the loop was told to quit.  The
    sources that are ready in the same iteration are still dispatched. *)
Inductive daemon_run (cfg : dnsconfd_config_t) : fsm_context_t → bool → Prop :=
| run_starts : daemon_run cfg (initial_context cfg) false
| run_steps ctx quit event e w ctx' w' :
    daemon_run cfg ctx quit → event_ok event → w_trace w = [] →
    dispatch junk event ctx e w = Some (ctx', w') →
    daemon_run cfg ctx' (quit || told_to_quit w').

(** [dbus_server_run] returns [code]. *)
Definition dbus_server_run (cfg : dnsconfd_config_t) (code : Z) : Prop :=
  ∃ ctx, daemon_run cfg ctx true ∧ exit_code ctx = code.
End Run.

(** ** Definitions: the entry point *)

(** What the other programs answer. *)
Record peers := Peers {
  p_bus : bus;
  p_status : option string;
  p_reload : option string;
  p_fs_env : fs_env;
  p_fs : fs_state;
  p_log_opens : string → bool
}.

Inductive main_outcome :=
| MainExits (status : Z)
| MainRunsDaemon (config : dnsconfd_config_t) (log : logging_context_t)
| MainCrashes.

Section Main.
Context `{Inet} `{UriParser} `{Argp} `{ConfigFiles}.
Context (json_loads : string → option json) (json_dumps : json → option string).
Context (junk : sockaddr_storage).
Context (getenv : string → option string).

(** The command of the configuration; [MainCrashes] is undefined behaviour: the use
    of a null string or of an unwritten buffer, and the handler of the signals that
    [update] waits for. *)
Definition perform_command (p : peers) (config : dnsconfd_config_t) (options : command_options_t) :
    main_outcome :=
  match command config, options with
  | COMMAND_START, _ =>
      let r := initialize_logs (p_log_opens p) config initial_logging in
      if negb (r.2 =? 0)%Z then MainExits (exit_code_value EXIT_LOGS) else MainRunsDaemon config r.1
  | COMMAND_STATUS, status_options o =>
      MainExits (exit_code_value
        (cli_status_command json_loads json_dumps (bus_connected (p_bus p)) (p_status p) o).2)
  | COMMAND_RELOAD, _ =>
      MainExits (exit_code_value (cli_reload_command (bus_connected (p_bus p)) (p_reload p)))
  | COMMAND_CONFIG, config_options o =>
      match resolv_conf_path config with
      | Some path =>
          MainExits (exit_code_value (cli_config_command (co_action o) path (p_fs_env p) (p_fs p)).1)
      | None => MainCrashes
      end
  | COMMAND_UPDATE, update_options o =>
      match cli_update_command (p_bus p) o with
      | Some code => MainExits (exit_code_value code)
      | None => MainCrashes
      end
  | _, _ => MainCrashes
  end.

(** The error string is printed with [%s], which is undefined for a null one. *)
Definition main (p : peers) (argv : list string) : main_outcome :=
  match parse_configuration json_loads junk getenv argv with
  | ProcessExits z => MainExits z
  | ProcessCrashes => MainCrashes
  | ConfigurationError None => MainCrashes
  | ConfigurationError (Some _) => MainExits (exit_code_value EXIT_BAD_ARGUMENTS)
  | Configured config options => perform_command p config options
  end.
End Main.

(** ** Proofs *)

Section RunProofs.
Context `{InetLaws} `{Idn} `{GListSortLaws} `{IntOverflow} (junk : sockaddr_storage).

Lemma daemon_run_reaches cfg ctx quit : daemon_run junk cfg ctx quit → daemon_reaches junk cfg ctx.
Proof. induction 1; [constructor|by eapply daemon_steps]. Qed.

Lemma dbus_server_run_exits cfg code :
  config_wf cfg → sockaddr_typed junk → dbus_server_run junk cfg code →
  code ∈ exit_code_value <$> daemon_exits.
Proof.
  intros Hc Hj (ctx & Hr & <-).
  by destruct (daemon_reaches_inv junk cfg ctx Hc Hj (daemon_run_reaches _ _ _ Hr)) as [(_ & _ & _ & ?) _].
Qed.

(** What starting the daemon on a configuration promises. *)
Record daemon_sound (cfg : dnsconfd_config_t) : Prop := {
  ds_config : config_wf cfg;
  ds_progress ctx event e w : daemon_reaches junk cfg ctx → event_ok event →
    ∃ ctx' w', dispatch junk event ctx e w = Some (ctx', w') ∧
               life_step event (current_state ctx) (current_state ctx');
  ds_exits code : dbus_server_run junk cfg code → code ∈ exit_code_value <$> daemon_exits
}.

Lemma config_wf_daemon cfg : config_wf cfg → sockaddr_typed junk → daemon_sound cfg.
Proof.
  intros Hc Hj. split; [done| |by intros; eapply dbus_server_run_exits].
  intros ctx event e w Hr Hok. destruct (daemon_reaches_inv _ _ _ Hc Hj Hr) as [Hinv _].
  destruct (wp_exists _ _ _ _ (wp_dispatch e junk event ctx w Hinv Hj Hok))
    as (ctx' & w' & ? & _ & _ & ?). eauto.
Qed.
End RunProofs.

Section MainProofs.
Context `{InetLaws} `{UriParser} `{ArgpLaws} `{ConfigFilesLaws} `{Idn} `{GListSortLaws} `{IntOverflow}.
Context (json_loads : string → option json) (json_dumps : json → option string).
Context (junk : sockaddr_storage) (getenv : string → option string).

Definition client_exits : list exit_code_t :=
  [EXIT_OK; EXIT_BAD_ARGUMENTS; EXIT_LOGS; EXIT_COMMAND_FAILURE].

(** A signal comes while [dnsconfd update] waits for the serial. *)
Definition signal_while_waiting (b : bus) (u : update_command_options_t) : Prop :=
  ∃ dicts serial msg, build_servers_variant (uo_servers_uris u) = Some dicts ∧
    bus_connected b = true ∧ bus_update b dicts (mode_value (uo_mode u)) = Some (serial, msg) ∧
    serial ≠ 0%Z ∧ bus_serial b ≠ Some serial ∧ bus_signals b ≠ [].

Lemma cli_update_undefined b u :
  Forall server_wf (uo_servers_uris u) →
  cli_update_command b u = None ↔ signal_while_waiting b u.
Proof.
  intros Hu. destruct (cli_update_exit_wf b u Hu) as (dicts & Hd & ->). unfold wait_exit. split.
  - destruct (bus_update b dicts _) as [[serial msg]|] eqn:Eu; [|done].
    destruct (bus_connected b) eqn:Ec; [|done].
    destruct (Z.eqb_spec serial 0) as [|Hz]; [done|]. cbn [negb andb]. case_bool_decide; [done|].
    intros Hs. exists dicts, serial, msg. do 5 (split; [done|]). intros Hn. by rewrite Hn in Hs.
  - intros (dicts' & serial & msg & Hd' & Hc & Hu' & Hz & Hp & Hs). rewrite Hd in Hd'.
    apply (inj Some) in Hd' as <-. rewrite Hu', Hc, (proj2 (Z.eqb_neq _ _) Hz). cbn [negb andb].
    rewrite bool_decide_eq_false_2 by done. by destruct (bus_signals b).
Qed.

Lemma cli_update_known b u code :
  cli_update_command b u = Some code → code = EXIT_OK ∨ code = EXIT_COMMAND_FAILURE.
Proof.
  unfold cli_update_command. destruct (bus_connected b); [|intros [= <-]; by right].
  cbn [negb]. destruct (build_servers_variant _) as [dicts|]; [|done]. cbn [mbind option_bind].
  destruct (match bus_update _ _ _ with Some _ => _ | None => _ end) as [ctx|]; [|done].
  intros [= <-]. destruct (uc_success ctx); auto.
Qed.

Lemma perform_command_ok p config options :
  config_wf config → options_match (command config) options →
  match perform_command json_loads json_dumps p config options with
  | MainExits z => z ∈ exit_code_value <$> client_exits
  | MainRunsDaemon c log => c = config ∧ initialize_logs (p_log_opens p) c initial_logging = (log, 0%Z)
  | MainCrashes => command config = COMMAND_UPDATE ∧
      ∃ u, options = update_options u ∧ signal_while_waiting (p_bus p) u
  end.
Proof.
  intros Hc Ho. unfold perform_command. destruct (command config); cbn [options_match] in Ho.
  - destruct (initialize_logs _ _ _) as [log r] eqn:E. cbn [fst snd].
    destruct (Z.eqb_spec r 0) as [->|]; [done|known_exit].
  - destruct Ho as [s ->]. unfold cli_status_command.
    destruct (cli_call_simple_method _ _); [|known_exit]. destruct (so_json s); [known_exit|].
    destruct (print_status _ _ _). known_exit.
  - unfold cli_reload_command. by destruct (cli_call_simple_method _ _); known_exit.
  - destruct Ho as (o & -> & Ha). destruct (cw_resolv_conf _ Hc) as [path ->].
    destruct (config_exit (p_fs_env p) (co_action o) path (p_fs p) Ha) as [-> | ->]; known_exit.
  - destruct Ho as (u & -> & Hu).
    destruct (cli_update_command (p_bus p) u) as [code|] eqn:E.
    + by destruct (cli_update_known (p_bus p) u code E) as [-> | ->]; known_exit.
    + split; [done|]. exists u. split; [done|]. by apply cli_update_undefined.
Qed.

End MainProofs.

(** ** Proofs: the status *)

Section StatusProofs.
Context `{InetLaws} (e : env).
(** jansson: [json_text j] is [json_dumps(j, 0)]. *)
Context (json_loads : string → option json) (json_dumps : json → option string).
Context (json_text : json → string).

(** Objects and arrays are printed. *)
Definition dumps_containers : Prop :=
  (∀ members, is_Some (json_dumps (JObject members))) ∧ ∀ l, is_Some (json_dumps (JArray l)).

(** What is printed of a context. *)
Definition status_text (ctx : fsm_context_t) (cache_text servers_text : string) : string :=
  "Running cache service:" +:+ lf +:+ "unbound" +:+ lf
  +:+ "Resolving mode: " +:+ dnsconfd_mode_t_to_string (resolution_mode ctx) +:+ lf
  +:+ "Config present in service:" +:+ lf +:+ cache_text +:+ lf
  +:+ "State of Dnsconfd:" +:+ lf +:+ fsm_state_t_to_string (current_state ctx) +:+ lf
  +:+ "Info about servers: " +:+ servers_text +:+ lf.

(** C19: [dnsconfd status] prints the state of the daemon: when jansson reads back
    the text it wrote for the answer and can print objects and arrays, the command
    succeeds and prints, in this order, the service, the mode, the URIs of the
    servers in use for each domain the cache was configured with, the state and all
    servers; answering changes nothing in the daemon. *)
Theorem status_printed (ctx : fsm_context_t) (w : world) :
  fsm_inv ctx → dumps_containers →
  (∀ j w', handle_status_call ctx e w = Some (j, w') → json_loads (json_text j) = Some j) →
  wp (handle_status_call ctx) e w (λ j w', only_clock w w' ∧
    ∃ members servers cache_text servers_text,
      cache_object (current_unbound_domain_to_servers ctx) members ∧
      mapM server_uri_to_json (all_servers ctx) = Some servers ∧
      json_dumps (JObject members) = Some cache_text ∧
      json_dumps (JArray servers) = Some servers_text ∧
      cli_status_command json_loads json_dumps true (Some (json_text j)) (StatusOptions false)
      = (status_text ctx cache_text servers_text, EXIT_OK)).
Proof.
  intros Hi [Hobj Harr] Hloads.
  eapply wp_mono; [apply (wp_wlp _ _ _ _ _ (status_call_wp e ctx w Hi) Hloads)|].
  cbv beta. intros j w' [(Hw & members & servers & -> & Hc & Hs) Hj]. split; [done|].
  destruct (Hobj members) as [ct Hct], (Harr servers) as [st Hst].
  exists members, servers, ct, st. do 4 (split; [done|]).
  unfold cli_status_command, cli_call_simple_method, print_status. cbn [so_json]. rewrite Hj.
  unfold print_json, print_string. set (root := JObject _).
  change (object_member root "cache_config") with (Some (JObject members)).
  change (object_member root "servers") with (Some (JArray servers)).
  change (object_member root "service") with (Some (JString "unbound")).
  change (object_member root "mode")
    with (Some (JString (dnsconfd_mode_t_to_string (resolution_mode ctx)))).
  change (object_member root "state")
    with (Some (JString (fsm_state_t_to_string (current_state ctx)))).
  cbv iota. rewrite Hct, Hst. cbn [mbind option_bind default json_string_value from_option].
  change (0 =? 0)%Z with true. cbv iota. f_equal. unfold status_text. by text_eq.
Qed.
End StatusProofs.

(** ** Examples *)

(** No system call succeeds. *)
Definition failing_env : env :=
  Env (λ _, false) (λ _ _, SpawnFailed) (λ _ _, false) (λ _ _, false) (λ _, "") (λ _, reference_order).

Definition after_kickoff : option (fsm_context_t * world) :=
  dispatch sockaddr_zero DNameAcquired (initial_context ex_config) failing_env ex_world.

(** The daemon that cannot write its configuration stops with status 0. *)
Lemma configuration_failure_status :
  dbus_server_run sockaddr_zero ex_config 0.
Proof.
  destruct after_kickoff as [[ctx w]|] eqn:E; [|by vm_compute in E].
  exists ctx. split; [|by vm_compute in E; simplify_eq].
  assert (false || told_to_quit w = true) as <- by (by vm_compute in E; simplify_eq).
  by eapply (run_steps _ _ _ _ DNameAcquired failing_env ex_world); [constructor| | |].
Qed.

Definition example_peers : peers :=
  Peers ex_bus None (Some "Reload accepted") example_fs_env example_fs (λ _, true).

Definition start_argv : list string := ["dnsconfd"; "--config-file"; "/etc/main.conf"].

(** A jansson that knows one text. *)
Definition ex_status : json :=
  match handle_status_call ex_running ex_env ex_world with Some (j, _) => j | None => JNull end.

Theorem status_printed_witness :
  wp (handle_status_call ex_running) ex_env ex_world (λ j w', ∃ cache_text servers_text,
    cli_status_command (λ _, Some ex_status) (λ _, Some "{}") true (Some "status")
      (StatusOptions false) = (status_text ex_running cache_text servers_text, EXIT_OK)).
Proof.
  eapply wp_mono.
  - apply (status_printed ex_env (λ _, Some ex_status) (λ _, Some "{}") (λ _, "status") ex_running
      ex_world).
    + apply ex_running_inv.
    + split; intros; eexists; reflexivity.
    + intros j w' Hr. unfold ex_status. by rewrite Hr.
  - intros j w' (_ & members & servers & ct & st & _ & _ & _ & _ & Hprint).
    exists ct, st. exact Hprint.
Defined.

